(* ===== verification/_CoqProject ===== *)
-Q . S2P
Prelude.v
GoStrings.v
GoErrors.v
Prog.v
Api.v
Scheme.v
Values.v
GoUrl.v
GoConv.v
GoJson.v
GoJsonProofs.v
World.v
Resources.v
Settings.v
ParseReference.v
ParseReferenceProofs.v
Utils.v
TopologyReconciler.v
Traces.v
ReconcilerProofs.v
ReconcilerTheorems.v
Controllers.v
PermissionControllers.v
Random.v
UserController.v
ControllerProofs.v
ControllerTheorems.v
Webhooks.v
WebhookProofs.v
NoPanic.v
SuperStreams.v
SuperStreamProofs.v
SettingsProofs.v
GoRegexp.v
GoFlag.v
Setup.v
SetupProofs.v
Vault.v
VaultProofs.v
Broker.v
Lifecycle.v
LifecycleKinds.v
Faults.v
FaultKinds.v
Topology.v
Teardown.v
Bounds.v
Memory.v
DeepCopy.v
DeepCopyProofs.v
StreamAdmission.v
Instances.v
Servers.v
SecretWatch.v
PermissionDeletion.v
Rest.v
Clientset.v
ClientStore.v
Listers.v
Informers.v
InformerProofs.v
CacheReads.v
FakeClients.v
FakeBroker.v
FakeBrokerProofs.v
ClientServer.v
StreamLifecycle.v
Wiring.v
WiringProofs.v
WebhookConfig.v
Rbac.v
Witnesses.v
SystemWitnesses.v
TopologyWitnesses.v
