(* ===== verification/Prelude.v ===== *)
(** * A verification library for the RabbitMQ messaging topology operator

    The operator keeps the topology of RabbitMQ clusters (queues, exchanges,
    bindings, users, permissions, policies, vhosts, federations, shovels, schema
    replications, super streams) equal to custom resources of Kubernetes.  This
    library translates its Go code into Rocq functions and proves what the code
    promises.  Paths below are relative to the repository.

    ** The program and its model

    - The Go runtime and standard library, as far as the operator uses them:
      GoStrings.v (strings, strconv, base64), GoErrors.v (error chains and
      [errors.Is]), GoUrl.v (net/url), GoConv.v (numbers, booleans, durations,
      trimming), GoJson.v (encoding/json into a map), GoRegexp.v (regexp), GoFlag.v
      (flag), Values.v (the type [any], [reflect.DeepEqual], [maps.Equal]).
    - Prog.v: a Go function with effects is a value of [prog]: a tree of calls to
      the outside whose answers are unknown.  [exec] gives all its executions with
      their traces, [wp] the weakest precondition over them, [run] one execution
      against a stateful environment.  A panic is an outcome.
    - World.v: the calls of the operator (Kubernetes API, management API of the
      broker, recorder, clock, random source, secret store).  Class [Libs] holds
      the functions of third-party packages and [LibsOk] what their documentation
      promises; Instances.v implements both.
    - api/: Api.v (the objects, field by field), Resources.v (conditions, cluster
      references, the interface TopologyResource as a class with laws).  In these
      files a value has no address; Memory.v has a heap with pointers and slices,
      and DeepCopy.v the generated deep copies (zz_generated.deepcopy.go) on it.
    - internal/*.go: Settings.v and Random.v, the bodies that are sent to the
      broker.
    - rabbitmqclient/: ParseReference.v (cluster_reference.go and the client
      factory), Vault.v (vault_reader.go, its renewal goroutine as a step relation
      and sync.Once as a state).
    - internal/controller/: Utils.v (utils.go, common.go), TopologyReconciler.v
      (topology_controller.go, reconcile_func.go, the watch on clusters),
      Controllers.v, PermissionControllers.v, UserController.v (one file per kind
      in the source) and SuperStreams.v (with internal/managedresource).
    - internal/webhook/: Webhooks.v, the validators of all kinds and the
      defaulter of queues.
    - cmd/main.go: Setup.v, from the command line and the environment of the
      process to the options of the manager and its servers and to the registered
      controllers and webhooks; Scheme.v, the group versions of api/ and the
      schemes of the operator and of the generated clients; Wiring.v,
      SetupWithManager of the controllers and the set-up of the webhooks, which
      [runtimeOf] puts under [main].
    - The installation: Rbac.v (the rbac markers of the controllers and
      config/rbac/role.yaml) and WebhookConfig.v (the webhook markers and
      config/webhook/manifests.yaml).
    - pkg/generated: Rest.v (the requests of client-go's REST client), Clientset.v
      (typed clients, group clients, clientset.go), Listers.v, Informers.v (the
      shared factory on a heap, the informers of all kinds, ForResource) and
      FakeClients.v.  The files of one template differ in their names only, so a
      template is defined once, after the files of queues, and each file is an
      instance of it.
    - rabbitmqclient/rabbitmqclientfakes: FakeBroker.v, the doubles that
      counterfeiter generates, again one template and an instance per method.

    The reconciler calls a kind through the Go interface ReconcileFunc.  Here that
    is the class [ReconcileFunc], and [ReconcileFuncOk] states what a kind promises
    (which calls it may make, when its deletion is complete); the theorems about
    the reconciler use only these laws, and ControllerProofs.v proves the laws for
    the twelve kinds.

    ** What is proved

    - ReconcilerProofs.v, ReconcilerTheorems.v: finalizers go only after the broker
      confirmed the deletion or the cluster is gone, and are there before the
      broker is called; the broker is called with the credentials and at the
      address of a cluster that allows the namespace; the outcome is published;
      every error of the cluster reference has its documented effect; the watch on
      clusters selects exactly the referring objects.
    - Broker.v, Lifecycle.v, LifecycleKinds.v: the abstract specification of the
      operator.  An API stores the objects of all kinds; a broker maps keys (a
      vhost, a queue of a vhost, a binding, the limits of a vhost, ...) to what was
      put there, refuses what lacks something it needs, and deletes with a vhost,
      queue, exchange or user all that depends on it.  A spec denotes a [Goal]: what
      to put under which key, what it needs there, which limits it wants.  Reconcile
      refines it: one run of a live object meets its goal, a second run changes
      nothing, the run of a deleted object clears its key and lets the object go.
      Class [OnBroker] is what a kind owes for this; eleven kinds have instances.
    - Faults.v, FaultKinds.v: the same specification when calls fail, when a call is
      carried out but its answer is lost, and when others change the rest of the
      store and the broker in between: n faults cost at most n reconciliations.
      Class [DeclaresUnderFaults] is the share of a kind, for the same eleven.
    - Topology.v, Teardown.v: many objects on one broker.  Objects that need each
      other (a binding its queue, a queue its vhost) are all declared after as many
      rounds as the chains of needs are long, in whatever order a round takes them.
      Objects that are being deleted are all gone after one reconciliation of each,
      in any order, whatever went before with what contained it.  Left
      out there are queues that must be unused or empty, whose deletion depends on
      what is in them; bindings with arguments whose virtual host goes too, because
      such a binding is not let go when the broker has lost its virtual host
      ([orphaned_binding_stays]); and permissions, whose deletion is the subject of
      PermissionDeletion.v.
    - In all these the clock tells any time: that conditions keep their transition
      time is part of what is proved.  The cluster, its service and its secret stay
      as they are read.  Servers.v has a store, a broker and a clock that obey the
      laws these theorems assume.
    - Bounds.v: a reconciliation makes a bounded number of calls.
    - ControllerTheorems.v: users are recorded before they are put, queues are
      deleted only when their guards hold, limits converge on a broker that stores
      them, declarations say what the spec says.
    - NoPanic.v: reconciliations return, whatever the environment answers, for
      objects that the API server can hand out.  PermissionDeletion.v: why the
      deletion of a permission ends with an error.
    - WebhookProofs.v: what is admitted keeps its identity on the broker, and the
      exact conditions of the subtler validators, with the inputs on which they
      panic or block.  SecretWatch.v: which users a changed secret concerns.
    - SuperStreamProofs.v: children are wired together, distinct, ordered by an
      argument that the broker decodes to the partition's index, applied in order
      and never removed by a scale-down.  StreamAdmission.v puts the builders and
      the webhooks together: an admitted update of a super stream leads to no write
      that the webhooks of its children reject.
    - ParseReferenceProofs.v, VaultProofs.v: resolution of references, credentials
      from secrets and from Vault, the life cycle of the Vault token.
    - SettingsProofs.v, GoJsonProofs.v, SetupProofs.v: random names, conditions,
      widths of integers, the environment of the process, the command line and the
      servers it configures.
    - DeepCopyProofs.v: every generated copy has the content of the original and
      shares no memory with it.
    - StreamLifecycle.v: against a server that stores objects, one reconciliation of
      a super stream repairs its children whatever became of them, and a second one
      changes nothing.
    - WiringProofs.v: what reaches a controller.  One controller per kind, and
      changes of objects, of children of super streams, of generated secrets and of
      clusters enqueue what depends on them.  WebhookConfig.v: every create and
      update is checked by exactly the validator of its kind.  Rbac.v: no call of a
      controller, a watch or a webhook is forbidden.  Scheme.v: every kind is known.
      These four start from a successful [main] (or its [init]).
    - ClientStore.v: the generated clients refine a store of objects; InformerProofs.v:
      a factory shares one informer per type and runs it once; CacheReads.v: clients,
      informers and listers together give back what the server holds; FakeClients.v:
      the fakes ask what the clients ask.  ClientServer.v has a server, a cache and a
      scheme in memory that obey the laws assumed of the libraries.
    - FakeBrokerProofs.v: a test double is a log of its calls.
    - Witnesses.v, SystemWitnesses.v and TopologyWitnesses.v apply each theorem with
      hypotheses to a concrete run.

    ** Bounds and fuel

    Programs are finite trees, so they terminate by construction; the goroutine of
    Vault.v, which does not end, is a step relation.  The JSON decoder takes twice
    the length of the text as fuel and [parse_value_fuel] shows that more fuel
    gives the same result.  RetryOnConflict runs its function at most five times,
    the steps of retry.DefaultRetry; only Bounds.v depends on the number.  Integers are [Z], with the
    conversions [int32_of] and [int64_of] where the code narrows or multiplies.

    ** What is not modelled

    The helpers of the test suites (src/test/utils, src/internal/testutils), which
    run commands and write certificates; log output; what controller-runtime does
    with the options of main and with a completed builder beyond the documented
    behaviour that the classes of Wiring.v and WebhookConfig.v state; HTTP, backoff
    and decoding in client-go, the shared informer behind its list and watch
    functions, and GenericLister; the mutexes of the factory and of the doubles,
    whose operations are atomic here; the HTTP transport of the broker client.  The wording of errors of the
    libraries and the malformed URLs that url.Parse refuses are parameters, because
    both change between versions of Go and the packages; the ini parser that reads
    the additional configuration of a cluster is one too.  Deep copies see a slice
    as a cell with its elements, so slices that overlap in one array do not occur.

    Users are not among the kinds of [OnBroker].  Their name and password may be
    drawn at random and the hash that is put is salted, so two runs put different
    bodies; UserController.v models them, and ControllerTheorems.v, SecretWatch.v and
    Instances.v hold what is proved of them.  Permissions are there when they name
    their user, not when they refer to a User object.  In Topology.v and Teardown.v
    reconciliations follow each other; within one, Faults.v lets others act between
    any two calls. *)

From stdpp Require Export base tactics list gmap strings sets.
From Stdlib Require Export ZArith Lia.

#[export] Set Default Goal Selector "!".

(** ** Notation scope and hint databases of the development *)

Declare Scope go_scope.
Delimit Scope go_scope with go.

(** Facts that close the routine side conditions of the components. *)
Create HintDb topology discriminated.
(** Rewrite rules of the Go runtime model (strings, errors, programs). *)
Create Rewrite HintDb gort.

(** ** Tactics *)

(** Turn boolean tests of hypotheses into propositions. *)
Ltac bool_hyps :=
  repeat match goal with
  | H : andb _ _ = true |- _ => apply andb_true_iff in H as [? ?]
  | H : orb _ _ = false |- _ => apply orb_false_iff in H as [? ?]
  | H : negb _ = true |- _ => apply negb_true_iff in H
  | H : negb _ = false |- _ => apply negb_false_iff in H
  | H : bool_decide _ = true |- _ => apply bool_decide_eq_true in H
  | H : bool_decide _ = false |- _ => apply bool_decide_eq_false in H
  end.

(** Split every [match]/[if] of the goal, closing the absurd branches. *)
Ltac split_matches :=
  repeat (case_match; simplify_eq/=; try done).

(** ** Options *)

(** Go's [ptr.Deref(p, def)] from k8s.io/utils/ptr is documented as "Deref
    dereferences ptr and returns the value it points to if no nil, or else
    returns def". *)
Definition deref {A} (p : option A) (def : A) : A :=
  match p with Some x => x | None => def end.

(** ** Lists *)

Section lists.
Context {A : Type}.
Implicit Types l : list A.

Lemma last_match_app (P : A -> bool) l1 l2 :
  List.find P (rev (l1 ++ l2)) =
  match List.find P (rev l2) with
  | Some x => Some x
  | None => List.find P (rev l1)
  end.
Proof.
  rewrite rev_app_distr. induction (rev l2) as [|y l IH]; [done|].
  simpl. by destruct (P y).
Qed.

Lemma NoDup_imap_inj {B} (f : nat -> A -> B) l :
  (forall i j x y, l !! i = Some x -> l !! j = Some y -> f i x = f j y -> i = j) ->
  NoDup (imap f l).
Proof.
  intros Hinj. apply NoDup_alt. intros i j z Hi Hj.
  rewrite list_lookup_imap in Hi, Hj.
  destruct (l !! i) as [x|] eqn:Ei; simplify_eq/=.
  destruct (l !! j) as [y|] eqn:Ej; simplify_eq/=.
  eapply Hinj; [exact Ei|exact Ej|congruence].
Qed.
End lists.
