(* ===== verification/GoStrings.v ===== *)
(** * Go strings

    The functions of Go's packages [strings], [strconv] and [encoding/base64]
    that the operator calls, on byte strings ([String.string]: a Go string is
    a sequence of bytes).  Separators and replaced texts are single bytes in
    every call of the operator, so they are [ascii] here. *)

From S2P Require Import Prelude.
From stdpp Require Import pretty.
From Stdlib Require Import Ascii.

Local Open Scope string_scope.

(** stdpp keeps [String.append] folded; the model computes with it. *)
#[global] Arguments String.append : simpl nomatch.

(** [strings.HasPrefix(s, p)] *)
Definition HasPrefix (s p : string) : bool := String.prefix p s.

(** [strings.TrimPrefix(s, p)] *)
Fixpoint drop_bytes (n : nat) (s : string) : string :=
  match n, s with
  | S n, String _ s => drop_bytes n s
  | _, _ => s
  end.

Definition TrimPrefix (s p : string) : string :=
  if HasPrefix s p then drop_bytes (String.length p) s else s.

(** [strings.Split(s, sep)] for a one-byte separator: never empty. *)
Fixpoint Split (s : string) (sep : ascii) : list string :=
  match s with
  | "" => [""]
  | String c s' =>
      if Ascii.eqb c sep then "" :: Split s' sep
      else match Split s' sep with
           | [] => [String c ""]
           | w :: ws => String c w :: ws
           end
  end.

(** [strings.Join(l, sep)] *)
Fixpoint Join (l : list string) (sep : ascii) : string :=
  match l with
  | [] => ""
  | [w] => w
  | w :: ws => w +:+ String sep (Join ws sep)
  end.

(** [strings.ReplaceAll(s, old, new)] for a one-byte [old]. *)
Fixpoint ReplaceAll (s : string) (old : ascii) (new : string) : string :=
  match s with
  | "" => ""
  | String c s' =>
      (if Ascii.eqb c old then new else String c "") +:+ ReplaceAll s' old new
  end.

(** Whether a byte occurs in a string. *)
Fixpoint contains (s : string) (c : ascii) : bool :=
  match s with
  | "" => false
  | String d s' => Ascii.eqb d c || contains s' c
  end.

(** [strings.ToLower] on ASCII text: the operator lowers Kubernetes kinds,
    which are ASCII; bytes from 128 up are left alone. *)
Definition lower_byte (c : ascii) : ascii :=
  let n := nat_of_ascii c in
  if Nat.leb 65 n && Nat.leb n 90 then ascii_of_nat (n + 32) else c.

Fixpoint ToLower (s : string) : string :=
  match s with
  | "" => ""
  | String c s' => String (lower_byte c) (ToLower s')
  end.

(** [strconv.Itoa] and the verb [%d]: decimal with a leading minus sign. *)
Definition Itoa (z : Z) : string := pretty z.

(** The verb [%q] on strings without bytes that need escaping: the operator
    quotes names of Kubernetes objects and RabbitMQ users with it. *)
Definition dquote : string := String "034" "".
Definition quoted (s : string) : string := dquote +:+ s +:+ dquote.

(** ** Facts *)

Lemma string_app_assoc (a b c : string) : (a +:+ b) +:+ c = a +:+ (b +:+ c).
Proof. induction a as [|x a IH]; simpl; [done|]. f_equal. exact IH. Qed.

Lemma string_app_nil_r (a : string) : a +:+ "" = a.
Proof. induction a as [|x a IH]; simpl; [done|]. f_equal. exact IH. Qed.

Lemma string_app_inj_l (a b c : string) : a +:+ b = a +:+ c -> b = c.
Proof. induction a as [|x a IH]; simpl; [done|]. intros [=]. by apply IH. Qed.

Lemma string_app_empty (a b : string) : a +:+ b = "" -> a = "" /\ b = "".
Proof. by destruct a. Qed.

#[export] Hint Rewrite string_app_assoc string_app_nil_r : gort.

Lemma HasPrefix_app (p s : string) : HasPrefix (p +:+ s) p = true.
Proof.
  unfold HasPrefix. induction p as [|c p IH]; simpl; [by destruct s|].
  by destruct (ascii_dec c c).
Qed.

Lemma HasPrefix_true (s p : string) : HasPrefix s p = true <-> exists t, s = p +:+ t.
Proof.
  split; [|intros [t ->]; apply HasPrefix_app].
  unfold HasPrefix. revert s. induction p as [|c p IH]; intros s H; [by exists s|].
  destruct s as [|d s]; simpl in *; [done|].
  destruct (ascii_dec c d) as [->|]; [|done].
  apply IH in H as [t ->]. by exists t.
Qed.

Lemma drop_bytes_app (p s : string) : drop_bytes (String.length p) (p +:+ s) = s.
Proof. induction p as [|c p IH]; [by destruct s|done]. Qed.

Lemma TrimPrefix_app (p s : string) : TrimPrefix (p +:+ s) p = s.
Proof. unfold TrimPrefix. by rewrite HasPrefix_app, drop_bytes_app. Qed.

Lemma Split_nonempty s sep : Split s sep <> [].
Proof. destruct s as [|c s]; simpl; [done|]. by repeat case_match. Qed.

Lemma Join_cons w ws sep :
  ws <> [] -> Join (w :: ws) sep = w +:+ String sep (Join ws sep).
Proof. by destruct ws. Qed.

(** Splitting loses nothing: joining the parts gives the input back. *)
Lemma Join_Split s sep : Join (Split s sep) sep = s.
Proof.
  induction s as [|c s IH]; simpl; [done|].
  pose proof (Split_nonempty s sep) as Hne.
  destruct (Ascii.eqb_spec c sep) as [->|Hc].
  - rewrite Join_cons by done. by rewrite IH.
  - destruct (Split s sep) as [|w ws]; [done|].
    destruct ws as [|w' ws]; simpl in *; by rewrite <- IH.
Qed.

(** No part of a split contains the separator. *)
Lemma Split_no_sep s sep : Forall (fun w => contains w sep = false) (Split s sep).
Proof.
  induction s as [|c s IH]; simpl; [by repeat constructor|].
  destruct (Ascii.eqb c sep) eqn:E; [by constructor|].
  destruct (Split s sep) as [|w ws]; [by repeat constructor; simpl; rewrite E|].
  inv IH. constructor; [simpl; by rewrite E|done].
Qed.

Lemma contains_app s t c : contains (s +:+ t) c = contains s c || contains t c.
Proof. induction s as [|d s IH]; simpl; [done|]. by rewrite IH, orb_assoc. Qed.

Lemma Split_app_sep w t sep :
  contains w sep = false -> Split (w +:+ String sep t) sep = w :: Split t sep.
Proof.
  induction w as [|c w IH]; simpl; [by rewrite Ascii.eqb_refl|].
  intros [H1 H2]%orb_false_iff. by rewrite H1, IH.
Qed.

Lemma Split_no_sep_id w sep : contains w sep = false -> Split w sep = [w].
Proof.
  induction w as [|c w IH]; simpl; [done|].
  intros [H1 H2]%orb_false_iff. by rewrite H1, IH.
Qed.

(** Joining words without the separator and splitting gives them back. *)
Lemma Split_Join l sep :
  l <> [] -> Forall (fun w => contains w sep = false) l -> Split (Join l sep) sep = l.
Proof.
  intros Hne Hl. induction Hl as [|w ws Hw Hws IH]; [done|].
  destruct ws as [|w' ws]; [by apply Split_no_sep_id|].
  rewrite Join_cons by done. by rewrite Split_app_sep, IH.
Qed.

Lemma ReplaceAll_contains s old new :
  contains new old = false -> contains (ReplaceAll s old new) old = false.
Proof.
  intros Hnew. induction s as [|c s IH]; simpl; [done|].
  rewrite contains_app, IH, orb_false_r.
  destruct (Ascii.eqb c old) eqn:E; simpl; [done|by rewrite E].
Qed.

Lemma ReplaceAll_id s old new : contains s old = false -> ReplaceAll s old new = s.
Proof.
  induction s as [|c s IH]; simpl; [done|].
  intros [H1 H2]%orb_false_iff. by rewrite H1, IH.
Qed.

Lemma ReplaceAll_empty s old new : new <> "" -> ReplaceAll s old new = "" -> s = "".
Proof.
  intros Hnew. destruct s as [|c s]; simpl; [done|].
  intros [H _]%string_app_empty. by destruct (Ascii.eqb c old).
Qed.

Lemma Itoa_inj z z' : Itoa z = Itoa z' -> z = z'.
Proof. apply (inj pretty). Qed.

#[export] Hint Resolve HasPrefix_app TrimPrefix_app Split_nonempty Split_no_sep : topology.
