(* ===== verification/GoErrors.v ===== *)
(** * Go errors

    Error values as the operator builds and inspects them.  An error is a
    sentinel ([errors.New] kept in a package variable), an error with only a
    text, an error that wraps another one ([fmt.Errorf] with [%w]), or an error
    of one of the libraries.  [errors_Is] is [errors.Is]: it walks the chain. *)

From S2P Require Import Prelude.
From S2P Require Import GoStrings.
From Stdlib Require Import Ascii.

(** ** Errors of the Kubernetes API (package apierrors): a reason, a message *)

Inductive StatusReason :=
| StatusReasonNotFound
| StatusReasonConflict
| StatusReasonOther (reason : string).

#[export] Instance StatusReason_eq_dec : EqDecision StatusReason.
Proof. solve_decision. Defined.

Record api_error := mkApiError { api_reason : StatusReason; api_message : string }.

#[export] Instance api_error_eq_dec : EqDecision api_error.
Proof. solve_decision. Defined.

(** [apierrors.IsNotFound] and [apierrors.IsConflict] look at the reason. *)
Definition IsNotFound (e : api_error) : bool :=
  bool_decide (api_reason e = StatusReasonNotFound).
Definition IsConflict (e : api_error) : bool :=
  bool_decide (api_reason e = StatusReasonConflict).

(** ** Errors of the RabbitMQ HTTP client (rabbithole): an error response, or
    a transport error *)

Record ErrorResponse := mkErrorResponse {
  StatusCode : Z;
  Message : string;
  Reason : string
}.

#[export] Instance ErrorResponse_eq_dec : EqDecision ErrorResponse.
Proof. solve_decision. Defined.

(** The text of [rabbithole.ErrorResponse.Error()] is not under src/: the
    library is a parameter wherever the text matters. *)
Inductive rmq_error :=
| RmqErrorResponse (r : ErrorResponse)
| RmqTransport (text : string).

#[export] Instance rmq_error_eq_dec : EqDecision rmq_error.
Proof. solve_decision. Defined.

(** ** Error values *)

Inductive error :=
  (* rabbitmqclient/cluster_reference.go, lines 32 to 37 *)
| ErrNoSuchRabbitmqCluster
| ErrResourceNotAllowed
| ErrNoServiceReferenceSet
| ErrClusterScaledToZero
  (* internal/controller/utils.go, ErrNotFound *)
| ErrNotFound
  (* errors.New or fmt.Errorf without %w *)
| ErrText (text : string)
  (* fmt.Errorf with %w: the whole text, and the wrapped error *)
| ErrWrap (text : string) (inner : error)
  (* internal/controller/utils.go, rabbitmqAPIError *)
| ErrRabbitmqAPI (statusCode : Z) (body : string)
  (* errors of the Kubernetes client and of the RabbitMQ client *)
| ErrAPI (e : api_error)
| ErrRmq (e : rmq_error).

#[export] Instance error_eq_dec : EqDecision error.
Proof. solve_decision. Defined.

(** [err.Error()]; [errtext] gives the texts of the errors of the libraries. *)
Definition Error (errtext : ErrorResponse -> string) (e : error) : string :=
  match e with
  | ErrNoSuchRabbitmqCluster => "RabbitmqCluster object does not exist"
  | ErrResourceNotAllowed =>
      "resource is not allowed to reference defined cluster reference. Check the namespace of the resource is allowed as part of the cluster's `rabbitmq.com/topology-allowed-namespaces` annotation"
  | ErrNoServiceReferenceSet =>
      "RabbitmqCluster has no ServiceReference set in status.defaultUser"
  | ErrClusterScaledToZero => "RabbitmqCluster is scaled to zero replicas"
  | ErrNotFound => "not found"
  | ErrText t => t
  | ErrWrap t _ => t
  | ErrRabbitmqAPI c _ =>
      "RabbitMQ management API request failed with status code " +:+ Itoa c
  | ErrAPI e => api_message e
  | ErrRmq (RmqErrorResponse r) => errtext r
  | ErrRmq (RmqTransport t) => t
  end.

(** [errors.Is(err, target)] for a comparable target that has no [Is] method:
    the error itself or one it wraps equals the target. *)
Fixpoint errors_Is (e target : error) : bool :=
  bool_decide (e = target) ||
  match e with
  | ErrWrap _ inner => errors_Is inner target
  | _ => false
  end.

(** [errors.Is] on a possibly nil error. *)
Definition is_err (e : option error) (target : error) : bool :=
  match e with Some e => errors_Is e target | None => false end.

Lemma errors_Is_refl e : errors_Is e e = true.
Proof. destruct e; cbn [errors_Is]; rewrite bool_decide_eq_true_2; done. Qed.

(** A target that wraps nothing is found in a wrapped error exactly when it is
    found in what is wrapped. *)
Lemma errors_Is_wrap t inner target :
  (forall t' e', target <> ErrWrap t' e') ->
  errors_Is (ErrWrap t inner) target = errors_Is inner target.
Proof. intros H. cbn [errors_Is]. rewrite bool_decide_eq_false_2; [done|]. naive_solver. Qed.

#[export] Hint Resolve errors_Is_refl : topology.
#[export] Hint Rewrite errors_Is_refl : gort.
