(* ===== verification/Prog.v ===== *)
(** * Programs that talk to the outside world

    The reconcilers only call out: to the Kubernetes API, to the RabbitMQ
    management API, to the event recorder, to the clock.  A Go function that
    does so is a value of [prog A]: it returns, it panics, or it performs an
    [action] and goes on with the answer.  The type is inductive, so every
    program of the development terminates, whatever the answers are.

    [exec p tr o] is the set of executions of [p] under arbitrary answers (the
    trace [tr] records each action with its answer); [wp p Q] is the weakest
    precondition of [Q] over all of them, which computes; [run h p s] is the
    execution against one environment [h] with a state of its own. *)

From S2P Require Import Prelude.
From Stdlib Require Import FunctionalExtensionality.

Section prog.
Context {action : Type} {result : action -> Type}.

Inductive prog (A : Type) : Type :=
| Ret (x : A)
| Act (a : action) (k : result a -> prog A)
| Panic (why : string).
Arguments Ret {A} x.
Arguments Act {A} a k.
Arguments Panic {A} why.

Fixpoint bind {A B} (p : prog A) (f : A -> prog B) : prog B :=
  match p with
  | Ret x => f x
  | Act a k => Act a (fun r => bind (k r) f)
  | Panic w => Panic w
  end.

Definition act (a : action) : prog (result a) := Act a Ret.

Lemma bind_assoc {A B C} (p : prog A) (f : A -> prog B) (g : B -> prog C) :
  bind (bind p f) g = bind p (fun x => bind (f x) g).
Proof.
  induction p as [x|a k IH|w]; simpl; [done| |done].
  f_equal. apply functional_extensionality. exact IH.
Qed.

Lemma bind_ret_r {A} (p : prog A) : bind p Ret = p.
Proof.
  induction p as [x|a k IH|w]; simpl; [done| |done].
  f_equal. apply functional_extensionality. exact IH.
Qed.

(** ** Executions *)

Inductive outcome (A : Type) : Type :=
| Returned (x : A)
| Panicked (why : string).
Arguments Returned {A} x.
Arguments Panicked {A} why.

Definition event : Type := { a : action & result a }.
Definition trace : Type := list event.

(** The actions of a trace, without their answers. *)
Definition calls (tr : trace) : list action := map (@projT1 _ _) tr.

(** By recursion on the program, so that no dependent inversion is needed. *)
Fixpoint exec {A} (p : prog A) (tr : trace) (o : outcome A) : Prop :=
  match p with
  | Ret x => tr = [] /\ o = Returned x
  | Panic w => tr = [] /\ o = Panicked w
  | Act a k => exists r tr', tr = existT a r :: tr' /\ exec (k r) tr' o
  end.

(** ** Weakest preconditions *)

Fixpoint wp {A} (p : prog A) (Q : trace -> outcome A -> Prop) : Prop :=
  match p with
  | Ret x => Q [] (Returned x)
  | Panic w => Q [] (Panicked w)
  | Act a k => forall r, wp (k r) (fun tr o => Q (existT a r :: tr) o)
  end.

Lemma wp_exec {A} (p : prog A) Q :
  wp p Q <-> forall tr o, exec p tr o -> Q tr o.
Proof.
  revert Q. induction p as [x|a k IH|w]; intros Q; simpl; split; intros H.
  - by intros tr o [-> ->].
  - by apply H.
  - intros tr o (r & tr' & -> & Hx). 
    exact (proj1 (IH r _) (H r) tr' o Hx).
  - intros r. apply IH. intros tr o Hx. apply H. eauto.
  - by intros tr o [-> ->].
  - by apply H.
Qed.

Lemma wp_mono {A} (p : prog A) (Q Q' : trace -> outcome A -> Prop) :
  wp p Q -> (forall tr o, Q tr o -> Q' tr o) -> wp p Q'.
Proof. rewrite !wp_exec. intros H HQ tr o Hx. by apply HQ, H. Qed.

Lemma wp_and {A} (p : prog A) (Q Q' : trace -> outcome A -> Prop) :
  wp p Q -> wp p Q' -> wp p (fun tr o => Q tr o /\ Q' tr o).
Proof. rewrite !wp_exec. intros H1 H2 tr o Hx. split; eauto. Qed.

Lemma wp_bind {A B} (p : prog A) (f : A -> prog B) Q :
  wp (bind p f) Q <->
  wp p (fun tr o =>
    match o with
    | Returned x => wp (f x) (fun tr' o' => Q (tr ++ tr') o')
    | Panicked w => Q tr (Panicked w)
    end).
Proof.
  revert Q. induction p as [x|a k IH|w]; intros Q; simpl; [done| |done].
  split; intros H r; apply (IH r (fun tr o => Q (existT a r :: tr) o)), H.
Qed.

(** The strongest postcondition is being an execution. *)
Lemma wp_self {A} (p : prog A) : wp p (exec p).
Proof. by apply wp_exec. Qed.

(** Cut rule: a program with a known postcondition may be used for it. *)
Lemma wp_cut {A B} (p : prog A) (f : A -> prog B) (P : trace -> outcome A -> Prop) Q :
  wp p P ->
  (forall tr x, P tr (Returned x) -> wp (f x) (fun tr' o' => Q (tr ++ tr') o')) ->
  (forall tr w, P tr (Panicked w) -> Q tr (Panicked w)) ->
  wp (bind p f) Q.
Proof.
  intros Hp Hr Hw. apply wp_bind. eapply wp_mono; [exact Hp|].
  intros tr [x|w] H; [by apply Hr|by apply Hw].
Qed.

(** ** Running against an environment *)

Definition handler (S : Type) : Type := forall a : action, S -> result a * S.

Fixpoint run {S A} (h : handler S) (p : prog A) (s : S) : trace * outcome A * S :=
  match p with
  | Ret x => ([], Returned x, s)
  | Panic w => ([], Panicked w, s)
  | Act a k =>
      let '(r, s1) := h a s in
      let '(tr, o, s2) := run h (k r) s1 in
      (existT a r :: tr, o, s2)
  end.

(** Every run is an execution, so a weakest precondition holds of it. *)
Lemma run_exec {S A} (h : handler S) (p : prog A) s tr o s' :
  run h p s = (tr, o, s') -> exec p tr o.
Proof.
  revert s tr. induction p as [x|a k IH|w]; intros s tr; simpl.
  - by intros [=].
  - destruct (h a s) as [r s1]. destruct (run h (k r) s1) as [[tr1 o1] s2] eqn:E.
    intros [=]; subst. eauto.
  - by intros [=].
Qed.

Lemma wp_run {S A} (h : handler S) (p : prog A) s Q :
  wp p Q -> let '(tr, o, _) := run h p s in Q tr o.
Proof.
  intros H. destruct (run h p s) as [[tr o] s'] eqn:E.
  apply run_exec in E. exact (proj1 (wp_exec p Q) H tr o E).
Qed.

Lemma run_bind {S A B} (h : handler S) (p : prog A) (f : A -> prog B) s :
  run h (bind p f) s =
  match run h p s with
  | (tr, Returned x, s1) =>
      let '(tr', o, s2) := run h (f x) s1 in (tr ++ tr', o, s2)
  | (tr, Panicked w, s1) => (tr, Panicked w, s1)
  end.
Proof.
  revert s. induction p as [x|a k IH|w]; intros s; simpl.
  - by destruct (run h (f x) s) as [[? ?] ?].
  - destruct (h a s) as [r s1]. rewrite IH.
    destruct (run h (k r) s1) as [[tr [x|w]] s2]; [|done].
    by destruct (run h (f x) s2) as [[? ?] ?].
  - done.
Qed.
End prog.

Arguments prog {action} result A.
Arguments Ret {action result A} x.
Arguments Act {action result A} a k.
Arguments Panic {action result A} why.
Arguments Returned {A} x.
Arguments Panicked {A} why.
Arguments event {action} result.
Arguments trace {action} result.
Arguments handler {action} result S.

Module ProgNotations.
Notation "x <- p ;; q" := (bind p (fun x => q))
  (at level 20, p at level 99, q at level 200) : go_scope.
Notation "' pat <- p ;; q" := (bind p (fun x => match x with pat => q end))
  (at level 20, pat pattern, p at level 99, q at level 200) : go_scope.
Notation "p ;;; q" := (bind p (fun _ => q))
  (at level 100, q at level 200, right associativity) : go_scope.
End ProgNotations.

(** ** Automation

    [wp_auto] runs a program symbolically: it takes the answers of the actions,
    splits the tests on them and stops at the postcondition. *)

Ltac wp_split :=
  match goal with
  | |- context [match ?x with _ => _ end] =>
      lazymatch x with
      | context [match _ with _ => _ end] => fail
      | _ => let E := fresh "E" in destruct x eqn:E; simplify_eq/=
      end
  end.

Ltac wp_intros := repeat (progress intros; simplify_eq/=).
