(* ===== verification/Api.v ===== *)
(** * The API types (api/v1beta1, api/v1alpha1)

    The custom resources of the operator and the Kubernetes objects it reads.
    A Go pointer that may be nil is an [option]; [int], [int32] and [int64] are
    [Z]; a [[]byte] is a string of bytes; [metav1.Time] is a [Z] whose [0] is
    the zero time.  Of [metav1.ObjectMeta] the fields the operator reads or
    writes are kept. *)

From S2P Require Import Prelude.
From S2P Require Import GoStrings.
From S2P Require Import GoErrors.

(** ** Kubernetes building blocks *)

Record LocalObjectReference := mkLocalObjectReference { LocalObjectReference_Name : string }.

#[export] Instance LocalObjectReference_eq_dec : EqDecision LocalObjectReference.
Proof. solve_decision. Defined.

(** The group, version and kind that [GetObjectKind().GroupVersionKind()] reads. *)
Record TypeMeta := mkTypeMeta { Group : string; Version : string; Kind : string }.

(** [GroupVersion.String()] *)
Definition apiVersion (t : TypeMeta) : string :=
  if bool_decide (Group t = "") then Version t else Group t +:+ "/" +:+ Version t.

Record OwnerReference := mkOwnerReference {
  OwnerReference_APIVersion : string;
  OwnerReference_Kind : string;
  OwnerReference_Name : string;
  OwnerReference_Controller : option bool;
  OwnerReference_BlockOwnerDeletion : option bool
}.

Record ObjectMeta := mkObjectMeta {
  Name : string;
  Namespace : string;
  Labels : gmap string string;
  Annotations : gmap string string;
  Generation : Z;
  DeletionTimestamp : option Z;
  Finalizers : list string;
  OwnerReferences : list OwnerReference
}.

(** [IsZero] of a [metav1.Time] pointer: nil or the zero time. *)
Definition time_IsZero (t : option Z) : bool :=
  match t with None => true | Some z => Z.eqb z 0 end.

(** [runtime.RawExtension]; a nil [Raw] differs from an empty one. *)
Record RawExtension := mkRawExtension { Raw : option string }.

#[export] Instance RawExtension_eq_dec : EqDecision RawExtension.
Proof. solve_decision. Defined.

Definition raw_bytes (r : RawExtension) : string := deref (Raw r) "".

Record NamespacedName := mkNamespacedName { nn_Namespace : string; nn_Name : string }.

#[export] Instance NamespacedName_eq_dec : EqDecision NamespacedName.
Proof. solve_decision. Defined.

(** ** Conditions (api/v1beta1/conditions.go) *)

(** [ConditionType] and [corev1.ConditionStatus] are strings in Go. *)
Definition ConditionType := string.
Definition ready : ConditionType := "Ready".
Definition passwordSynced : ConditionType := "PasswordSynced".
Definition ConditionTrue : string := "True".
Definition ConditionFalse : string := "False".

Record Condition := mkCondition {
  Condition_Type : ConditionType;
  Condition_Status : string;
  Condition_LastTransitionTime : Z;
  Condition_Reason : string;
  Condition_Message : string
}.

#[export] Instance Condition_eq_dec : EqDecision Condition.
Proof. solve_decision. Defined.

(** ** The cluster reference (api/v1beta1/rabbitmq_cluster_reference.go) *)

Record RabbitmqClusterReference := mkRabbitmqClusterReference {
  Ref_Name : string;
  Ref_Namespace : string;
  Ref_ConnectionSecret : option LocalObjectReference
}.

#[export] Instance RabbitmqClusterReference_eq_dec : EqDecision RabbitmqClusterReference.
Proof. solve_decision. Defined.

(** ** Objects: every custom resource has the same four parts *)

Record Resource (S T : Type) := mkResource {
  resource_TypeMeta : TypeMeta;
  resource_ObjectMeta : ObjectMeta;
  Spec : S;
  Status : T
}.
Arguments mkResource {S T}.
Arguments resource_TypeMeta {S T}.
Arguments resource_ObjectMeta {S T}.
Arguments Spec {S T}.
Arguments Status {S T}.

(** Every status of api/v1beta1 except [UserStatus] has these two fields. *)
Record CommonStatus := mkCommonStatus {
  ObservedGeneration : Z;
  Conditions : list Condition
}.

(** ** binding_types.go *)
Record BindingSpec := mkBindingSpec {
  Binding_Vhost : string;
  Binding_Source : string;
  Binding_Destination : string;
  Binding_DestinationType : string;
  Binding_RoutingKey : string;
  Binding_Arguments : option RawExtension;
  Binding_RabbitmqClusterReference : RabbitmqClusterReference
}.
Definition BindingStatus := CommonStatus.
Definition Binding := Resource BindingSpec BindingStatus.

(** ** exchange_types.go *)
Record ExchangeSpec := mkExchangeSpec {
  Exchange_Name : string;
  Exchange_Vhost : string;
  Exchange_Type : string;
  Exchange_Durable : bool;
  Exchange_AutoDelete : bool;
  Exchange_Arguments : option RawExtension;
  Exchange_RabbitmqClusterReference : RabbitmqClusterReference
}.
Definition ExchangeStatus := CommonStatus.
Definition Exchange := Resource ExchangeSpec ExchangeStatus.

(** ** federation_types.go *)
Record FederationSpec := mkFederationSpec {
  Federation_Name : string;
  Federation_Vhost : string;
  Federation_RabbitmqClusterReference : RabbitmqClusterReference;
  Federation_UriSecret : option LocalObjectReference;
  Federation_PrefetchCount : Z;
  Federation_AckMode : string;
  Federation_Expires : Z;
  Federation_MessageTTL : Z;
  Federation_MaxHops : Z;
  Federation_ReconnectDelay : option Z;
  Federation_TrustUserId : bool;
  Federation_Exchange : string;
  Federation_Queue : string;
  Federation_DeletionPolicy : string;
  Federation_QueueType : string;
  Federation_ResourceCleanupMode : string
}.
Definition FederationStatus := CommonStatus.
Definition Federation := Resource FederationSpec FederationStatus.

(** ** operatorpolicy_types.go *)
Record OperatorPolicySpec := mkOperatorPolicySpec {
  OperatorPolicy_Name : string;
  OperatorPolicy_Vhost : string;
  OperatorPolicy_Pattern : string;
  OperatorPolicy_ApplyTo : string;
  OperatorPolicy_Priority : Z;
  OperatorPolicy_Definition : option RawExtension;
  OperatorPolicy_RabbitmqClusterReference : RabbitmqClusterReference
}.
Definition OperatorPolicyStatus := CommonStatus.
Definition OperatorPolicy := Resource OperatorPolicySpec OperatorPolicyStatus.

(** ** permission_types.go *)
Record VhostPermissions := mkVhostPermissions {
  VhostPermissions_Configure : string;
  VhostPermissions_Write : string;
  VhostPermissions_Read : string
}.
Record PermissionSpec := mkPermissionSpec {
  Permission_User : string;
  Permission_UserReference : option LocalObjectReference;
  Permission_Vhost : string;
  Permission_Permissions : VhostPermissions;
  Permission_RabbitmqClusterReference : RabbitmqClusterReference
}.
Definition PermissionStatus := CommonStatus.
Definition Permission := Resource PermissionSpec PermissionStatus.

(** ** policy_types.go *)
Record PolicySpec := mkPolicySpec {
  Policy_Name : string;
  Policy_Vhost : string;
  Policy_Pattern : string;
  Policy_ApplyTo : string;
  Policy_Priority : Z;
  Policy_Definition : option RawExtension;
  Policy_RabbitmqClusterReference : RabbitmqClusterReference
}.
Definition PolicyStatus := CommonStatus.
Definition Policy := Resource PolicySpec PolicyStatus.

(** ** queue_types.go *)
Record QueueSpec := mkQueueSpec {
  Queue_Name : string;
  Queue_Vhost : string;
  Queue_Type : string;
  Queue_Durable : option bool;
  Queue_AutoDelete : bool;
  Queue_DeleteIfEmpty : bool;
  Queue_DeleteIfUnused : bool;
  Queue_Arguments : option RawExtension;
  Queue_RabbitmqClusterReference : RabbitmqClusterReference;
  Queue_DeletionPolicy : string
}.
Definition QueueStatus := CommonStatus.
Definition Queue := Resource QueueSpec QueueStatus.

(** ** schemareplication_types.go *)
Record VaultSpec := mkVaultSpec { VaultSpec_SecretPath : string }.
Record SecretBackend := mkSecretBackend { SecretBackend_Vault : option VaultSpec }.
Record SchemaReplicationSpec := mkSchemaReplicationSpec {
  SchemaReplication_RabbitmqClusterReference : RabbitmqClusterReference;
  SchemaReplication_UpstreamSecret : option LocalObjectReference;
  SchemaReplication_Endpoints : string;
  SchemaReplication_SecretBackend : SecretBackend
}.
Definition SchemaReplicationStatus := CommonStatus.
Definition SchemaReplication := Resource SchemaReplicationSpec SchemaReplicationStatus.

(** ** shovel_types.go *)
Record ShovelSpec := mkShovelSpec {
  Shovel_Name : string;
  Shovel_Vhost : string;
  Shovel_RabbitmqClusterReference : RabbitmqClusterReference;
  Shovel_UriSecret : option LocalObjectReference;
  Shovel_AckMode : string;
  Shovel_PrefetchCount : Z;
  Shovel_ReconnectDelay : Z;
  Shovel_AddForwardHeaders : bool;
  Shovel_DeleteAfter : string;
  Shovel_SourceDeleteAfter : string;
  Shovel_SourcePrefetchCount : Z;
  Shovel_DestinationAddForwardHeaders : bool;
  Shovel_DestinationAddTimestampHeader : bool;
  Shovel_SourceQueueArgs : option RawExtension;
  Shovel_DestinationQueueArgs : option RawExtension;
  Shovel_DestinationProtocol : string;
  Shovel_DestinationQueue : string;
  Shovel_DestinationExchange : string;
  Shovel_DestinationExchangeKey : string;
  Shovel_DestinationPublishProperties : option RawExtension;
  Shovel_DestinationAddress : string;
  Shovel_DestinationApplicationProperties : option RawExtension;
  Shovel_DestinationProperties : option RawExtension;
  Shovel_DestinationMessageAnnotations : option RawExtension;
  Shovel_SourceProtocol : string;
  Shovel_SourceQueue : string;
  Shovel_SourceExchange : string;
  Shovel_SourceExchangeKey : string;
  Shovel_SourceConsumerArgs : option RawExtension;
  Shovel_SourceAddress : string;
  Shovel_DeletionPolicy : string
}.
Definition ShovelStatus := CommonStatus.
Definition Shovel := Resource ShovelSpec ShovelStatus.

(** ** topicpermission_types.go *)
Record TopicPermissionConfig := mkTopicPermissionConfig {
  TopicPermissionConfig_Exchange : string;
  TopicPermissionConfig_Read : string;
  TopicPermissionConfig_Write : string
}.
Record TopicPermissionSpec := mkTopicPermissionSpec {
  TopicPermission_User : string;
  TopicPermission_UserReference : option LocalObjectReference;
  TopicPermission_Vhost : string;
  TopicPermission_Permissions : TopicPermissionConfig;
  TopicPermission_RabbitmqClusterReference : RabbitmqClusterReference
}.
Definition TopicPermissionStatus := CommonStatus.
Definition TopicPermission := Resource TopicPermissionSpec TopicPermissionStatus.

(** ** user_types.go *)
Record UserLimits := mkUserLimits {
  UserLimits_Connections : option Z;
  UserLimits_Channels : option Z
}.
Definition UserTag := string.
Record UserSpec := mkUserSpec {
  User_Tags : list UserTag;
  User_RabbitmqClusterReference : RabbitmqClusterReference;
  User_ImportCredentialsSecret : option LocalObjectReference;
  User_UsernameFromMeta : bool;
  User_UserLimits : option UserLimits
}.
Record UserStatus := mkUserStatus {
  UserStatus_ObservedGeneration : Z;
  UserStatus_Conditions : list Condition;
  UserStatus_Credentials : option LocalObjectReference;
  UserStatus_Username : string
}.
Definition User := Resource UserSpec UserStatus.

(** ** vhost_types.go *)
Record VhostLimits := mkVhostLimits {
  VhostLimits_Connections : option Z;
  VhostLimits_Queues : option Z
}.
Record VhostSpec := mkVhostSpec {
  Vhost_Name : string;
  Vhost_Tracing : bool;
  Vhost_Tags : list string;
  Vhost_DefaultQueueType : string;
  Vhost_RabbitmqClusterReference : RabbitmqClusterReference;
  Vhost_DeletionPolicy : string;
  Vhost_VhostLimits : option VhostLimits
}.
Definition VhostStatus := CommonStatus.
Definition Vhost := Resource VhostSpec VhostStatus.

(** ** api/v1alpha1/superstream_types.go *)
Record SuperStreamSpec := mkSuperStreamSpec {
  SuperStream_Name : string;
  SuperStream_Vhost : string;
  SuperStream_Partitions : Z;
  SuperStream_RoutingKeys : list string;
  SuperStream_RabbitmqClusterReference : RabbitmqClusterReference
}.
Record SuperStreamStatus := mkSuperStreamStatus {
  SuperStreamStatus_ObservedGeneration : Z;
  SuperStreamStatus_Conditions : list Condition;
  SuperStreamStatus_Partitions : list string
}.
Definition SuperStream := Resource SuperStreamSpec SuperStreamStatus.

(** ** labels.go *)
Definition TopologyOperatorLabel : string := "rabbitmq.com/topology-operator".
Definition TopologyOperatorLabelValue : string := "true".

(** ** The objects of Kubernetes and of the cluster operator that are read *)

(** [corev1.Secret] *)
Record Secret := mkSecret {
  Secret_TypeMeta : TypeMeta;
  Secret_ObjectMeta : ObjectMeta;
  Data : gmap string string;
  Secret_Type : string
}.

(** [corev1.Service], [corev1.ServicePort] *)
Record ServicePort := mkServicePort { Port_Name : string; Port_Port : Z }.
Record Service := mkService {
  Service_TypeMeta : TypeMeta;
  Service_ObjectMeta : ObjectMeta;
  Service_Ports : list ServicePort
}.

(** [rabbitmqv1beta1.RabbitmqCluster] of the cluster operator: the fields the
    topology operator reads, and the answers of its methods [TLSEnabled] and
    [DisableNonTLSListeners]. *)
Record RabbitmqCluster := mkRabbitmqCluster {
  Cluster_TypeMeta : TypeMeta;
  Cluster_ObjectMeta : ObjectMeta;
  Cluster_Replicas : option Z;
  Cluster_VaultDefaultUserPath : option string;
  Cluster_AdditionalConfig : string;
  (* Status.DefaultUser, and in it ServiceReference, and in it Name *)
  Cluster_DefaultUser : option (option string);
  (* Status.Binding, and in it Name *)
  Cluster_Binding : option string;
  Cluster_TLSEnabled : bool;
  Cluster_DisableNonTLSListeners : bool
}.

(** ** The kinds, and the objects of each kind *)

Inductive kind :=
| KBinding | KExchange | KFederation | KOperatorPolicy | KPermission | KPolicy
| KQueue | KSchemaReplication | KShovel | KTopicPermission | KUser | KVhost
| KSuperStream | KSecret | KService | KRabbitmqCluster.

#[export] Instance kind_eq_dec : EqDecision kind.
Proof. solve_decision. Defined.

Definition object (k : kind) : Type :=
  match k with
  | KBinding => Binding | KExchange => Exchange | KFederation => Federation
  | KOperatorPolicy => OperatorPolicy | KPermission => Permission | KPolicy => Policy
  | KQueue => Queue | KSchemaReplication => SchemaReplication | KShovel => Shovel
  | KTopicPermission => TopicPermission | KUser => User | KVhost => Vhost
  | KSuperStream => SuperStream | KSecret => Secret | KService => Service
  | KRabbitmqCluster => RabbitmqCluster
  end.

Definition set_ObjectMeta {S T} (m : ObjectMeta) (r : Resource S T) : Resource S T :=
  mkResource (resource_TypeMeta r) m (Spec r) (Status r).
Definition set_Status {S T} (s : T) (r : Resource S T) : Resource S T :=
  mkResource (resource_TypeMeta r) (resource_ObjectMeta r) (Spec r) s.
Definition set_Spec {S T} (s : S) (r : Resource S T) : Resource S T :=
  mkResource (resource_TypeMeta r) (resource_ObjectMeta r) s (Status r).

(** [client.Object]: the metadata of an object of any kind. *)
Definition meta (k : kind) : object k -> ObjectMeta :=
  match k with
  | KSecret => Secret_ObjectMeta
  | KService => Service_ObjectMeta
  | KRabbitmqCluster => Cluster_ObjectMeta
  | KBinding => resource_ObjectMeta | KExchange => resource_ObjectMeta
  | KFederation => resource_ObjectMeta | KOperatorPolicy => resource_ObjectMeta
  | KPermission => resource_ObjectMeta | KPolicy => resource_ObjectMeta
  | KQueue => resource_ObjectMeta | KSchemaReplication => resource_ObjectMeta
  | KShovel => resource_ObjectMeta | KTopicPermission => resource_ObjectMeta
  | KUser => resource_ObjectMeta | KVhost => resource_ObjectMeta
  | KSuperStream => resource_ObjectMeta
  end.

Definition GroupVersionKind (k : kind) : object k -> TypeMeta :=
  match k with
  | KSecret => Secret_TypeMeta
  | KService => Service_TypeMeta
  | KRabbitmqCluster => Cluster_TypeMeta
  | KBinding => resource_TypeMeta | KExchange => resource_TypeMeta
  | KFederation => resource_TypeMeta | KOperatorPolicy => resource_TypeMeta
  | KPermission => resource_TypeMeta | KPolicy => resource_TypeMeta
  | KQueue => resource_TypeMeta | KSchemaReplication => resource_TypeMeta
  | KShovel => resource_TypeMeta | KTopicPermission => resource_TypeMeta
  | KUser => resource_TypeMeta | KVhost => resource_TypeMeta
  | KSuperStream => resource_TypeMeta
  end.

Definition set_meta (k : kind) : ObjectMeta -> object k -> object k :=
  match k with
  | KSecret => fun m s => mkSecret (Secret_TypeMeta s) m (Data s) (Secret_Type s)
  | KService => fun m s => mkService (Service_TypeMeta s) m (Service_Ports s)
  | KRabbitmqCluster => fun m c =>
      mkRabbitmqCluster (Cluster_TypeMeta c) m (Cluster_Replicas c)
        (Cluster_VaultDefaultUserPath c) (Cluster_AdditionalConfig c)
        (Cluster_DefaultUser c) (Cluster_Binding c) (Cluster_TLSEnabled c)
        (Cluster_DisableNonTLSListeners c)
  | KBinding => set_ObjectMeta | KExchange => set_ObjectMeta
  | KFederation => set_ObjectMeta | KOperatorPolicy => set_ObjectMeta
  | KPermission => set_ObjectMeta | KPolicy => set_ObjectMeta
  | KQueue => set_ObjectMeta | KSchemaReplication => set_ObjectMeta
  | KShovel => set_ObjectMeta | KTopicPermission => set_ObjectMeta
  | KUser => set_ObjectMeta | KVhost => set_ObjectMeta
  | KSuperStream => set_ObjectMeta
  end.

Lemma meta_set_meta k m (o : object k) : meta k (set_meta k m o) = m.
Proof. by destruct k. Qed.

Lemma gvk_set_meta k m (o : object k) :
  GroupVersionKind k (set_meta k m o) = GroupVersionKind k o.
Proof. by destruct k. Qed.

#[export] Hint Rewrite meta_set_meta gvk_set_meta : gort.

Definition set_Finalizers (fs : list string) (m : ObjectMeta) : ObjectMeta :=
  mkObjectMeta (Name m) (Namespace m) (Labels m) (Annotations m) (Generation m)
    (DeletionTimestamp m) fs (OwnerReferences m).
Definition set_OwnerReferences (refs : list OwnerReference) (m : ObjectMeta) : ObjectMeta :=
  mkObjectMeta (Name m) (Namespace m) (Labels m) (Annotations m) (Generation m)
    (DeletionTimestamp m) (Finalizers m) refs.
Definition set_Labels (ls : gmap string string) (m : ObjectMeta) : ObjectMeta :=
  mkObjectMeta (Name m) (Namespace m) ls (Annotations m) (Generation m)
    (DeletionTimestamp m) (Finalizers m) (OwnerReferences m).
