(* ===== verification/Scheme.v ===== *)
(** * Group versions and the scheme (api/*/groupversion_info.go, cmd/main.go, pkg/generated)

    The names under which the kinds are known to the Kubernetes API: group
    versions, resources, and the registration of the Go types in a
    [runtime.Scheme], by the operator ([init] of cmd/main.go) and by the generated
    clients (scheme/register.go, fake/register.go).  The scheme itself is a library:
    class [SchemeLib], with what it promises in [SchemeLibOk]. *)

From S2P Require Import Prelude.
From S2P Require Import GoStrings.
From S2P Require Import GoErrors.
From S2P Require Import Api.

(** ** Names (k8s.io/apimachinery/pkg/runtime/schema) *)

Record GroupVersion := mkGroupVersion { gv_Group : string; gv_Version : string }.
Record GroupVersionResource := mkGroupVersionResource {
  gvr_Group : string; gvr_Version : string; gvr_Resource : string
}.
Record GroupResource := mkGroupResource { gr_Group : string; gr_Resource : string }.
Record GroupKind := mkGroupKind { gk_Group : string; gk_Kind : string }.

#[export] Instance GroupVersion_eq_dec : EqDecision GroupVersion.
Proof. solve_decision. Defined.
#[export] Instance GroupVersionResource_eq_dec : EqDecision GroupVersionResource.
Proof. solve_decision. Defined.

#[export] Instance TypeMeta_eq_dec : EqDecision TypeMeta.
Proof. solve_decision. Defined.

(** A group, version and kind is the [TypeMeta] of Api.v. *)
Definition WithKind (gv : GroupVersion) (kind : string) : TypeMeta :=
  mkTypeMeta (gv_Group gv) (gv_Version gv) kind.
Definition WithResource (gv : GroupVersion) (resource : string) : GroupVersionResource :=
  mkGroupVersionResource (gv_Group gv) (gv_Version gv) resource.
Definition gvr_GroupResource (r : GroupVersionResource) : GroupResource :=
  mkGroupResource (gvr_Group r) (gvr_Resource r).
Definition gvk_GroupKind (t : TypeMeta) : GroupKind := mkGroupKind (Group t) (Kind t).

(** ** api/v1beta1 and api/v1alpha1: groupversion_info.go *)

Module v1beta1.
Definition SchemeGroupVersion : GroupVersion := mkGroupVersion "rabbitmq.com" "v1beta1".
Definition Kind (kind : string) : GroupKind := gvk_GroupKind (WithKind SchemeGroupVersion kind).
Definition Resource (resource : string) : GroupResource :=
  gvr_GroupResource (WithResource SchemeGroupVersion resource).
End v1beta1.

Module v1alpha1.
Definition SchemeGroupVersion : GroupVersion := mkGroupVersion "rabbitmq.com" "v1alpha1".
Definition Kind (kind : string) : GroupKind := gvk_GroupKind (WithKind SchemeGroupVersion kind).
Definition Resource (resource : string) : GroupResource :=
  gvr_GroupResource (WithResource SchemeGroupVersion resource).
End v1alpha1.

(** ** Go types, as [reflect] names them *)

Definition typeName (k : kind) : string :=
  match k with
  | KBinding => "Binding" | KExchange => "Exchange" | KFederation => "Federation"
  | KOperatorPolicy => "OperatorPolicy" | KPermission => "Permission" | KPolicy => "Policy"
  | KQueue => "Queue" | KSchemaReplication => "SchemaReplication" | KShovel => "Shovel"
  | KTopicPermission => "TopicPermission" | KUser => "User" | KVhost => "Vhost"
  | KSuperStream => "SuperStream" | KSecret => "Secret" | KService => "Service"
  | KRabbitmqCluster => "RabbitmqCluster"
  end.

(** A kind's object, and the list of its objects. *)
Inductive go_type := ObjectType (k : kind) | ObjectListType (k : kind).

#[export] Instance go_type_eq_dec : EqDecision go_type.
Proof. solve_decision. Defined.

Definition go_typeName (t : go_type) : string :=
  match t with ObjectType k => typeName k | ObjectListType k => typeName k +:+ "List" end.

(** [GroupResource()] of an object: the type metadata of the object itself, which
    is empty on an object that was built in Go and not yet sent. *)
Definition object_GroupResource (k : kind) (o : object k) : GroupResource :=
  mkGroupResource (Group (GroupVersionKind k o)) (Kind (GroupVersionKind k o)).

(** ** The registrations of the types files: [SchemeBuilder.Register(&X{}, &XList{})] *)

Definition Binding_init : list go_type := [ObjectType KBinding; ObjectListType KBinding].
Definition Exchange_init : list go_type := [ObjectType KExchange; ObjectListType KExchange].
Definition Federation_init : list go_type := [ObjectType KFederation; ObjectListType KFederation].
Definition OperatorPolicy_init : list go_type :=
  [ObjectType KOperatorPolicy; ObjectListType KOperatorPolicy].
Definition Permission_init : list go_type := [ObjectType KPermission; ObjectListType KPermission].
Definition Policy_init : list go_type := [ObjectType KPolicy; ObjectListType KPolicy].
Definition Queue_init : list go_type := [ObjectType KQueue; ObjectListType KQueue].
Definition SchemaReplication_init : list go_type :=
  [ObjectType KSchemaReplication; ObjectListType KSchemaReplication].
Definition Shovel_init : list go_type := [ObjectType KShovel; ObjectListType KShovel].
Definition TopicPermission_init : list go_type :=
  [ObjectType KTopicPermission; ObjectListType KTopicPermission].
Definition User_init : list go_type := [ObjectType KUser; ObjectListType KUser].
Definition Vhost_init : list go_type := [ObjectType KVhost; ObjectListType KVhost].
Definition SuperStream_init : list go_type := [ObjectType KSuperStream; ObjectListType KSuperStream].

(** The package variable [SchemeBuilder] once the package is initialised; Go runs
    the [init] functions of a package in the order of its files. *)
Definition v1beta1_SchemeBuilder : list go_type :=
  Binding_init ++ Exchange_init ++ Federation_init ++ OperatorPolicy_init ++ Permission_init ++
  Policy_init ++ Queue_init ++ SchemaReplication_init ++ Shovel_init ++ TopicPermission_init ++
  User_init ++ Vhost_init.
Definition v1alpha1_SchemeBuilder : list go_type := SuperStream_init.

(** ** Schemes *)

Class SchemeLib := {
  Scheme : Type;
  NewScheme : Scheme;
  (** [Builder.AddToScheme] (controller-runtime) of a builder for a group version *)
  Builder_AddToScheme : GroupVersion -> list go_type -> Scheme -> option error * Scheme;
  (** client-go's own types, the types of the cluster operator, and
      [metav1.AddToGroupVersion] *)
  clientgoscheme_AddToScheme : Scheme -> option error * Scheme;
  rabbitmqv1beta1_AddToScheme : Scheme -> option error * Scheme;
  AddToGroupVersion : GroupVersion -> Scheme -> Scheme;
  (** the Go type that the scheme makes for a group, version and kind *)
  knownType : Scheme -> TypeMeta -> option go_type
}.

(** [topology.AddToScheme] and [topologyv1alpha1.AddToScheme] *)
Definition v1beta1_AddToScheme `{SchemeLib} : Scheme -> option error * Scheme :=
  Builder_AddToScheme v1beta1.SchemeGroupVersion v1beta1_SchemeBuilder.
Definition v1alpha1_AddToScheme `{SchemeLib} : Scheme -> option error * Scheme :=
  Builder_AddToScheme v1alpha1.SchemeGroupVersion v1alpha1_SchemeBuilder.

(** [utilruntime.Must]: a panic ([inl]) on an error. *)
Definition Must `{SchemeLib} (r : option error * Scheme) : error + Scheme :=
  match r with (Some e, _) => inl e | (None, s) => inr s end.

(** [init] of cmd/main.go: four registrations whose errors are dropped, and one
    that is checked. *)
Definition main_init `{SchemeLib} : error + Scheme :=
  let s := NewScheme in
  let s := snd (clientgoscheme_AddToScheme s) in
  let s := snd (rabbitmqv1beta1_AddToScheme s) in
  let s := snd (v1beta1_AddToScheme s) in
  let s := snd (v1alpha1_AddToScheme s) in
  Must (v1beta1_AddToScheme s).

(** [runtime.SchemeBuilder.AddToScheme]: the functions in order, up to an error. *)
Fixpoint addAll `{SchemeLib} (fs : list (Scheme -> option error * Scheme)) (s : Scheme) :
    option error * Scheme :=
  match fs with
  | [] => (None, s)
  | f :: fs => match f s with
               | (Some e, s) => (Some e, s)
               | (None, s) => addAll fs s
               end
  end.

(** pkg/generated/clientset/versioned/scheme/register.go *)
Definition clientset_localSchemeBuilder `{SchemeLib} : list (Scheme -> option error * Scheme) :=
  [v1alpha1_AddToScheme; v1beta1_AddToScheme].
Definition clientset_init `{SchemeLib} : error + Scheme :=
  Must (addAll clientset_localSchemeBuilder
          (AddToGroupVersion (mkGroupVersion "" "v1") NewScheme)).

(** pkg/generated/clientset/versioned/fake/register.go *)
Definition fake_localSchemeBuilder `{SchemeLib} : list (Scheme -> option error * Scheme) :=
  [v1alpha1_AddToScheme; v1beta1_AddToScheme].
Definition fake_init `{SchemeLib} : error + Scheme :=
  Must (addAll fake_localSchemeBuilder
          (AddToGroupVersion (mkGroupVersion "" "v1") NewScheme)).

(** What the documentation of the libraries promises.  Registering fails for a
    name that stands for another type; what was known stays known; the libraries
    register their own names: the core types, [RabbitmqCluster] and its list, and
    for [AddToGroupVersion] the option types of the API, which are not Go types of
    this repository. *)
Class SchemeLibOk `{SchemeLib} := {
  NewScheme_empty t : knownType NewScheme t = None;
  Builder_adds gv ts s :
    (forall t t', t ∈ ts -> knownType s (WithKind gv (go_typeName t)) = Some t' -> t' = t) ->
    exists s', Builder_AddToScheme gv ts s = (None, s') /\
      forall g, knownType s' g =
        match List.find (fun t => bool_decide (WithKind gv (go_typeName t) = g)) ts with
        | Some t => Some t
        | None => knownType s g
        end;
  clientgoscheme_adds s :
    let s' := snd (clientgoscheme_AddToScheme s) in
    knownType s' (mkTypeMeta "" "v1" "Secret") = Some (ObjectType KSecret) /\
    knownType s' (mkTypeMeta "" "v1" "Service") = Some (ObjectType KService) /\
    forall g, Group g = "rabbitmq.com" -> knownType s' g = knownType s g;
  rabbitmqv1beta1_adds s :
    forall g, knownType (snd (rabbitmqv1beta1_AddToScheme s)) g =
      if bool_decide (g = mkTypeMeta "rabbitmq.com" "v1beta1" "RabbitmqCluster")
      then Some (ObjectType KRabbitmqCluster)
      else if bool_decide (g = mkTypeMeta "rabbitmq.com" "v1beta1" "RabbitmqClusterList")
      then Some (ObjectListType KRabbitmqCluster)
      else knownType s g;
  AddToGroupVersion_adds gv s g : knownType (AddToGroupVersion gv s) g = knownType s g
}.

(** ** Every type under its name, and under no other *)

(** Where each kind lives. *)
Definition gv_of (k : kind) : GroupVersion :=
  match k with
  | KSecret | KService => mkGroupVersion "" "v1"
  | KSuperStream => v1alpha1.SchemeGroupVersion
  | _ => v1beta1.SchemeGroupVersion
  end.

Definition kind_of_type (t : go_type) : kind :=
  match t with ObjectType k => k | ObjectListType k => k end.
Definition gvk_of (t : go_type) : TypeMeta := WithKind (gv_of (kind_of_type t)) (go_typeName t).

(** The types of group rabbitmq.com: the operator's own and the cluster's. *)
Definition own (k : kind) : Prop := k <> KSecret /\ k <> KService /\ k <> KRabbitmqCluster.
Definition rabbitmq (k : kind) : Prop := k <> KSecret /\ k <> KService.

Lemma go_typeName_inj t t' : go_typeName t = go_typeName t' -> t = t'.
Proof. destruct t as [[]|[]], t' as [[]|[]]; simpl; intros E; first [reflexivity|discriminate E]. Qed.

Lemma gvk_of_inj t t' : gvk_of t = gvk_of t' -> t = t'.
Proof. unfold gvk_of, WithKind. intros [= _ _ E]. by apply go_typeName_inj. Qed.

Lemma own_in_builder t :
  own (kind_of_type t) ->
  t ∈ (if bool_decide (kind_of_type t = KSuperStream)
       then v1alpha1_SchemeBuilder else v1beta1_SchemeBuilder).
Proof.
  intros (? & ? & ?). destruct t as [[]|[]]; simpl in *; try done;
    apply list_elem_of_In; simpl; tauto.
Qed.

Lemma v1beta1_builder t :
  t ∈ v1beta1_SchemeBuilder ->
  own (kind_of_type t) /\ gvk_of t = WithKind v1beta1.SchemeGroupVersion (go_typeName t).
Proof.
  unfold own. rewrite list_elem_of_In. simpl.
  intuition (subst; simpl; done).
Qed.

Lemma v1alpha1_builder t :
  t ∈ v1alpha1_SchemeBuilder ->
  own (kind_of_type t) /\ gvk_of t = WithKind v1alpha1.SchemeGroupVersion (go_typeName t).
Proof.
  unfold own. rewrite list_elem_of_In. simpl.
  intuition (subst; simpl; done).
Qed.

Section registered.
Context `{SchemeLibOk}.

Definition knows (s : Scheme) (t : go_type) : Prop := knownType s (gvk_of t) = Some t.

(** No name of the group stands for the wrong type. *)
Definition sound (s : Scheme) : Prop :=
  forall g t, Group g = "rabbitmq.com" -> knownType s g = Some t -> g = gvk_of t.

Lemma register gv ts s :
  sound s -> gv_Group gv = "rabbitmq.com" ->
  (forall t, t ∈ ts -> gvk_of t = WithKind gv (go_typeName t)) ->
  exists s', Builder_AddToScheme gv ts s = (None, s') /\ sound s' /\
    forall t, knows s' t <-> t ∈ ts \/ knows s t.
Proof.
  intros Hs Hgv Hts.
  destruct (Builder_adds gv ts s) as (s' & Hadd & Hknown).
  { intros t t' Ht Hk. apply gvk_of_inj. rewrite <- (Hs (WithKind gv (go_typeName t)) t' Hgv Hk).
    symmetry. by apply Hts. }
  exists s'. split; [done|]. split.
  - intros g t Hg. rewrite Hknown. destruct (List.find _ ts) as [u|] eqn:E; [|by apply Hs].
    apply List.find_some in E as [Hin E%bool_decide_eq_true]. apply list_elem_of_In in Hin.
    intros [= ->]. rewrite <- E. symmetry. by apply Hts.
  - intros t. unfold knows. rewrite Hknown.
    destruct (List.find _ ts) as [u|] eqn:E.
    + apply List.find_some in E as [Hin E%bool_decide_eq_true]. apply list_elem_of_In in Hin.
      rewrite <- (Hts u Hin) in E. apply gvk_of_inj in E as ->. tauto.
    + split; [tauto|]. intros [Hin|?]; [|done].
      apply list_elem_of_In in Hin.
      pose proof (List.find_none _ _ E _ Hin) as Hn%bool_decide_eq_false.
      destruct Hn. symmetry. apply Hts. by apply list_elem_of_In.
Qed.

Lemma add_v1beta1 s :
  sound s ->
  exists s', v1beta1_AddToScheme s = (None, s') /\ sound s' /\
    forall t, knows s' t <-> t ∈ v1beta1_SchemeBuilder \/ knows s t.
Proof. intros Hs. apply register; [done..|]. intros t Ht. by apply v1beta1_builder. Qed.

Lemma add_v1alpha1 s :
  sound s ->
  exists s', v1alpha1_AddToScheme s = (None, s') /\ sound s' /\
    forall t, knows s' t <-> t ∈ v1alpha1_SchemeBuilder \/ knows s t.
Proof. intros Hs. apply register; [done..|]. intros t Ht. by apply v1alpha1_builder. Qed.

Lemma NewScheme_sound : sound NewScheme.
Proof. intros g t _. by rewrite NewScheme_empty. Qed.

Lemma own_registered t :
  own (kind_of_type t) <-> t ∈ v1beta1_SchemeBuilder \/ t ∈ v1alpha1_SchemeBuilder.
Proof.
  split.
  - intros Ht%own_in_builder. case_bool_decide; tauto.
  - intros [Ht%v1beta1_builder|Ht%v1alpha1_builder]; apply Ht.
Qed.

(** The scheme of the generated clients holds the operator's own types only. *)
Lemma clientset_scheme :
  exists s, clientset_init = inr s /\ fake_init = inr s /\ sound s /\
    forall t, Group (gvk_of t) = "rabbitmq.com" -> (knows s t <-> own (kind_of_type t)).
Proof.
  assert (H1 : sound (AddToGroupVersion (mkGroupVersion "" "v1") NewScheme)).
  { intros g t _. by rewrite AddToGroupVersion_adds, NewScheme_empty. }
  destruct (add_v1alpha1 _ H1) as (s1 & E1 & S1 & K1).
  destruct (add_v1beta1 _ S1) as (s2 & E2 & S2 & K2).
  exists s2. unfold clientset_init, fake_init, clientset_localSchemeBuilder, fake_localSchemeBuilder.
  cbn [addAll]. rewrite E1. cbn [addAll]. rewrite E2. simpl.
  split; [done|]. split; [done|]. split; [done|]. intros t _. split.
  - intros Ht%K2. apply own_registered. rewrite K1 in Ht.
    destruct Ht as [?|[?|Ht]]; [tauto..|].
    unfold knows in Ht. by rewrite AddToGroupVersion_adds, NewScheme_empty in Ht.
  - rewrite own_registered. intros Ht. apply K2. rewrite K1. tauto.
Qed.

Lemma main_libraries :
  let s := snd (rabbitmqv1beta1_AddToScheme (snd (clientgoscheme_AddToScheme NewScheme))) in
  sound s /\ knows s (ObjectType KSecret) /\ knows s (ObjectType KService) /\
  forall t, Group (gvk_of t) = "rabbitmq.com" -> (knows s t <-> kind_of_type t = KRabbitmqCluster).
Proof.
  destruct (clientgoscheme_adds NewScheme) as (Hsec & Hsvc & Hrest).
  assert (Hnone : forall g, Group g = "rabbitmq.com" ->
    knownType (snd (clientgoscheme_AddToScheme NewScheme)) g = None).
  { intros g Hg. rewrite Hrest by done. apply NewScheme_empty. }
  cbn zeta. unfold knows. split; [|split; [|split]].
  - intros g t Hg. rewrite rabbitmqv1beta1_adds.
    repeat case_bool_decide; [by intros [= <-]; subst..|]. by rewrite Hnone.
  - by rewrite rabbitmqv1beta1_adds.
  - by rewrite rabbitmqv1beta1_adds.
  - intros t Hg. rewrite rabbitmqv1beta1_adds, Hnone by done.
    destruct t as [[]|[]]; simpl in *; repeat case_bool_decide; try done; naive_solver.
Qed.

(** C31: The scheme of the operator knows every kind it reads or writes and the
    list of every RabbitMQ kind, under the group, version and kind of its Go type
    and no other; the generated clientset and its fake build the same scheme,
    which knows exactly the types of this repository. *)
Theorem scheme_complete :
  exists s, main_init = inr s /\
    (forall k, knows s (ObjectType k)) /\
    (forall k, rabbitmq k -> knows s (ObjectListType k)) /\
    sound s /\
    exists s', clientset_init = inr s' /\ fake_init = inr s' /\ sound s' /\
      forall t, Group (gvk_of t) = "rabbitmq.com" -> (knows s' t <-> own (kind_of_type t)).
Proof.
  destruct main_libraries as (S0 & Hsec & Hsvc & K0).
  unfold main_init. cbn zeta.
  destruct (add_v1beta1 _ S0) as (s1 & -> & S1 & K1). cbn [snd].
  destruct (add_v1alpha1 _ S1) as (s2 & -> & S2 & K2). cbn [snd].
  destruct (add_v1beta1 _ S2) as (s3 & -> & S3 & K3).
  exists s3.
  assert (Hown : forall t, rabbitmq (kind_of_type t) -> knows s3 t).
  { intros t [? ?]. apply K3. rewrite K2, K1.
    destruct (decide (kind_of_type t = KRabbitmqCluster)).
    - right. right. right. apply K0; [|done]. by destruct t; simpl in *; subst.
    - assert (own (kind_of_type t)) as [?|?]%own_registered by done; tauto. }
  split; [done|]. split; [|split; [|split; [done|]]].
  - intros k. destruct (decide (k = KSecret)) as [->|?]; [apply K3; rewrite K2, K1; tauto|].
    destruct (decide (k = KService)) as [->|?]; [apply K3; rewrite K2, K1; tauto|].
    by apply Hown.
  - intros k Hk. by apply Hown.
  - apply clientset_scheme.
Qed.
End registered.
