(* ===== verification/Values.v ===== *)
(** * Decoded JSON values

    What [json.Unmarshal] stores in an [any], and the comparisons the operator
    makes on such values: [reflect.DeepEqual] (binding arguments) and
    [maps.Equal] (queue arguments), which compares interface values with [==]
    and therefore panics on maps and slices. *)

From S2P Require Import Prelude.
From S2P Require Import GoStrings.
From Stdlib Require Import SpecFloat.

(** A JSON document decoded into [any]; an object lists its members in the
    order in which an iteration over the Go map visits them. *)
Inductive any :=
| Any_nil
| Any_bool (b : bool)
| Any_float64 (f : spec_float)
| Any_string (s : string)
| Any_slice (l : list any)
| Any_map (m : list (string * any)).

(** A [map[string]any] variable: [None] is the nil map. *)
Definition args_map := option (list (string * any)).

Definition entries (m : args_map) : list (string * any) := deref m [].

Fixpoint assoc (k : string) (m : list (string * any)) : option any :=
  match m with
  | [] => None
  | (k', v) :: m => if bool_decide (k = k') then Some v else assoc k m
  end.

(** [reflect.DeepEqual] on values of type [any]. *)
Fixpoint DeepEqual (a b : any) {struct a} : bool :=
  match a, b with
  | Any_nil, Any_nil => true
  | Any_bool x, Any_bool y => Bool.eqb x y
  | Any_float64 x, Any_float64 y => SFeqb x y
  | Any_string x, Any_string y => bool_decide (x = y)
  | Any_slice l, Any_slice l' =>
      (fix go (l l' : list any) : bool :=
         match l, l' with
         | [], [] => true
         | x :: l, y :: l' => DeepEqual x y && go l l'
         | _, _ => false
         end) l l'
  | Any_map m, Any_map m' =>
      Nat.eqb (length m) (length m') &&
      (fix go (m : list (string * any)) : bool :=
         match m with
         | [] => true
         | (k, v) :: m =>
             match assoc k m' with
             | Some v' => DeepEqual v v'
             | None => false
             end && go m
         end) m
  | _, _ => false
  end.

(** [reflect.DeepEqual] on two [map[string]any]: a nil map is only equal to a
    nil map. *)
Definition DeepEqual_maps (a b : args_map) : bool :=
  match a, b with
  | None, None => true
  | Some m, Some m' => DeepEqual (Any_map m) (Any_map m')
  | _, _ => false
  end.

(** [==] on interface values: [None] is the run-time panic "comparing
    uncomparable type". *)
Definition iface_eq (a b : any) : option bool :=
  match a, b with
  | Any_nil, Any_nil => Some true
  | Any_bool x, Any_bool y => Some (Bool.eqb x y)
  | Any_float64 x, Any_float64 y => Some (SFeqb x y)
  | Any_string x, Any_string y => Some (bool_decide (x = y))
  | Any_slice _, Any_slice _ => None
  | Any_map _, Any_map _ => None
  | _, _ => Some false
  end.

Fixpoint maps_Equal_loop (m1 m2 : list (string * any)) : option bool :=
  match m1 with
  | [] => Some true
  | (k, v1) :: m1 =>
      match assoc k m2 with
      | None => Some false
      | Some v2 =>
          match iface_eq v1 v2 with
          | None => None
          | Some false => Some false
          | Some true => maps_Equal_loop m1 m2
          end
      end
  end.

(** [maps.Equal] of package maps; [None] is a panic. *)
Definition maps_Equal (m1 m2 : args_map) : option bool :=
  if Nat.eqb (length (entries m1)) (length (entries m2))
  then maps_Equal_loop (entries m1) (entries m2)
  else Some false.

(** Values that [==] can compare without panicking. *)
Definition comparable (a : any) : bool :=
  match a with Any_slice _ | Any_map _ => false | _ => true end.

(** ** Facts *)

(** Two comparable values are never compared with a panic, and [==] agrees
    with [DeepEqual] on them. *)
Lemma iface_eq_comparable a b :
  comparable a = true -> iface_eq a b = Some (DeepEqual a b).
Proof. by destruct a, b. Qed.

Lemma iface_eq_panics a b :
  iface_eq a b = None <->
  (exists l l', a = Any_slice l /\ b = Any_slice l') \/
  (exists m m', a = Any_map m /\ b = Any_map m').
Proof.
  split; [destruct a, b; simpl; intros [=]; eauto 6|].
  by intros [(l & l' & -> & ->)|(m & m' & -> & ->)].
Qed.

(** On scalar members [maps.Equal] is total, and it is deep equality. *)
Lemma maps_Equal_comparable m1 m2 :
  Forall (fun kv => comparable kv.2 = true) (entries m1) ->
  maps_Equal m1 m2 = Some (DeepEqual (Any_map (entries m1)) (Any_map (entries m2))).
Proof.
  intros H. unfold maps_Equal. simpl.
  destruct (Nat.eqb (length (entries m1)) (length (entries m2))); simpl; [|done].
  clear -H. induction H as [|[k v] l Hv Hl IH]; simpl; [done|].
  destruct (assoc k (entries m2)) as [v'|]; [|done].
  rewrite iface_eq_comparable by done.
  by destruct (DeepEqual v v').
Qed.
