(* ===== verification/GoUrl.v ===== *)
(** * Go package net/url

    The scheme that [url.Parse] finds, and the text that [URL.String] prints for
    a URL made of a scheme, a host and a path. *)

From S2P Require Import Prelude.
From S2P Require Import GoStrings.
From Stdlib Require Import Ascii.

Definition byte (c : ascii) : nat := nat_of_ascii c.
Definition in_range (lo hi : nat) (c : ascii) : bool :=
  Nat.leb lo (byte c) && Nat.leb (byte c) hi.

Definition is_lower (c : ascii) : bool := in_range 97 122 c.
Definition is_upper (c : ascii) : bool := in_range 65 90 c.
Definition is_digit (c : ascii) : bool := in_range 48 57 c.
Definition is_alpha (c : ascii) : bool := is_lower c || is_upper c.

Definition one_of (s : string) (c : ascii) : bool := contains s c.

(** ** [getScheme] of package net/url: a letter, then letters, digits, [+-.],
    up to a colon; a URL without such a start has the empty scheme. *)

Fixpoint scheme_rest (acc s : string) : string :=
  match s with
  | "" => ""
  | String c s' =>
      if is_alpha c || is_digit c || one_of "+-." c
      then scheme_rest (acc +:+ String c "") s'
      else if Ascii.eqb c ":" then acc else ""
  end.

Definition getScheme (s : string) : string :=
  match s with
  | String c s' => if is_alpha c then scheme_rest (String c "") s' else ""
  | "" => ""
  end.

(** [parsed.Scheme]: Parse lowers it. *)
Definition url_scheme (s : string) : string := ToLower (getScheme s).

(** ** [URL.String] *)

Definition hex_digit (n : nat) : ascii :=
  if Nat.ltb n 10 then ascii_of_nat (48 + n) else ascii_of_nat (55 + n).

Definition percent (c : ascii) : string :=
  String "%" (String (hex_digit (byte c / 16)) (String (hex_digit (byte c mod 16)) "")).

(** [shouldEscape] in the modes encodeHost and encodePath. *)
Definition unreserved (c : ascii) : bool :=
  is_alpha c || is_digit c || one_of "-_.~" c.
Definition escape_in_host (c : ascii) : bool :=
  negb (unreserved c || one_of "!$&'()*+,;=:[]<>" c || Ascii.eqb c "034").
Definition escape_in_path (c : ascii) : bool :=
  negb (unreserved c || one_of "$&+,/:;=@" c).

Fixpoint escape (must : ascii -> bool) (s : string) : string :=
  match s with
  | "" => ""
  | String c s' => (if must c then percent c else String c "") +:+ escape must s'
  end.

(** [EscapedPath] of a URL without a [RawPath]. *)
Definition EscapedPath (path : string) : string :=
  if bool_decide (path = "*") then "*" else escape escape_in_path path.

(** [URL.String] of a URL with only a scheme, a host and a path, the scheme and
    the host not empty. *)
Definition url_String (scheme host path : string) : string :=
  let p := EscapedPath path in
  let slash := match p with
               | "" => ""
               | String c _ => if Ascii.eqb c "/" then "" else "/"
               end in
  scheme +:+ "://" +:+ escape escape_in_host host +:+ slash +:+ p.

(** ** Facts *)

Lemma scheme_http t : url_scheme ("http://" +:+ t) = "http".
Proof. done. Qed.

Lemma scheme_https t : url_scheme ("https://" +:+ t) = "https".
Proof. done. Qed.

Lemma escape_id must s :
  (forall c, contains s c = true -> must c = false) -> escape must s = s.
Proof.
  induction s as [|c s IH]; simpl; intros Hs; [done|].
  rewrite Hs by (by rewrite Ascii.eqb_refl). simpl. f_equal.
  apply IH. intros d Hd. apply Hs. by rewrite Hd, orb_true_r.
Qed.
