(* ===== verification/GoConv.v ===== *)
(** * Conversions of text (Go packages strconv, strings and time)

    [strconv.ParseInt], [Atoi] and [ParseBool], [strings.TrimSpace] and
    [time.ParseDuration], as main.go uses them on the environment.  An error is
    [None]: main.go only logs it. *)

From S2P Require Import Prelude.
From S2P Require Import GoStrings.
From S2P Require Import GoUrl.
From Stdlib Require Import Ascii SpecFloat.

(** ** Integers *)

(** Two's complement of width 64: [int64] and [int]. *)
Definition int64_of (z : Z) : Z := ((z + 2 ^ 63) mod 2 ^ 64 - 2 ^ 63)%Z.

Definition digit_val (c : ascii) : Z := Z.of_nat (byte c) - 48.

Fixpoint digits (acc : Z) (s : string) : option Z :=
  match s with
  | "" => Some acc
  | String c s => if is_digit c then digits (acc * 10 + digit_val c) s else None
  end.

(** An optional sign: whether it is a minus, and the rest. *)
Definition signed (s : string) : bool * string :=
  match s with
  | String "+" t => (false, t)
  | String "-" t => (true, t)
  | _ => (false, s)
  end.

(** An optional sign, then at least one digit, in the range of [int64]. *)
Definition ParseInt (s : string) : option Z :=
  let '(neg, t) := signed s in
  if bool_decide (t = "") then None
  else match digits 0 t with
       | Some un =>
           if neg then (if (un <=? 2 ^ 63)%Z then Some (- un)%Z else None)
           else (if (un <? 2 ^ 63)%Z then Some un else None)
       | None => None
       end.

(** [Atoi]: [int] has 64 bits. *)
Definition Atoi (s : string) : option Z := ParseInt s.

Definition ParseBool (s : string) : option bool :=
  if bool_decide (s ∈ ["1"; "t"; "T"; "TRUE"; "true"; "True"]) then Some true
  else if bool_decide (s ∈ ["0"; "f"; "F"; "FALSE"; "false"; "False"]) then Some false
  else None.

(** ** [strings.TrimSpace] *)

Definition utf8 (bytes : list nat) : string :=
  foldr (fun n s => String (ascii_of_nat n) s) "" bytes.

(** The UTF-8 encodings of the characters with property White_Space. *)
Definition white_space : list string :=
  utf8 <$> ((fun n => [n]) <$> [9; 10; 11; 12; 13; 32]) ++
    [[194; 133]; [194; 160]; [225; 154; 128]] ++
    ((fun n => [226; 128; n]) <$> seq 128 11 ++ [168; 169; 175]) ++
    [[226; 129; 159]; [227; 128; 128]].

Fixpoint string_rev (s : string) : string :=
  match s with "" => "" | String c s => string_rev s +:+ String c "" end.

(** Remove the encodings [ws] from the front, at most [fuel] times; an encoding
    is not empty, so the length of the text is enough. *)
Fixpoint trim_front (fuel : nat) (ws : list string) (s : string) : string :=
  match fuel with
  | O => s
  | S fuel =>
      match List.find (HasPrefix s) ws with
      | Some w => trim_front fuel ws (TrimPrefix s w)
      | None => s
      end
  end.

Definition TrimSpace (s : string) : string :=
  let left := trim_front (String.length s) white_space s in
  string_rev (trim_front (String.length left) (string_rev <$> white_space) (string_rev left)).

(** ** [time.ParseDuration]

    A fraction is scaled in binary64 arithmetic; [SpecFloat] computes it. *)

Definition f64_of_Z (z : Z) : spec_float := binary_normalize 53 1024 z 0 false.
Definition f64_mul : spec_float -> spec_float -> spec_float := SFmul 53 1024.
Definition f64_div : spec_float -> spec_float -> spec_float := SFdiv 53 1024.

(** [uint64(f)] of a finite number that is not negative. *)
Definition f64_to_Z (f : spec_float) : Z :=
  match f with
  | S754_finite _ m e => if (0 <=? e)%Z then (Zpos m * 2 ^ e)%Z else (Zpos m / 2 ^ (- e))%Z
  | _ => 0%Z
  end.

(** The digits at the front as a number up to 2^63, and the rest. *)
Fixpoint leadingInt (x : Z) (s : string) : option (Z * string) :=
  match s with
  | String c s' =>
      if is_digit c then
        if (2 ^ 63 / 10 <? x)%Z then None
        else let x := (x * 10 + digit_val c)%Z in
             if (2 ^ 63 <? x)%Z then None else leadingInt x s'
      else Some (x, s)
  | "" => Some (x, "")
  end.

(** The digits after the point: as many as fit, and the power of ten. *)
Fixpoint leadingFraction (x : Z) (scale : spec_float) (overflow : bool) (s : string) :
    Z * spec_float * string :=
  match s with
  | String c s' =>
      if is_digit c then
        if overflow || ((2 ^ 63 - 1) / 10 <? x)%Z then leadingFraction x scale true s'
        else let y := (x * 10 + digit_val c)%Z in
             if (2 ^ 63 <? y)%Z then leadingFraction x scale true s'
             else leadingFraction y (f64_mul scale (f64_of_Z 10)) false s'
      else (x, scale, s)
  | "" => (x, scale, "")
  end.

Fixpoint leadingUnit (s : string) : string * string :=
  match s with
  | String c s' =>
      if is_digit c || Ascii.eqb c "." then ("", s)
      else let '(u, rest) := leadingUnit s' in (String c u, rest)
  | "" => ("", "")
  end.

Definition unitMap : gmap string Z :=
  list_to_map [("ns", 1%Z); ("us", 1000%Z);
    (utf8 [194; 181; 115], 1000%Z); (utf8 [206; 188; 115], 1000%Z);
    ("ms", 1000000%Z); ("s", 1000000000%Z); ("m", 60000000000%Z); ("h", 3600000000000%Z)].

(** One number with its unit: its nanoseconds and the rest of the text. *)
Definition parseElement (s : string) : option (Z * string) :=
  match leadingInt 0 s with
  | None => None
  | Some (v, s1) =>
      let pre := negb (Nat.eqb (String.length s) (String.length s1)) in
      let '(f, scale, post, s2) :=
        match s1 with
        | String "." t =>
            let '(f, scale, t') := leadingFraction 0 (f64_of_Z 1) false t in
            (f, scale, negb (Nat.eqb (String.length t) (String.length t')), t')
        | _ => (0%Z, f64_of_Z 1, false, s1)
        end in
      if negb pre && negb post then None
      else
        let '(u, rest) := leadingUnit s2 in
        match unitMap !! u with
        | None => None
        | Some unit =>
            if (2 ^ 63 / unit <? v)%Z then None
            else
              let v := (v * unit)%Z in
              let v := if (0 <? f)%Z
                       then (v + f64_to_Z (f64_mul (f64_of_Z f) (f64_div (f64_of_Z unit) scale)))%Z
                       else v in
              if (2 ^ 63 <? v)%Z then None else Some (v, rest)
        end
  end.

(** Every element consumes at least one byte, so the length is enough fuel. *)
Fixpoint parseElements (fuel : nat) (d : Z) (s : string) : option Z :=
  match s with
  | "" => Some d
  | _ =>
      match fuel with
      | O => None
      | S fuel =>
          match parseElement s with
          | Some (v, rest) =>
              let d := (d + v)%Z in
              if (2 ^ 63 <? d)%Z then None else parseElements fuel d rest
          | None => None
          end
      end
  end.

Definition ParseDuration (s : string) : option Z :=
  let '(neg, t) := signed s in
  if bool_decide (t = "0") then Some 0%Z
  else if bool_decide (t = "") then None
  else match parseElements (String.length t) 0 t with
       | Some d => if neg then Some (int64_of (- d))
                   else if (2 ^ 63 - 1 <? d)%Z then None else Some d
       | None => None
       end.

(** ** Facts *)

Lemma int64_of_range z : (- 2 ^ 63 <= int64_of z < 2 ^ 63)%Z.
Proof. unfold int64_of. Z.div_mod_to_equations; lia. Qed.

Lemma int64_of_id z : (- 2 ^ 63 <= z < 2 ^ 63)%Z -> int64_of z = z.
Proof. unfold int64_of. Z.div_mod_to_equations; lia. Qed.

Lemma int64_of_congr z : ((int64_of z - z) mod 2 ^ 64 = 0)%Z.
Proof. unfold int64_of. Z.div_mod_to_equations; lia. Qed.

Lemma ParseInt_range s z : ParseInt s = Some z -> (- 2 ^ 63 <= z < 2 ^ 63)%Z.
Proof.
  assert (Hd : forall t acc un, (0 <= acc)%Z -> digits acc t = Some un -> (0 <= un)%Z).
  { induction t as [|c t IH]; simpl; intros acc un Hacc E; [by simplify_eq|].
    destruct (is_digit c) eqn:Ec; [|done]. refine (IH _ _ _ E).
    unfold is_digit, in_range in Ec. apply andb_true_iff in Ec as [Ec _].
    apply Nat.leb_le in Ec. unfold digit_val. lia. }
  unfold ParseInt. intros E.
  destruct (signed s) as [neg t].
  case_bool_decide; [done|]. destruct (digits 0 t) as [un|] eqn:Eu; [|done].
  pose proof (Hd t 0%Z un ltac:(lia) Eu).
  destruct neg, (un <=? 2 ^ 63)%Z eqn:E1, (un <? 2 ^ 63)%Z eqn:E2; simplify_eq; lia.
Qed.
