(* ===== verification/GoJson.v ===== *)
(** * Go package encoding/json

    [json.Unmarshal] of a document into a [map[string]any] variable: the grammar,
    the texts of strings, numbers as correctly rounded binary64, the nesting
    limit, the last of several members with one name, and the nil map for
    [null].  Which document is refused is modelled, the wording of the error is
    not. *)

From S2P Require Import Prelude.
From S2P Require Import GoStrings.
From S2P Require Import GoUrl.
From S2P Require Import GoConv.
From S2P Require Import Values.
From Stdlib Require Import Ascii SpecFloat.

Definition is_space (c : ascii) : bool :=
  Nat.eqb (byte c) 32 || Nat.eqb (byte c) 9 || Nat.eqb (byte c) 10 || Nat.eqb (byte c) 13.

Fixpoint skip_space (s : string) : string :=
  match s with
  | String c s' => if is_space c then skip_space s' else s
  | "" => ""
  end.

(** What follows the byte [c], if the text starts with it. *)
Definition after (c : ascii) (s : string) : option string :=
  match s with
  | String d t => if Ascii.eqb d c then Some t else None
  | "" => None
  end.

(** ** Strings *)

(** A string literal is a sequence of bytes and of code units ([\uXXXX]). *)
Inductive item := Raw (c : ascii) | Unit (n : Z).

Definition hex_val (c : ascii) : option Z :=
  if is_digit c then Some (digit_val c)
  else if in_range 97 102 c then Some (Z.of_nat (byte c) - 87)%Z
  else if in_range 65 70 c then Some (Z.of_nat (byte c) - 55)%Z
  else None.

Definition hex4 (a b c d : ascii) : option Z :=
  match hex_val a, hex_val b, hex_val c, hex_val d with
  | Some a, Some b, Some c, Some d => Some (((a * 16 + b) * 16 + c) * 16 + d)%Z
  | _, _, _, _ => None
  end.

(** The byte that a backslash and one letter stand for. *)
Definition escaped (c : ascii) : option ascii :=
  if one_of (String "034" (String "092" "/")) c then Some c
  else if Ascii.eqb c "b" then Some "008"%char
  else if Ascii.eqb c "f" then Some "012"%char
  else if Ascii.eqb c "n" then Some "010"%char
  else if Ascii.eqb c "r" then Some "013"%char
  else if Ascii.eqb c "t" then Some "009"%char
  else None.

Definition cons_item (i : item) (r : option (list item * string)) : option (list item * string) :=
  match r with Some (l, rest) => Some (i :: l, rest) | None => None end.

(** The items up to the closing quote, and what follows it. *)
Fixpoint string_items (s : string) : option (list item * string) :=
  match s with
  | "" => None
  | String c s1 =>
      if Ascii.eqb c "034" then Some ([], s1)
      else if Ascii.eqb c "092" then
        match s1 with
        | String e s2 =>
            if Ascii.eqb e "u" then
              match s2 with
              | String h1 (String h2 (String h3 (String h4 s3))) =>
                  match hex4 h1 h2 h3 h4 with
                  | Some n => cons_item (Unit n) (string_items s3)
                  | None => None
                  end
              | _ => None
              end
            else match escaped e with
                 | Some b => cons_item (Raw b) (string_items s2)
                 | None => None
                 end
        | "" => None
        end
      else if Nat.ltb (byte c) 32 then None
      else cons_item (Raw c) (string_items s1)
  end.

Definition bytes_of (l : list Z) : string :=
  foldr (fun n s => String (ascii_of_nat (Z.to_nat n)) s) "" l.

(** The UTF-8 encoding of a code point, and that of U+FFFD. *)
Definition encode_rune (n : Z) : string :=
  bytes_of
    (if (n <? 128)%Z then [n]
     else if (n <? 2048)%Z then [192 + n / 64; 128 + n mod 64]
     else if (n <? 65536)%Z then [224 + n / 4096; 128 + n / 64 mod 64; 128 + n mod 64]
     else [240 + n / 262144; 128 + n / 4096 mod 64; 128 + n / 64 mod 64; 128 + n mod 64])%Z.
Definition replacement : string := bytes_of [239; 191; 189]%Z.

Definition raw_in (lo hi : nat) (l : list item) : bool :=
  match l with Raw c :: _ => in_range lo hi c | _ => false end.

(** The number of continuation bytes when a valid encoding starts with [c], whose
    value is at least 128, followed by [l]. *)
Definition continuation (c : ascii) (l : list item) : option nat :=
  let cont (n : nat) := raw_in 128 191 (drop n l) in
  let b := byte c in
  if in_range 194 223 c then (if cont 0 then Some 1 else None)
  else if in_range 224 239 c then
    let first := if Nat.eqb b 224 then raw_in 160 191 l
                 else if Nat.eqb b 237 then raw_in 128 159 l else cont 0 in
    (if first && cont 1 then Some 2 else None)
  else if in_range 240 244 c then
    let first := if Nat.eqb b 240 then raw_in 144 191 l
                 else if Nat.eqb b 244 then raw_in 128 143 l else cont 0 in
    (if first && cont 1 && cont 2 then Some 3 else None)
  else None.

(** The text: invalid bytes and lone surrogates become U+FFFD.  The first [skip]
    items are continuation bytes; [high] is a surrogate that may be the first of
    a pair. *)
Fixpoint unquote (skip : nat) (high : option Z) (l : list item) : string :=
  let pending := match high with Some _ => replacement | None => "" end in
  match l with
  | [] => pending
  | Raw c :: l' =>
      pending +:+
      match skip with
      | S skip => String c (unquote skip None l')
      | O =>
          if Nat.ltb (byte c) 128 then String c (unquote 0 None l')
          else match continuation c l' with
               | Some n => String c (unquote n None l')
               | None => replacement +:+ unquote 0 None l'
               end
      end
  | Unit n :: l' =>
      let low := ((56320 <=? n) && (n <? 57344))%Z in
      match high with
      | Some h =>
          if low then encode_rune (65536 + (h - 55296) * 1024 + (n - 56320)) +:+ unquote 0 None l'
          else if ((55296 <=? n) && (n <? 56320))%Z then replacement +:+ unquote 0 (Some n) l'
          else replacement +:+ encode_rune n +:+ unquote 0 None l'
      | None =>
          if ((55296 <=? n) && (n <? 56320))%Z then unquote 0 (Some n) l'
          else if low then replacement +:+ unquote 0 None l'
          else encode_rune n +:+ unquote 0 None l'
      end
  end.

(** After the opening quote. *)
Definition parse_string (s : string) : option (string * string) :=
  match string_items s with
  | Some (items, rest) => Some (unquote 0 None items, rest)
  | None => None
  end.

(** ** Numbers *)

Fixpoint span_digits (s : string) : string * string :=
  match s with
  | String c s' =>
      if is_digit c then let '(d, rest) := span_digits s' in (String c d, rest) else ("", s)
  | "" => ("", "")
  end.

(** [m * 10^e], rounded to binary64; [None] when it is too large.  [len] bounds
    the number of digits of [m]. *)
Definition decimal_f64 (neg : bool) (m e len : Z) : option spec_float :=
  if (m =? 0)%Z then Some (S754_zero neg)
  else if (400 <? e)%Z then None
  else if (len + e <? -400)%Z then Some (S754_zero neg)
  else
    let f :=
      if (0 <=? e)%Z then
        match (m * 10 ^ e)%Z with Zpos p => binary_round 53 1024 neg p 0 | _ => S754_zero neg end
      else
        let '(q, e', l) := SFdiv_core_binary 53 1024 m 0 (10 ^ (- e)) 0 in
        binary_round_aux 53 1024 neg q e' l in
    match f with S754_infinity _ => None | _ => Some f end.

(** The optional part after the point, and the optional exponent. *)
Definition parse_fraction (s : string) : option (string * string) :=
  match after "." s with
  | Some t =>
      let '(d, rest) := span_digits t in
      if bool_decide (d = "") then None else Some (d, rest)
  | None => Some ("", s)
  end.

Definition parse_exponent (s : string) : option (Z * string) :=
  match s with
  | String c t =>
      if one_of "eE" c then
        let '(neg, t) := signed t in
        let '(d, rest) := span_digits t in
        match d, digits 0 d with
        | String _ _, Some n => Some ((if neg then - n else n)%Z, rest)
        | _, _ => None
        end
      else Some (0%Z, s)
  | "" => Some (0%Z, "")
  end.

Definition parse_number (s : string) : option (spec_float * string) :=
  let '(neg, s) := match after "-" s with Some t => (true, t) | None => (false, s) end in
  let '(int, s) := span_digits s in
  if bool_decide (int = "") || (HasPrefix int "0" && negb (bool_decide (int = "0"))) then None
  else
    match parse_fraction s with
    | None => None
    | Some (frac, s) =>
        match parse_exponent s, digits 0 (int +:+ frac) with
        | Some (e, rest), Some m =>
            let len := Z.of_nat (String.length (int +:+ frac)) in
            match decimal_f64 neg m (e - Z.of_nat (String.length frac)) len with
            | Some f => Some (f, rest)
            | None => None
            end
        | _, _ => None
        end
    end.

(** ** Values *)

Definition maxNestingDepth : Z := 10000.

(** [m[key] = v] *)
Fixpoint set_member (key : string) (v : any) (m : list (string * any)) : list (string * any) :=
  match m with
  | [] => [(key, v)]
  | (k, w) :: m => if bool_decide (k = key) then (k, v) :: m else (k, w) :: set_member key v m
  end.

(** Between two calls of one of the three functions at least one byte is consumed:
    twice the length of the text is enough fuel ([parse_value_fuel] in GoJsonProofs.v). *)
Fixpoint parse_value (fuel : nat) (depth : Z) (s : string) : option (any * string) :=
  match fuel with
  | O => None
  | S fuel =>
      let s := skip_space s in
      match s with
      | "" => None
      | String c t =>
          if Ascii.eqb c "{" then
            if (maxNestingDepth <=? depth)%Z then None
            else match after "}" (skip_space t) with
                 | Some t => Some (Any_map [], t)
                 | None => parse_members fuel (depth + 1) [] t
                 end
          else if Ascii.eqb c "[" then
            if (maxNestingDepth <=? depth)%Z then None
            else match after "]" (skip_space t) with
                 | Some t => Some (Any_slice [], t)
                 | None => parse_elements fuel (depth + 1) [] t
                 end
          else if Ascii.eqb c "034" then
            match parse_string t with
            | Some (text, rest) => Some (Any_string text, rest)
            | None => None
            end
          else if HasPrefix s "true" then Some (Any_bool true, TrimPrefix s "true")
          else if HasPrefix s "false" then Some (Any_bool false, TrimPrefix s "false")
          else if HasPrefix s "null" then Some (Any_nil, TrimPrefix s "null")
          else match parse_number s with
               | Some (f, rest) => Some (Any_float64 f, rest)
               | None => None
               end
      end
  end
with parse_members (fuel : nat) (depth : Z) (acc : list (string * any)) (s : string) :
    option (any * string) :=
  match fuel with
  | O => None
  | S fuel =>
      match after "034" (skip_space s) with
      | None => None
      | Some t =>
          match parse_string t with
          | None => None
          | Some (key, t) =>
              match after ":" (skip_space t) with
              | None => None
              | Some t =>
                  match parse_value fuel depth t with
                  | None => None
                  | Some (v, t) =>
                      let acc := set_member key v acc in
                      match after "," (skip_space t) with
                      | Some t => parse_members fuel depth acc t
                      | None =>
                          match after "}" (skip_space t) with
                          | Some t => Some (Any_map acc, t)
                          | None => None
                          end
                      end
                  end
              end
          end
      end
  end
with parse_elements (fuel : nat) (depth : Z) (acc : list any) (s : string) :
    option (any * string) :=
  match fuel with
  | O => None
  | S fuel =>
      match parse_value fuel depth s with
      | None => None
      | Some (v, t) =>
          match after "," (skip_space t) with
          | Some t => parse_elements fuel depth (acc ++ [v]) t
          | None =>
              match after "]" (skip_space t) with
              | Some t => Some (Any_slice (acc ++ [v]), t)
              | None => None
              end
          end
      end
  end.

(** The whole document as one value; only an object or null fits a map. *)
Definition json_decode (doc : string) : option args_map :=
  match parse_value (S (2 * String.length doc)) 0 doc with
  | Some (v, rest) =>
      if bool_decide (skip_space rest = "") then
        match v with
        | Any_map m => Some (Some m)
        | Any_nil => Some None
        | _ => None
        end
      else None
  | None => None
  end.
