(* ===== verification/GoJsonProofs.v ===== *)
(** * Facts about the JSON decoder

    The fuel of the decoder is enough, integers below 2^53 are decoded exactly,
    and what the operator itself writes is read back. *)

From S2P Require Import Prelude.
From S2P Require Import GoStrings.
From S2P Require Import GoUrl.
From S2P Require Import GoConv.
From S2P Require Import Values.
From S2P Require Import GoJson.
From stdpp Require Import pretty.
From Stdlib Require Import Ascii SpecFloat.

(** ** Exact integers *)

Lemma digits2_pos_spec p :
  (2 ^ (Zpos (digits2_pos p) - 1) <= Zpos p < 2 ^ Zpos (digits2_pos p))%Z.
Proof.
  induction p as [p IH|p IH|]; cbn [digits2_pos]; [| |by vm_compute].
  all: rewrite Pos2Z.inj_succ, Z.pow_succ_r by lia.
  all: replace (Z.succ (Zpos (digits2_pos p)) - 1)%Z
         with (Z.succ (Zpos (digits2_pos p) - 1))%Z by lia.
  all: rewrite Z.pow_succ_r by lia; lia.
Qed.

Lemma iter_xO_value p d : (Zpos (Pos.iter xO p d) = Zpos p * 2 ^ Zpos d)%Z.
Proof.
  induction d as [|d IH] using Pos.peano_ind; [simpl; lia|].
  rewrite Pos.iter_succ, Pos2Z.inj_succ, Z.pow_succ_r by lia.
  rewrite Pos2Z.inj_xO, IH. ring.
Qed.

Lemma iter_xO_digits p d : digits2_pos (Pos.iter xO p d) = (digits2_pos p + d)%positive.
Proof.
  induction d as [|d IH] using Pos.peano_ind; simpl; [lia|].
  rewrite Pos.iter_succ. cbn [digits2_pos]. lia.
Qed.

(** A mantissa of 53 bits is not rounded. *)
Lemma round_aux_exact m e :
  digits2_pos m = 53%positive -> (-1074 <= e <= 971)%Z ->
  binary_round_aux 53 1024 false (Zpos m) e loc_Exact = S754_finite false m e.
Proof.
  intros Hm He.
  assert (Hs : forall l, shr_fexp 53 1024 (Zpos m) e l = (shr_record_of_loc (Zpos m) l, e)).
  { intros l. unfold shr_fexp, fexp, emin. cbn [Zdigits2]. rewrite Hm.
    replace (Z.max _ _ - e)%Z with 0%Z by lia. done. }
  unfold binary_round_aux. rewrite Hs. cbn [shr_record_of_loc loc_of_shr_record shr_m round_nearest_even].
  rewrite Hs. cbn [shr_record_of_loc shr_m]. by rewrite (proj2 (Z.leb_le e (1024 - 53))) by lia.
Qed.

Lemma binary_round_exact p :
  (Zpos p < 2 ^ 53)%Z ->
  exists m e, binary_round 53 1024 false p 0 = S754_finite false m e /\
    f64_to_Z (S754_finite false m e) = Zpos p.
Proof.
  intros Hp. pose proof (digits2_pos_spec p) as Hd. set (d := Zpos (digits2_pos p)) in *.
  assert (Hd53 : (1 <= d <= 53)%Z).
  { split; [lia|]. destruct (Z.le_gt_cases d 53) as [|Hgt]; [done|exfalso].
    assert (2 ^ 53 <= 2 ^ (d - 1))%Z by (apply Z.pow_le_mono_r; lia). lia. }
  unfold binary_round, shl_align, fexp, emin. fold d.
  replace (Z.max (d + 0 - 53) (3 - 1024 - 53) - 0)%Z with (d - 53)%Z by lia.
  replace (Z.max (d + 0 - 53) (3 - 1024 - 53))%Z with (d - 53)%Z by lia.
  destruct (d - 53)%Z as [|k|k] eqn:E; [|lia|].
  - exists p, 0%Z. rewrite round_aux_exact by (unfold d in *; lia).
    split; [done|]. simpl. lia.
  - exists (Pos.iter xO p k), (Zneg k). rewrite round_aux_exact.
    + split; [done|]. simpl. rewrite iter_xO_value. apply Z.div_mul. lia.
    + rewrite iter_xO_digits. unfold d in *. lia.
    + unfold d in *. lia.
Qed.

Lemma decimal_f64_exact n len :
  (0 <= n < 2 ^ 53)%Z -> (0 <= len)%Z ->
  exists f, decimal_f64 false n 0 len = Some f /\ f64_to_Z f = n.
Proof.
  intros Hn Hlen. unfold decimal_f64. destruct (Z.eqb_spec n 0) as [->|Hne].
  { by exists (S754_zero false). }
  rewrite (proj2 (Z.ltb_ge 400 0)) by lia. rewrite (proj2 (Z.ltb_ge (len + 0) (-400))) by lia.
  cbn [Z.leb Z.compare]. rewrite Z.mul_1_r. destruct n as [|p|p]; [done| |lia].
  destruct (binary_round_exact p) as (m & e & -> & Hf); [lia|]. eauto.
Qed.

(** ** Decimal digits *)

Definition all_digits (s : string) : Prop := forall c, contains s c = true -> is_digit c = true.

Lemma span_digits_app d rest :
  all_digits d -> (forall c t, rest = String c t -> is_digit c = false) ->
  span_digits (d +:+ rest) = (d, rest).
Proof.
  intros Hd Hrest. induction d as [|c d IH]; simpl.
  - destruct rest as [|c t]; [done|]. simpl. by rewrite (Hrest c t).
  - rewrite Hd by (simpl; by rewrite Ascii.eqb_refl). rewrite IH; [done|].
    intros c' Hc'. apply Hd. simpl. by rewrite Hc', orb_true_r.
Qed.

Lemma pretty_char_spec x :
  (x < 10)%N -> is_digit (pretty_N_char x) = true /\ digit_val (pretty_N_char x) = Z.of_N x /\
    (x <> 0%N -> pretty_N_char x <> "0"%char).
Proof.
  intros Hx. destruct x as [|p]; [done|].
  do 4 (try (destruct p as [p|p|]; [..|done])); first [lia|by vm_compute|split; done].
Qed.

Lemma pretty_go_spec x s :
  exists d, pretty_N_go x s = d +:+ s /\ all_digits d /\
    (x <> 0%N -> exists c t, d = String c t /\ c <> "0"%char) /\
    (x = 0%N -> d = "") /\
    (forall acc rest, digits acc (d +:+ rest) =
       digits (acc * 10 ^ Z.of_nat (String.length d) + Z.of_N x) rest).
Proof.
  revert s. induction (N.lt_wf_0 x) as [x _ IH]. intros s.
  destruct (N.eq_dec x 0%N) as [->|Hx].
  { exists "". rewrite pretty_N_go_0. split_and!; [done..|]. intros. simpl. f_equal. lia. }
  rewrite pretty_N_go_step by lia.
  destruct (IH (x `div` 10)%N) with (s := String (pretty_N_char (x `mod` 10)%N) s)
    as (d & -> & Hd & Hne & Hz & Hv); [apply N.div_lt; lia|].
  destruct (pretty_char_spec (x `mod` 10)%N) as (Hc1 & Hc2 & Hc3); [by apply N.mod_lt|].
  set (c := pretty_N_char (x `mod` 10)%N) in *. exists (d +:+ String c "").
  split; [by rewrite string_app_assoc|]. split; [|split; [|split; [lia|]]].
  - intros c' Hc'. rewrite contains_app in Hc'. simpl in Hc'. rewrite orb_false_r in Hc'.
    apply orb_true_iff in Hc' as [Hc'|Hc'%Ascii.eqb_eq]; [by apply Hd|by subst].
  - intros _. destruct (N.eq_dec (x `div` 10) 0)%N as [E|E].
    + rewrite Hz by done. exists c, "". split; [done|]. apply Hc3. intros E'.
      pose proof (N.div_mod x 10 ltac:(done)). lia.
    + destruct (Hne E) as (c' & t & -> & Hc'). by exists c', (t +:+ String c "").
  - intros acc rest. rewrite string_app_assoc. cbn [String.append]. rewrite Hv. simpl. rewrite Hc1.
    f_equal. rewrite Hc2.
    assert (Hlen : String.length (d +:+ String c "") = S (String.length d)).
    { clear. induction d as [|a d IHd]; simpl; [done|]. by rewrite IHd. }
    rewrite Hlen, Nat2Z.inj_succ, Z.pow_succ_r by lia.
    pose proof (N.div_mod x 10 ltac:(done)). lia.
Qed.

Lemma digits_app_empty acc d : digits acc (d +:+ "") = digits acc d.
Proof. by rewrite string_app_nil_r. Qed.

(** The decimal form of a number: digits, no leading zero, and its value. *)
Lemma Itoa_spec (n : nat) :
  let d := Itoa (Z.of_nat n) in
  all_digits d /\ (exists c t, d = String c t /\ (c = "0"%char -> t = "")) /\
  digits 0 d = Some (Z.of_nat n).
Proof.
  cbv zeta. destruct n as [|n].
  { change (Itoa (Z.of_nat 0)) with "0". split_and!; [|by exists "0"%char, ""|done].
    intros c Hc. cbn [contains] in Hc. rewrite orb_false_r in Hc.
    by apply Ascii.eqb_eq in Hc as <-. }
  unfold Itoa. change (pretty (Z.of_nat (S n))) with (pretty (Npos (Pos.of_succ_nat n))).
  assert (Hgo : pretty (Npos (Pos.of_succ_nat n)) = pretty_N_go (Npos (Pos.of_succ_nat n)) "") by done.
  rewrite Hgo. destruct (pretty_go_spec (Npos (Pos.of_succ_nat n)) "") as (d & -> & Hd & Hne & _ & Hv).
  rewrite string_app_nil_r. split_and!; [done| |].
  - destruct Hne as (c & t & -> & Hc); [done|]. by exists c, t.
  - rewrite <- digits_app_empty, Hv. done.
Qed.

Lemma parse_number_Itoa (n : nat) rest :
  (Z.of_nat n < 2 ^ 53)%Z ->
  exists f, parse_number (Itoa (Z.of_nat n) +:+ String "}" rest) = Some (f, String "}" rest) /\
    f64_to_Z f = Z.of_nat n.
Proof.
  intros Hn. destruct (Itoa_spec n) as (Hd & (c & t & Ed & Hc) & Hv).
  set (d := Itoa (Z.of_nat n)) in *.
  assert (Hminus : c <> "-"%char).
  { intros ->. pose proof (Hd "-"%char) as Hm. rewrite Ed in Hm. simpl in Hm. by discriminate Hm. }
  destruct (decimal_f64_exact (Z.of_nat n) (Z.of_nat (String.length (d +:+ "")))) as (f & Hf & Hfn);
    [lia..|].
  exists f. split; [|done]. unfold parse_number.
  assert (Hsign : after "-" (d +:+ String "}" rest) = None).
  { rewrite Ed. cbn [String.append after]. by rewrite (proj2 (Ascii.eqb_neq _ _) Hminus). }
  rewrite Hsign. rewrite span_digits_app; [|exact Hd|intros ? ? [= <- _]; reflexivity].
  assert (Hlead : bool_decide (d = "") || HasPrefix d "0" && negb (bool_decide (d = "0")) = false).
  { rewrite Ed. rewrite bool_decide_false by done. cbn [orb].
    destruct (HasPrefix (String c t) "0") eqn:E; [|done]. cbn [andb].
    apply HasPrefix_true in E as [t' [= -> _]]. by rewrite Hc. }
  rewrite Hlead. change (parse_fraction (String "}" rest)) with (Some ("", String "}" rest)).
  cbv beta iota. change (parse_exponent (String "}" rest)) with (Some (0%Z, String "}" rest)).
  cbv beta iota. rewrite string_app_nil_r, Hv.
  cbn [String.length]. change (0 - Z.of_nat 0)%Z with 0%Z.
  rewrite string_app_nil_r in Hf. by rewrite Hf.
Qed.

(** ** Plain strings *)

(** Printable ASCII without quotes and backslashes. *)
Definition plain (s : string) : Prop :=
  forall c, contains s c = true -> in_range 32 127 c = true /\ c <> "034"%char /\ c <> "092"%char.

Lemma parse_string_plain s rest : plain s -> parse_string (s +:+ String "034" rest) = Some (s, rest).
Proof.
  intros Hs. unfold parse_string.
  cut (exists items, string_items (s +:+ String "034" rest) = Some (items, rest) /\
         unquote 0 None items = s); [by intros (items & -> & ->)|].
  induction s as [|c s IH]; [by exists []|].
  destruct IH as (items & Hi & Hu); [intros c' Hc'; apply Hs; simpl; by rewrite Hc', orb_true_r|].
  destruct (Hs c) as (Hr & Hq & Hb); [simpl; by rewrite Ascii.eqb_refl|].
  apply andb_true_iff in Hr as [H1%Nat.leb_le H2%Nat.leb_le].
  exists (Raw c :: items). simpl.
  rewrite (proj2 (Ascii.eqb_neq _ _) Hq), (proj2 (Ascii.eqb_neq _ _) Hb).
  rewrite (proj2 (Nat.ltb_ge (byte c) 32)) by done. rewrite Hi, Hu. split; [done|].
  by rewrite (proj2 (Nat.ltb_lt (byte c) 128)) by lia.
Qed.

Lemma parse_members_eq fuel depth acc t :
  parse_members (S fuel) depth acc (String "034" t) =
  match parse_string t with
  | None => None
  | Some (key, t) =>
      match after ":" (skip_space t) with
      | None => None
      | Some t =>
          match parse_value fuel depth t with
          | None => None
          | Some (v, t) =>
              let acc := set_member key v acc in
              match after "," (skip_space t) with
              | Some t => parse_members fuel depth acc t
              | None =>
                  match after "}" (skip_space t) with
                  | Some t => Some (Any_map acc, t)
                  | None => None
                  end
              end
          end
      end
  end.
Proof. reflexivity. Qed.

Lemma parse_value_digit fuel depth c t :
  is_digit c = true ->
  parse_value (S fuel) depth (String " " (String c t)) =
  match parse_number (String c t) with
  | Some (f, rest) => Some (Any_float64 f, rest)
  | None => None
  end.
Proof. destruct c as [[] [] [] [] [] [] [] []]; intros Hc; try discriminate Hc; reflexivity. Qed.

(** An object with one number, as the operator writes it. *)
Lemma decode_single key (n : nat) :
  plain key -> (Z.of_nat n < 2 ^ 53)%Z ->
  exists f, json_decode ("{" +:+ quoted key +:+ ": " +:+ Itoa (Z.of_nat n) +:+ "}") =
      Some (Some [(key, Any_float64 f)]) /\ f64_to_Z f = Z.of_nat n.
Proof.
  intros Hkey Hn. destruct (parse_number_Itoa n "" Hn) as (f & Hf & Hfn). exists f. split; [|done].
  destruct (Itoa_spec n) as (Hd & (c & t & Ed & _) & _).
  assert (Hc : is_digit c = true) by (apply Hd; rewrite Ed; cbn [contains]; by rewrite Ascii.eqb_refl).
  unfold json_decode. set (doc := "{" +:+ _).
  assert (Hdoc : doc = String "{" (String "034" (key +:+ String "034" (String ":" (String " "
            (Itoa (Z.of_nat n) +:+ "}")))))) by (unfold doc, quoted, dquote; by rewrite !string_app_assoc).
  assert (Hfuel : forall fuel, parse_value (S (S (S fuel))) 0 doc =
            Some (Any_map [(key, Any_float64 f)], "")).
  { intros fuel. rewrite Hdoc. transitivity (parse_members (S (S fuel)) 1 [] (String "034"
      (key +:+ String "034" (String ":" (String " " (Itoa (Z.of_nat n) +:+ "}")))))); [reflexivity|].
    rewrite parse_members_eq, parse_string_plain by done.
    change (after ":" (skip_space (String ":" ?a))) with (Some a). cbv beta iota.
    rewrite Ed in *. cbn [String.append] in *. rewrite parse_value_digit by done. by rewrite Hf. }
  assert (Hlen : exists fuel, S (2 * String.length doc) = S (S (S fuel))).
  { rewrite Hdoc. cbn [String.length]. eexists. cbn. reflexivity. }
  destruct Hlen as [fuel ->]. by rewrite Hfuel.
Qed.

(** ** The fuel

    What a parser leaves is no longer than what it was given, so twice the length
    of the text is enough fuel, and more changes nothing. *)

Notation len := String.length.

Lemma skip_space_len s : len (skip_space s) <= len s.
Proof. induction s as [|c s IH]; simpl; [done|]. destruct (is_space c); simpl; lia. Qed.

Lemma after_len c s t : after c s = Some t -> len s = S (len t).
Proof. destruct s as [|d s]; simpl; [done|]. destruct (Ascii.eqb d c); [|done]. by intros [= ->]. Qed.

Lemma after_skip_len c s t : after c (skip_space s) = Some t -> len t < len s.
Proof. intros Ht%after_len. pose proof (skip_space_len s). lia. Qed.

Lemma string_items_len_le n s l t : len s <= n -> string_items s = Some (l, t) -> len t < len s.
Proof.
  revert s l t. induction n as [|n IH]; intros s l t Hn; destruct s as [|c s]; simpl in Hn;
    [done|lia|done|].
  assert (Hcons : forall i s', len s' <= len s ->
    cons_item i (string_items s') = Some (l, t) -> len t < S (len s)).
  { intros i s' Hs'. destruct (string_items s') as [[l' t']|] eqn:E; simpl; [|done].
    intros [= _ ->]. apply IH in E; lia. }
  cbn [string_items]. change (len (String c s)) with (S (len s)).
  destruct (Ascii.eqb c "034"); [intros [= _ ->]; lia|].
  destruct (Ascii.eqb c "092").
  - destruct s as [|e s]; [done|]. destruct (Ascii.eqb e "u").
    + destruct s as [|h1 [|h2 [|h3 [|h4 s]]]]; try done.
      destruct (hex4 h1 h2 h3 h4); [|done]. apply Hcons. simpl. lia.
    + destruct (escaped e); [|done]. apply Hcons. simpl. lia.
  - destruct (Nat.ltb (byte c) 32); [done|]. by apply Hcons.
Qed.

Lemma parse_string_len s x t : parse_string s = Some (x, t) -> len t < len s.
Proof.
  unfold parse_string. destruct (string_items s) as [[l t']|] eqn:E; [|done].
  intros [= _ ->]. by eapply string_items_len_le.
Qed.

Lemma span_digits_len s d t : span_digits s = (d, t) -> len t <= len s.
Proof.
  revert d. induction s as [|c s IH]; intros d; simpl; [by intros [= _ <-]|].
  destruct (is_digit c); [|by intros [= _ <-]].
  destruct (span_digits s) as [d' t'] eqn:E. intros [= _ ->]. apply le_S. by eapply IH.
Qed.

Lemma signed_len s b t : signed s = (b, t) -> len t <= len s.
Proof.
  unfold signed. destruct s as [|c s]; [by intros [= _ <-]|].
  destruct c as [[] [] [] [] [] [] [] []]; intros [= _ <-]; simpl; lia.
Qed.

Lemma parse_number_len s f t : parse_number s = Some (f, t) -> len t <= len s.
Proof.
  unfold parse_number, parse_fraction, parse_exponent.
  destruct (match after "-" s with Some t => (true, t) | None => (false, s) end) as [neg s0] eqn:E0.
  assert (H0 : len s0 <= len s).
  { destruct (after "-" s) eqn:Ea; simplify_eq; [apply after_len in Ea|]; lia. }
  destruct (span_digits s0) as [int s1] eqn:E1. apply span_digits_len in E1.
  destruct (_ || _); [done|].
  destruct (match after "." s1 with Some t0 => _ | None => _ end) as [[frac s2]|] eqn:E2; [|done].
  assert (H2 : len s2 <= len s1).
  { destruct (after "." s1) as [s1'|] eqn:Ea; [|by simplify_eq]. apply after_len in Ea.
    destruct (span_digits s1') as [d r] eqn:Ed. apply span_digits_len in Ed.
    case_bool_decide; simplify_eq. lia. }
  destruct (match s2 with String c t0 => _ | "" => _ end) as [[e s3]|] eqn:E3; [|done].
  assert (H3 : len s3 <= len s2).
  { destruct s2 as [|c s2']; [by simplify_eq|]. destruct (one_of "eE" c); [|by simplify_eq].
    destruct (signed s2') as [b u] eqn:Es. apply signed_len in Es.
    destruct (span_digits u) as [d r] eqn:Ed. apply span_digits_len in Ed.
    destruct d; [done|]. destruct (digits _ _); simplify_eq. simpl. lia. }
  destruct (digits _ _); [|done]. destruct (decimal_f64 _ _ _ _); [|done].
  intros [= _ <-]. lia.
Qed.

Lemma drop_bytes_len n s : len (drop_bytes n s) <= len s.
Proof. revert s. induction n as [|n IH]; intros [|c s]; simpl; try done. specialize (IH s). lia. Qed.

Lemma TrimPrefix_len s p : len (TrimPrefix s p) <= len s.
Proof. unfold TrimPrefix. destruct (HasPrefix s p); [apply drop_bytes_len|done]. Qed.

(** What is left by the three functions is no longer than their text. *)
Definition shrinks (r : option (any * string)) (s : string) : Prop :=
  forall v t, r = Some (v, t) -> len t <= len s.

Lemma shrinks_some v t s : len t <= len s -> shrinks (Some (v, t)) s.
Proof. by intros Hs v' t' [= _ <-]. Qed.
Lemma shrinks_none s : shrinks None s.
Proof. done. Qed.
Lemma shrinks_le r s s' : shrinks r s' -> len s' <= len s -> shrinks r s.
Proof. intros Hr Hs v t Hvt. specialize (Hr v t Hvt). lia. Qed.

Lemma parsers_shrink fuel :
  (forall depth s, shrinks (parse_value fuel depth s) s) /\
  (forall depth acc s, shrinks (parse_members fuel depth acc s) s) /\
  (forall depth acc s, shrinks (parse_elements fuel depth acc s) s).
Proof.
  induction fuel as [|fuel (IHv & IHm & IHe)]; [done|].
  split_and!; intros depth.
  - intros s0. cbn [parse_value]. pose proof (skip_space_len s0) as Hs0.
    destruct (skip_space s0) as [|c t] eqn:Es; [done|]. apply (shrinks_le _ _ (String c t)); [|done].
    assert (Ht : len t <= len (String c t)) by (simpl; lia).
    destruct (Ascii.eqb c "{").
    { destruct (_ <=? _)%Z; [done|]. destruct (after "}" (skip_space t)) eqn:Ea.
      - apply after_skip_len in Ea. apply shrinks_some. lia.
      - by apply (shrinks_le _ _ t). }
    destruct (Ascii.eqb c "[").
    { destruct (_ <=? _)%Z; [done|]. destruct (after "]" (skip_space t)) eqn:Ea.
      - apply after_skip_len in Ea. apply shrinks_some. lia.
      - by apply (shrinks_le _ _ t). }
    destruct (Ascii.eqb c "034").
    { destruct (parse_string t) as [[x r]|] eqn:Ep; [|done]. apply parse_string_len in Ep.
      apply shrinks_some. lia. }
    do 3 (destruct (HasPrefix _ _); [apply shrinks_some, TrimPrefix_len|]).
    destruct (parse_number _) as [[f r]|] eqn:Ep; [|done]. apply shrinks_some.
    by eapply parse_number_len.
  - intros acc s. cbn [parse_members].
    destruct (after "034" (skip_space s)) as [t1|] eqn:E1; [|done]. apply after_skip_len in E1.
    destruct (parse_string t1) as [[key t2]|] eqn:E2; [|done]. apply parse_string_len in E2.
    destruct (after ":" (skip_space t2)) as [t3|] eqn:E3; [|done]. apply after_skip_len in E3.
    destruct (parse_value fuel depth t3) as [[v t4]|] eqn:E4; [|done]. apply IHv in E4.
    cbv zeta. destruct (after "," (skip_space t4)) as [t5|] eqn:E5.
    { apply after_skip_len in E5. apply (shrinks_le _ _ t5); [apply IHm|lia]. }
    destruct (after "}" (skip_space t4)) as [t5|] eqn:E6; [|done]. apply after_skip_len in E6.
    apply shrinks_some. lia.
  - intros acc s. cbn [parse_elements].
    destruct (parse_value fuel depth s) as [[v t4]|] eqn:E4; [|done]. apply IHv in E4.
    destruct (after "," (skip_space t4)) as [t5|] eqn:E5.
    { apply after_skip_len in E5. apply (shrinks_le _ _ t5); [apply IHe|lia]. }
    destruct (after "]" (skip_space t4)) as [t5|] eqn:E6; [|done]. apply after_skip_len in E6.
    apply shrinks_some. lia.
Qed.

(** One more unit of fuel changes nothing when there is enough of it. *)
Lemma parsers_step fuel :
  (forall depth s, 2 * len s < fuel -> parse_value (S fuel) depth s = parse_value fuel depth s) /\
  (forall depth acc s, 2 * len s < fuel ->
     parse_members (S fuel) depth acc s = parse_members fuel depth acc s) /\
  (forall depth acc s, 2 * len s + 1 < fuel ->
     parse_elements (S fuel) depth acc s = parse_elements fuel depth acc s).
Proof.
  induction fuel as [|fuel (IHv & IHm & IHe)]; [split_and!; intros; lia|].
  split_and!; intros depth.
  - intros s0 Hf. cbn [parse_value]. pose proof (skip_space_len s0) as Hs0.
    destruct (skip_space s0) as [|c t] eqn:Es; [done|]. simpl in Hs0.
    destruct (Ascii.eqb c "{").
    { destruct (_ <=? _)%Z; [done|]. destruct (after "}" (skip_space t)); [done|].
      apply IHm. lia. }
    destruct (Ascii.eqb c "["); [|done].
    destruct (_ <=? _)%Z; [done|]. destruct (after "]" (skip_space t)); [done|].
    apply IHe. lia.
  - intros acc s Hf. cbn [parse_members].
    destruct (after "034" (skip_space s)) as [t1|] eqn:E1; [|done]. apply after_skip_len in E1.
    destruct (parse_string t1) as [[key t2]|] eqn:E2; [|done]. apply parse_string_len in E2.
    destruct (after ":" (skip_space t2)) as [t3|] eqn:E3; [|done]. apply after_skip_len in E3.
    fold parse_value. rewrite IHv by lia.
    destruct (parse_value fuel depth t3) as [[v t4]|] eqn:E4; [|done].
    apply (proj1 (parsers_shrink fuel)) in E4. cbv zeta.
    destruct (after "," (skip_space t4)) as [t5|] eqn:E5; [|done].
    apply after_skip_len in E5. apply IHm. lia.
  - intros acc s Hf. cbn [parse_elements].
    fold parse_value. rewrite IHv by lia.
    destruct (parse_value fuel depth s) as [[v t4]|] eqn:E4; [|done].
    apply (proj1 (parsers_shrink fuel)) in E4.
    destruct (after "," (skip_space t4)) as [t5|] eqn:E5; [|done].
    apply after_skip_len in E5. apply IHe. lia.
Qed.

Lemma parse_value_fuel fuel depth s :
  2 * len s < fuel -> parse_value fuel depth s = parse_value (S (2 * len s)) depth s.
Proof.
  intros Hf. replace fuel with (fuel - S (2 * len s) + S (2 * len s)) by lia.
  induction (fuel - S (2 * len s)) as [|k IH]; [done|].
  etrans; [|exact IH]. apply (proj1 (parsers_step (k + S (2 * len s)))). lia.
Qed.
