(* ===== verification/World.v ===== *)
(** * The outside world

    The calls the operator makes: to the Kubernetes API through the manager's
    cached client ([C...]) and through the uncached reader ([A...]), to the
    RabbitMQ management API, to the event recorder, to the clock, to the random
    source, to the secret store.  The callees are not code of this repository,
    so their answers are arbitrary; what a theorem needs of them it states.

    Class [Libs] collects the pure library functions the operator calls, and
    [LibsOk] what their documentation promises. *)

From S2P Require Import Prelude.
From S2P Require Import GoStrings.
From S2P Require Import GoErrors.
From S2P Require Import Prog.
From S2P Require Import Api.
From S2P Require Import Values.
From S2P Require Import GoJson.
Import ProgNotations.
Open Scope go_scope.

(** ** The structures of the RabbitMQ client library that the operator fills *)

Record UserSettings := mkUserSettings {
  UserSettings_Name : string;
  UserSettings_Tags : list string;
  UserSettings_PasswordHash : string;
  UserSettings_HashingAlgorithm : string
}.
Definition HashingAlgorithmSHA512 : string := "rabbit_password_hashing_sha512".

Record BindingInfo := mkBindingInfo {
  BindingInfo_Vhost : string;
  BindingInfo_Source : string;
  BindingInfo_Destination : string;
  BindingInfo_DestinationType : string;
  BindingInfo_RoutingKey : string;
  BindingInfo_Arguments : args_map;
  BindingInfo_PropertiesKey : string
}.

Record Permissions := mkPermissions {
  Permissions_Configure : string;
  Permissions_Write : string;
  Permissions_Read : string
}.

Record TopicPermissions := mkTopicPermissions {
  TopicPermissions_Exchange : string;
  TopicPermissions_Read : string;
  TopicPermissions_Write : string
}.

(** [rabbithole.Policy] and [rabbithole.OperatorPolicy] have the same fields. *)
Record PolicyInfo := mkPolicyInfo {
  PolicyInfo_Vhost : string;
  PolicyInfo_Pattern : string;
  PolicyInfo_ApplyTo : string;
  PolicyInfo_Name : string;
  PolicyInfo_Priority : Z;
  PolicyInfo_Definition : args_map
}.

Record QueueSettings := mkQueueSettings {
  QueueSettings_Type : string;
  QueueSettings_Durable : bool;
  QueueSettings_AutoDelete : bool;
  QueueSettings_Arguments : args_map
}.

Record QueueDeleteOptions := mkQueueDeleteOptions {
  IfEmpty : bool;
  IfUnused : bool
}.

Record DetailedQueueInfo := mkDetailedQueueInfo {
  Messages : Z;
  Consumers : Z
}.

Record ExchangeSettings := mkExchangeSettings {
  ExchangeSettings_Type : string;
  ExchangeSettings_Durable : bool;
  ExchangeSettings_AutoDelete : bool;
  ExchangeSettings_Arguments : args_map
}.

Record VhostSettings := mkVhostSettings {
  VhostSettings_Tracing : bool;
  VhostSettings_Tags : list string;
  VhostSettings_DefaultQueueType : string
}.

(** [UserLimitsValues] and [VhostLimitsValues]: maps from a limit to its value. *)
Definition LimitsValues := gmap string Z.

Record FederationDefinition := mkFederationDefinition {
  FederationDefinition_Uri : list string;
  FederationDefinition_Expires : Z;
  FederationDefinition_MessageTTL : Z;
  FederationDefinition_MaxHops : Z;
  FederationDefinition_PrefetchCount : Z;
  FederationDefinition_ReconnectDelay : Z;
  FederationDefinition_AckMode : string;
  FederationDefinition_TrustUserId : bool;
  FederationDefinition_Exchange : string;
  FederationDefinition_Queue : string;
  FederationDefinition_QueueType : string;
  FederationDefinition_ResourceCleanupMode : string
}.

Record ShovelDefinition := mkShovelDefinition {
  SourceURI : list string;
  DestinationURI : list string;
  AckMode : string;
  AddForwardHeaders : bool;
  DeleteAfter : string;
  DestinationAddForwardHeaders : bool;
  DestinationAddTimestampHeader : bool;
  DestinationAddress : string;
  DestinationApplicationProperties : args_map;
  DestinationExchange : string;
  DestinationExchangeKey : string;
  DestinationProperties : args_map;
  DestinationProtocol : string;
  DestinationPublishProperties : args_map;
  DestinationQueue : string;
  DestinationQueueArgs : args_map;
  DestinationMessageAnnotations : args_map;
  PrefetchCount : Z;
  ReconnectDelay : Z;
  SourceAddress : string;
  SourceDeleteAfter : string;
  SourceExchange : string;
  SourceExchangeKey : string;
  SourcePrefetchCount : Z;
  SourceProtocol : string;
  SourceQueue : string;
  SourceQueueArgs : args_map;
  SourceConsumerArgs : args_map
}.

(** internal/schema_replication.go *)
Record UpstreamEndpoints := mkUpstreamEndpoints {
  UpstreamEndpoints_Username : string;
  UpstreamEndpoints_Password : string;
  UpstreamEndpoints_Endpoints : list string
}.

(** ** The RabbitMQ client (rabbitmqclient/rabbitmq_client_factory.go) *)

(** What a client was made from: credentials, address, and the trusted
    certificates when it uses TLS. *)
Record CertPool := mkCertPool { pool_id : Z }.
Record RmqClient := mkRmqClient {
  client_uri : string;
  client_username : string;
  client_password : string;
  client_tls : option CertPool
}.

Record HTTPResponse := mkHTTPResponse {
  Response_StatusCode : Z;
  Response_Body : string
}.

(** The pair of an [http.Response] pointer and an error: either may be nil. *)
Definition http_result : Type := option HTTPResponse * option rmq_error.

(** The methods of interface [rabbitmqclient.Client] the controllers call. *)
Inductive rmq_call :=
| PutUser (name : string) (s : UserSettings)
| DeleteUser (name : string)
| PutUserLimits (name : string) (l : LimitsValues)
| GetUserLimits (name : string)
| DeleteUserLimits (name : string) (l : list string)
| DeclareBinding (vhost : string) (b : BindingInfo)
| DeleteBinding (vhost : string) (b : BindingInfo)
| ListQueueBindingsBetween (vhost source dest : string)
| ListExchangeBindingsBetween (vhost source dest : string)
| UpdatePermissionsIn (vhost user : string) (p : Permissions)
| ClearPermissionsIn (vhost user : string)
| PutPolicy (vhost name : string) (p : PolicyInfo)
| DeletePolicy (vhost name : string)
| DeclareQueue (vhost name : string) (q : QueueSettings)
| DeleteQueue (vhost name : string) (o : QueueDeleteOptions)
| GetQueue (vhost name : string)
| DeclareExchange (vhost name : string) (e : ExchangeSettings)
| DeleteExchange (vhost name : string)
| PutVhost (name : string) (s : VhostSettings)
| DeleteVhost (name : string)
| PutVhostLimits (name : string) (l : LimitsValues)
| GetVhostLimits (name : string)
| DeleteVhostLimits (name : string) (l : list string)
| PutGlobalParameter (name : string) (v : UpstreamEndpoints)
| DeleteGlobalParameter (name : string)
| PutFederationUpstream (vhost name : string) (d : FederationDefinition)
| DeleteFederationUpstream (vhost name : string)
| DeclareShovel (vhost name : string) (d : ShovelDefinition)
| DeleteShovel (vhost name : string)
| PutOperatorPolicy (vhost name : string) (p : PolicyInfo)
| DeleteOperatorPolicy (vhost name : string)
| UpdateTopicPermissionsIn (vhost user : string) (p : TopicPermissions)
| DeleteTopicPermissionsIn (vhost user exchange : string).

Definition rmq_result (c : rmq_call) : Type :=
  match c with
  | GetUserLimits _ | GetVhostLimits _ => rmq_error + list LimitsValues
  | ListQueueBindingsBetween _ _ _ | ListExchangeBindingsBetween _ _ _ =>
      rmq_error + list BindingInfo
  | GetQueue _ _ => rmq_error + DetailedQueueInfo
  | _ => http_result
  end.

(** ** Events ([events.EventRecorder.Eventf]) *)

Inductive fmt_arg := ArgS (s : string) | ArgD (z : Z).

Record K8sEvent := mkK8sEvent {
  Event_Type : string;
  Event_Reason : string;
  Event_Action : string;
  Event_Note : string;
  Event_Args : list fmt_arg
}.
Definition EventTypeNormal : string := "Normal".
Definition EventTypeWarning : string := "Warning".

(** ** Actions *)

Inductive action :=
  (* the manager's client: Get, Update, Status().Update, List *)
| CGet (k : kind) (key : NamespacedName)
| CUpdate (k : kind) (o : object k)
| CStatusUpdate (k : kind) (o : object k)
| CList (k : kind)
| CListUsersByImportSecret (namespace secret : string)
  (* controllerutil.CreateOrUpdate(ctx, client, obj, mutateFn) *)
| CCreateOrUpdate (k : kind) (o : object k) (mutate : object k -> error + object k)
  (* the uncached reader: Get *)
| AGet (k : kind) (key : NamespacedName)
  (* the recorder, the clock, the random source, the certificates *)
| Eventf (k : kind) (o : object k) (e : K8sEvent)
| Now
| RandRead (n : nat)
| SystemCertPool
  (* rabbithole: new clients, and calls on a client *)
| NewTLSClient (uri user pass : string) (pool : CertPool)
| NewClient (uri user pass : string)
| Rmq (c : RmqClient) (call : rmq_call)
| Base64EncodedSaltedPasswordHashSHA512 (password : string)
  (* the secret store: SecretStoreClientProvider, ReadCredentials *)
| SecretStoreClientProvider
| ReadCredentials (path : string).

(** [controllerutil.OperationResult] *)
Inductive OperationResult :=
| OperationResultNone | OperationResultCreated | OperationResultUpdated.

(** The answers.  A successful [Get] or [Update] overwrites the object with what
    the server holds, so it is part of the answer; [CreateOrUpdate] may have
    overwritten or mutated it before it fails, so the object is always part of
    its answer. *)
Definition result (a : action) : Type :=
  match a with
  | CGet k _ | AGet k _ => api_error + object k
  | CUpdate k _ | CStatusUpdate k _ => api_error + object k
  | CList k => api_error + list (object k)
  | CListUsersByImportSecret _ _ => api_error + list User
  | CCreateOrUpdate k _ _ => OperationResult * option error * object k
  | Eventf _ _ _ => unit
  | Now => Z
  | RandRead _ => string + string
  | SystemCertPool => string + CertPool
  | NewTLSClient _ _ _ _ | NewClient _ _ _ => option string
  | Rmq _ call => rmq_result call
  | Base64EncodedSaltedPasswordHashSHA512 _ => string
  | SecretStoreClientProvider => option string
  | ReadCredentials _ => string + (string * string)
  end.

(** Go functions that call out. *)
Notation go := (prog result).
Notation go_trace := (trace result).

(** The objects sent to the Kubernetes API and the calls sent to RabbitMQ. *)
Definition is_rmq (e : event result) : bool :=
  match projT1 e with Rmq _ _ => true | _ => false end.

Definition rmq_calls (tr : go_trace) : list rmq_call :=
  omap (fun e => match projT1 e with Rmq _ c => Some c | _ => None end) tr.

Lemma rmq_calls_app tr tr' : rmq_calls (tr ++ tr') = rmq_calls tr ++ rmq_calls tr'.
Proof. apply omap_app. Qed.

#[export] Hint Rewrite rmq_calls_app : gort.

(** ** Library functions

    Each field is a function of a package that is not in this repository. *)
Class Libs := {
  (** the text of [rabbithole.ErrorResponse.Error()] *)
  errtext : ErrorResponse -> string;
  (** sigs.k8s.io/controller-runtime controllerutil *)
  ContainsFinalizer : ObjectMeta -> string -> bool;
  AddFinalizer : ObjectMeta -> string -> ObjectMeta;
  RemoveFinalizer : ObjectMeta -> string -> ObjectMeta;
  (** the owner is given by the group, version and kind of its Go type in the scheme *)
  SetControllerReference :
    TypeMeta -> ObjectMeta -> ObjectMeta -> error + ObjectMeta;
  (** k8s.io/apimachinery metav1.GetControllerOf *)
  GetControllerOf : ObjectMeta -> option OwnerReference;
  (** k8s.io/client-go util/retry, with [DefaultRetry] *)
  RetryOnConflict : forall {S : Type},
    (S -> go (option error * S)) -> S -> go (option error * S);
  (** encoding/json: the wording of the error for a document that is refused *)
  json_errtext : string -> string;
  (** net/url: the error of [url.Parse] on a malformed URL (GoUrl.v has the rest) *)
  url_ParseError : string -> option string;
  (** gopkg.in/ini.v1: the keys of the default section *)
  ini_Load : string -> string + gmap string string
}.

(** [err.Error()] with the texts of the libraries. *)
Definition err_Error `{Libs} (e : error) : string := Error errtext e.

(** encoding/json: a document decoded into a [map[string]any], nil for null. *)
Definition json_Unmarshal `{Libs} (doc : string) : string + args_map :=
  match json_decode doc with
  | Some m => inr m
  | None => inl (json_errtext doc)
  end.
Arguments json_Unmarshal : simpl never.

(** One conflict after the other: [RetryOnConflict] runs the function, and runs
    it again only after a conflict, at most [n] times in all. *)
Definition is_conflict (e : error) : bool :=
  match e with ErrAPI a => IsConflict a | _ => false end.

Inductive retried {S} (fn : S -> go (option error * S)) :
  nat -> S -> go_trace -> outcome (option error * S) -> Prop :=
| retried_last n s tr o :
    exec (fn s) tr o -> retried fn (Datatypes.S n) s tr o
| retried_again n s tr e s1 tr' o :
    exec (fn s) tr (Returned (Some e, s1)) -> is_conflict e = true ->
    retried fn n s1 tr' o -> retried fn (Datatypes.S n) s (tr ++ tr') o.

(** The steps of [retry.DefaultRetry]. *)
Definition DefaultRetry_Steps : nat := 5.

(** What the documentation of the libraries promises and the operator relies on. *)
Class LibsOk `{Libs} := {
  ContainsFinalizer_spec m f : ContainsFinalizer m f = true <-> f ∈ Finalizers m;
  AddFinalizer_spec m f g :
    g ∈ Finalizers (AddFinalizer m f) <-> g = f \/ g ∈ Finalizers m;
  AddFinalizer_rest m f :
    set_Finalizers [] (AddFinalizer m f) = set_Finalizers [] m;
  RemoveFinalizer_spec m f g :
    g ∈ Finalizers (RemoveFinalizer m f) <-> g <> f /\ g ∈ Finalizers m;
  RemoveFinalizer_rest m f :
    set_Finalizers [] (RemoveFinalizer m f) = set_Finalizers [] m;
  SetControllerReference_rest t owner m m' :
    SetControllerReference t owner m = inr m' ->
    set_OwnerReferences [] m' = set_OwnerReferences [] m;
  SetControllerReference_owner t owner m m' :
    SetControllerReference t owner m = inr m' ->
    exists ref, GetControllerOf m' = Some ref /\
      OwnerReference_APIVersion ref = apiVersion t /\
      OwnerReference_Kind ref = Kind t /\ OwnerReference_Name ref = Name owner;
  GetControllerOf_spec m :
    GetControllerOf m =
      List.find (fun ref => deref (OwnerReference_Controller ref) false) (OwnerReferences m);
  RetryOnConflict_spec {S} (fn : S -> go (option error * S)) s tr o :
    exec (RetryOnConflict fn s) tr o -> retried fn DefaultRetry_Steps s tr o
}.

(** A retried function keeps a postcondition that is closed under adding an
    attempt that ended in a conflict. *)
Lemma wp_retry `{LibsOk} {S} (fn : S -> go (option error * S)) (s : S)
    (P : S -> go_trace -> outcome (option error * S) -> Prop) :
  (forall s, wp (fn s) (P s)) ->
  (forall s tr e s1 tr' o,
     P s tr (Returned (Some e, s1)) -> is_conflict e = true ->
     P s1 tr' o -> P s (tr ++ tr') o) ->
  wp (RetryOnConflict fn s) (P s).
Proof.
  intros Hfn Hagain. apply wp_exec. intros tr o Hx%RetryOnConflict_spec.
  induction Hx as [n s tr o Hx|n s tr e s1 tr' o Hx Hc Hr IH].
  - exact (proj1 (wp_exec _ _) (Hfn s) _ _ Hx).
  - eapply Hagain; [|done|done].
    exact (proj1 (wp_exec _ _) (Hfn s) _ _ Hx).
Qed.
