(* ===== verification/Resources.v ===== *)
(** * Operations of the API types

    [RabbitmqClusterReference] (validation and comparison), status conditions,
    and the interface [TopologyResource] with its implementations
    (api/v1beta1/rabbitmq_cluster_reference.go, conditions.go, *_types.go,
    topology_resource.go). *)

From S2P Require Import Prelude.
From S2P Require Import GoStrings.
From S2P Require Import GoErrors.
From S2P Require Import Prog.
From S2P Require Import Api.
From S2P Require Import Values.
From S2P Require Import World.
Import ProgNotations.
Open Scope go_scope.

(** ** rabbitmq_cluster_reference.go *)

Module ClusterReference.

(** [(r).Matches(new)] *)
Definition Matches (r new : RabbitmqClusterReference) : bool :=
  if negb (bool_decide (Ref_Name new = Ref_Name r))
     || negb (bool_decide (Ref_Namespace new = Ref_Namespace r)) then false
  else if match Ref_ConnectionSecret new, Ref_ConnectionSecret r with
          | Some s, Some s' => negb (bool_decide (s = s'))
          | _, _ => false
          end then false
  else if match Ref_ConnectionSecret new, Ref_ConnectionSecret r with
          | None, Some _ => true
          | _, _ => false
          end then false
  else if match Ref_ConnectionSecret new, Ref_ConnectionSecret r with
          | Some _, None => true
          | _, _ => false
          end then false
  else true.

(** [validate]: exactly one of name and connection secret. *)
Definition validate (ref : RabbitmqClusterReference) : option error :=
  if negb (bool_decide (Ref_Name ref = "")) && bool_decide (is_Some (Ref_ConnectionSecret ref))
  then Some (ErrText "invalid RabbitmqClusterReference: do not provide both name and connectionSecret")
  else if bool_decide (Ref_Name ref = "") && bool_decide (Ref_ConnectionSecret ref = None)
  then Some (ErrText "invalid RabbitmqClusterReference: must provide either name or connectionSecret")
  else None.

(** [ValidateOnCreate] ignores the group resource and the name. *)
Definition ValidateOnCreate (r : RabbitmqClusterReference) : option error := validate r.

Definition ConnectionSecretNamespace (r : RabbitmqClusterReference)
    (resourceNamespace : string) : string :=
  if bool_decide (Ref_Namespace r = "") then resourceNamespace else Ref_Namespace r.

(** [Matches] is equality of references, so an admitted update of an object
    with an immutable reference keeps its RabbitMQ cluster. *)
Lemma Matches_eq r new : Matches r new = true <-> r = new.
Proof.
  destruct r as [n ns s], new as [n' ns' s']. unfold Matches; simpl.
  destruct s as [s|], s' as [s'|]; repeat case_bool_decide; simpl; naive_solver.
Qed.

Lemma validate_ok r :
  ValidateOnCreate r = None <->
  (Ref_Name r <> "" /\ Ref_ConnectionSecret r = None) \/
  (Ref_Name r = "" /\ is_Some (Ref_ConnectionSecret r)).
Proof.
  unfold ValidateOnCreate, validate.
  destruct r as [n ns [s|]]; simpl; repeat case_bool_decide; simpl; naive_solver.
Qed.
End ClusterReference.

(** ** conditions.go *)

Module ConditionOps.

(** The loop of [lastTransitionTime]: the time of the first condition with the
    same type and status. *)
Fixpoint sameTransition (t : ConditionType) (newStatus : string)
    (lastConditions : list Condition) : option Z :=
  match lastConditions with
  | [] => None
  | c :: cs =>
      if bool_decide (Condition_Type c = t) && bool_decide (Condition_Status c = newStatus)
      then Some (Condition_LastTransitionTime c)
      else sameTransition t newStatus cs
  end.

Definition lastTransitionTime (t : ConditionType) (newStatus : string)
    (lastConditions : list Condition) : go Z :=
  match sameTransition t newStatus lastConditions with
  | Some time => Ret time
  | None => act Now
  end.

Definition Ready (lastConditions : list Condition) : go Condition :=
  time <- lastTransitionTime ready ConditionTrue lastConditions;;
  Ret (mkCondition ready ConditionTrue time "SuccessfulCreateOrUpdate" "").

Definition NotReady (msg : string) (lastConditions : list Condition) : go Condition :=
  time <- lastTransitionTime ready ConditionFalse lastConditions;;
  Ret (mkCondition ready ConditionFalse time "FailedCreateOrUpdate" msg).

Definition PasswordSynced (lastConditions : list Condition) : go Condition :=
  time <- lastTransitionTime passwordSynced ConditionTrue lastConditions;;
  Ret (mkCondition passwordSynced ConditionTrue time "SuccessfulPasswordSync" "").

(** [upsertCondition]: replace in place, or append. *)
Fixpoint upsertCondition (conditions : list Condition) (new : Condition) : list Condition :=
  match conditions with
  | [] => [new]
  | c :: cs =>
      if bool_decide (Condition_Type c = Condition_Type new) then new :: cs
      else c :: upsertCondition cs new
  end.

(** The condition of a type, as a reader of the status finds it. *)
Definition findCondition (t : ConditionType) (cs : list Condition) : option Condition :=
  List.find (fun c => bool_decide (Condition_Type c = t)) cs.

Lemma findCondition_upsert_same cs c :
  findCondition (Condition_Type c) (upsertCondition cs c) = Some c.
Proof.
  unfold findCondition.
  induction cs as [|d cs IH]; simpl; [by rewrite bool_decide_eq_true_2|].
  case_bool_decide as E; simpl; [by rewrite bool_decide_eq_true_2|].
  by rewrite bool_decide_eq_false_2.
Qed.

Lemma findCondition_upsert_other cs c t :
  t <> Condition_Type c ->
  findCondition t (upsertCondition cs c) = findCondition t cs.
Proof.
  intros Ht. unfold findCondition. induction cs as [|d cs IH]; simpl.
  - by rewrite bool_decide_eq_false_2.
  - case_bool_decide as E; simpl.
    + by rewrite !bool_decide_eq_false_2 by congruence.
    + by rewrite IH.
Qed.

Lemma upsert_types cs c :
  Condition_Type <$> upsertCondition cs c =
  (Condition_Type <$> cs) ++
  (if bool_decide (Condition_Type c ∈ Condition_Type <$> cs) then []
   else [Condition_Type c]).
Proof.
  induction cs as [|d cs IH]; csimpl; [done|].
  destruct (decide (Condition_Type d = Condition_Type c)) as [E|E].
  - rewrite !bool_decide_eq_true_2 by set_solver.
    csimpl. by rewrite app_nil_r, E.
  - rewrite (bool_decide_eq_false_2 _ E). csimpl. rewrite IH. f_equal. f_equal.
    by repeat case_bool_decide; set_solver.
Qed.

(** The types of a user's conditions stay pairwise distinct. *)
Lemma upsert_NoDup cs c :
  NoDup (Condition_Type <$> cs) -> NoDup (Condition_Type <$> upsertCondition cs c).
Proof.
  intros H. rewrite upsert_types. case_bool_decide as E; [by rewrite app_nil_r|].
  apply NoDup_app. repeat split; [done|set_solver|apply NoDup_singleton].
Qed.
End ConditionOps.

(** ** topology_resource.go *)

(** [TopologyResource]: what the generic reconciler asks of a custom resource.
    [status_Conditions], [status_ObservedGeneration] and its setter are the
    fields of the [Status] struct that the reconciler reaches by reflection. *)
Class TopologyResource (k : kind) := {
  RabbitReference : object k -> RabbitmqClusterReference;
  SetStatusConditions : list Condition -> object k -> object k;
  status_Conditions : object k -> list Condition;
  status_ObservedGeneration : object k -> Z;
  set_status_ObservedGeneration : Z -> object k -> object k
}.

(** What an implementation owes: setting conditions and the observed generation
    changes the status only, the condition just set is the one a reader finds,
    and the two setters do not interfere. *)
Class TopologyResourceOk (k : kind) `{TopologyResource k} := {
  SetStatusConditions_meta cs (o : object k) :
    meta k (SetStatusConditions cs o) = meta k o;
  SetStatusConditions_gvk cs (o : object k) :
    GroupVersionKind k (SetStatusConditions cs o) = GroupVersionKind k o;
  SetStatusConditions_ref cs (o : object k) :
    RabbitReference (SetStatusConditions cs o) = RabbitReference o;
  SetStatusConditions_find c (o : object k) :
    ConditionOps.findCondition (Condition_Type c)
      (status_Conditions (SetStatusConditions [c] o)) = Some c;
  SetStatusConditions_generation cs (o : object k) :
    status_ObservedGeneration (SetStatusConditions cs o) = status_ObservedGeneration o;
  set_generation_meta g (o : object k) :
    meta k (set_status_ObservedGeneration g o) = meta k o;
  set_generation_gvk g (o : object k) :
    GroupVersionKind k (set_status_ObservedGeneration g o) = GroupVersionKind k o;
  set_generation_conditions g (o : object k) :
    status_Conditions (set_status_ObservedGeneration g o) = status_Conditions o;
  set_generation_get g (o : object k) :
    status_ObservedGeneration (set_status_ObservedGeneration g o) = g
}.

(** The statuses of every kind but [User]: [SetStatusConditions] replaces the
    whole list. *)
Definition setConditions {S} (c : list Condition) (r : Resource S CommonStatus) :
    Resource S CommonStatus :=
  set_Status (mkCommonStatus (ObservedGeneration (Status r)) c) r.
Definition setGeneration {S} (g : Z) (r : Resource S CommonStatus) :
    Resource S CommonStatus :=
  set_Status (mkCommonStatus g (Conditions (Status r))) r.

(** [(b Binding) RabbitReference] and [SetStatusConditions]; likewise below. *)
Definition Binding_RabbitReference (b : Binding) := Binding_RabbitmqClusterReference (Spec b).
Definition Binding_SetStatusConditions (c : list Condition) (b : Binding) : Binding :=
  setConditions c b.
Definition Exchange_RabbitReference (e : Exchange) := Exchange_RabbitmqClusterReference (Spec e).
Definition Exchange_SetStatusConditions (c : list Condition) (e : Exchange) : Exchange :=
  setConditions c e.
Definition Federation_RabbitReference (f : Federation) :=
  Federation_RabbitmqClusterReference (Spec f).
Definition Federation_SetStatusConditions (c : list Condition) (f : Federation) : Federation :=
  setConditions c f.
Definition OperatorPolicy_RabbitReference (p : OperatorPolicy) :=
  OperatorPolicy_RabbitmqClusterReference (Spec p).
Definition OperatorPolicy_SetStatusConditions (c : list Condition) (p : OperatorPolicy) :
    OperatorPolicy := setConditions c p.
Definition Permission_RabbitReference (p : Permission) :=
  Permission_RabbitmqClusterReference (Spec p).
Definition Permission_SetStatusConditions (c : list Condition) (p : Permission) : Permission :=
  setConditions c p.
Definition Policy_RabbitReference (p : Policy) := Policy_RabbitmqClusterReference (Spec p).
Definition Policy_SetStatusConditions (c : list Condition) (p : Policy) : Policy :=
  setConditions c p.
Definition Queue_RabbitReference (q : Queue) := Queue_RabbitmqClusterReference (Spec q).
Definition Queue_SetStatusConditions (c : list Condition) (q : Queue) : Queue :=
  setConditions c q.
Definition SchemaReplication_RabbitReference (s : SchemaReplication) :=
  SchemaReplication_RabbitmqClusterReference (Spec s).
Definition SchemaReplication_SetStatusConditions (c : list Condition) (s : SchemaReplication) :
    SchemaReplication := setConditions c s.
Definition Shovel_RabbitReference (s : Shovel) := Shovel_RabbitmqClusterReference (Spec s).
Definition Shovel_SetStatusConditions (c : list Condition) (s : Shovel) : Shovel :=
  setConditions c s.
Definition TopicPermission_RabbitReference (t : TopicPermission) :=
  TopicPermission_RabbitmqClusterReference (Spec t).
Definition TopicPermission_SetStatusConditions (c : list Condition) (t : TopicPermission) :
    TopicPermission := setConditions c t.
Definition Vhost_RabbitReference (v : Vhost) := Vhost_RabbitmqClusterReference (Spec v).
Definition Vhost_SetStatusConditions (c : list Condition) (v : Vhost) : Vhost :=
  setConditions c v.

(** user_types.go: a user keeps one condition per type. *)
Definition User_RabbitReference (u : User) := User_RabbitmqClusterReference (Spec u).
Definition setUserConditions (cs : list Condition) (s : UserStatus) : UserStatus :=
  mkUserStatus (UserStatus_ObservedGeneration s) cs (UserStatus_Credentials s)
    (UserStatus_Username s).
Definition User_SetStatusConditions (c : list Condition) (u : User) : User :=
  fold_left
    (fun u cond =>
       set_Status (setUserConditions
         (ConditionOps.upsertCondition (UserStatus_Conditions (Status u)) cond) (Status u)) u)
    c u.
Definition setUserGeneration (g : Z) (u : User) : User :=
  set_Status (mkUserStatus g (UserStatus_Conditions (Status u))
    (UserStatus_Credentials (Status u)) (UserStatus_Username (Status u))) u.

#[export] Instance Binding_resource : TopologyResource KBinding :=
  Build_TopologyResource KBinding Binding_RabbitReference Binding_SetStatusConditions
    (fun o => Conditions (Status o)) (fun o => ObservedGeneration (Status o)) setGeneration.
#[export] Instance Exchange_resource : TopologyResource KExchange :=
  Build_TopologyResource KExchange Exchange_RabbitReference Exchange_SetStatusConditions
    (fun o => Conditions (Status o)) (fun o => ObservedGeneration (Status o)) setGeneration.
#[export] Instance Federation_resource : TopologyResource KFederation :=
  Build_TopologyResource KFederation Federation_RabbitReference Federation_SetStatusConditions
    (fun o => Conditions (Status o)) (fun o => ObservedGeneration (Status o)) setGeneration.
#[export] Instance OperatorPolicy_resource : TopologyResource KOperatorPolicy :=
  Build_TopologyResource KOperatorPolicy OperatorPolicy_RabbitReference
    OperatorPolicy_SetStatusConditions
    (fun o => Conditions (Status o)) (fun o => ObservedGeneration (Status o)) setGeneration.
#[export] Instance Permission_resource : TopologyResource KPermission :=
  Build_TopologyResource KPermission Permission_RabbitReference Permission_SetStatusConditions
    (fun o => Conditions (Status o)) (fun o => ObservedGeneration (Status o)) setGeneration.
#[export] Instance Policy_resource : TopologyResource KPolicy :=
  Build_TopologyResource KPolicy Policy_RabbitReference Policy_SetStatusConditions
    (fun o => Conditions (Status o)) (fun o => ObservedGeneration (Status o)) setGeneration.
#[export] Instance Queue_resource : TopologyResource KQueue :=
  Build_TopologyResource KQueue Queue_RabbitReference Queue_SetStatusConditions
    (fun o => Conditions (Status o)) (fun o => ObservedGeneration (Status o)) setGeneration.
#[export] Instance SchemaReplication_resource : TopologyResource KSchemaReplication :=
  Build_TopologyResource KSchemaReplication SchemaReplication_RabbitReference
    SchemaReplication_SetStatusConditions
    (fun o => Conditions (Status o)) (fun o => ObservedGeneration (Status o)) setGeneration.
#[export] Instance Shovel_resource : TopologyResource KShovel :=
  Build_TopologyResource KShovel Shovel_RabbitReference Shovel_SetStatusConditions
    (fun o => Conditions (Status o)) (fun o => ObservedGeneration (Status o)) setGeneration.
#[export] Instance TopicPermission_resource : TopologyResource KTopicPermission :=
  Build_TopologyResource KTopicPermission TopicPermission_RabbitReference
    TopicPermission_SetStatusConditions
    (fun o => Conditions (Status o)) (fun o => ObservedGeneration (Status o)) setGeneration.
#[export] Instance Vhost_resource : TopologyResource KVhost :=
  Build_TopologyResource KVhost Vhost_RabbitReference Vhost_SetStatusConditions
    (fun o => Conditions (Status o)) (fun o => ObservedGeneration (Status o)) setGeneration.
#[export] Instance User_resource : TopologyResource KUser :=
  Build_TopologyResource KUser User_RabbitReference User_SetStatusConditions
    (fun o => UserStatus_Conditions (Status o))
    (fun o => UserStatus_ObservedGeneration (Status o)) setUserGeneration.

Lemma User_SetStatusConditions_frame cs (u : User) :
  let u' := User_SetStatusConditions cs u in
  resource_ObjectMeta u' = resource_ObjectMeta u /\
  resource_TypeMeta u' = resource_TypeMeta u /\
  Spec u' = Spec u /\
  UserStatus_ObservedGeneration (Status u') = UserStatus_ObservedGeneration (Status u) /\
  UserStatus_Credentials (Status u') = UserStatus_Credentials (Status u) /\
  UserStatus_Username (Status u') = UserStatus_Username (Status u).
Proof.
  unfold User_SetStatusConditions. revert u.
  induction cs as [|c cs IH]; intros u; simpl; [done|].
  edestruct IH as (-> & -> & -> & -> & -> & ->). done.
Qed.

Ltac common_resource_ok :=
  split; simpl; try done; intros c o; unfold ConditionOps.findCondition; simpl;
  by rewrite bool_decide_eq_true_2.

#[export] Instance Binding_resource_ok : TopologyResourceOk KBinding.
Proof. common_resource_ok. Qed.
#[export] Instance Exchange_resource_ok : TopologyResourceOk KExchange.
Proof. common_resource_ok. Qed.
#[export] Instance Federation_resource_ok : TopologyResourceOk KFederation.
Proof. common_resource_ok. Qed.
#[export] Instance OperatorPolicy_resource_ok : TopologyResourceOk KOperatorPolicy.
Proof. common_resource_ok. Qed.
#[export] Instance Permission_resource_ok : TopologyResourceOk KPermission.
Proof. common_resource_ok. Qed.
#[export] Instance Policy_resource_ok : TopologyResourceOk KPolicy.
Proof. common_resource_ok. Qed.
#[export] Instance Queue_resource_ok : TopologyResourceOk KQueue.
Proof. common_resource_ok. Qed.
#[export] Instance SchemaReplication_resource_ok : TopologyResourceOk KSchemaReplication.
Proof. common_resource_ok. Qed.
#[export] Instance Shovel_resource_ok : TopologyResourceOk KShovel.
Proof. common_resource_ok. Qed.
#[export] Instance TopicPermission_resource_ok : TopologyResourceOk KTopicPermission.
Proof. common_resource_ok. Qed.
#[export] Instance Vhost_resource_ok : TopologyResourceOk KVhost.
Proof. common_resource_ok. Qed.

#[export] Instance User_resource_ok : TopologyResourceOk KUser.
Proof.
  split; simpl; try done; intros cs o.
  - apply (User_SetStatusConditions_frame cs o).
  - apply (User_SetStatusConditions_frame cs o).
  - unfold User_RabbitReference.
    by destruct (User_SetStatusConditions_frame cs o) as (_ & _ & -> & _).
  - apply ConditionOps.findCondition_upsert_same.
  - apply (User_SetStatusConditions_frame cs o).
Qed.
