(* ===== verification/Settings.v ===== *)
(** * From custom resources to RabbitMQ settings (package internal)

    The generators of internal/*.go.  A generator that reads through a pointer
    that may be nil can panic, so it is a program; the others are functions. *)

From S2P Require Import Prelude.
From S2P Require Import GoStrings.
From S2P Require Import GoErrors.
From S2P Require Import Prog.
From S2P Require Import Api.
From S2P Require Import Values.
From S2P Require Import World.
From Stdlib Require Import Ascii.
Import ProgNotations.
Open Scope go_scope.

Section settings.
Context `{Libs}.

(** The common start of the generators: an empty map, filled from the raw JSON
    when there is one.  [what] is the text of the error. *)
Definition unmarshal_arguments (what : string) (raw : option RawExtension) :
    error + args_map :=
  match raw with
  | None => inr (Some [])
  | Some r =>
      match json_Unmarshal (raw_bytes r) with
      | inl e => inl (ErrText (what +:+ ": " +:+ e))
      | inr m => inr m
      end
  end.

(** ** binding.go *)

Definition GenerateBindingInfo (b : Binding) : error + BindingInfo :=
  match unmarshal_arguments "failed to unmarshall binding arguments"
          (Binding_Arguments (Spec b)) with
  | inl e => inl e
  | inr arguments =>
      inr (mkBindingInfo (Binding_Vhost (Spec b)) (Binding_Source (Spec b))
             (Binding_Destination (Spec b)) (Binding_DestinationType (Spec b))
             (Binding_RoutingKey (Spec b)) arguments "")
  end.

Definition GeneratePropertiesKey (b : Binding) : string :=
  if bool_decide (Binding_RoutingKey (Spec b) = "") then "~"
  else match Binding_Arguments (Spec b) with
       | None => ReplaceAll (Binding_RoutingKey (Spec b)) "~"%char "%7E"
       | Some _ => ""
       end.

(** ** exchange_settings.go *)

Definition GenerateExchangeSettings (e : Exchange) : error + ExchangeSettings :=
  match unmarshal_arguments "failed to unmarshall exchange arguments"
          (Exchange_Arguments (Spec e)) with
  | inl err => inl err
  | inr arguments =>
      inr (mkExchangeSettings (Exchange_Type (Spec e)) (Exchange_Durable (Spec e))
             (Exchange_AutoDelete (Spec e)) arguments)
  end.

(** ** queue_settings.go *)

Definition GenerateQueueSettings (q : Queue) : error + QueueSettings :=
  match unmarshal_arguments "failed to unmarshall queue arguments"
          (Queue_Arguments (Spec q)) with
  | inl err => inl err
  | inr arguments =>
      inr (mkQueueSettings (Queue_Type (Spec q)) (deref (Queue_Durable (Spec q)) false)
             (Queue_AutoDelete (Spec q)) arguments)
  end.

(** ** queue_delete_options.go: it never returns an error *)

Definition GenerateQueueDeleteOptions (q : Queue) : error + QueueDeleteOptions :=
  let notQuorum := negb (bool_decide (Queue_Type (Spec q) = "quorum")) in
  inr (mkQueueDeleteOptions (notQuorum && Queue_DeleteIfEmpty (Spec q))
         (notQuorum && Queue_DeleteIfUnused (Spec q))).

(** ** policy.go and operatorpolicy.go: [p.Spec.Definition.Raw] reads through
    the pointer [Definition] *)

Definition GeneratePolicy (p : Policy) : go (error + PolicyInfo) :=
  match Policy_Definition (Spec p) with
  | None => Panic "nil pointer dereference"
  | Some d =>
      match json_Unmarshal (raw_bytes d) with
      | inl e => Ret (inl (ErrText ("failed to unmarshall policy definition: " +:+ e)))
      | inr definition =>
          Ret (inr (mkPolicyInfo (Policy_Vhost (Spec p)) (Policy_Pattern (Spec p))
                      (Policy_ApplyTo (Spec p)) (Policy_Name (Spec p))
                      (Policy_Priority (Spec p)) definition))
      end
  end.

Definition GenerateOperatorPolicy (p : OperatorPolicy) : go (error + PolicyInfo) :=
  match OperatorPolicy_Definition (Spec p) with
  | None => Panic "nil pointer dereference"
  | Some d =>
      match json_Unmarshal (raw_bytes d) with
      | inl e => Ret (inl (ErrText ("failed to unmarshall policy definition: " +:+ e)))
      | inr definition =>
          Ret (inr (mkPolicyInfo (OperatorPolicy_Vhost (Spec p)) (OperatorPolicy_Pattern (Spec p))
                      (OperatorPolicy_ApplyTo (Spec p)) (OperatorPolicy_Name (Spec p))
                      (OperatorPolicy_Priority (Spec p)) definition))
      end
  end.

(** ** permissions.go, topic_permissions.go *)

Definition GeneratePermissions (p : Permission) : Permissions :=
  let ps := Permission_Permissions (Spec p) in
  mkPermissions (VhostPermissions_Configure ps) (VhostPermissions_Write ps)
    (VhostPermissions_Read ps).

Definition GenerateTopicPermissions (p : TopicPermission) : TopicPermissions :=
  let ps := TopicPermission_Permissions (Spec p) in
  mkTopicPermissions (TopicPermissionConfig_Exchange ps) (TopicPermissionConfig_Read ps)
    (TopicPermissionConfig_Write ps).

(** ** vhost_settings.go *)

Definition GenerateVhostSettings (v : Vhost) : VhostSettings :=
  mkVhostSettings (Vhost_Tracing (Spec v)) (Vhost_Tags (Spec v))
    (Vhost_DefaultQueueType (Spec v)).

(** A limit is put in the map when it is set. *)
Definition set_limit (key : string) (v : option Z) (m : LimitsValues) : LimitsValues :=
  match v with Some z => <[key := z]> m | None => m end.

Definition GenerateVhostLimits (limits : option VhostLimits) : LimitsValues :=
  match limits with
  | None => ∅
  | Some l =>
      set_limit "max-queues" (VhostLimits_Queues l)
        (set_limit "max-connections" (VhostLimits_Connections l) ∅)
  end.

(** ** user.go *)

Record UserCredentials := mkUserCredentials {
  Creds_Username : string;
  Creds_PasswordHash : option string;
  Creds_Password : string
}.

Definition GenerateUserSettings (credentials : UserCredentials) (tags : list UserTag) :
    go (error + UserSettings) :=
  if bool_decide (Creds_Username credentials = "")
  then Ret (inl (ErrText "username is required in credentials"))
  else
    passwordHash <-
      match Creds_PasswordHash credentials with
      | Some h => Ret (inr h)
      | None =>
          if bool_decide (Creds_Password credentials = "")
          then Ret (inl (ErrText "neither passwordHash nor password is set in credentials"))
          else h <- act (Base64EncodedSaltedPasswordHashSHA512 (Creds_Password credentials));;
               Ret (inr h)
      end;;
    match passwordHash with
    | inl e => Ret (inl e)
    | inr h =>
        Ret (inr (mkUserSettings (Creds_Username credentials) tags h HashingAlgorithmSHA512))
    end.

Definition GenerateUserLimits (limits : option UserLimits) : LimitsValues :=
  match limits with
  | None => ∅
  | Some l =>
      set_limit "max-channels" (UserLimits_Channels l)
        (set_limit "max-connections" (UserLimits_Connections l) ∅)
  end.

(** ** federation_definition.go *)

(** The conversion [int32(x)] of a 64-bit integer keeps the low 32 bits. *)
Definition int32_of (z : Z) : Z := ((z + 2 ^ 31) mod 2 ^ 32 - 2 ^ 31)%Z.

Definition GenerateFederationDefinition (f : Federation) (uri : string) :
    FederationDefinition :=
  let reconnectDelay := match Federation_ReconnectDelay (Spec f) with
                        | Some d => d
                        | None => 1%Z
                        end in
  mkFederationDefinition (Split uri ","%char) (Federation_Expires (Spec f))
    (int32_of (Federation_MessageTTL (Spec f))) (Federation_MaxHops (Spec f))
    (Federation_PrefetchCount (Spec f)) reconnectDelay (Federation_AckMode (Spec f))
    (Federation_TrustUserId (Spec f)) (Federation_Exchange (Spec f))
    (Federation_Queue (Spec f)) (Federation_QueueType (Spec f))
    (Federation_ResourceCleanupMode (Spec f)).

(** ** shovel_definition.go *)

Definition GenerateShovelDefinition (s : Shovel) (srcUri destUri : string) :
    error + ShovelDefinition :=
  match unmarshal_arguments "failed to unmarshall source consumer args"
          (Shovel_SourceConsumerArgs (Spec s)) with
  | inl e => inl e
  | inr srcConArgs =>
  match unmarshal_arguments "failed to unmarshall destination application properties"
          (Shovel_DestinationApplicationProperties (Spec s)) with
  | inl e => inl e
  | inr appProperties =>
  match unmarshal_arguments "failed to unmarshall destination properties"
          (Shovel_DestinationProperties (Spec s)) with
  | inl e => inl e
  | inr destProperties =>
  match unmarshal_arguments "failed to unmarshall destination publish properties"
          (Shovel_DestinationPublishProperties (Spec s)) with
  | inl e => inl e
  | inr destPubProperties =>
  match unmarshal_arguments "failed to unmarshall destination message annotations"
          (Shovel_DestinationMessageAnnotations (Spec s)) with
  | inl e => inl e
  | inr destMsgAnnotations =>
  match unmarshal_arguments "failed to unmarshall source queue args"
          (Shovel_SourceQueueArgs (Spec s)) with
  | inl e => inl e
  | inr srcQueueArgs =>
  match unmarshal_arguments "failed to unmarshall destination queue args"
          (Shovel_DestinationQueueArgs (Spec s)) with
  | inl e => inl e
  | inr destQueueArgs =>
      inr {| SourceURI := Split srcUri ","%char;
             DestinationURI := Split destUri ","%char;
             AckMode := Shovel_AckMode (Spec s);
             AddForwardHeaders := Shovel_AddForwardHeaders (Spec s);
             DeleteAfter := Shovel_DeleteAfter (Spec s);
             DestinationAddForwardHeaders := Shovel_DestinationAddForwardHeaders (Spec s);
             DestinationAddTimestampHeader := Shovel_DestinationAddTimestampHeader (Spec s);
             DestinationAddress := Shovel_DestinationAddress (Spec s);
             DestinationApplicationProperties := appProperties;
             DestinationExchange := Shovel_DestinationExchange (Spec s);
             DestinationExchangeKey := Shovel_DestinationExchangeKey (Spec s);
             DestinationProperties := destProperties;
             DestinationProtocol := Shovel_DestinationProtocol (Spec s);
             DestinationPublishProperties := destPubProperties;
             DestinationQueue := Shovel_DestinationQueue (Spec s);
             DestinationQueueArgs := destQueueArgs;
             DestinationMessageAnnotations := destMsgAnnotations;
             PrefetchCount := Shovel_PrefetchCount (Spec s);
             ReconnectDelay := Shovel_ReconnectDelay (Spec s);
             SourceAddress := Shovel_SourceAddress (Spec s);
             SourceDeleteAfter := Shovel_SourceDeleteAfter (Spec s);
             SourceExchange := Shovel_SourceExchange (Spec s);
             SourceExchangeKey := Shovel_SourceExchangeKey (Spec s);
             SourcePrefetchCount := Shovel_SourcePrefetchCount (Spec s);
             SourceProtocol := Shovel_SourceProtocol (Spec s);
             SourceQueue := Shovel_SourceQueue (Spec s);
             SourceQueueArgs := srcQueueArgs;
             SourceConsumerArgs := srcConArgs |}
  end end end end end end end.

(** ** schema_replication.go *)

Definition GenerateSchemaReplicationParameters (secret : Secret) (endpoints : string) :
    error + UpstreamEndpoints :=
  let name := Name (Secret_ObjectMeta secret) in
  match Data secret !! "username" with
  | None => inl (ErrText ("could not find username in secret " +:+ name))
  | Some username =>
  match Data secret !! "password" with
  | None => inl (ErrText ("could not find password in secret " +:+ name))
  | Some password =>
      let ep :=
        if bool_decide (endpoints = "") then
          match Data secret !! "endpoints" with
          | None => inl (ErrText ("could not find endpoints in secret " +:+ name +:+
                                  " or from spec.endpoints"))
          | Some e => inr e
          end
        else inr endpoints in
      match ep with
      | inl e => inl e
      | inr ep => inr (mkUpstreamEndpoints username password (Split ep ","%char))
      end
  end end.
End settings.

(** ** Facts about the generators *)

Lemma int32_of_id z : (- 2 ^ 31 <= z < 2 ^ 31)%Z -> int32_of z = z.
Proof. intros Hz. unfold int32_of. rewrite Z.mod_small; lia. Qed.

Lemma int32_of_range z : (- 2 ^ 31 <= int32_of z < 2 ^ 31)%Z.
Proof. unfold int32_of. pose proof (Z.mod_pos_bound (z + 2 ^ 31) (2 ^ 32)). lia. Qed.

Lemma int32_of_congr z : ((int32_of z - z) mod 2 ^ 32 = 0)%Z.
Proof.
  unfold int32_of. rewrite (Z.mod_eq (z + 2 ^ 31)) by lia.
  replace (z + 2 ^ 31 - 2 ^ 32 * ((z + 2 ^ 31) / 2 ^ 32) - 2 ^ 31 - z)%Z
    with ((- ((z + 2 ^ 31) / 2 ^ 32)) * 2 ^ 32)%Z by lia.
  apply Z.mod_mul. lia.
Qed.
