(* ===== verification/ParseReference.v ===== *)
(** * Finding the RabbitMQ cluster of a resource (package rabbitmqclient)

    rabbitmqclient/cluster_reference.go and rabbitmq_client_factory.go: from the
    cluster reference of a resource to credentials and an address, and from
    these to a client. *)

From S2P Require Import Prelude.
From S2P Require Import GoStrings.
From S2P Require Import GoErrors.
From S2P Require Import GoUrl.
From S2P Require Import Prog.
From S2P Require Import Api.
From S2P Require Import Values.
From S2P Require Import World.
From Stdlib Require Import Ascii.
Import ProgNotations.
Open Scope go_scope.

Definition uriAnnotationKey : string := "rabbitmq.com/operator-connection-uri".
Definition allowedNamespacesKey : string := "rabbitmq.com/topology-allowed-namespaces".

(** The credentials map that [ParseReference] returns. *)
Definition credsProvider := gmap string string.
Definition mkCreds (user pass uri : string) : credsProvider :=
  <["username" := user]> (<["password" := pass]> (<["uri" := uri]> ∅)).

Definition keyMissingErr (key : string) : error :=
  ErrText ("failed to retrieve " +:+ key +:+ ": key " +:+ key +:+ " missing from credentials").

(** The loop over the namespaces of the annotation. *)
Definition listsNamespace (requestNamespace allowedNamespaces : string) : bool :=
  existsb (fun allowed => bool_decide (requestNamespace = allowed) || bool_decide (allowed = "*"))
    (Split allowedNamespaces ","%char).

Definition AllowedNamespace (rmq : RabbitmqClusterReference) (requestNamespace : string)
    (cluster : RabbitmqCluster) : bool :=
  if negb (bool_decide (Ref_Namespace rmq = "")) &&
     negb (bool_decide (Ref_Namespace rmq = requestNamespace)) then
    let isAllowed :=
      match Annotations (Cluster_ObjectMeta cluster) !! allowedNamespacesKey with
      | Some allowedNamespaces => listsNamespace requestNamespace allowedNamespaces
      | None => false
      end in
    if negb isAllowed then false else true
  else true.

Definition AllowedNamespaceSecret (rmq : RabbitmqClusterReference) (requestNamespace : string)
    (secret : Secret) : bool :=
  if negb (bool_decide (Ref_Namespace rmq = "")) &&
     negb (bool_decide (Ref_Namespace rmq = requestNamespace)) then
    let isAllowed :=
      match Annotations (Secret_ObjectMeta secret) !! allowedNamespacesKey with
      | Some allowedNamespaces => listsNamespace requestNamespace allowedNamespaces
      | None => false
      end in
    if negb isAllowed then false else true
  else true.

Section parse_reference.
Context `{Libs}.

Definition extractURIandScheme (uri : string) : error + (string * bool) :=
  let uri := if negb (HasPrefix uri "http") then "http://" +:+ uri else uri in
  match url_ParseError uri with
  | Some e => inl (ErrText e)
  | None => if bool_decide (url_scheme uri = "https") then inr (uri, true) else inr (uri, false)
  end.

(** The nil secret of the Go code cannot be passed: the only caller has one. *)
Definition readCredentialsFromKubernetesSecret (secret : Secret) :
    error + (credsProvider * bool) :=
  match Data secret !! "uri" with
  | None => inl (keyMissingErr "uri")
  | Some uBytes =>
      match extractURIandScheme uBytes with
      | inl e => inl e
      | inr (uri, tlsEnabled) =>
          inr (mkCreds (deref (Data secret !! "username") "")
                 (deref (Data secret !! "password") "") uri, tlsEnabled)
      end
  end.

Definition readClusterAdditionalConfig (cluster : RabbitmqCluster) :
    error + gmap string string :=
  match ini_Load (Cluster_AdditionalConfig cluster) with
  | inl e => inl (ErrText e)
  | inr keys => inr keys
  end.

Definition readUsernamePassword (secret : Secret) : string * string :=
  (deref (Data secret !! "username") "", deref (Data secret !! "password") "").

(** The loop over the ports stops at the first port of that name. *)
Fixpoint findPort (portName : string) (ports : list ServicePort) : Z :=
  match ports with
  | [] => 0
  | p :: ps => if bool_decide (Port_Name p = portName) then Port_Port p else findPort portName ps
  end.

Definition managementURI (svc : Service) (useTLSForConnection : bool)
    (clusterDomain pathPrefix : string) : error + string :=
  let portName := if useTLSForConnection then "management-tls" else "management" in
  let managementUiPort := findPort portName (Service_Ports svc) in
  let m := Service_ObjectMeta svc in
  if Z.eqb managementUiPort 0
  then inl (ErrText ("failed to find " +:+ portName +:+ " from service " +:+ Name m))
  else
    let scheme := if useTLSForConnection then "https" else "http" in
    inr (url_String scheme
           (Name m +:+ "." +:+ Namespace m +:+ ".svc" +:+ clusterDomain +:+ ":" +:+
            Itoa managementUiPort)
           pathPrefix).

(** Lines 87 to 105: the credentials in the secret of the cluster, read
    without the cache. *)
Definition kubernetesSecretCredentials (cluster : RabbitmqCluster) (namespace : string) :
    go (error + (string * string)) :=
  match Cluster_Binding cluster with
  | None => Ret (inl (ErrText "no status.binding set"))
  | Some name =>
      s <- act (AGet KSecret (mkNamespacedName namespace name));;
      match s with
      | inl e =>
          if IsNotFound e
          then Ret (inl (ErrWrap ("failed to get default-user secret from reference: " +:+
                                  api_message e +:+ " Error: " +:+
                                  err_Error ErrNoSuchRabbitmqCluster)
                           ErrNoSuchRabbitmqCluster))
          else Ret (inl (ErrAPI e))
      | inr secret => Ret (inr (readUsernamePassword secret))
      end
  end.

(** Lines 75 to 105: the secret store when the cluster names a path in it. *)
Definition defaultUserCredentials (cluster : RabbitmqCluster) (namespace : string) :
    go (error + (string * string)) :=
  let path := deref (Cluster_VaultDefaultUserPath cluster) "" in
  if negb (bool_decide (path = "")) then
    err <- act SecretStoreClientProvider;;
    match err with
    | Some e =>
        Ret (inl (ErrWrap ("unable to create a client connection to secret store: " +:+ e)
                    (ErrText e)))
    | None =>
        r <- act (ReadCredentials path);;
        match r with
        | inl e =>
            Ret (inl (ErrWrap ("unable to retrieve credentials from secret store: " +:+ e)
                        (ErrText e)))
        | inr userpass => Ret (inr userpass)
        end
    end
  else kubernetesSecretCredentials cluster namespace.

(** Lines 107 to 141: the address, from the annotation of the cluster or from
    its management service. *)
Definition clusterAddress (cluster : RabbitmqCluster) (serviceName namespace clusterDomain : string)
    (connectUsingHTTP : bool) (user pass : string) : go (error + (credsProvider * bool)) :=
  match Annotations (Cluster_ObjectMeta cluster) !! uriAnnotationKey with
  | Some uriAnnotation =>
      match extractURIandScheme uriAnnotation with
      | inl e => Ret (inl e)
      | inr (uri, useTLS) => Ret (inr (mkCreds user pass uri, useTLS))
      end
  | None =>
      svc <- act (CGet KService (mkNamespacedName namespace serviceName));;
      match svc with
      | inl e =>
          if IsNotFound e
          then Ret (inl (ErrWrap ("failed to get service from reference: " +:+ api_message e +:+
                                  " Error: " +:+ err_Error ErrNoSuchRabbitmqCluster)
                           ErrNoSuchRabbitmqCluster))
          else Ret (inl (ErrAPI e))
      | inr svc =>
          match readClusterAdditionalConfig cluster with
          | inl e =>
              Ret (inl (ErrWrap ("unable to parse additionconfig setting from the rabbitmqcluster resource: "
                                 +:+ err_Error e) e))
          | inr additionalConfig =>
              let useTLS := Cluster_TLSEnabled cluster &&
                            (negb connectUsingHTTP || Cluster_DisableNonTLSListeners cluster) in
              match managementURI svc useTLS clusterDomain
                      (deref (additionalConfig !! "management.path_prefix") "") with
              | inl e =>
                  Ret (inl (ErrWrap ("failed to get endpoint from specified rabbitmqcluster: "
                                     +:+ err_Error e) e))
              | inr endpoint => Ret (inr (mkCreds user pass endpoint, useTLS))
              end
          end
      end
  end.

Definition ParseReference (rmq : RabbitmqClusterReference)
    (requestNamespace clusterDomain : string) (connectUsingHTTP : bool) :
    go (error + (credsProvider * bool)) :=
  let namespace := if bool_decide (Ref_Namespace rmq = "") then requestNamespace
                   else Ref_Namespace rmq in
  match Ref_ConnectionSecret rmq with
  | Some ref =>
      s <- act (CGet KSecret (mkNamespacedName namespace (LocalObjectReference_Name ref)));;
      match s with
      | inl e => Ret (inl (ErrAPI e))
      | inr secret =>
          if negb (AllowedNamespaceSecret rmq requestNamespace secret)
          then Ret (inl ErrResourceNotAllowed)
          else Ret (readCredentialsFromKubernetesSecret secret)
      end
  | None =>
      c <- act (CGet KRabbitmqCluster (mkNamespacedName namespace (Ref_Name rmq)));;
      match c with
      | inl e =>
          Ret (inl (ErrWrap ("failed to get cluster from reference: " +:+ api_message e +:+
                             " Error: " +:+ err_Error ErrNoSuchRabbitmqCluster)
                      ErrNoSuchRabbitmqCluster))
      | inr cluster =>
          if negb (AllowedNamespace rmq requestNamespace cluster)
          then Ret (inl ErrResourceNotAllowed)
          else if bool_decide (Cluster_Replicas cluster = Some 0%Z)
          then Ret (inl ErrClusterScaledToZero)
          else match Cluster_DefaultUser cluster with
               | Some (Some serviceName) =>
                   creds <- defaultUserCredentials cluster namespace;;
                   match creds with
                   | inl e => Ret (inl e)
                   | inr (user, pass) =>
                       clusterAddress cluster serviceName namespace clusterDomain
                         connectUsingHTTP user pass
                   end
               | _ => Ret (inl ErrNoServiceReferenceSet)
               end
      end
  end.

(** ** rabbitmq_client_factory.go *)

Definition generateRabbitholeClient (connectionCreds : credsProvider) (tlsEnabled : bool)
    (certPool : CertPool) : go (error + RmqClient) :=
  match connectionCreds !! "username" with
  | None => Ret (inl (keyMissingErr "username"))
  | Some defaultUser =>
  match connectionCreds !! "password" with
  | None => Ret (inl (keyMissingErr "password"))
  | Some defaultUserPass =>
  match connectionCreds !! "uri" with
  | None => Ret (inl (keyMissingErr "uri"))
  | Some uri =>
      if tlsEnabled then
        err <- act (NewTLSClient uri defaultUser defaultUserPass certPool);;
        match err with
        | Some e => Ret (inl (ErrText ("failed to instantiate rabbit rabbitmqClient: " +:+ e)))
        | None => Ret (inr (mkRmqClient uri defaultUser defaultUserPass (Some certPool)))
        end
      else
        err <- act (NewClient uri defaultUser defaultUserPass);;
        match err with
        | Some e => Ret (inl (ErrText ("failed to instantiate rabbit rabbitmqClient: " +:+ e)))
        | None => Ret (inr (mkRmqClient uri defaultUser defaultUserPass None))
        end
  end end end.
End parse_reference.
