(* ===== verification/ParseReferenceProofs.v ===== *)
(** * Properties of the cluster reference

    Who may use a cluster, which errors stand for a missing cluster, and which
    transport the client uses. *)

From S2P Require Import Prelude.
From S2P Require Import GoStrings.
From S2P Require Import GoErrors.
From S2P Require Import GoUrl.
From S2P Require Import Prog.
From S2P Require Import Api.
From S2P Require Import Values.
From S2P Require Import World.
From S2P Require Import ParseReference.
From Stdlib Require Import Ascii.

(** ** Namespaces *)

(** The reference names a namespace other than the one of the resource. *)
Definition crossNamespace (rmq : RabbitmqClusterReference) (requestNamespace : string) : Prop :=
  Ref_Namespace rmq <> "" /\ Ref_Namespace rmq <> requestNamespace.

(** The owner of the cluster (or of the connection secret) lists the namespace
    of the resource, or every namespace. *)
Definition grants (m : ObjectMeta) (requestNamespace : string) : Prop :=
  exists l, Annotations m !! allowedNamespacesKey = Some l /\
    (requestNamespace ∈ Split l ","%char \/ "*" ∈ Split l ","%char).

Lemma listsNamespace_spec ns l :
  listsNamespace ns l = true <-> ns ∈ Split l ","%char \/ "*" ∈ Split l ","%char.
Proof.
  unfold listsNamespace. rewrite existsb_exists. split.
  - intros (x & Hx%list_elem_of_In & Hb). repeat case_bool_decide; naive_solver.
  - intros [Hx|Hx]; eexists; (split; [by apply list_elem_of_In|]);
      repeat case_bool_decide; naive_solver.
Qed.

Lemma allowed_spec (rmq : RabbitmqClusterReference) ns (m : ObjectMeta) b :
  b = (if negb (bool_decide (Ref_Namespace rmq = "")) &&
          negb (bool_decide (Ref_Namespace rmq = ns)) then
         if negb match Annotations m !! allowedNamespacesKey with
                 | Some l => listsNamespace ns l
                 | None => false
                 end then false else true
       else true) ->
  b = true <-> (crossNamespace rmq ns -> grants m ns).
Proof.
  intros ->. unfold crossNamespace, grants.
  repeat case_bool_decide; simpl; try naive_solver.
  destruct (Annotations m !! allowedNamespacesKey) as [l|] eqn:E; simpl; [|naive_solver].
  pose proof (listsNamespace_spec ns l). destruct (listsNamespace ns l); naive_solver.
Qed.

Lemma AllowedNamespace_spec rmq ns c :
  AllowedNamespace rmq ns c = true <-> (crossNamespace rmq ns -> grants (Cluster_ObjectMeta c) ns).
Proof. by apply allowed_spec. Qed.

Lemma AllowedNamespaceSecret_spec rmq ns s :
  AllowedNamespaceSecret rmq ns s = true <->
  (crossNamespace rmq ns -> grants (Secret_ObjectMeta s) ns).
Proof. by apply allowed_spec. Qed.

#[export] Hint Resolve -> AllowedNamespace_spec AllowedNamespaceSecret_spec : topology.

(** ** The address and the transport *)

Lemma url_String_scheme_https host path : url_scheme (url_String "https" host path) = "https".
Proof. unfold url_String. apply scheme_https. Qed.

Lemma url_String_scheme_http host path : url_scheme (url_String "http" host path) = "http".
Proof. unfold url_String. apply scheme_http. Qed.

Lemma mkCreds_uri user pass uri : mkCreds user pass uri !! "uri" = Some uri.
Proof. unfold mkCreds. by simplify_map_eq. Qed.
Lemma mkCreds_username user pass uri : mkCreds user pass uri !! "username" = Some user.
Proof. unfold mkCreds. by simplify_map_eq. Qed.
Lemma mkCreds_password user pass uri : mkCreds user pass uri !! "password" = Some pass.
Proof. unfold mkCreds. by simplify_map_eq. Qed.

#[export] Hint Rewrite mkCreds_uri mkCreds_username mkCreds_password : gort.

(** The TLS flag of an answer says what the scheme of its address is. *)
Definition tls_agrees (r : credsProvider * bool) : Prop :=
  exists uri, r.1 !! "uri" = Some uri /\ (r.2 = true <-> url_scheme uri = "https").

(** An answer of [ParseReference] always has the three keys the client needs. *)
Definition complete_creds (r : credsProvider * bool) : Prop :=
  is_Some (r.1 !! "username") /\ is_Some (r.1 !! "password") /\ is_Some (r.1 !! "uri").

Section proofs.
Context `{Libs}.

Lemma extractURIandScheme_tls uri u b :
  extractURIandScheme uri = inr (u, b) -> b = true <-> url_scheme u = "https".
Proof.
  unfold extractURIandScheme. case_match; [done|]. case_bool_decide; naive_solver.
Qed.

Lemma managementURI_tls svc b dom p u :
  managementURI svc b dom p = inr u -> b = true <-> url_scheme u = "https".
Proof.
  unfold managementURI. case_match; [done|]. intros [= <-].
  destruct b; [by rewrite url_String_scheme_https|by rewrite url_String_scheme_http].
Qed.

Lemma mkCreds_answer user pass uri b :
  (b = true <-> url_scheme uri = "https") ->
  tls_agrees (mkCreds user pass uri, b) /\ complete_creds (mkCreds user pass uri, b).
Proof.
  intros Hb. split; [by exists uri; simpl; autorewrite with gort|].
  unfold complete_creds; simpl. autorewrite with gort. eauto.
Qed.

Definition answer_ok (o : outcome (error + (credsProvider * bool))) : Prop :=
  match o with
  | Returned (inr r) => tls_agrees r /\ complete_creds r
  | Returned (inl _) => True
  | Panicked _ => False
  end.

Lemma clusterAddress_answer c svc ns dom http user pass :
  wp (clusterAddress c svc ns dom http user pass) (fun _ o => answer_ok o).
Proof.
  unfold clusterAddress. case_match.
  - destruct (extractURIandScheme _) as [e|[u b]] eqn:E; simpl; [done|].
    by apply mkCreds_answer, (extractURIandScheme_tls _ _ _ E).
  - simpl. intros [e|s]; simpl; [by case_match|].
    destruct (readClusterAdditionalConfig c) as [e|cfg]; simpl; [done|].
    destruct (managementURI _ _ _ _) as [e|u] eqn:E; simpl; [done|].
    by apply mkCreds_answer, (managementURI_tls _ _ _ _ _ E).
Qed.

Lemma defaultUserCredentials_returns c ns :
  wp (defaultUserCredentials c ns) (fun _ o => exists r, o = Returned r).
Proof.
  unfold defaultUserCredentials, kubernetesSecretCredentials.
  case_bool_decide; simpl.
  - destruct (Cluster_Binding c); simpl; [|by eauto].
    intros [e|sec]; simpl; [case_match; simpl; eauto|eauto].
  - intros [e|]; simpl; [eauto|]. intros [e|r]; simpl; eauto.
Qed.

(** [ParseReference] never panics, and an answer has a username, a password and
    an address, with the TLS flag of the scheme of the address. *)
Lemma ParseReference_answer rmq ns dom http :
  wp (ParseReference rmq ns dom http) (fun _ o => answer_ok o).
Proof.
  unfold ParseReference. destruct (Ref_ConnectionSecret rmq) as [ref|]; simpl.
  - intros [e|s]; simpl; [done|]. destruct (AllowedNamespaceSecret rmq ns s); simpl; [|done].
    unfold readCredentialsFromKubernetesSecret.
    destruct (Data s !! "uri") as [u0|]; simpl; [|done].
    destruct (extractURIandScheme _) as [e|[u b]] eqn:E; simpl; [done|].
    by apply mkCreds_answer, (extractURIandScheme_tls _ _ _ E).
  - intros [e|c]; simpl; [done|]. destruct (AllowedNamespace rmq ns c); simpl; [|done].
    case_bool_decide; simpl; [done|].
    destruct (Cluster_DefaultUser c) as [[svc|]|]; simpl; [|done|done].
    eapply wp_cut; [apply defaultUserCredentials_returns|..].
    + intros tr [e|[user pass]] _; simpl; [done|]. apply clusterAddress_answer.
    + naive_solver.
Qed.

(** ** Namespaces are respected *)

(** The namespace a reference points to. *)
Definition referenceNamespace (rmq : RabbitmqClusterReference) (ns : string) : string :=
  if bool_decide (Ref_Namespace rmq = "") then ns else Ref_Namespace rmq.

(** The first call reads the object the reference names, and its owner lists
    namespace [ns]. *)
Definition first_grants (rmq : RabbitmqClusterReference) (ns : string) (tr : go_trace) : Prop :=
  match Ref_ConnectionSecret rmq with
  | Some ref => exists secret rest,
      tr = existT (P:=result) (CGet KSecret (mkNamespacedName (referenceNamespace rmq ns)
             (LocalObjectReference_Name ref))) (inr secret) :: rest /\
      grants (Secret_ObjectMeta secret) ns
  | None => exists cluster rest,
      tr = existT (P:=result) (CGet KRabbitmqCluster (mkNamespacedName (referenceNamespace rmq ns)
             (Ref_Name rmq))) (inr cluster) :: rest /\
      grants (Cluster_ObjectMeta cluster) ns
  end.

(** A reference across namespaces gets credentials, and is only followed past
    the object it names, when the owner of that object lists the namespace of
    the resource. *)
Lemma ParseReference_namespaces rmq ns dom http :
  crossNamespace rmq ns ->
  wp (ParseReference rmq ns dom http) (fun tr o =>
    (exists r, o = Returned (inr r)) \/ (1 < length tr)%nat -> first_grants rmq ns tr).
Proof.
  intros Hx. unfold ParseReference, first_grants.
  change (if bool_decide (Ref_Namespace rmq = "") then ns else Ref_Namespace rmq)
    with (referenceNamespace rmq ns).
  destruct (Ref_ConnectionSecret rmq) as [ref|]; simpl.
  - intros [e|s]; simpl; [naive_solver lia|].
    destruct (AllowedNamespaceSecret rmq ns s) eqn:E; simpl; [|naive_solver lia].
    intros _. do 2 eexists. split; [done|]. by eapply AllowedNamespaceSecret_spec.
  - intros [e|c]; simpl; [naive_solver lia|].
    destruct (AllowedNamespace rmq ns c) eqn:E; simpl; [|naive_solver lia].
    apply wp_exec. intros tr o _ _. do 2 eexists. split; [done|].
    by eapply AllowedNamespace_spec.
Qed.

(** ** What a missing cluster is *)

(** The answer of the last call says that the cluster is missing: the read of
    the cluster failed, for whatever reason, or the secret or the service of
    the cluster was not found. *)
Definition cluster_unreachable (e : event result) : Prop :=
  match e with
  | existT (CGet KRabbitmqCluster _) (inl _) => True
  | existT (AGet KSecret _) (inl e) => IsNotFound e = true
  | existT (CGet KService _) (inl e) => IsNotFound e = true
  | _ => False
  end.

Definition no_such_cluster {A} (o : outcome (error + A)) : Prop :=
  exists e, o = Returned (inl e) /\ errors_Is e ErrNoSuchRabbitmqCluster = true.

(** [o] is not, or the last call of [tr] tells that the cluster is missing. *)
Definition classified {A} (tr : go_trace) (o : outcome (error + A)) : Prop :=
  no_such_cluster o -> exists ev, last tr = Some ev /\ cluster_unreachable ev.

Lemma classified_app {A} (tr tr' : go_trace) (o : outcome (error + A)) :
  classified tr' o -> classified (tr ++ tr') o.
Proof.
  intros Hc Ho. destruct (Hc Ho) as (ev & Hl & Hev). exists ev. split; [|done].
  by rewrite last_app, Hl.
Qed.

Lemma classified_other {A} (tr : go_trace) e :
  errors_Is e ErrNoSuchRabbitmqCluster = false -> classified tr (Returned (inl (B:=A) e)).
Proof. intros He (e' & [= <-] & He'). congruence. Qed.

Lemma classified_answer {A} (tr : go_trace) (x : A) : classified tr (Returned (inr x)).
Proof. intros (e & [=] & _). Qed.
End proofs.

#[export] Hint Resolve classified_other classified_answer : topology.

Section classification.
Context `{Libs}.

Lemma extractURIandScheme_error uri e :
  extractURIandScheme uri = inl e -> errors_Is e ErrNoSuchRabbitmqCluster = false.
Proof. unfold extractURIandScheme. destruct (url_ParseError _); [by intros [= <-]|by case_bool_decide]. Qed.

Lemma defaultUserCredentials_classified c ns :
  wp (defaultUserCredentials c ns) classified.
Proof.
  unfold defaultUserCredentials, kubernetesSecretCredentials.
  case_bool_decide; simpl.
  - destruct (Cluster_Binding c); simpl; [|by auto with topology].
    intros [e|sec]; simpl; [|by auto with topology].
    destruct (IsNotFound e) eqn:E; simpl; [|by auto with topology].
    intros _. by eexists.
  - intros [e|]; simpl; [by apply classified_other|].
    intros [e|r]; simpl; auto with topology.
Qed.

Lemma clusterAddress_classified c svc ns dom http user pass :
  wp (clusterAddress c svc ns dom http user pass) classified.
Proof.
  unfold clusterAddress. destruct (Annotations _ !! _) as [a|]; simpl.
  - destruct (extractURIandScheme a) as [e|[u b]] eqn:E; simpl; [|by auto with topology].
    by eapply classified_other, extractURIandScheme_error.
  - intros [e|s]; simpl.
    + destruct (IsNotFound e) eqn:E; simpl; [|by auto with topology].
      intros _. by eexists.
    + unfold readClusterAdditionalConfig.
      destruct (ini_Load _) as [e|cfg]; simpl; [by apply classified_other|].
      unfold managementURI. destruct (Z.eqb _ _); simpl; [by apply classified_other|auto with topology].
Qed.

(** The error that stands for a missing cluster comes from a failed read of
    the cluster, or from a secret or service of it that was not found. *)
Lemma ParseReference_classified rmq ns dom http :
  wp (ParseReference rmq ns dom http) classified.
Proof.
  unfold ParseReference. destruct (Ref_ConnectionSecret rmq) as [ref|]; simpl.
  - intros [e|s]; simpl; [by auto with topology|].
    destruct (AllowedNamespaceSecret rmq ns s); simpl; [|by auto with topology].
    unfold readCredentialsFromKubernetesSecret.
    destruct (Data s !! "uri") as [u0|]; simpl; [|by auto with topology].
    destruct (extractURIandScheme _) as [e|[u b]] eqn:E; simpl; [|by auto with topology].
    by eapply classified_other, extractURIandScheme_error.
  - intros [e|c]; simpl; [intros _; by eexists|].
    destruct (AllowedNamespace rmq ns c); simpl; [|by auto with topology].
    case_bool_decide; simpl; [by auto with topology|].
    destruct (Cluster_DefaultUser c) as [[svc|]|]; simpl; [|by auto with topology..].
    eapply wp_mono; [|intros tr o Hc; exact (classified_app [_] tr o Hc)].
    eapply wp_cut; [apply defaultUserCredentials_classified|..].
    + intros tr [e|[user pass]] Hc; simpl.
      * intros (e' & [= <-] & He). rewrite app_nil_r. apply Hc. by exists e.
      * eapply wp_mono; [apply clusterAddress_classified|].
        intros tr' o. apply classified_app.
    + intros tr w _ (e & [=] & _).
Qed.

(** ** The success path *)

Definition answers (h : forall a, result a) : handler result unit :=
  fun a s => (h a, s).

(** C25: A readable, allowing cluster that is not scaled to zero and publishes
    service and secret resolves to the credentials of the secret and the address
    of the management port, with TLS exactly when enabled and plain HTTP is not
    both preferred and available. *)
Lemma ParseReference_finds (h : forall a, result a) rmq ns dom http
    c svcName secName sec svc cfg :
  let target := referenceNamespace rmq ns in
  let tls := Cluster_TLSEnabled c && (negb http || Cluster_DisableNonTLSListeners c) in
  let port := findPort (if tls then "management-tls" else "management") (Service_Ports svc) in
  Ref_ConnectionSecret rmq = None ->
  h (CGet KRabbitmqCluster (mkNamespacedName target (Ref_Name rmq))) = inr c ->
  (crossNamespace rmq ns -> grants (Cluster_ObjectMeta c) ns) ->
  Cluster_Replicas c <> Some 0%Z ->
  Cluster_DefaultUser c = Some (Some svcName) ->
  deref (Cluster_VaultDefaultUserPath c) "" = "" ->
  Cluster_Binding c = Some secName ->
  h (AGet KSecret (mkNamespacedName target secName)) = inr sec ->
  Annotations (Cluster_ObjectMeta c) !! uriAnnotationKey = None ->
  h (CGet KService (mkNamespacedName target svcName)) = inr svc ->
  ini_Load (Cluster_AdditionalConfig c) = inr cfg ->
  port <> 0%Z ->
  (run (answers h) (ParseReference rmq ns dom http) tt).1.2 =
  Returned (inr (
    mkCreds (deref (Data sec !! "username") "") (deref (Data sec !! "password") "")
      (url_String (if tls then "https" else "http")
         (Name (Service_ObjectMeta svc) +:+ "." +:+ Namespace (Service_ObjectMeta svc) +:+
          ".svc" +:+ dom +:+ ":" +:+ Itoa port)
         (deref (cfg !! "management.path_prefix") "")), tls)).
Proof.
  intros target tls port Href Hc Hallow Hrep Hdu Hvault Hbind Hsec Hann Hsvc Hini Hport.
  apply (AllowedNamespace_spec rmq ns c) in Hallow.
  unfold ParseReference. rewrite Href. fold (referenceNamespace rmq ns). fold target.
  simpl. rewrite Hc, Hallow. simpl.
  rewrite bool_decide_eq_false_2 by done. rewrite Hdu.
  unfold defaultUserCredentials, kubernetesSecretCredentials.
  rewrite Hvault, Hbind. simpl. rewrite Hsec. simpl.
  unfold clusterAddress. rewrite Hann. simpl. rewrite Hsvc. simpl.
  unfold readClusterAdditionalConfig. rewrite Hini.
  unfold managementURI. fold tls. fold port.
  rewrite (proj2 (Z.eqb_neq _ _) Hport). done.
Qed.
End classification.
