(* ===== verification/Utils.v ===== *)
(** * Helpers shared by the controllers (internal/controller/utils.go) *)

From S2P Require Import Prelude.
From S2P Require Import GoStrings.
From S2P Require Import GoErrors.
From S2P Require Import Prog.
From S2P Require Import Api.
From S2P Require Import Values.
From S2P Require Import World.
From S2P Require Import Resources.
Import ProgNotations.
Open Scope go_scope.

(** ** [ctrl.Result] *)

Record Result := mkResult { RequeueAfter : Z }.
Definition emptyResult : Result := mkResult 0.
Definition second : Z := 1000000000.

(** ** Answers of the management API *)

Definition rabbithole404 : ErrorResponse :=
  mkErrorResponse 404 "Object Not Found" "Not Found".

Definition StatusMultipleChoices : Z := 300.
Definition StatusNotFound : Z := 404.

Definition validateResponse (r : http_result) : option error :=
  let '(res, err) := r in
  match err with
  | Some e => Some (ErrRmq e)
  | None =>
      match res with
      | None => Some (ErrText "failed to validate empty HTTP response")
      | Some res =>
          if Z.leb StatusMultipleChoices (Response_StatusCode res)
          then Some (ErrRabbitmqAPI (Response_StatusCode res) (Response_Body res))
          else None
      end
  end.

Definition validateResponseForDeletion (r : http_result) : option error :=
  match r.1 with
  | Some res =>
      if Z.eqb (Response_StatusCode res) StatusNotFound then Some ErrNotFound
      else validateResponse r
  | None => validateResponse r
  end.

(** An answer below 300, without an error. *)
Definition accepted (r : http_result) : Prop :=
  exists res, r = (Some res, None) /\ (Response_StatusCode res < 300)%Z.

(** An answer with status 404, whether or not the client also made it an error. *)
Definition says_not_found (r : http_result) : Prop :=
  exists res, r.1 = Some res /\ Response_StatusCode res = 404%Z.

Lemma validateResponse_ok r : validateResponse r = None <-> accepted r.
Proof.
  destruct r as [[res|] [e|]]; simpl; unfold accepted, StatusMultipleChoices.
  - naive_solver.
  - destruct (Z.leb_spec 300 (Response_StatusCode res)); [naive_solver lia|].
    split; [eauto|done].
  - naive_solver.
  - naive_solver.
Qed.

Lemma validateResponse_not_sentinel r e target :
  validateResponse r = Some e -> errors_Is e target = bool_decide (e = target).
Proof.
  destruct r as [[res|] [e'|]]; simpl; [| case_match | |]; intros [= <-];
    cbn [errors_Is]; by rewrite orb_false_r.
Qed.

(** The test that every [DeleteFunc] makes: not found and success are success,
    every other answer is its error. *)
Lemma validateResponseForDeletion_ok r :
  validateResponseForDeletion r = None \/ validateResponseForDeletion r = Some ErrNotFound <->
  accepted r \/ says_not_found r.
Proof.
  unfold validateResponseForDeletion, says_not_found, StatusNotFound.
  destruct r as [[res|] err]; simpl.
  - destruct (Z.eqb_spec (Response_StatusCode res) 404); [naive_solver|].
    rewrite <- validateResponse_ok. split; [|naive_solver].
    intros [?|Hn]; [by left|]. exfalso. revert Hn. simpl. by repeat case_match.
  - rewrite <- validateResponse_ok. split; [|naive_solver].
    intros [?|Hn]; [by left|]. exfalso. revert Hn. simpl. by case_match.
Qed.

Lemma validateResponseForDeletion_error r e target :
  validateResponseForDeletion r = Some e -> errors_Is e target = bool_decide (e = target).
Proof.
  unfold validateResponseForDeletion. destruct (r.1) as [res|].
  - case_match; [|apply validateResponse_not_sentinel].
    intros [= <-]. cbn [errors_Is]. by rewrite orb_false_r.
  - apply validateResponse_not_sentinel.
Qed.

(** ** Finalizers *)

Definition deletionFinalizer (kind : string) : string :=
  let plural :=
    if bool_decide (kind = "Policy") then "policies"
    else if bool_decide (kind = "OperatorPolicy") then "operatorpolicies"
    else ToLower kind +:+ "s" in
  "deletion.finalizers." +:+ plural +:+ "." +:+ "rabbitmq.com".

(** The finalizer of an object. *)
Definition finalizerOf (k : kind) (obj : object k) : string :=
  deletionFinalizer (Kind (GroupVersionKind k obj)).

Section finalizers.
Context `{Libs}.

(** The object is changed in place, and overwritten by the answer of a
    successful update. *)
Definition addFinalizerIfNeeded (k : kind) (obj : object k) : go (option error * object k) :=
  let finalizer := finalizerOf k obj in
  if time_IsZero (DeletionTimestamp (meta k obj)) &&
     negb (ContainsFinalizer (meta k obj) finalizer) then
    let obj := set_meta k (AddFinalizer (meta k obj) finalizer) obj in
    err <- act (CUpdate k obj);;
    match err with
    | inl e =>
        Ret (Some (ErrWrap ("failed to add deletionFinalizer: " +:+ api_message e) (ErrAPI e)),
             obj)
    | inr obj => Ret (None, obj)
    end
  else Ret (None, obj).

Definition removeFinalizer (k : kind) (obj : object k) : go (option error * object k) :=
  let finalizer := finalizerOf k obj in
  let obj := set_meta k (RemoveFinalizer (meta k obj) finalizer) obj in
  err <- act (CUpdate k obj);;
  match err with
  | inl e =>
      Ret (Some (ErrWrap ("failed to delete finalizer: " +:+ api_message e) (ErrAPI e)), obj)
  | inr obj => Ret (None, obj)
  end.

(** [clientretry.RetryOnConflict(DefaultRetry, Status().Update)] *)
Definition retryStatusUpdate (k : kind) (obj : object k) : go (option error * object k) :=
  RetryOnConflict (fun obj =>
    err <- act (CStatusUpdate k obj);;
    match err with
    | inl e => Ret (Some (ErrAPI e), obj)
    | inr obj => Ret (None, obj)
    end) obj.
End finalizers.

Definition shouldSkipDeletion (deletionPolicy resourceName : string) : bool :=
  if bool_decide (deletionPolicy = "retain") then true else false.

(** ** Errors of the cluster reference, for [SuperStream] *)

Definition setupEventAction : string := "setup".
Definition createEventAction : string := "create".
Definition updateEventAction : string := "update".
Definition deleteEventAction : string := "delete".
Definition failedParseClusterRef : string := "failed to retrieve cluster from reference".
Definition failedRetrieveSysCertPool : string := "failed to retrieve system trusted certs".

Section reference_error.
Context `{Libs}.

(** The conditions are reached through a pointer into the object. *)
Definition handleRMQReferenceParseError (k : kind)
    (getConditions : object k -> list Condition)
    (setConditions : list Condition -> object k -> object k)
    (obj : object k) (err : option error) : go (Result * option error) :=
  let m := meta k obj in
  match err with
  | None => Ret (emptyResult, None)
  | Some e =>
      if errors_Is e ErrNoSuchRabbitmqCluster && negb (time_IsZero (DeletionTimestamp m)) then
        act (Eventf k obj (mkK8sEvent EventTypeNormal "SuccessfulDelete" deleteEventAction
               "successfully deleted %s" [ArgS (Name m)]));;;
        ' (err, _) <- removeFinalizer k obj;;
        Ret (emptyResult, err)
      else if errors_Is e ErrNoSuchRabbitmqCluster then
        Ret (mkResult (10 * second), Some e)
      else if errors_Is e ErrResourceNotAllowed then
        c <- ConditionOps.NotReady (err_Error ErrResourceNotAllowed) (getConditions obj);;
        retryStatusUpdate k (setConditions [c] obj);;;
        Ret (emptyResult, None)
      else Ret (emptyResult, Some e)
  end.
End reference_error.

(** ** Lemmas *)

Section lemmas.
Context `{LibsOk}.

Lemma finalizerOf_set_meta k m (o : object k) : finalizerOf k (set_meta k m o) = finalizerOf k o.
Proof. unfold finalizerOf. by rewrite gvk_set_meta. Qed.

(** An event that changes the broker, or asks it something. *)
Definition no_rmq (tr : go_trace) : Prop := rmq_calls tr = [].

(** After [addFinalizerIfNeeded] without an error on an object that is not
    being deleted, either the object had the finalizer or an update that
    carries it was accepted. *)
Lemma addFinalizerIfNeeded_spec k (o : object k) :
  wp (addFinalizerIfNeeded k o) (fun tr out =>
    no_rmq tr /\
    exists err o', out = Returned (err, o') /\
    (err = None ->
     (tr = [] /\ o' = o /\
      (time_IsZero (DeletionTimestamp (meta k o)) = true ->
       finalizerOf k o ∈ Finalizers (meta k o))) \/
     (exists sent, tr = [existT (P:=result) (CUpdate k sent) (inr o')] /\
        finalizerOf k sent ∈ Finalizers (meta k sent)))).
Proof.
  unfold addFinalizerIfNeeded.
  destruct (time_IsZero _) eqn:Ez; simpl;
    [destruct (ContainsFinalizer _ _) eqn:Ec; simpl|].
  - split; [done|]. do 2 eexists. split; [done|]. intros _. left.
    by apply ContainsFinalizer_spec in Ec.
  - intros [e|o']; simpl; (split; [done|]); do 2 eexists; (split; [done|]); [done|].
    intros _. right. eexists. split; [done|].
    rewrite finalizerOf_set_meta, meta_set_meta. apply AddFinalizer_spec. by left.
  - split; [done|]. do 2 eexists. split; [done|]. intros _. by left.
Qed.

(** An update that adds the finalizer keeps the other ones. *)
Lemma addFinalizerIfNeeded_sent k (o : object k) :
  wp (addFinalizerIfNeeded k o) (fun tr out =>
    (tr = [] /\ out = Returned (None, o)) \/
    exists sent x, tr = [existT (P:=result) (CUpdate k sent) x] /\
      (forall f, f ∈ Finalizers (meta k o) -> f ∈ Finalizers (meta k sent)) /\
      (forall o', out = Returned (None, o') -> x = inr o')).
Proof.
  unfold addFinalizerIfNeeded. case_match; simpl; [|by left].
  intros [e|o1]; simpl; right; do 2 eexists; (split; [done|]);
    (split; [|naive_solver]);
    intros f Hf; rewrite meta_set_meta; apply AddFinalizer_spec; by right.
Qed.

(** [removeFinalizer] is one update, which drops that finalizer and nothing
    else of the metadata. *)
Lemma removeFinalizer_spec k (o : object k) :
  wp (removeFinalizer k o) (fun tr out =>
    exists sent r err o',
      tr = [existT (P:=result) (CUpdate k sent) r] /\ out = Returned (err, o') /\
      (forall f, f ∈ Finalizers (meta k sent) <->
         f <> finalizerOf k o /\ f ∈ Finalizers (meta k o)) /\
      set_Finalizers [] (meta k sent) = set_Finalizers [] (meta k o) /\
      (err = None <-> exists o1, r = inr o1)).
Proof.
  unfold removeFinalizer. simpl.
  intros [e|o']; do 4 eexists; (split; [done|]); (split; [done|]);
    rewrite meta_set_meta;
    (split; [intros f; apply RemoveFinalizer_spec|]);
    (split; [apply RemoveFinalizer_rest|naive_solver]).
Qed.

(** Retrying a status update sends statuses only, all of the same object. *)
Lemma retryStatusUpdate_spec k (o : object k) :
  wp (retryStatusUpdate k o) (fun tr out =>
    (exists r, out = Returned r) /\ tr <> [] /\
    Forall (fun e => exists r, e = existT (P:=result) (CStatusUpdate k o) r) tr).
Proof.
  unfold retryStatusUpdate.
  eapply wp_mono; [apply (wp_retry _ o (fun s tr out =>
    (exists err s', out = Returned (err, s') /\
      (forall e, err = Some e -> s' = s)) /\ tr <> [] /\
    Forall (fun e => exists r, e = existT (P:=result) (CStatusUpdate k s) r) tr))|].
  - intros s. simpl.
    intros [e|o']; repeat split; try done; try (do 2 eexists; by split); repeat constructor; eauto.
  - intros s tr e s1 tr' out ((err & s' & [= <- <-] & Hs) & Hne & Hall) _ (Hr & Hne' & Hall').
    rewrite (Hs e eq_refl) in *. split; [done|]. split; [by destruct tr|].
    by apply Forall_app.
  - intros tr out ((err & s' & -> & _) & Hne & Hall). eauto.
Qed.
End lemmas.
