(* ===== verification/TopologyReconciler.v ===== *)
(** * The reconciler of the topology resources (internal/controller/topology_controller.go)

    One loop body for the twelve kinds of resource: it reads the object, finds
    the RabbitMQ cluster, and declares or deletes through a [ReconcileFunc]. *)

From S2P Require Import Prelude.
From S2P Require Import GoStrings.
From S2P Require Import GoErrors.
From S2P Require Import Prog.
From S2P Require Import Api.
From S2P Require Import Values.
From S2P Require Import World.
From S2P Require Import Resources.
From S2P Require Import ParseReference.
From S2P Require Import Utils.
Import ProgNotations.
Open Scope go_scope.

(** ** reconcile_func.go

    The interface of a kind.  The object is passed by reference in Go, so both
    functions also return it as they leave it. *)
Class ReconcileFunc (k : kind) := {
  DeclareFunc : RmqClient -> object k -> go (option error * object k);
  DeleteFunc : RmqClient -> object k -> go (option error * object k)
}.

(** The configuration of a [TopologyReconciler]; [Type] is the kind [k]. *)
Record ReconcilerConfig := mkReconcilerConfig {
  KubernetesClusterDomain : string;
  ConnectUsingPlainHTTP : bool;
  (* ListType is set: the reconciler watches RabbitmqCluster objects *)
  WatchesClusters : bool;
  MaxConcurrentReconciles : Z
}.

Definition extractSystemCertPool `{Libs} (k : kind) (obj : object k) : go (error + CertPool) :=
  pool <- act SystemCertPool;;
  match pool with
  | inl e =>
      act (Eventf k obj (mkK8sEvent EventTypeWarning "FailedUpdate" setupEventAction
             failedRetrieveSysCertPool []));;;
      Ret (inl (ErrText e))
  | inr systemCertPool => Ret (inr systemCertPool)
  end.

Section reconciler.
Context `{Libs} (k : kind) `{TopologyResource k} `{ReconcileFunc k} (r : ReconcilerConfig).

Definition note (type reason action msg : string) : K8sEvent :=
  mkK8sEvent type reason action msg [].

(** Reached by reflection in Go: every kind has both fields in its status. *)
Definition getStatusConditions (obj : object k) : list Condition := status_Conditions obj.
Definition setObservedGeneration (obj : object k) : object k :=
  set_status_ObservedGeneration (Generation (meta k obj)) obj.

(** A failed status update is logged only. *)
Definition statusUpdate (obj : object k) : go unit :=
  retryStatusUpdate k obj;;; Ret tt.

(** The object with a [NotReady] condition, its status sent. *)
Definition reportNotReady (msg : string) (obj : object k) : go unit :=
  c <- ConditionOps.NotReady msg (getStatusConditions obj);;
  statusUpdate (SetStatusConditions [c] obj).

Definition Reconciler_handleRMQReferenceParseError (obj : object k) (err : option error) :
    go (Result * option error) :=
  let m := meta k obj in
  match err with
  | None => Ret (emptyResult, None)
  | Some e =>
      if errors_Is e ErrNoSuchRabbitmqCluster && negb (time_IsZero (DeletionTimestamp m)) then
        act (Eventf k obj (note EventTypeNormal "SuccessfulDelete" deleteEventAction
               ("successfully deleted " +:+ Name m)));;;
        ' (err, _) <- removeFinalizer k obj;;
        Ret (emptyResult, err)
      else if errors_Is e ErrNoSuchRabbitmqCluster then
        Ret (mkResult (10 * second), Some e)
      else if errors_Is e ErrClusterScaledToZero && negb (time_IsZero (DeletionTimestamp m)) then
        act (Eventf k obj (note EventTypeNormal "SuccessfulDelete" deleteEventAction
               ("successfully deleted " +:+ Name m)));;;
        ' (err, _) <- removeFinalizer k obj;;
        Ret (emptyResult, err)
      else if errors_Is e ErrClusterScaledToZero then
        let msg := "RabbitmqCluster is scaled to zero replicas; waiting for it to scale up" in
        act (Eventf k obj (note EventTypeWarning "ClusterScaledToZero" updateEventAction msg));;;
        reportNotReady msg obj;;;
        Ret (emptyResult, None)
      else if errors_Is e ErrResourceNotAllowed then
        reportNotReady (err_Error ErrResourceNotAllowed) obj;;;
        Ret (emptyResult, None)
      else
        let msg := failedParseClusterRef +:+ ": " +:+ err_Error e in
        act (Eventf k obj (note EventTypeWarning "FailedCreateOrUpdate" updateEventAction msg));;;
        reportNotReady msg obj;;;
        Ret (emptyResult, Some e)
  end.

(** Lines 82 to 93: the object is marked for deletion. *)
Definition reconcileDelete (rabbitClient : RmqClient) (obj : object k) :
    go (Result * option error) :=
  let objKind := ToLower (Kind (GroupVersionKind k obj)) in
  ' (err, obj) <- DeleteFunc rabbitClient obj;;
  match err with
  | Some e =>
      act (Eventf k obj (note EventTypeWarning "FailedDelete" deleteEventAction
             ("failed to delete " +:+ objKind)));;;
      Ret (emptyResult, Some e)
  | None =>
      act (Eventf k obj (note EventTypeNormal "SuccessfulDelete" deleteEventAction
             ("successfully deleted " +:+ objKind)));;;
      ' (err, _) <- removeFinalizer k obj;;
      Ret (emptyResult, err)
  end.

(** Lines 96 to 126: the object is live. *)
Definition reconcileDeclare (rabbitClient : RmqClient) (obj : object k) :
    go (Result * option error) :=
  let objKind := ToLower (Kind (GroupVersionKind k obj)) in
  ' (err, obj) <- addFinalizerIfNeeded k obj;;
  match err with
  | Some e => Ret (emptyResult, Some e)
  | None =>
      ' (err, obj) <- DeclareFunc rabbitClient obj;;
      match err with
      | Some e =>
          act (Eventf k obj (note EventTypeWarning "FailedDeclare" createEventAction
                 ("failed to declare " +:+ objKind)));;;
          reportNotReady (err_Error e) obj;;;
          Ret (emptyResult, Some e)
      | None =>
          act (Eventf k obj (note EventTypeNormal "SuccessfulDeclare" createEventAction
                 ("Successfully declare " +:+ objKind)));;;
          c <- ConditionOps.Ready (getStatusConditions obj);;
          statusUpdate (setObservedGeneration (SetStatusConditions [c] obj));;;
          Ret (emptyResult, None)
      end
  end.

(** Lines 62 to 126: the object has been read. *)
Definition reconcileObject (obj : object k) : go (Result * option error) :=
  pool <- extractSystemCertPool k obj;;
  match pool with
  | inl e => Ret (emptyResult, Some e)
  | inr systemCertPool =>
      parsed <- ParseReference (RabbitReference obj) (Namespace (meta k obj))
                  (KubernetesClusterDomain r) (ConnectUsingPlainHTTP r);;
      match parsed with
      | inl e => Reconciler_handleRMQReferenceParseError obj (Some e)
      | inr (credsProvider, tlsEnabled) =>
          c <- generateRabbitholeClient credsProvider tlsEnabled systemCertPool;;
          match c with
          | inl e => Ret (emptyResult, Some e)
          | inr rabbitClient =>
              match DeletionTimestamp (meta k obj) with
              | Some _ => reconcileDelete rabbitClient obj
              | None => reconcileDeclare rabbitClient obj
              end
          end
      end
  end.

Definition Reconcile (req : NamespacedName) : go (Result * option error) :=
  got <- act (CGet k req);;
  match got with
  | inl e => Ret (emptyResult, if IsNotFound e then None else Some (ErrAPI e))
  | inr obj => reconcileObject obj
  end.

(** ** The watch on clusters *)

(** The loop over the listed resources. *)
Fixpoint clusterRequests (cluster : RabbitmqCluster) (items : list (object k)) :
    list NamespacedName :=
  match items with
  | [] => []
  | res :: items =>
      let ref := RabbitReference res in
      match Ref_ConnectionSecret ref with
      | Some _ => clusterRequests cluster items
      | None =>
          let refNamespace := if bool_decide (Ref_Namespace ref = "")
                              then Namespace (meta k res) else Ref_Namespace ref in
          if bool_decide (Ref_Name ref = Name (Cluster_ObjectMeta cluster)) &&
             bool_decide (refNamespace = Namespace (Cluster_ObjectMeta cluster))
          then mkNamespacedName (Namespace (meta k res)) (Name (meta k res))
                 :: clusterRequests cluster items
          else clusterRequests cluster items
      end
  end.

Definition rabbitmqClusterToRequests (cluster : RabbitmqCluster) : go (list NamespacedName) :=
  if negb (WatchesClusters r) then Ret []
  else
    list <- act (CList k);;
    match list with
    | inl _ => Ret []
    | inr items => Ret (clusterRequests cluster items)
    end.
End reconciler.
