(* ===== verification/Traces.v ===== *)
(** * Traces of calls

    What the theorems say about the order of calls: which events change an
    object or the broker, and what must come before an event. *)

From S2P Require Import Prelude.
From S2P Require Import GoErrors.
From S2P Require Import Prog.
From S2P Require Import Api.
From S2P Require Import Values.
From S2P Require Import World.

(** ** Order: [guarded P tr] holds when each event [e] of [tr], with the events
    [pre] before it, satisfies [P pre e] *)

Section guarded.
Context {E : Type}.
Implicit Types P Q : list E -> E -> Prop.

Fixpoint guarded P (tr : list E) : Prop :=
  match tr with
  | [] => True
  | e :: tr => P [] e /\ guarded (fun pre => P (e :: pre)) tr
  end.

Lemma guarded_spec P tr :
  guarded P tr <-> forall tr1 e tr2, tr = tr1 ++ e :: tr2 -> P tr1 e.
Proof.
  revert P. induction tr as [|e tr IH]; intros P; simpl.
  - split; [|done]. by intros _ [|] ? ?.
  - rewrite IH. split.
    + intros [He Htr] [|e1 tr1] e2 tr2 [= -> Heq]; [done|]. by eapply Htr.
    + intros HP. split; [by eapply (HP [])|].
      intros tr1 e1 tr2 ->. by eapply (HP (e :: tr1)).
Qed.

Lemma guarded_app P tr tr' :
  guarded P (tr ++ tr') <-> guarded P tr /\ guarded (fun pre => P (tr ++ pre)) tr'.
Proof. revert P. induction tr as [|e tr IH]; intros P; simpl; [naive_solver|]. rewrite IH. naive_solver. Qed.

Lemma guarded_mono P Q tr :
  (forall pre e, P pre e -> Q pre e) -> guarded P tr -> guarded Q tr.
Proof. rewrite !guarded_spec. naive_solver. Qed.

Lemma guarded_forall P (R : E -> Prop) tr :
  Forall R tr -> (forall pre e, R e -> P pre e) -> guarded P tr.
Proof.
  intros HR HP. apply guarded_spec. intros tr1 e tr2 ->.
  apply HP. by apply Forall_app in HR as [_ [? _]%Forall_cons].
Qed.
End guarded.

(** ** Kinds of events *)

Lemma CUpdate_inj k (o o' : object k) x x' :
  existT (P:=result) (CUpdate k o) x = existT (CUpdate k o') x' -> o = o'.
Proof.
  intros Heq. apply (f_equal (@projT1 _ _)) in Heq. simpl in Heq. injection Heq as Heq.
  by apply Eqdep_dec.inj_pair2_eq_dec in Heq; [|apply kind_eq_dec].
Qed.

(** Neither an object nor the broker is touched. *)
Definition quiet (e : event result) : Prop :=
  match projT1 e with
  | CUpdate _ _ | CStatusUpdate _ _ | CCreateOrUpdate _ _ _ | Rmq _ _ => False
  | _ => True
  end.

(** An update of an object of kind [k] without finalizer [f]. *)
Definition drops (k : kind) (f : string) (e : event result) : Prop :=
  exists sent r, e = existT (P:=result) (CUpdate k sent) r /\ f ∉ Finalizers (meta k sent).

(** The API server keeps the finalizers of an update it accepts. *)
Definition echoes (k : kind) (tr : go_trace) : Prop :=
  forall sent o, existT (P:=result) (CUpdate k sent) (inr o) ∈ tr ->
    Finalizers (meta k sent) ⊆ Finalizers (meta k o).

Lemma echoes_app k tr tr' : echoes k (tr ++ tr') <-> echoes k tr /\ echoes k tr'.
Proof. unfold echoes. set_solver. Qed.

Lemma last_Some_elem_of {A} (l : list A) x : last l = Some x -> x ∈ l.
Proof. intros (l' & ->)%last_Some. set_solver. Qed.

(** Event [e] sends a status of an object of kind [k]. *)
Definition sends_status (k : kind) (o : object k) (e : event result) : Prop :=
  exists r, e = existT (P:=result) (CStatusUpdate k o) r.

Lemma drops_update k f e : drops k f e -> exists k' o, projT1 e = CUpdate k' o.
Proof. intros (sent & r & -> & _). by do 2 eexists. Qed.

Lemma quiet_not_drops k f e : quiet e -> ~ drops k f e.
Proof. intros Hq (k' & o & He)%drops_update. unfold quiet in Hq. by rewrite He in Hq. Qed.

Lemma status_not_drops k f o e : sends_status k o e -> ~ drops k f e.
Proof. intros [r ->] (k' & o' & [=])%drops_update. Qed.

(** A call of the broker by a client. *)
Definition rmq_event (e : event result) : Prop := exists c call, projT1 e = Rmq c call.

(** If the event calls a broker, it does so through client [c]. *)
Definition uses_client (c : RmqClient) (e : event result) : Prop :=
  forall c' call, projT1 e = Rmq c' call -> c' = c.

Lemma not_rmq_uses_client c e : ~ rmq_event e -> uses_client c e.
Proof. intros Hn c' call He. destruct Hn. by do 2 eexists. Qed.

Lemma rmq_not_drops k f e : rmq_event e -> ~ drops k f e.
Proof. intros (c & call & He) (k' & o & He')%drops_update. congruence. Qed.

Lemma quiet_not_rmq e : quiet e -> ~ rmq_event e.
Proof. intros Hq (c & call & He). unfold quiet in Hq. by rewrite He in Hq. Qed.

Lemma status_not_rmq k o e : sends_status k o e -> ~ rmq_event e.
Proof. intros [r ->] (c & call & [=]). Qed.

Lemma rmq_calls_nil tr : Forall (fun e => ~ rmq_event e) tr <-> rmq_calls tr = [].
Proof.
  induction tr as [|e tr IH]; simpl; [done|]. rewrite Forall_cons, IH.
  unfold rmq_calls. destruct e as [a x]; simpl. unfold rmq_event; simpl.
  destruct a; simpl; naive_solver.
Qed.

#[export] Hint Resolve quiet_not_drops status_not_drops rmq_not_drops quiet_not_rmq
  status_not_rmq : topology.

(** The answer of a read, out of its event. *)
Definition get_answer (k : kind) (e : event result) : option (api_error + object k) :=
  match e with
  | existT a x =>
      match a return result a -> option (api_error + object k) with
      | CGet k' _ => fun x =>
          match kind_eq_dec k' k with
          | left Heq => Some (eq_rect k' (fun k => (api_error + object k)%type) x k Heq)
          | right _ => None
          end
      | _ => fun _ => None
      end x
  end.

Lemma get_answer_eq k key x : get_answer k (existT (P:=result) (CGet k key) x) = Some x.
Proof.
  simpl. destruct (kind_eq_dec k k) as [Heq|]; [|done].
  by rewrite (Eqdep_dec.UIP_dec kind_eq_dec Heq eq_refl).
Qed.

Lemma CGet_answer k key x y :
  existT (P:=result) (CGet k key) x = existT (P:=result) (CGet k key) y -> x = y.
Proof. intros Heq%(f_equal (get_answer k)). rewrite !get_answer_eq in Heq. by injection Heq. Qed.

(** The answer of a list call, out of its event. *)
Definition list_answer (k : kind) (e : event result) : option (api_error + list (object k)) :=
  match e with
  | existT a x =>
      match a return result a -> option (api_error + list (object k)) with
      | CList k' => fun x =>
          match kind_eq_dec k' k with
          | left Heq => Some (eq_rect k' (fun k => (api_error + list (object k))%type) x k Heq)
          | right _ => None
          end
      | _ => fun _ => None
      end x
  end.

Lemma list_answer_eq k x : list_answer k (existT (P:=result) (CList k) x) = Some x.
Proof.
  simpl. destruct (kind_eq_dec k k) as [Heq|]; [|done].
  by rewrite (Eqdep_dec.UIP_dec kind_eq_dec Heq eq_refl).
Qed.

Lemma CList_answer k x y :
  existT (P:=result) (CList k) x = existT (P:=result) (CList k) y -> x = y.
Proof. intros Heq%(f_equal (list_answer k)). rewrite !list_answer_eq in Heq. by injection Heq. Qed.
