(* ===== verification/ReconcilerProofs.v ===== *)
(** * Properties of the reconciler

    Proved once against the interface [ReconcileFuncOk]: when a finalizer may
    go, what must have happened before the broker is called, what the status
    says, and how the errors of the cluster reference are handled. *)

From S2P Require Import Prelude.
From S2P Require Import GoStrings.
From S2P Require Import GoErrors.
From S2P Require Import Prog.
From S2P Require Import Api.
From S2P Require Import Values.
From S2P Require Import World.
From S2P Require Import Resources.
From S2P Require Import ParseReference.
From S2P Require Import ParseReferenceProofs.
From S2P Require Import Utils.
From S2P Require Import Traces.
From S2P Require Import TopologyReconciler.

(** ** What a kind promises to the reconciler

    [released o tr]: after the calls [tr] nothing is left to delete on the
    broker for object [o].  An implementation owes that its declaration keeps
    the finalizers of the object, that its deletion drops one only once the
    object is released and is successful only then, and that both talk to the
    broker through the client they are given. *)
Class ReconcileFuncOk (k : kind) `{Libs} `{ReconcileFunc k} := {
  released : object k -> go_trace -> Prop;
  released_mono o tr1 tr tr2 : released o tr -> released o (tr1 ++ tr ++ tr2);
  DeclareFunc_keeps c o f :
    f ∈ Finalizers (meta k o) ->
    wp (DeclareFunc c o) (fun tr _ => Forall (fun e => ~ drops k f e) tr);
  DeleteFunc_released c o :
    wp (DeleteFunc c o) (fun tr out =>
      (forall o', out = Returned (None, o') -> released o tr) /\
      (forall f, f ∈ Finalizers (meta k o) ->
         guarded (fun pre e => drops k f e -> released o pre) tr));
  DeclareFunc_client c o : wp (DeclareFunc c o) (fun tr _ => Forall (uses_client c) tr);
  DeleteFunc_client c o : wp (DeleteFunc c o) (fun tr _ => Forall (uses_client c) tr)
}.

(** ** Facts about the calls before the object is declared or deleted *)

Section prefix.
Context `{LibsOk}.

Lemma extractSystemCertPool_quiet k (o : object k) :
  wp (extractSystemCertPool k o) (fun tr out =>
    Forall quiet tr /\ exists x, out = Returned x).
Proof. unfold extractSystemCertPool. simpl. intros [e|p]; simpl; repeat constructor; eauto. Qed.

Lemma ParseReference_quiet rmq ns dom http :
  wp (ParseReference rmq ns dom http) (fun tr out => Forall quiet tr).
Proof.
  unfold ParseReference. destruct (Ref_ConnectionSecret rmq); simpl.
  - intros [e|s]; simpl; [by repeat constructor|].
    destruct (AllowedNamespaceSecret rmq ns s); simpl; by repeat constructor.
  - intros [e|c]; simpl; [by repeat constructor|].
    destruct (AllowedNamespace rmq ns c); simpl; [|by repeat constructor].
    case_bool_decide; simpl; [by repeat constructor|].
    destruct (Cluster_DefaultUser c) as [[svc|]|]; simpl; [|by repeat constructor..].
    unfold defaultUserCredentials, kubernetesSecretCredentials, clusterAddress.
    repeat first
      [ progress simpl | case_match | progress intros | by repeat constructor ].
Qed.

(** A cluster read with no replicas: the only source of that error. *)
Definition cluster_scaled_to_zero (e : event result) : Prop :=
  match e with
  | existT (CGet KRabbitmqCluster _) (inr c) => Cluster_Replicas c = Some 0%Z
  | _ => False
  end.

Definition scaled_to_zero {A} (o : outcome (error + A)) : Prop :=
  exists e, o = Returned (inl e) /\ errors_Is e ErrClusterScaledToZero = true.

Lemma ParseReference_scaled rmq ns dom http :
  wp (ParseReference rmq ns dom http) (fun tr out =>
    scaled_to_zero out -> exists e, e ∈ tr /\ cluster_scaled_to_zero e).
Proof.
  unfold ParseReference. destruct (Ref_ConnectionSecret rmq); simpl.
  - intros [e|s]; simpl; [by intros (? & [= <-] & ?)|].
    destruct (AllowedNamespaceSecret rmq ns s); simpl; [|by intros (? & [= <-] & ?)].
    unfold readCredentialsFromKubernetesSecret, extractURIandScheme.
    repeat case_match; intros (e1 & He & He1); by simplify_eq.
  - intros [e|c]; simpl; [by intros (? & [= <-] & ?)|].
    destruct (AllowedNamespace rmq ns c); simpl; [|by intros (? & [= <-] & ?)].
    case_bool_decide; simpl; [intros _; eexists; by split; [left|]|].
    destruct (Cluster_DefaultUser c) as [[svc|]|]; simpl; [|by intros (? & [= <-] & ?)..].
    unfold defaultUserCredentials, kubernetesSecretCredentials, clusterAddress,
      extractURIandScheme, readClusterAdditionalConfig, managementURI.
    repeat first
      [ progress simpl | case_match; simplify_eq
      | (intros (? & [= <-] & ?); done) | (intros (? & [=] & ?)) | progress intros ].
Qed.

(** The client uses the credentials and the address it was given, and TLS with
    the given certificates exactly when it was asked to. *)
Definition client_of (creds : credsProvider) (tls : bool) (pool : CertPool) (c : RmqClient) : Prop :=
  creds !! "username" = Some (client_username c) /\
  creds !! "password" = Some (client_password c) /\
  creds !! "uri" = Some (client_uri c) /\
  client_tls c = if tls then Some pool else None.

Lemma generateRabbitholeClient_spec creds tls pool :
  wp (generateRabbitholeClient creds tls pool) (fun tr out =>
    Forall quiet tr /\
    exists x, out = Returned x /\ (forall c, x = inr c -> client_of creds tls pool c)).
Proof.
  unfold generateRabbitholeClient, client_of.
  destruct (creds !! "username"), (creds !! "password"), (creds !! "uri"), tls; simpl;
    try (split; [constructor|naive_solver]).
  all: intros [e|]; simpl; (split; [by repeat constructor|naive_solver]).
Qed.
End prefix.

(** ** Finalizers *)

Section finalizer.
Context `{LibsOk} (k : kind) `{TopologyResource k} `{!ReconcileFunc k} `{!ReconcileFuncOk k}
  (r : ReconcilerConfig).

(** The calls [tr] showed that the cluster is gone or has no replicas. *)
Definition cluster_gone (tr : go_trace) : Prop :=
  exists e, e ∈ tr /\ (cluster_unreachable e \/ cluster_scaled_to_zero e).

Lemma cluster_gone_mono tr1 tr tr2 : cluster_gone tr -> cluster_gone (tr1 ++ tr ++ tr2).
Proof. intros (e & He & Hc). exists e. split; [set_solver|done]. Qed.

(** A finalizer of [o] may go after the calls [pre]: [o] is being deleted, and
    it is released on the broker or the broker is gone. *)
Definition may_drop (o : object k) (pre : go_trace) : Prop :=
  is_Some (DeletionTimestamp (meta k o)) /\ (released o pre \/ cluster_gone pre).

Definition protected (o : object k) (f : string) (tr : go_trace) : Prop :=
  guarded (fun pre e => drops k f e -> may_drop o pre) tr.

Lemma protected_forall o f tr : Forall (fun e => ~ drops k f e) tr -> protected o f tr.
Proof. intros Hall. eapply guarded_forall; [exact Hall|]. naive_solver. Qed.

Lemma protected_quiet o f tr : Forall quiet tr -> protected o f tr.
Proof. intros Hq. apply protected_forall. eapply Forall_impl; [done|]. eauto with topology. Qed.

Lemma protected_may_drop o f tr0 tr :
  may_drop o tr0 -> guarded (fun pre e => drops k f e -> may_drop o (tr0 ++ pre)) tr.
Proof.
  intros [Hs Hd]. eapply (guarded_forall _ (fun _ => True)); [by apply Forall_true|].
  intros pre e _ _. split; [done|]. destruct Hd as [Hd|Hd]; [left|right].
  - by apply (released_mono o [] tr0 pre).
  - by apply (cluster_gone_mono [] tr0 pre).
Qed.

Lemma protected_app o f tr tr' :
  protected o f tr -> guarded (fun pre e => drops k f e -> may_drop o (tr ++ pre)) tr' ->
  protected o f (tr ++ tr').
Proof. intros ??. by apply guarded_app. Qed.

(** Events before the protected part do not matter. *)
Lemma protected_after o f tr tr' :
  protected o f tr' -> guarded (fun pre e => drops k f e -> may_drop o (tr ++ pre)) tr'.
Proof.
  apply guarded_mono. intros pre e Hp [Hs Hd]%Hp. split; [done|].
  destruct Hd as [Hd|Hd]; [left|right].
  - rewrite <- (app_nil_r pre). by apply released_mono.
  - rewrite <- (app_nil_r pre). by apply cluster_gone_mono.
Qed.

Lemma protected_app2 o f tr tr' :
  protected o f tr -> protected o f tr' -> protected o f (tr ++ tr').
Proof. intros. apply protected_app; [done|]. by apply protected_after. Qed.

Lemma addFinalizerIfNeeded_keeps (o : object k) f :
  f ∈ Finalizers (meta k o) ->
  wp (addFinalizerIfNeeded k o) (fun tr out =>
    Forall (fun e => ~ drops k f e) tr /\
    forall o', out = Returned (None, o') -> echoes k tr -> f ∈ Finalizers (meta k o')).
Proof.
  intros Hf. eapply wp_mono; [apply addFinalizerIfNeeded_sent|]. simpl.
  intros tr out [[-> ->]|(sent & x & -> & Hkeep & Hout)].
  - split; [done|]. naive_solver.
  - split.
    + constructor; [|done]. intros (sent' & x' & Heq & Hnot).
      apply Hnot. apply Hkeep in Hf. by apply CUpdate_inj in Heq as <-.
    + intros o' ->%Hout Hecho. eapply (Hecho sent); [|by apply Hkeep]. set_solver.
Qed.

Lemma statusUpdate_spec (o : object k) :
  wp (statusUpdate k o) (fun tr out =>
    out = Returned tt /\ tr <> [] /\ Forall (sends_status k o) tr).
Proof.
  unfold statusUpdate. eapply wp_cut; [apply retryStatusUpdate_spec|..]; simpl; [|naive_solver].
  intros tr x (_ & Hne & Hall). by rewrite app_nil_r.
Qed.

(** A condition was made for status [st], with reason and message. *)
Definition new_condition (st reason msg : string) (old : list Condition) (tr : go_trace)
    (c : Condition) : Prop :=
  exists time, c = mkCondition ready st time reason msg /\
    ((tr = [] /\ ConditionOps.sameTransition ready st old = Some time) \/
     (tr = [existT (P:=result) Now time] /\ ConditionOps.sameTransition ready st old = None)).

Lemma Ready_spec old :
  wp (ConditionOps.Ready old) (fun tr out =>
    exists c, out = Returned c /\
      new_condition ConditionTrue "SuccessfulCreateOrUpdate" "" old tr c).
Proof.
  unfold ConditionOps.Ready, ConditionOps.lastTransitionTime, new_condition.
  destruct (ConditionOps.sameTransition _ _ _) eqn:E; simpl; eauto 10.
Qed.

Lemma NotReady_spec msg old :
  wp (ConditionOps.NotReady msg old) (fun tr out =>
    exists c, out = Returned c /\
      new_condition ConditionFalse "FailedCreateOrUpdate" msg old tr c).
Proof.
  unfold ConditionOps.NotReady, ConditionOps.lastTransitionTime, new_condition.
  destruct (ConditionOps.sameTransition _ _ _) eqn:E; simpl; eauto 10.
Qed.

Lemma new_condition_quiet st reason msg old tr c :
  new_condition st reason msg old tr c -> Forall quiet tr.
Proof. intros (t & _ & [[-> _]|[-> _]]); by repeat constructor. Qed.

(** The status of [o] with that condition was sent, and nothing else. *)
Definition reported (st reason msg : string) (fin : object k -> object k) (o : object k)
    (tr : go_trace) : Prop :=
  exists trn trs c, tr = trn ++ trs /\ trs <> [] /\
    new_condition st reason msg (status_Conditions o) trn c /\
    Forall (sends_status k (fin (SetStatusConditions [c] o))) trs.

Lemma reported_calm st reason msg fin o tr :
  reported st reason msg fin o tr ->
  Forall (fun e => quiet e \/ exists o', sends_status k o' e) tr.
Proof.
  intros (trn & trs & c & -> & _ & Hq%new_condition_quiet & Hs). apply Forall_app. split.
  - eapply Forall_impl; [exact Hq|]. by left.
  - eapply Forall_impl; [exact Hs|]. intros e He. right. eauto.
Qed.

Lemma reportNotReady_spec msg (o : object k) :
  wp (reportNotReady k msg o) (fun tr out =>
    out = Returned tt /\ reported ConditionFalse "FailedCreateOrUpdate" msg (fun o => o) o tr).
Proof.
  unfold reportNotReady. eapply wp_cut; [apply NotReady_spec|..]; simpl; [|naive_solver].
  intros tr c (? & [= <-] & Hc). eapply wp_mono; [apply statusUpdate_spec|].
  simpl. intros trs out (-> & Hne & Hs). split; [done|]. by exists tr, trs, c.
Qed.

Lemma reported_protected st reason msg fin o o' f tr :
  reported st reason msg fin o tr -> protected o' f tr.
Proof.
  intros Hr%reported_calm. apply protected_forall. eapply Forall_impl; [exact Hr|].
  intros e [?|[? ?]]; eauto with topology.
Qed.

(** ** The three ways an object goes *)

Definition is_event (k' : kind) (type reason : string) (e : event result) : Prop :=
  exists o ev, projT1 e = Eventf k' o ev /\ Event_Type ev = type /\ Event_Reason ev = reason.

Lemma is_event_quiet k' type reason e : is_event k' type reason e -> quiet e.
Proof. intros (o & ev & He & _). unfold quiet. by rewrite He. Qed.

(** A live object: the finalizer first, then the declaration, then an event and
    the status that says how the declaration went. *)
Definition declare_post (c : RmqClient) (o : object k) (tr : go_trace)
    (out : outcome (Result * option error)) : Prop :=
  exists tra err o1, exec (addFinalizerIfNeeded k o) tra (Returned (err, o1)) /\
  match err with
  | Some e => tr = tra /\ out = Returned (emptyResult, Some e)
  | None => exists trd od, exec (DeclareFunc c o1) trd od /\
      match od with
      | Panicked w => tr = tra ++ trd /\ out = Panicked w
      | Returned (Some e, o2) => exists ev trs,
          tr = tra ++ trd ++ ev :: trs /\ is_event k EventTypeWarning "FailedDeclare" ev /\
          reported ConditionFalse "FailedCreateOrUpdate" (err_Error e) (fun o => o) o2 trs /\
          out = Returned (emptyResult, Some e)
      | Returned (None, o2) => exists ev trs,
          tr = tra ++ trd ++ ev :: trs /\ is_event k EventTypeNormal "SuccessfulDeclare" ev /\
          reported ConditionTrue "SuccessfulCreateOrUpdate" "" (setObservedGeneration k) o2 trs /\
          out = Returned (emptyResult, None)
      end
  end.

Lemma reconcileDeclare_spec c (o : object k) :
  wp (reconcileDeclare k c o) (declare_post c o).
Proof.
  unfold reconcileDeclare, declare_post.
  eapply wp_cut; [apply (wp_and _ _ _ (wp_self _) (addFinalizerIfNeeded_spec k o))|..];
    [|naive_solver].
  intros tra [err o1] [Hx _]. destruct err as [e|].
  { exists tra, (Some e), o1. by rewrite app_nil_r. }
  eapply wp_cut; [apply wp_self|..].
  - intros trd [[e|] o2] Hd; simpl; intros u.
    + eapply wp_cut; [apply reportNotReady_spec|..]; simpl; [|naive_solver].
      intros trs [] [_ Hr]. exists tra, None, o1. split; [done|].
      exists trd, (Returned (Some e, o2)). split; [done|]. do 2 eexists.
      split; [by rewrite app_nil_r|]. split; [by do 2 eexists|done].
    + eapply wp_cut; [apply Ready_spec|..]; simpl; [|naive_solver].
      intros trn cd (? & [= <-] & Hc).
      eapply wp_cut; [apply statusUpdate_spec|..]; simpl; [|naive_solver].
      intros trs [] (_ & Hne & Hs). exists tra, None, o1. split; [done|].
      exists trd, (Returned (None, o2)). split; [done|]. do 2 eexists.
      split; [by rewrite app_nil_r|]. split; [by do 2 eexists|]. split; [|done].
      by exists trn, trs, cd.
  - intros trd w Hd. exists tra, None, o1. split; [done|]. by exists trd, (Panicked w).
Qed.

(** A deleted object: the finalizer is removed after a successful deletion. *)
Definition delete_post (c : RmqClient) (o : object k) (tr : go_trace)
    (out : outcome (Result * option error)) : Prop :=
  exists trd od, exec (DeleteFunc c o) trd od /\
  match od with
  | Panicked w => tr = trd /\ out = Panicked w
  | Returned (Some e, o2) => exists ev,
      tr = trd ++ [ev] /\ is_event k EventTypeWarning "FailedDelete" ev /\
      out = Returned (emptyResult, Some e)
  | Returned (None, o2) => exists ev trf err o3,
      tr = trd ++ ev :: trf /\ is_event k EventTypeNormal "SuccessfulDelete" ev /\
      exec (removeFinalizer k o2) trf (Returned (err, o3)) /\
      out = Returned (emptyResult, err)
  end.

Lemma reconcileDelete_spec c (o : object k) : wp (reconcileDelete k c o) (delete_post c o).
Proof.
  unfold reconcileDelete, delete_post. eapply wp_cut; [apply wp_self|..].
  - intros trd [[e|] o2] Hd; simpl; intros u.
    + exists trd, (Returned (Some e, o2)). split; [done|]. eexists. split; [done|].
      split; [by do 2 eexists|done].
    + intros [e|o3]; simpl; exists trd, (Returned (None, o2)); (split; [done|]);
        do 4 eexists; (split; [done|]); (split; [by do 2 eexists|]);
        (split; [by do 2 eexists|done]).
  - intros trd w Hd. by exists trd, (Panicked w).
Qed.

(** The cluster could not be resolved. *)
Definition reference_error_post (o : object k) (e : error) (tr : go_trace)
    (out : outcome (Result * option error)) : Prop :=
  let deleting := negb (time_IsZero (DeletionTimestamp (meta k o))) in
  let noCluster := errors_Is e ErrNoSuchRabbitmqCluster in
  let scaled := errors_Is e ErrClusterScaledToZero in
  if deleting && (noCluster || scaled) then
    exists ev trf err o', tr = ev :: trf /\ is_event k EventTypeNormal "SuccessfulDelete" ev /\
      exec (removeFinalizer k o) trf (Returned (err, o')) /\
      out = Returned (emptyResult, err)
  else if noCluster then tr = [] /\ out = Returned (mkResult (10 * second), Some e)
  else exists tre trs msg, tr = tre ++ trs /\ Forall (fun ev => exists t rsn, is_event k t rsn ev) tre /\
    reported ConditionFalse "FailedCreateOrUpdate" msg (fun o => o) o trs /\
    out = Returned (emptyResult,
      if scaled || errors_Is e ErrResourceNotAllowed then None else Some e).

Lemma handleReferenceError_spec (o : object k) e :
  wp (Reconciler_handleRMQReferenceParseError k o (Some e)) (reference_error_post o e).
Proof.
  unfold Reconciler_handleRMQReferenceParseError, reference_error_post.
  assert (Hrep : forall tre msg res, Forall (fun ev => exists t rsn, is_event k t rsn ev) tre ->
    wp (bind (reportNotReady k msg o) (fun _ => Ret res)) (fun tr out =>
      exists tre' trs msg, tre ++ tr = tre' ++ trs /\
        Forall (fun ev => exists t rsn, is_event k t rsn ev) tre' /\
        reported ConditionFalse "FailedCreateOrUpdate" msg (fun o => o) o trs /\
        out = Returned (A:=Result * option error) res)).
  { intros tre msg res He. eapply wp_cut; [apply reportNotReady_spec|..]; simpl; [|naive_solver].
    intros trs [] [_ Hr]. exists tre, trs, msg. by rewrite app_nil_r. }
  destruct (errors_Is e ErrNoSuchRabbitmqCluster), (errors_Is e ErrClusterScaledToZero),
    (time_IsZero (DeletionTimestamp (meta k o))); simpl.
  all: try (intros u [e'|o']; simpl; do 4 eexists; (split; [done|]);
            (split; [by do 2 eexists|]); (split; [by do 2 eexists|done])).
  all: try done.
  - intros u. apply (Hrep [existT (P:=result) (Eventf k o _) u]). repeat constructor. by do 4 eexists.
  - destruct (errors_Is e ErrResourceNotAllowed); simpl.
    + by apply (Hrep []).
    + intros u. apply (Hrep [existT (P:=result) (Eventf k o _) u]). repeat constructor. by do 4 eexists.
  - destruct (errors_Is e ErrResourceNotAllowed); simpl.
    + by apply (Hrep []).
    + intros u. apply (Hrep [existT (P:=result) (Eventf k o _) u]). repeat constructor. by do 4 eexists.
Qed.

Definition parse_reference_of (o : object k) : go (error + (credsProvider * bool)) :=
  ParseReference (RabbitReference o) (Namespace (meta k o))
    (KubernetesClusterDomain r) (ConnectUsingPlainHTTP r).

(** A reconciliation: certificates, the cluster reference, a client, and then
    one of the three ways above. *)
Definition object_post (o : object k) (tr : go_trace)
    (out : outcome (Result * option error)) : Prop :=
  exists trc, Forall quiet trc /\
  ((tr = trc /\ exists e, out = Returned (emptyResult, Some e)) \/
   exists pool trp res, exec (parse_reference_of o) trp (Returned res) /\
     match res with
     | inl e => exists trh, tr = trc ++ trp ++ trh /\ reference_error_post o e trh out
     | inr (creds, tls) => exists trg, Forall quiet trg /\
         ((tr = trc ++ trp ++ trg /\ exists e, out = Returned (emptyResult, Some e)) \/
          exists c trb, client_of creds tls pool c /\ tr = trc ++ trp ++ trg ++ trb /\
            match DeletionTimestamp (meta k o) with
            | Some _ => delete_post c o trb out
            | None => declare_post c o trb out
            end)
     end).

Lemma reconcileObject_spec (o : object k) : wp (reconcileObject k r o) (object_post o).
Proof.
  unfold reconcileObject, object_post. fold (parse_reference_of o).
  eapply wp_cut; [apply extractSystemCertPool_quiet|..]; [|naive_solver].
  intros trc x [Hqc _]. destruct x as [e|pool].
  { exists trc. rewrite app_nil_r. split; [done|]. left. eauto. }
  eapply wp_cut; [apply (wp_and _ _ _ (wp_self _) (ParseReference_answer _ _ _ _))|..];
    [|by intros tr w [_ []]].
  intros trp [e|[creds tls]] [Hp _].
  { eapply wp_mono; [apply handleReferenceError_spec|]. intros trh out Hh.
    exists trc. split; [done|]. right. exists pool, trp, (inl e). eauto. }
  eapply wp_cut; [apply generateRabbitholeClient_spec|..]; [|naive_solver].
  intros trg x (Hqg & x' & [= <-] & Hc). destruct x as [e|c].
  { simpl. exists trc. split; [done|]. right. exists pool, trp, (inr (creds, tls)).
    split; [done|]. exists trg. split; [done|]. left. rewrite app_nil_r. eauto. }
  eapply (wp_mono _ (fun trb out => match DeletionTimestamp (meta k o) with
                                    | Some _ => delete_post c o trb out
                                    | None => declare_post c o trb out end)).
  { destruct (DeletionTimestamp _); [apply reconcileDelete_spec|apply reconcileDeclare_spec]. }
  intros trb out Hb. exists trc. split; [done|]. right. exists pool, trp, (inr (creds, tls)).
  split; [done|]. exists trg. split; [done|]. right. exists c, trb. eauto.
Qed.
End finalizer.
