(* ===== verification/ReconcilerTheorems.v ===== *)
(** * The contract of the reconciler

    For every kind that satisfies [ReconcileFuncOk], whatever the API server
    and the broker answer. *)

From S2P Require Import Prelude.
From S2P Require Import GoStrings.
From S2P Require Import GoErrors.
From S2P Require Import GoUrl.
From S2P Require Import Prog.
From S2P Require Import Api.
From S2P Require Import Values.
From S2P Require Import World.
From S2P Require Import Resources.
From S2P Require Import ParseReference.
From S2P Require Import ParseReferenceProofs.
From S2P Require Import Utils.
From S2P Require Import Traces.
From S2P Require Import TopologyReconciler.
From S2P Require Import ReconcilerProofs.

Section contract.
Context `{LibsOk} (k : kind) `{TopologyResource k} `{!TopologyResourceOk k}
  `{!ReconcileFunc k} `{!ReconcileFuncOk k} (r : ReconcilerConfig).

Lemma parse_quiet o trp res : exec (parse_reference_of k r o) trp res -> Forall quiet trp.
Proof. exact (proj1 (wp_exec _ _) (ParseReference_quiet _ _ _ _) trp res). Qed.

Lemma deleting_some (o : object k) :
  negb (time_IsZero (DeletionTimestamp (meta k o))) = true ->
  is_Some (DeletionTimestamp (meta k o)).
Proof. destruct (DeletionTimestamp _); [eauto|done]. Qed.

(** ** Finalizers *)

Lemma declare_protected c (o : object k) f tr out :
  f ∈ Finalizers (meta k o) -> echoes k tr -> declare_post k c o tr out -> protected k o f tr.
Proof.
  intros Hf Hecho (tra & err & o1 & Hx & Hrest).
  pose proof (proj1 (wp_exec _ _) (addFinalizerIfNeeded_keeps k o f Hf) _ _ Hx) as [Ha Ho1].
  destruct err as [e|]; [by destruct Hrest as [-> _]; apply protected_forall|].
  destruct Hrest as (trd & od & Hd & Hrest).
  assert (Hf1 : echoes k tra -> f ∈ Finalizers (meta k o1)) by eauto.
  assert (Hp : echoes k tra -> protected k o f (tra ++ trd)).
  { intros He. apply protected_app2; [by apply protected_forall|]. apply protected_forall.
    exact (proj1 (wp_exec _ _) (DeclareFunc_keeps c o1 f (Hf1 He)) _ _ Hd). }
  destruct od as [[[e|] o2]|w].
  - destruct Hrest as (ev & trs & -> & Hev%is_event_quiet & Hrep & _).
    apply echoes_app in Hecho as [He _]. rewrite app_assoc. apply protected_app2; [auto|].
    apply (protected_app2 k o f [ev]); [by apply protected_quiet; repeat constructor|].
    by eapply reported_protected.
  - destruct Hrest as (ev & trs & -> & Hev%is_event_quiet & Hrep & _).
    apply echoes_app in Hecho as [He _]. rewrite app_assoc. apply protected_app2; [auto|].
    apply (protected_app2 k o f [ev]); [by apply protected_quiet; repeat constructor|].
    by eapply reported_protected.
  - destruct Hrest as [-> _]. apply echoes_app in Hecho as [He _]. auto.
Qed.

Lemma delete_protected c (o : object k) f tr out :
  f ∈ Finalizers (meta k o) -> is_Some (DeletionTimestamp (meta k o)) ->
  delete_post k c o tr out -> protected k o f tr.
Proof.
  intros Hf Hdel (trd & od & Hd & Hrest).
  pose proof (proj1 (wp_exec _ _) (DeleteFunc_released c o) _ _ Hd) as [Hrel Hguard].
  assert (Hp : protected k o f trd).
  { eapply guarded_mono; [|exact (Hguard f Hf)]. intros pre e HR Hdr. split; [done|]. left. auto. }
  destruct od as [[[e|] o2]|w].
  - destruct Hrest as (ev & -> & Hev%is_event_quiet & _).
    apply protected_app2; [done|]. apply protected_quiet. by repeat constructor.
  - destruct Hrest as (ev & trf & err & o3 & -> & _ & _ & _).
    apply protected_app; [done|]. apply protected_may_drop. split; [done|]. left. eauto.
  - by destruct Hrest as [-> _].
Qed.

Lemma reference_error_protected (o : object k) f e trp tr out :
  exec (parse_reference_of k r o) trp (Returned (inl e)) ->
  reference_error_post k o e tr out ->
  protected k o f (trp ++ tr).
Proof.
  intros Hp Hpost. apply protected_app; [by apply protected_quiet, (parse_quiet o _ _ Hp)|].
  unfold reference_error_post in Hpost. destruct (_ && _) eqn:E.
  - apply andb_true_iff in E as [Hdel Hwhy]. apply protected_may_drop.
    split; [by apply deleting_some|]. right. apply orb_true_iff in Hwhy as [Hn|Hz].
    + destruct (proj1 (wp_exec _ _) (ParseReference_classified _ _ _ _) _ _ Hp) as (ev & Hl & Hu).
      { by exists e. }
      exists ev. split; [by eapply last_Some_elem_of|by left].
    + destruct (proj1 (wp_exec _ _) (ParseReference_scaled _ _ _ _) _ _ Hp) as (ev & Hl & Hu).
      { by exists e. }
      exists ev. split; [done|by right].
  - apply protected_after. destruct (errors_Is e ErrNoSuchRabbitmqCluster).
    + by destruct Hpost as [-> _].
    + destruct Hpost as (tre & trs & msg & -> & Hev & Hr & _).
      apply protected_app2; [|by eapply reported_protected].
      apply protected_quiet. eapply Forall_impl; [exact Hev|].
      intros ev (t & rsn & Hq). by eapply is_event_quiet.
Qed.

Lemma object_protected (o : object k) f tr out :
  f ∈ Finalizers (meta k o) -> echoes k tr -> object_post k r o tr out -> protected k o f tr.
Proof.
  intros Hf Hecho (trc & Hqc & [[-> _]|(pool & trp & res & Hp & Hrest)]);
    [by apply protected_quiet|].
  destruct res as [e|[creds tls]].
  - destruct Hrest as (trh & -> & Hh). apply protected_app2; [by apply protected_quiet|].
    by eapply reference_error_protected.
  - destruct Hrest as (trg & Hqg & [[-> _]|(c & trb & _ & -> & Hb)]).
    + apply protected_quiet. rewrite !Forall_app. eauto using parse_quiet.
    + rewrite !echoes_app in Hecho. destruct Hecho as (_ & _ & _ & Hecho).
      do 3 (apply protected_app2; [by apply protected_quiet; eauto using parse_quiet|]).
      destruct (DeletionTimestamp (meta k o)) eqn:E.
      * eapply delete_protected; [done| |exact Hb]. rewrite E. eauto.
      * by eapply declare_protected.
Qed.

Lemma Reconcile_inv req obj tr out :
  exec (Reconcile k r req) (existT (P:=result) (CGet k req) (inr obj) :: tr) out ->
  object_post k r obj tr out.
Proof.
  unfold Reconcile. simpl. intros (x & tr' & Heq & Hx).
  pose proof (f_equal tail Heq) as Htl. simpl in Htl. subst tr'.
  apply (f_equal head) in Heq. simpl in Heq.
  apply (inj Some), CGet_answer in Heq as <-.
  exact (proj1 (wp_exec _ _) (reconcileObject_spec k r obj) _ _ Hx).
Qed.

(** ** Before the broker is called *)

Definition calm (e : event result) : Prop := quiet e \/ exists o, sends_status k o e.

Lemma calm_not_rmq tr : Forall calm tr -> Forall (fun e => ~ rmq_event e) tr.
Proof. intros Ht. eapply Forall_impl; [exact Ht|]. intros e [?|[??]]; eauto with topology. Qed.

Lemma quiet_calls tr : Forall quiet tr -> rmq_calls tr = [].
Proof.
  intros Hq. apply rmq_calls_nil. eapply Forall_impl; [exact Hq|]. eauto with topology.
Qed.

Lemma removeFinalizer_calls (o : object k) trf out :
  exec (removeFinalizer k o) trf out -> rmq_calls trf = [].
Proof.
  intros Hx. destruct (proj1 (wp_exec _ _) (removeFinalizer_spec k o) _ _ Hx)
    as (sent & x & err & o' & -> & _). done.
Qed.

Lemma addFinalizer_calls (o : object k) tra out :
  exec (addFinalizerIfNeeded k o) tra out -> rmq_calls tra = [].
Proof. intros Hx. apply (proj1 (wp_exec _ _) (addFinalizerIfNeeded_spec k o) _ _ Hx). Qed.

Lemma reported_calls st reason msg fin (o : object k) trs :
  reported k st reason msg fin o trs -> rmq_calls trs = [].
Proof. intros Hr%reported_calm. by apply rmq_calls_nil, calm_not_rmq. Qed.

Lemma event_calls t rsn e : is_event k t rsn e -> rmq_calls [e] = [].
Proof. intros Hq%is_event_quiet. apply quiet_calls. by repeat constructor. Qed.

(** Handling an error of the reference never calls the broker. *)
Lemma reference_error_calls (o : object k) e tr out :
  reference_error_post k o e tr out -> rmq_calls tr = [].
Proof.
  unfold reference_error_post. destruct (_ && _).
  - intros (ev & trf & err & o' & -> & Hev & Hf & _).
    change (ev :: trf) with ([ev] ++ trf).
    by rewrite rmq_calls_app, (event_calls _ _ _ Hev), (removeFinalizer_calls _ _ _ Hf).
  - case_match; [by intros [-> _]|].
    intros (tre & trs & msg & -> & Hev & Hr & _). rewrite rmq_calls_app.
    rewrite (reported_calls _ _ _ _ _ _ Hr), app_nil_r. apply quiet_calls.
    eapply Forall_impl; [exact Hev|]. intros ev (t & rsn & Hq). by eapply is_event_quiet.
Qed.

Lemma no_call tr1 e tr2 : rmq_event e -> rmq_calls (tr1 ++ e :: tr2) <> [].
Proof.
  intros He Hn. apply rmq_calls_nil in Hn. by apply Forall_app in Hn as [_ [? _]%Forall_cons].
Qed.

(** The event is in the last part of the trace. *)
Lemma split_last (tr0 trb tr1 : go_trace) e tr2 :
  tr1 ++ e :: tr2 = tr0 ++ trb -> rmq_event e -> rmq_calls tr0 = [] ->
  exists tr1', tr1 = tr0 ++ tr1' /\ trb = tr1' ++ e :: tr2.
Proof.
  intros Heq He Hn. destruct (app_eq_inv _ _ _ _ Heq) as [(l & -> & Hl)|(l & -> & Hl)]; [eauto|].
  destruct l as [|e' l]; simplify_eq/=.
  - exists []. by rewrite !app_nil_r.
  - by edestruct (no_call tr1 e' l).
Qed.
(** C1: An Update of Reconcile drops a finalizer only from an object that is
    marked for deletion, and only after its DeleteFunc ran on the broker and
    reported success, or after a read of its cluster failed, for whatever reason,
    or the default-user secret or the service of the cluster was answered as not
    found, or the cluster was read with zero replicas. *)
Theorem finalizer_protects req obj tr1 e tr2 out f :
  exec (Reconcile k r req) (existT (P:=result) (CGet k req) (inr obj) :: tr1 ++ e :: tr2) out ->
  f ∈ Finalizers (meta k obj) -> echoes k (tr1 ++ e :: tr2) -> drops k f e ->
  is_Some (DeletionTimestamp (meta k obj)) /\ (released obj tr1 \/ cluster_gone tr1).
Proof.
  intros Hx%Reconcile_inv Hf Hecho Hdrop.
  pose proof (object_protected obj f _ _ Hf Hecho Hx) as Hp.
  exact (proj1 (guarded_spec _ _) Hp tr1 e tr2 eq_refl Hdrop).
Qed.

(** The broker is called only with credentials of the cluster of the object,
    on an object that is being deleted or has been given the finalizer. *)
Lemma broker_call_inv (obj : object k) tr1 e tr2 out :
  object_post k r obj (tr1 ++ e :: tr2) out -> rmq_event e ->
  exists tr0 trp trb0 pool creds tls c trb,
    exec (parse_reference_of k r obj) trp (Returned (inr (creds, tls))) /\
    client_of creds tls pool c /\
    tr1 = tr0 ++ trp ++ trb0 ++ trb /\ Forall quiet trb0 /\ Forall quiet tr0 /\
    match DeletionTimestamp (meta k obj) with
    | Some _ => delete_post k c obj (trb ++ e :: tr2) out
    | None => declare_post k c obj (trb ++ e :: tr2) out
    end.
Proof.
  intros (trc & Hqc & [[Heq _]|(pool & trp & res & Hp & Hrest)]) He.
  { exfalso. apply (no_call tr1 e tr2 He). rewrite Heq. by apply quiet_calls. }
  pose proof (parse_quiet _ _ _ Hp) as Hqp. destruct res as [e'|[creds tls]].
  - destruct Hrest as (trh & Heq & Hh%reference_error_calls).
    exfalso. apply (no_call tr1 e tr2 He). rewrite Heq, !rmq_calls_app, Hh.
    by rewrite (quiet_calls _ Hqc), (quiet_calls _ Hqp).
  - destruct Hrest as (trg & Hqg & [[Heq _]|(c & trb & Hc & Heq & Hb)]).
    { exfalso. apply (no_call tr1 e tr2 He). rewrite Heq. apply quiet_calls.
      by rewrite !Forall_app. }
    rewrite !app_assoc in Heq. apply split_last in Heq as (tr1' & -> & ->); [|done|].
    2:{ apply quiet_calls. by rewrite !Forall_app. }
    exists trc, trp, trg, pool, creds, tls, c, tr1'. rewrite <- !app_assoc. by eauto.
Qed.

(** C2: Before Reconcile of a live object calls the broker, the object carries the
    deletion finalizer of its kind: it had it when it was read, or an Update that
    adds it was accepted earlier in the same run. *)
Theorem finalizer_before_broker req obj tr1 e tr2 out :
  exec (Reconcile k r req) (existT (P:=result) (CGet k req) (inr obj) :: tr1 ++ e :: tr2) out ->
  DeletionTimestamp (meta k obj) = None -> rmq_event e ->
  finalizerOf k obj ∈ Finalizers (meta k obj) \/
  exists sent o', existT (P:=result) (CUpdate k sent) (inr o') ∈ tr1 /\
    finalizerOf k sent ∈ Finalizers (meta k sent).
Proof.
  intros Hx%Reconcile_inv Hlive He.
  destruct (broker_call_inv _ _ _ _ _ Hx He)
    as (tr0 & trp & trg & pool & creds & tls & c & trb & _ & _ & -> & _ & _ & Hd).
  rewrite Hlive in Hd. destruct Hd as (tra & err & o1 & Ha & Hrest).
  destruct (proj1 (wp_exec _ _) (addFinalizerIfNeeded_spec k obj) _ _ Ha)
    as (Hn & err' & o1' & [= <- <-] & Hspec).
  destruct err as [e'|].
  { exfalso. destruct Hrest as [Heq _]. apply (no_call trb e tr2 He). by rewrite Heq. }
  assert (exists trx, trb ++ e :: tr2 = tra ++ trx) as [trx Heq].
  { destruct Hrest as (trd & [[[?|] ?]|?] & _ & Hrest).
    - destruct Hrest as (ev & trs & Heq & _). eexists; exact Heq.
    - destruct Hrest as (ev & trs & Heq & _). eexists; exact Heq.
    - destruct Hrest as [Heq _]. eexists; exact Heq. }
  apply split_last in Heq as (tr1' & -> & _); [|done|done].
  destruct (Hspec eq_refl) as [(_ & _ & Hin)|(sent & -> & Hin)].
  - left. apply Hin. by rewrite Hlive.
  - right. exists sent, o1. split; [set_solver|done].
Qed.

(** ** Who is called *)

Lemma declare_post_client c (o : object k) tr out :
  declare_post k c o tr out -> Forall (uses_client c) tr.
Proof.
  intros (tra & err & o1 & Ha%addFinalizer_calls & Hrest).
  assert (Hcalls : forall tr', rmq_calls tr' = [] -> Forall (uses_client c) tr').
  { intros tr' Hn%rmq_calls_nil. eapply Forall_impl; [exact Hn|]. apply not_rmq_uses_client. }
  destruct err as [e|]; [by destruct Hrest as [-> _]; auto|].
  destruct Hrest as (trd & od & Hd & Hrest).
  pose proof (proj1 (wp_exec _ _) (DeclareFunc_client c o1) _ _ Hd) as Hcd.
  destruct od as [[[e|] o2]|w].
  1,2: destruct Hrest as (ev & trs & -> & Hev & Hr & _);
    rewrite !Forall_app, Forall_cons; repeat split; try done;
    [by apply Hcalls|apply Forall_singleton, Hcalls; by eapply event_calls
    |eapply Hcalls, reported_calls; exact Hr].
  destruct Hrest as [-> _]. apply Forall_app; auto.
Qed.

Lemma delete_post_client c (o : object k) tr out :
  delete_post k c o tr out -> Forall (uses_client c) tr.
Proof.
  intros (trd & od & Hd & Hrest).
  pose proof (proj1 (wp_exec _ _) (DeleteFunc_client c o) _ _ Hd) as Hcd.
  assert (Hcalls : forall tr', rmq_calls tr' = [] -> Forall (uses_client c) tr').
  { intros tr' Hn%rmq_calls_nil. eapply Forall_impl; [exact Hn|]. apply not_rmq_uses_client. }
  destruct od as [[[e|] o2]|w].
  - destruct Hrest as (ev & -> & Hev & _). apply Forall_app. split; [done|].
    eapply Hcalls, event_calls, Hev.
  - destruct Hrest as (ev & trf & err & o3 & -> & Hev & Hf & _).
    rewrite Forall_app, Forall_cons. repeat split; [done| |].
    + apply Forall_singleton, Hcalls. by eapply event_calls.
    + eapply Hcalls, removeFinalizer_calls, Hf.
  - by destruct Hrest as [-> _].
Qed.

(** C3: Every broker call of Reconcile goes to the address and with the
    credentials ParseReference returned, with a TLS transport exactly for https,
    and across namespaces only when the referenced cluster or secret lists the
    object's namespace. *)
Theorem broker_calls_authorized req obj tr1 c call x tr2 out :
  exec (Reconcile k r req)
    (existT (P:=result) (CGet k req) (inr obj) :: tr1 ++ existT (Rmq c call) x :: tr2) out ->
  exists trp creds tls,
    exec (parse_reference_of k r obj) trp (Returned (inr (creds, tls))) /\
    (forall ev, ev ∈ trp -> ev ∈ tr1) /\
    creds !! "username" = Some (client_username c) /\
    creds !! "password" = Some (client_password c) /\
    creds !! "uri" = Some (client_uri c) /\
    (is_Some (client_tls c) <-> url_scheme (client_uri c) = "https") /\
    (crossNamespace (RabbitReference obj) (Namespace (meta k obj)) ->
     first_grants (RabbitReference obj) (Namespace (meta k obj)) trp).
Proof.
  intros Hx%Reconcile_inv.
  destruct (broker_call_inv _ _ _ _ _ Hx) as
    (tr0 & trp & trg & pool & creds & tls & c' & trb & Hp & Hc & -> & _ & _ & Hd).
  { by do 2 eexists. }
  assert (c = c') as ->.
  { assert (Forall (uses_client c') (trb ++ existT (Rmq c call) x :: tr2)) as Hall.
    { destruct (DeletionTimestamp _); eauto using declare_post_client, delete_post_client. }
    apply Forall_app in Hall as [_ [Hu _]%Forall_cons]. by eapply Hu. }
  destruct Hc as (Hu & Hpw & Huri & Htls). exists trp, creds, tls.
  split; [done|]. split; [set_solver|]. do 3 (split; [done|]). split.
  - destruct (proj1 (wp_exec _ _) (ParseReference_answer _ _ _ _) _ _ Hp)
      as [(uri & Huri' & Hb) _]. simpl in Huri', Hb.
    rewrite Huri in Huri'. injection Huri' as ->. rewrite <- Hb, Htls.
    destruct tls; [|by split; [intros [? [=]]|]]. split; eauto.
  - intros Hcross. apply (proj1 (wp_exec _ _) (ParseReference_namespaces _ _ _ _ Hcross) _ _ Hp).
    left. eauto.
Qed.

(** ** What the status says *)

(** The statuses sent in [tr], all the same, are those of [o] with a [Ready]
    condition of status [st] and with observed generation [gen]; the time of the
    condition is kept when its status does not change. *)
Definition published (o : object k) (st msg : string) (gen : Z) (tr : go_trace) : Prop :=
  exists o' c trn trs,
    tr = trn ++ trs /\ Forall quiet trn /\ trs <> [] /\ Forall (sends_status k o') trs /\
    meta k o' = meta k o /\
    ConditionOps.findCondition ready (status_Conditions o') = Some c /\
    Condition_Status c = st /\ Condition_Message c = msg /\
    status_ObservedGeneration o' = gen /\
    (forall t, ConditionOps.sameTransition ready st (status_Conditions o) = Some t ->
       Condition_LastTransitionTime c = t).

Lemma new_condition_fields st reason msg old trn c :
  new_condition st reason msg old trn c ->
  Condition_Type c = ready /\ Condition_Status c = st /\ Condition_Message c = msg /\
  (forall t, ConditionOps.sameTransition ready st old = Some t ->
     Condition_LastTransitionTime c = t).
Proof. intros (time & -> & [[_ ->]|[_ ->]]); naive_solver. Qed.

Lemma reported_published st reason msg (o : object k) tr :
  reported k st reason msg (fun o => o) o tr ->
  published o st msg (status_ObservedGeneration o) tr.
Proof.
  intros (trn & trs & c & -> & Hne & Hc & Hs).
  destruct (new_condition_fields _ _ _ _ _ _ Hc) as (Ht & Hst & Hm & Hl).
  exists (SetStatusConditions [c] o), c, trn, trs. repeat split; try done.
  - by eapply new_condition_quiet.
  - apply SetStatusConditions_meta.
  - rewrite <- Ht. apply SetStatusConditions_find.
  - apply SetStatusConditions_generation.
Qed.

Lemma reported_published_generation st reason msg (o : object k) tr :
  reported k st reason msg (setObservedGeneration k) o tr ->
  published o st msg (Generation (meta k o)) tr.
Proof.
  intros (trn & trs & c & -> & Hne & Hc & Hs). unfold setObservedGeneration in Hs.
  destruct (new_condition_fields _ _ _ _ _ _ Hc) as (Ht & Hst & Hm & Hl).
  eexists _, c, trn, trs. split; [done|]. split; [by eapply new_condition_quiet|].
  split; [done|]. split; [exact Hs|]. rewrite set_generation_meta, SetStatusConditions_meta.
  split; [done|]. rewrite set_generation_conditions. split; [rewrite <- Ht; apply SetStatusConditions_find|].
  by rewrite set_generation_get.
Qed.

(** C5: After the finalizer is in place the declaration runs once and its outcome
    is published: Ready and the observed generation on success, NotReady with the
    error text and the old generation on failure, and the error is returned. *)
Theorem declaration_published c (o : object k) tr out :
  exec (reconcileDeclare k c o) tr out ->
  (exists e o1, out = Returned (emptyResult, Some e) /\ rmq_calls tr = [] /\
     exec (addFinalizerIfNeeded k o) tr (Returned (Some e, o1))) \/
  exists tra o1 trd od,
    exec (addFinalizerIfNeeded k o) tra (Returned (None, o1)) /\
    exec (DeclareFunc c o1) trd od /\
    match od with
    | Panicked w => tr = tra ++ trd /\ out = Panicked w
    | Returned (None, o2) => exists ev trs,
        tr = tra ++ trd ++ ev :: trs /\ out = Returned (emptyResult, None) /\
        published o2 ConditionTrue "" (Generation (meta k o2)) trs
    | Returned (Some e, o2) => exists ev trs,
        tr = tra ++ trd ++ ev :: trs /\ out = Returned (emptyResult, Some e) /\
        published o2 ConditionFalse (err_Error e) (status_ObservedGeneration o2) trs
    end.
Proof.
  intros Hx. apply (proj1 (wp_exec _ _) (reconcileDeclare_spec k c o)) in Hx.
  destruct Hx as (tra & err & o1 & Ha & Hrest). destruct err as [e|].
  - left. destruct Hrest as [-> ->]. exists e, o1. split; [done|].
    by split; [eapply addFinalizer_calls|].
  - right. destruct Hrest as (trd & od & Hd & Hrest). exists tra, o1, trd, od.
    do 2 (split; [done|]). destruct od as [[[e|] o2]|w].
    + destruct Hrest as (ev & trs & -> & _ & Hr & ->). exists ev, trs.
      eauto using reported_published.
    + destruct Hrest as (ev & trs & -> & _ & Hr & ->). exists ev, trs.
      eauto using reported_published_generation.
    + done.
Qed.

(** ** Errors of the reference *)

(** C11: When the cluster cannot be resolved no broker call is made; a deleted
    object loses its finalizer when the cluster is gone or scaled to zero, a live
    one is requeued after ten seconds for a missing cluster and otherwise gets
    NotReady; only scaled-to-zero and not-allowed are not returned. *)
Theorem reference_errors (o : object k) e tr out :
  exec (Reconciler_handleRMQReferenceParseError k o (Some e)) tr out ->
  let deleting := negb (time_IsZero (DeletionTimestamp (meta k o))) in
  let noCluster := errors_Is e ErrNoSuchRabbitmqCluster in
  let scaled := errors_Is e ErrClusterScaledToZero in
  let notAllowed := errors_Is e ErrResourceNotAllowed in
  rmq_calls tr = [] /\
  if deleting && (noCluster || scaled) then
    exists ev sent x err, tr = [ev; existT (P:=result) (CUpdate k sent) x] /\
      (forall f, f ∈ Finalizers (meta k sent) <->
         f <> finalizerOf k o /\ f ∈ Finalizers (meta k o)) /\
      out = Returned (emptyResult, err) /\ (err = None <-> exists o', x = inr o')
  else if noCluster then tr = [] /\ out = Returned (mkResult (10 * second), Some e)
  else
    out = Returned (emptyResult, if scaled || notAllowed then None else Some e) /\
    exists tre trs msg, tr = tre ++ trs /\ Forall quiet tre /\
      published o ConditionFalse msg (status_ObservedGeneration o) trs.
Proof.
  intros Hx deleting noCluster scaled notAllowed.
  apply (proj1 (wp_exec _ _) (handleReferenceError_spec k o e)) in Hx.
  split; [by eapply reference_error_calls|]. unfold reference_error_post in Hx.
  fold deleting noCluster scaled notAllowed in Hx.
  destruct (deleting && (noCluster || scaled)).
  - destruct Hx as (ev & trf & err & o' & -> & _ & Hf & ->).
    destruct (proj1 (wp_exec _ _) (removeFinalizer_spec k o) _ _ Hf)
      as (sent & x & err' & o2 & -> & [= <- <-] & Hfin & _ & Herr). eauto 10.
  - destruct noCluster; [done|].
    destruct Hx as (tre & trs & msg & -> & Hev & Hr & ->). split; [done|].
    exists tre, trs, msg. split; [done|]. split; [|by eapply reported_published].
    eapply Forall_impl; [exact Hev|]. intros ev (t & rsn & Hq). by eapply is_event_quiet.
Qed.

(** An object that does not exist is no error and causes nothing; any other
    read failure is returned and nothing else is done. *)
Lemma read_errors req e tr out :
  exec (Reconcile k r req) (existT (P:=result) (CGet k req) (inl e) :: tr) out ->
  tr = [] /\ out = Returned (emptyResult, if IsNotFound e then None else Some (ErrAPI e)).
Proof.
  unfold Reconcile. simpl. intros (x & tr' & Heq & Hx).
  pose proof (f_equal tail Heq) as Htl. simpl in Htl. subst tr'.
  apply (f_equal head) in Heq. simpl in Heq.
  by apply (inj Some), CGet_answer in Heq as <-.
Qed.

(** ** The watch on clusters *)

Lemma clusterRequests_spec cluster (items : list (object k)) q :
  q ∈ clusterRequests k cluster items <->
  exists res, res ∈ items /\ q = mkNamespacedName (Namespace (meta k res)) (Name (meta k res)) /\
    Ref_ConnectionSecret (RabbitReference res) = None /\
    Ref_Name (RabbitReference res) = Name (Cluster_ObjectMeta cluster) /\
    referenceNamespace (RabbitReference res) (Namespace (meta k res)) =
      Namespace (Cluster_ObjectMeta cluster).
Proof.
  unfold referenceNamespace. induction items as [|res items IH]; simpl; [set_solver|].
  destruct (Ref_ConnectionSecret _) eqn:Es.
  - rewrite IH. set_solver.
  - destruct (decide (Ref_Name (RabbitReference res) = Name (Cluster_ObjectMeta cluster))) as [En|En];
      [rewrite (bool_decide_eq_true_2 _ En)|rewrite (bool_decide_eq_false_2 _ En)]; simpl.
    + match goal with |- context [bool_decide (?x = Namespace _)] =>
        destruct (decide (x = Namespace (Cluster_ObjectMeta cluster))) as [Em|Em] end.
      * rewrite (bool_decide_eq_true_2 _ Em), elem_of_cons, IH. set_solver.
      * rewrite (bool_decide_eq_false_2 _ Em), IH. set_solver.
    + rewrite IH. set_solver.
Qed.

(** The first object that reconciling a resource reads after the resource and
    the certificates is the cluster [cluster]. *)
Definition refers_to (res : object k) (cluster : RabbitmqCluster) : Prop :=
  forall tr out, exec (parse_reference_of k r res) tr out ->
    exists x tr', tr = existT (P:=result) (CGet KRabbitmqCluster
      (mkNamespacedName (Namespace (Cluster_ObjectMeta cluster))
         (Name (Cluster_ObjectMeta cluster)))) x :: tr'.

Lemma refers_to_iff res cluster :
  Ref_ConnectionSecret (RabbitReference res) = None /\
  Ref_Name (RabbitReference res) = Name (Cluster_ObjectMeta cluster) /\
  referenceNamespace (RabbitReference res) (Namespace (meta k res)) =
    Namespace (Cluster_ObjectMeta cluster) <-> refers_to res cluster.
Proof.
  unfold refers_to, parse_reference_of, ParseReference.
  change (if bool_decide (Ref_Namespace (RabbitReference res) = "") then Namespace (meta k res)
          else Ref_Namespace (RabbitReference res))
    with (referenceNamespace (RabbitReference res) (Namespace (meta k res))).
  destruct (Ref_ConnectionSecret _) as [s|]; simpl; split.
  - by intros [? _].
  - intros Hall. edestruct Hall as (x & tr' & Heq); [by exists (inl (mkApiError StatusReasonConflict "")); eexists|]. by apply (f_equal (map (@projT1 _ _))) in Heq.
  - intros (_ & -> & ->) tr out (x & tr' & -> & _). eauto.
  - intros Hall. edestruct Hall as (x & tr' & Heq); [by exists (inl (mkApiError StatusReasonConflict "")); eexists|].
    apply (f_equal (map (@projT1 _ _))) in Heq. simpl in Heq. naive_solver.
Qed.

(** A change of a cluster enqueues exactly the listed objects whose
    reference, with its namespace default and without a connection secret, names
    that cluster. *)
Lemma cluster_watch cluster items out :
  WatchesClusters r = true ->
  exec (rabbitmqClusterToRequests k r cluster) [existT (P:=result) (CList k) (inr items)] out ->
  exists reqs, out = Returned reqs /\
    forall q, q ∈ reqs <-> exists res, res ∈ items /\ refers_to res cluster /\
      q = mkNamespacedName (Namespace (meta k res)) (Name (meta k res)).
Proof.
  intros Hw. unfold rabbitmqClusterToRequests. rewrite Hw. simpl.
  intros (x & tr' & Heq & Hx). apply (f_equal head), (inj Some), CList_answer in Heq as <-.
  destruct Hx as [_ ->]. eexists. split; [done|]. intros q. rewrite clusterRequests_spec.
  split; intros (res & Hin & Hrest); exists res; rewrite <- refers_to_iff in *; naive_solver.
Qed.

(** ** A cluster that cannot be read *)

(** For an object that is being deleted any failure to read its cluster, also
    a transient one, removes the finalizer without a broker call. *)
Lemma read_failure_releases req (obj o' : object k) pool e :
  Ref_ConnectionSecret (RabbitReference obj) = None ->
  time_IsZero (DeletionTimestamp (meta k obj)) = false ->
  exists tr sent,
    exec (Reconcile k r req)
      (existT (P:=result) (CGet k req) (inr obj) ::
       existT (P:=result) SystemCertPool (inr pool) ::
       existT (P:=result) (CGet KRabbitmqCluster (mkNamespacedName
           (referenceNamespace (RabbitReference obj) (Namespace (meta k obj)))
           (Ref_Name (RabbitReference obj)))) (inl e) ::
       tr ++ [existT (P:=result) (CUpdate k sent) (inr o')])
      (Returned (emptyResult, None)) /\
    rmq_calls tr = [] /\ finalizerOf k obj ∉ Finalizers (meta k sent).
Proof.
  intros Hs Hd.
  exists [existT (P:=result) (Eventf k obj (note EventTypeNormal "SuccessfulDelete"
    deleteEventAction ("successfully deleted " +:+ Name (meta k obj)))) tt].
  exists (set_meta k (RemoveFinalizer (meta k obj) (finalizerOf k obj)) obj). split; [|split; [done|]].
  - unfold Reconcile. cbn [bind act exec]. exists (inr obj); eexists; split; [done|].
    unfold reconcileObject, extractSystemCertPool. cbn [bind act exec].
    exists (inr pool); eexists; split; [done|].
    unfold ParseReference. rewrite Hs. cbn [bind act exec].
    exists (inl e); eexists; split; [done|]. simpl. rewrite Hd. simpl.
    exists tt; eexists; split; [done|]. exists (inr o'); eexists; by split.
  - rewrite meta_set_meta. rewrite RemoveFinalizer_spec. tauto.
Qed.
End contract.
