(* ===== verification/Controllers.v ===== *)
(** * The kinds without state of their own (internal/controller/*_controller.go)

    [DeclareFunc] and [DeleteFunc] of queues, exchanges, bindings, policies,
    operator policies, federations, shovels, schema replications and vhosts. *)

From S2P Require Import Prelude.
From S2P Require Import GoStrings.
From S2P Require Import GoErrors.
From S2P Require Import Prog.
From S2P Require Import Api.
From S2P Require Import Values.
From S2P Require Import World.
From S2P Require Import Resources.
From S2P Require Import Settings.
From S2P Require Import Utils.
From S2P Require Import TopologyReconciler.
Import ProgNotations.
Open Scope go_scope.

(** The end of every [DeleteFunc]: a 404 is logged, every other error is
    returned. *)
Definition deletionResult (res : http_result) : option error :=
  let err := validateResponseForDeletion res in
  if is_err err ErrNotFound then None
  else match err with Some e => Some e | None => None end.

Section controllers.
Context `{Libs}.

(** [fmt.Errorf("...: %w", err)] *)
Definition wrapf (what : string) (e : error) : error := ErrWrap (what +:+ err_Error e) e.

(** A broker call whose answer is validated, as the last step of a function. *)
Definition declareCall {k} (rmqc : RmqClient) (call : rmq_call)
    (answer : rmq_result call -> http_result) (obj : object k) : go (option error * object k) :=
  res <- act (Rmq rmqc call);;
  Ret (validateResponse (answer res), obj).

Definition deleteCall {k} (rmqc : RmqClient) (call : rmq_call)
    (answer : rmq_result call -> http_result) (obj : object k) : go (option error * object k) :=
  res <- act (Rmq rmqc call);;
  Ret (deletionResult (answer res), obj).

(** ** queue_controller.go *)

Definition Queue_DeclareFunc (client : RmqClient) (queue : Queue) : go (option error * Queue) :=
  match GenerateQueueSettings queue with
  | inl e => Ret (Some (wrapf "failed to generate queue settings: " e), queue)
  | inr queueSettings =>
      declareCall (k:=KQueue) client
        (DeclareQueue (Queue_Vhost (Spec queue)) (Queue_Name (Spec queue)) queueSettings)
        (fun r => r) queue
  end.

(** Lines 57 to 69: a quorum queue is looked at before it is deleted. *)
Definition quorumGuard (client : RmqClient) (queue : Queue) : go (option error) :=
  if bool_decide (Queue_Type (Spec queue) = "quorum") &&
     (Queue_DeleteIfEmpty (Spec queue) || Queue_DeleteIfUnused (Spec queue)) then
    qInfo <- act (Rmq client (GetQueue (Queue_Vhost (Spec queue)) (Queue_Name (Spec queue))));;
    match qInfo with
    | inl e =>
        Ret (Some (ErrWrap ("cannot get " +:+ err_Error (ErrRmq e) +:+
               " queue information to verify queue is empty/unused: " +:+
               Queue_Name (Spec queue)) (ErrRmq e)))
    | inr qInfo =>
        if Z.ltb 0 (Messages qInfo) && Queue_DeleteIfEmpty (Spec queue)
        then Ret (Some (ErrText ("cannot delete queue " +:+ Queue_Name (Spec queue) +:+
                                 " because it has ready messages")))
        else if Z.ltb 0 (Consumers qInfo) && Queue_DeleteIfUnused (Spec queue)
        then Ret (Some (ErrText ("cannot delete queue " +:+ Queue_Name (Spec queue) +:+
                                 " because queue has consumers")))
        else Ret None
    end
  else Ret None.

Definition Queue_DeleteFunc (client : RmqClient) (queue : Queue) : go (option error * Queue) :=
  if shouldSkipDeletion (Queue_DeletionPolicy (Spec queue)) (Queue_Name (Spec queue))
  then Ret (None, queue)
  else
    match GenerateQueueDeleteOptions queue with
    | inl e => Ret (Some (wrapf "failed to generate queue delete options: " e), queue)
    | inr queueDeleteOptions =>
        guard <- quorumGuard client queue;;
        match guard with
        | Some e => Ret (Some e, queue)
        | None =>
            deleteCall (k:=KQueue) client
              (DeleteQueue (Queue_Vhost (Spec queue)) (Queue_Name (Spec queue))
                 queueDeleteOptions)
              (fun r => r) queue
        end
    end.

(** ** exchange_controller.go *)

Definition Exchange_DeclareFunc (client : RmqClient) (exchange : Exchange) :
    go (option error * Exchange) :=
  match GenerateExchangeSettings exchange with
  | inl e => Ret (Some (wrapf "failed to generate exchange settings: " e), exchange)
  | inr settings =>
      declareCall (k:=KExchange) client
        (DeclareExchange (Exchange_Vhost (Spec exchange)) (Exchange_Name (Spec exchange)) settings)
        (fun r => r) exchange
  end.

Definition Exchange_DeleteFunc (client : RmqClient) (exchange : Exchange) :
    go (option error * Exchange) :=
  deleteCall (k:=KExchange) client
    (DeleteExchange (Exchange_Vhost (Spec exchange)) (Exchange_Name (Spec exchange)))
    (fun r => r) exchange.

(** ** binding_controller.go *)

Definition Binding_DeclareFunc (client : RmqClient) (binding : Binding) :
    go (option error * Binding) :=
  match GenerateBindingInfo binding with
  | inl e => Ret (Some (wrapf "failed to generate binding info: " e), binding)
  | inr info =>
      declareCall (k:=KBinding) client (DeclareBinding (Binding_Vhost (Spec binding)) info)
        (fun r => r) binding
  end.

(** The loop over the listed bindings keeps the last that matches. *)
Fixpoint lastMatch (routingKey : string) (arguments : args_map) (infos : list BindingInfo)
    (info : option BindingInfo) : option BindingInfo :=
  match infos with
  | [] => info
  | b :: infos =>
      lastMatch routingKey arguments infos
        (if bool_decide (routingKey = BindingInfo_RoutingKey b) &&
            DeepEqual_maps (BindingInfo_Arguments b) arguments
         then Some b else info)
  end.

Definition findBindingInfo (binding : Binding) (client : RmqClient) :
    go (error + option BindingInfo) :=
  let arguments :=
    match Binding_Arguments (Spec binding) with
    | None => inr (Some [])
    | Some raw => json_Unmarshal (raw_bytes raw)
    end in
  match arguments with
  | inl e => Ret (inl (ErrText e))
  | inr arguments =>
      let vhost := Binding_Vhost (Spec binding) in
      let source := Binding_Source (Spec binding) in
      let destination := Binding_Destination (Spec binding) in
      bindingInfos <-
        (if bool_decide (Binding_DestinationType (Spec binding) = "queue")
         then act (Rmq client (ListQueueBindingsBetween vhost source destination))
         else act (Rmq client (ListExchangeBindingsBetween vhost source destination))
         : go (rmq_error + list BindingInfo));;
      match bindingInfos with
      | inl e => Ret (inl (ErrRmq e))
      | inr bindingInfos =>
          Ret (inr (lastMatch (Binding_RoutingKey (Spec binding)) arguments bindingInfos None))
      end
  end.

Definition set_PropertiesKey (key : string) (b : BindingInfo) : BindingInfo :=
  mkBindingInfo (BindingInfo_Vhost b) (BindingInfo_Source b) (BindingInfo_Destination b)
    (BindingInfo_DestinationType b) (BindingInfo_RoutingKey b) (BindingInfo_Arguments b) key.

Definition Binding_DeleteFunc (client : RmqClient) (binding : Binding) :
    go (option error * Binding) :=
  match Binding_Arguments (Spec binding) with
  | Some _ =>
      info <- findBindingInfo binding client;;
      match info with
      | inl e => Ret (Some e, binding)
      | inr None => Ret (None, binding)
      | inr (Some info) =>
          deleteCall (k:=KBinding) client (DeleteBinding (Binding_Vhost (Spec binding)) info)
            (fun r => r) binding
      end
  | None =>
      match GenerateBindingInfo binding with
      | inl e => Ret (Some (wrapf "failed to generate binding info: " e), binding)
      | inr info =>
          let info := set_PropertiesKey (GeneratePropertiesKey binding) info in
          deleteCall (k:=KBinding) client (DeleteBinding (Binding_Vhost (Spec binding)) info)
            (fun r => r) binding
      end
  end.

(** ** policy_controller.go *)

Definition Policy_DeclareFunc (client : RmqClient) (policy : Policy) :
    go (option error * Policy) :=
  generatePolicy <- GeneratePolicy policy;;
  match generatePolicy with
  | inl e => Ret (Some (wrapf "failed to generate Policy: " e), policy)
  | inr info =>
      declareCall (k:=KPolicy) client
        (PutPolicy (Policy_Vhost (Spec policy)) (Policy_Name (Spec policy)) info)
        (fun r => r) policy
  end.

Definition Policy_DeleteFunc (client : RmqClient) (policy : Policy) :
    go (option error * Policy) :=
  deleteCall (k:=KPolicy) client
    (DeletePolicy (Policy_Vhost (Spec policy)) (Policy_Name (Spec policy)))
    (fun r => r) policy.

(** ** operatorpolicy_controller.go *)

Definition OperatorPolicy_DeclareFunc (client : RmqClient) (policy : OperatorPolicy) :
    go (option error * OperatorPolicy) :=
  generateOperatorPolicy <- GenerateOperatorPolicy policy;;
  match generateOperatorPolicy with
  | inl e => Ret (Some (wrapf "failed to generate OperatorPolicy: " e), policy)
  | inr info =>
      declareCall (k:=KOperatorPolicy) client
        (PutOperatorPolicy (OperatorPolicy_Vhost (Spec policy)) (OperatorPolicy_Name (Spec policy))
           info)
        (fun r => r) policy
  end.

Definition OperatorPolicy_DeleteFunc (client : RmqClient) (policy : OperatorPolicy) :
    go (option error * OperatorPolicy) :=
  deleteCall (k:=KOperatorPolicy) client
    (DeleteOperatorPolicy (OperatorPolicy_Vhost (Spec policy)) (OperatorPolicy_Name (Spec policy)))
    (fun r => r) policy.

(** ** federation_controller.go *)

Definition Federation_getUri (federation : Federation) : go (error + string) :=
  match Federation_UriSecret (Spec federation) with
  | None => Ret (inl (ErrText "no uri secret provided"))
  | Some ref =>
      s <- act (CGet KSecret (mkNamespacedName (Namespace (resource_ObjectMeta federation))
                                (LocalObjectReference_Name ref)));;
      match s with
      | inl e => Ret (inl (ErrAPI e))
      | inr secret =>
          match Data secret !! "uri" with
          | None => Ret (inl (ErrText ("could not find key 'uri' in secret " +:+
                                       Name (Secret_ObjectMeta secret))))
          | Some uri => Ret (inr uri)
          end
      end
  end.

(** The text of the error reads the name through the pointer [UriSecret]. *)
Definition uriSecretError (what : string) (secret : option LocalObjectReference) (e : error) :
    go error :=
  match secret with
  | None => Panic "invalid memory address or nil pointer dereference"
  | Some ref =>
      Ret (wrapf ("failed to parse " +:+ what +:+ " uri secret; secret name: " +:+
                  LocalObjectReference_Name ref +:+ ", error: ") e)
  end.

Definition Federation_DeclareFunc (rmqc : RmqClient) (federation : Federation) :
    go (option error * Federation) :=
  uri <- Federation_getUri federation;;
  match uri with
  | inl e =>
      err <- uriSecretError "federation" (Federation_UriSecret (Spec federation)) e;;
      Ret (Some err, federation)
  | inr uri =>
      declareCall (k:=KFederation) rmqc
        (PutFederationUpstream (Federation_Vhost (Spec federation))
           (Federation_Name (Spec federation)) (GenerateFederationDefinition federation uri))
        (fun r => r) federation
  end.

Definition Federation_DeleteFunc (rmqc : RmqClient) (federation : Federation) :
    go (option error * Federation) :=
  if shouldSkipDeletion (Federation_DeletionPolicy (Spec federation))
       (Federation_Name (Spec federation))
  then Ret (None, federation)
  else
    deleteCall (k:=KFederation) rmqc
      (DeleteFederationUpstream (Federation_Vhost (Spec federation))
         (Federation_Name (Spec federation)))
      (fun r => r) federation.

(** ** shovel_controller.go *)

Definition Shovel_getUris (shovel : Shovel) : go (error + (string * string)) :=
  match Shovel_UriSecret (Spec shovel) with
  | None => Ret (inl (ErrText "no uri secret provided"))
  | Some ref =>
      s <- act (CGet KSecret (mkNamespacedName (Namespace (resource_ObjectMeta shovel))
                                (LocalObjectReference_Name ref)));;
      match s with
      | inl e => Ret (inl (ErrAPI e))
      | inr secret =>
          match Data secret !! "srcUri" with
          | None => Ret (inl (ErrText ("could not find key 'srcUri' in secret " +:+
                                       Name (Secret_ObjectMeta secret))))
          | Some srcUri =>
              match Data secret !! "destUri" with
              | None => Ret (inl (ErrText ("could not find key 'destUri' in secret " +:+
                                           Name (Secret_ObjectMeta secret))))
              | Some destUri => Ret (inr (srcUri, destUri))
              end
          end
      end
  end.

Definition Shovel_DeclareFunc (rmqc : RmqClient) (shovel : Shovel) :
    go (option error * Shovel) :=
  uris <- Shovel_getUris shovel;;
  match uris with
  | inl e =>
      err <- uriSecretError "shovel" (Shovel_UriSecret (Spec shovel)) e;;
      Ret (Some err, shovel)
  | inr (srcUri, destUri) =>
      match GenerateShovelDefinition shovel srcUri destUri with
      | inl e => Ret (Some (wrapf "failed to generate shovel definition: " e), shovel)
      | inr definition =>
          declareCall (k:=KShovel) rmqc
            (DeclareShovel (Shovel_Vhost (Spec shovel)) (Shovel_Name (Spec shovel)) definition)
            (fun r => r) shovel
      end
  end.

Definition Shovel_DeleteFunc (rmqc : RmqClient) (shovel : Shovel) :
    go (option error * Shovel) :=
  if shouldSkipDeletion (Shovel_DeletionPolicy (Spec shovel)) (Shovel_Name (Spec shovel))
  then Ret (None, shovel)
  else
    deleteCall (k:=KShovel) rmqc
      (DeleteShovel (Shovel_Vhost (Spec shovel)) (Shovel_Name (Spec shovel)))
      (fun r => r) shovel.

(** ** schemareplication_controller.go *)

Definition SchemaReplicationParameterName : string := "schema_definition_sync_upstream".

(** The empty secret of Go; [emptySecret data] is one with only data. *)
Definition emptySecret (data : gmap string string) : Secret :=
  mkSecret (mkTypeMeta "" "" "") (mkObjectMeta "" "" ∅ ∅ 0 None [] []) data "".

Definition upstreamSecret (replication : SchemaReplication) : go (error + Secret) :=
  let path := match SecretBackend_Vault (SchemaReplication_SecretBackend (Spec replication)) with
              | Some v => VaultSpec_SecretPath v
              | None => ""
              end in
  if negb (bool_decide (path = "")) then
    err <- act SecretStoreClientProvider;;
    match err with
    | Some e =>
        Ret (inl (wrapf "unable to create a vault client connection to secret store: " (ErrText e)))
    | None =>
        creds <- act (ReadCredentials path);;
        match creds with
        | inl e => Ret (inl (wrapf "unable to retrieve credentials from secret store: " (ErrText e)))
        | inr (user, pass) =>
            Ret (inr (emptySecret (<["username" := user]> (<["password" := pass]> ∅))))
        end
    end
  else
    match SchemaReplication_UpstreamSecret (Spec replication) with
    | None => Ret (inl (ErrText "no upstream secret or secretBackend provided"))
    | Some ref =>
        s <- act (CGet KSecret (mkNamespacedName (Namespace (resource_ObjectMeta replication))
                                  (LocalObjectReference_Name ref)));;
        match s with
        | inl e => Ret (inl (ErrAPI e))
        | inr secret => Ret (inr secret)
        end
    end.

Definition getUpstreamEndpoints (replication : SchemaReplication) :
    go (error + UpstreamEndpoints) :=
  secret <- upstreamSecret replication;;
  match secret with
  | inl e => Ret (inl e)
  | inr secret =>
      Ret (GenerateSchemaReplicationParameters secret
             (SchemaReplication_Endpoints (Spec replication)))
  end.

Definition SchemaReplication_DeclareFunc (rmqc : RmqClient) (replication : SchemaReplication) :
    go (option error * SchemaReplication) :=
  endpoints <- getUpstreamEndpoints replication;;
  match endpoints with
  | inl e => Ret (Some (wrapf "failed to generate upstream endpoints: " e), replication)
  | inr endpoints =>
      declareCall (k:=KSchemaReplication) rmqc
        (PutGlobalParameter SchemaReplicationParameterName endpoints)
        (fun r => r) replication
  end.

Definition SchemaReplication_DeleteFunc (rmqc : RmqClient) (replication : SchemaReplication) :
    go (option error * SchemaReplication) :=
  deleteCall (k:=KSchemaReplication) rmqc
    (DeleteGlobalParameter SchemaReplicationParameterName) (fun r => r) replication.

(** ** Limits, in vhost_controller.go and in user_controller.go *)

(** The loop of [vhostLimitsToDelete] and [userLimitsToDelete]. *)
Definition limitsToDelete (keys : list string) (existing new : LimitsValues) : list string :=
  base.filter (fun limit => is_Some (existing !! limit) /\ new !! limit = None) keys.

Definition vhostLimitKeys : list string := ["max-connections"; "max-queues"].
Definition vhostLimitsToDelete (existing new : LimitsValues) : list string :=
  limitsToDelete vhostLimitKeys existing new.

(** The end of [getVhostLimits] and [getUserLimits]. *)
Definition currentLimits (info : rmq_error + list LimitsValues) : error + LimitsValues :=
  match info with
  | inl e =>
      if errors_Is (ErrRmq e) (ErrRmq (RmqErrorResponse rabbithole404)) then inr ∅
      else inl (ErrRmq e)
  | inr [] => inr ∅
  | inr (l :: _) => inr l
  end.

Definition getVhostLimits (rmqc : RmqClient) (vhost : string) : go (error + LimitsValues) :=
  info <- act (Rmq rmqc (GetVhostLimits vhost));;
  Ret (currentLimits info).

(** ** vhost_controller.go *)

(** Lines 34 to 53: the limits of a vhost that exists. *)
Definition reconcileVhostLimits (rmqc : RmqClient) (vhost : Vhost) : go (option error) :=
  let name := Vhost_Name (Spec vhost) in
  let newVhostLimits := GenerateVhostLimits (Vhost_VhostLimits (Spec vhost)) in
  existingVhostLimits <- getVhostLimits rmqc name;;
  match existingVhostLimits with
  | inl e => Ret (Some e)
  | inr existingVhostLimits =>
      let limits := vhostLimitsToDelete existingVhostLimits newVhostLimits in
      deleted <-
        (match limits with
         | [] => Ret None
         | _ :: _ => res <- act (Rmq rmqc (DeleteVhostLimits name limits));;
                     Ret (validateResponseForDeletion res)
         end : go (option error));;
      if match deleted with Some e => negb (errors_Is e ErrNotFound) | None => false end
      then Ret deleted
      else if bool_decide (newVhostLimits = ∅) then Ret None
      else res <- act (Rmq rmqc (PutVhostLimits name newVhostLimits));;
           Ret (validateResponse res)
  end.

Definition Vhost_DeclareFunc (rmqc : RmqClient) (vhost : Vhost) : go (option error * Vhost) :=
  res <- act (Rmq rmqc (PutVhost (Vhost_Name (Spec vhost)) (GenerateVhostSettings vhost)));;
  match validateResponse res with
  | Some e => Ret (Some e, vhost)
  | None => err <- reconcileVhostLimits rmqc vhost;; Ret (err, vhost)
  end.

Definition Vhost_DeleteFunc (rmqc : RmqClient) (vhost : Vhost) : go (option error * Vhost) :=
  if shouldSkipDeletion (Vhost_DeletionPolicy (Spec vhost)) (Vhost_Name (Spec vhost))
  then Ret (None, vhost)
  else deleteCall (k:=KVhost) rmqc (DeleteVhost (Vhost_Name (Spec vhost))) (fun r => r) vhost.

#[export] Instance Queue_reconcile : ReconcileFunc KQueue :=
  Build_ReconcileFunc KQueue Queue_DeclareFunc Queue_DeleteFunc.
#[export] Instance Exchange_reconcile : ReconcileFunc KExchange :=
  Build_ReconcileFunc KExchange Exchange_DeclareFunc Exchange_DeleteFunc.
#[export] Instance Binding_reconcile : ReconcileFunc KBinding :=
  Build_ReconcileFunc KBinding Binding_DeclareFunc Binding_DeleteFunc.
#[export] Instance Policy_reconcile : ReconcileFunc KPolicy :=
  Build_ReconcileFunc KPolicy Policy_DeclareFunc Policy_DeleteFunc.
#[export] Instance OperatorPolicy_reconcile : ReconcileFunc KOperatorPolicy :=
  Build_ReconcileFunc KOperatorPolicy OperatorPolicy_DeclareFunc OperatorPolicy_DeleteFunc.
#[export] Instance Federation_reconcile : ReconcileFunc KFederation :=
  Build_ReconcileFunc KFederation Federation_DeclareFunc Federation_DeleteFunc.
#[export] Instance Shovel_reconcile : ReconcileFunc KShovel :=
  Build_ReconcileFunc KShovel Shovel_DeclareFunc Shovel_DeleteFunc.
#[export] Instance SchemaReplication_reconcile : ReconcileFunc KSchemaReplication :=
  Build_ReconcileFunc KSchemaReplication SchemaReplication_DeclareFunc
    SchemaReplication_DeleteFunc.
#[export] Instance Vhost_reconcile : ReconcileFunc KVhost :=
  Build_ReconcileFunc KVhost Vhost_DeclareFunc Vhost_DeleteFunc.
End controllers.
