(* ===== verification/PermissionControllers.v ===== *)
(** * Permissions and topic permissions

    internal/controller/permission_controller.go and
    topicpermission_controller.go: a permission may name its user through a
    [User] object, which then owns the permission. *)

From S2P Require Import Prelude.
From S2P Require Import GoStrings.
From S2P Require Import GoErrors.
From S2P Require Import Prog.
From S2P Require Import Api.
From S2P Require Import Values.
From S2P Require Import Scheme.
From S2P Require Import World.
From S2P Require Import Resources.
From S2P Require Import Settings.
From S2P Require Import Utils.
From S2P Require Import TopologyReconciler.
From S2P Require Import Controllers.
Import ProgNotations.
Open Scope go_scope.

Definition nilDereference : string := "invalid memory address or nil pointer dereference".

Section permissions.
Context `{Libs}.

(** No user without an error when the object is not found. *)
Definition getUsernameFromUser (namespace name : string) : go (error + option User) :=
  got <- act (CGet KUser (mkNamespacedName namespace name));;
  match got with
  | inl e => if IsNotFound e then Ret (inr None) else Ret (inl (ErrAPI e))
  | inr user => Ret (inr (Some user))
  end.

(** The user a permission is for: its name, and the pointer [user], which is
    nil when the referenced object does not exist.  A permission without a
    reference points to an empty [User]. *)
Definition emptyUser : User :=
  mkResource (mkTypeMeta "" "" "") (mkObjectMeta "" "" ∅ ∅ 0 None [] [])
    (mkUserSpec [] (mkRabbitmqClusterReference "" "" None) None false None)
    (mkUserStatus 0 [] None "").

Definition permissionUser (namespace username : string) (ref : option LocalObjectReference) :
    go (error + (option User * string)) :=
  match ref with
  | None => Ret (inr (Some emptyUser, username))
  | Some ref =>
      got <- getUsernameFromUser namespace (LocalObjectReference_Name ref);;
      match got with
      | inl e => Ret (inl e)
      | inr (Some user) => Ret (inr (Some user, UserStatus_Username (Status user)))
      | inr None => Ret (inr (None, username))
      end
  end.

(** Lines 47 to 54 of permission_controller.go: [user.Name] reads through the
    pointer; a named user becomes the owner of the permission. *)
Definition ownedBy {k} (user : option User) (permission : object k) :
    go (option error * object k) :=
  match user with
  | None => Panic nilDereference
  | Some user =>
      if negb (bool_decide (Name (resource_ObjectMeta user) = "")) then
        match SetControllerReference (gvk_of (ObjectType KUser)) (resource_ObjectMeta user)
                (meta k permission) with
        | inl e => Ret (Some (ErrText ("failed set controller reference: " +:+ err_Error e)),
                        permission)
        | inr m =>
            let permission := set_meta k m permission in
            err <- act (CUpdate k permission);;
            match err with
            | inl e =>
                Ret (Some (wrapf "failed to Update object with controller reference: " (ErrAPI e)),
                     permission)
            | inr permission => Ret (None, permission)
            end
        end
      else Ret (None, permission)
  end.

Definition Permission_DeclareFunc (rmqc : RmqClient) (permission : Permission) :
    go (option error * Permission) :=
  found <- permissionUser (Namespace (resource_ObjectMeta permission))
             (Permission_User (Spec permission)) (Permission_UserReference (Spec permission));;
  match found with
  | inl e => Ret (Some e, permission)
  | inr (user, username) =>
      if bool_decide (username = "")
      then Ret (Some (ErrText "failed create Permission, missing User"), permission)
      else
        ' (err, permission) <- ownedBy (k:=KPermission) user permission;;
        match err with
        | Some e => Ret (Some e, permission)
        | None =>
            declareCall (k:=KPermission) rmqc
              (UpdatePermissionsIn (Permission_Vhost (Spec permission)) username
                 (GeneratePermissions permission)) (fun r => r) permission
        end
  end.

Definition revokePermissions (rmqc : RmqClient) (permission : Permission) (user : string) :
    go (option error) :=
  res <- act (Rmq rmqc (ClearPermissionsIn (Permission_Vhost (Spec permission)) user));;
  let err := validateResponseForDeletion res in
  if is_err err ErrNotFound then Ret None else Ret err.

Definition Permission_DeleteFunc (rmqc : RmqClient) (permission : Permission) :
    go (option error * Permission) :=
  found <- permissionUser (Namespace (resource_ObjectMeta permission))
             (Permission_User (Spec permission)) (Permission_UserReference (Spec permission));;
  match found with
  | inl e => Ret (Some e, permission)
  | inr (_, username) =>
      err <- (if bool_decide (username = "") then Ret None
              else revokePermissions rmqc permission username);;
      match err with
      | Some e => Ret (Some e, permission)
      | None => removeFinalizer KPermission permission
      end
  end.

(** ** topicpermission_controller.go *)

Definition TopicPermission_DeclareFunc (rmqc : RmqClient) (permission : TopicPermission) :
    go (option error * TopicPermission) :=
  found <- permissionUser (Namespace (resource_ObjectMeta permission))
             (TopicPermission_User (Spec permission))
             (TopicPermission_UserReference (Spec permission));;
  match found with
  | inl e => Ret (Some e, permission)
  | inr (user, username) =>
      if bool_decide (username = "")
      then Ret (Some (ErrText "failed create Permission, missing User"), permission)
      else
        ' (err, permission) <- ownedBy (k:=KTopicPermission) user permission;;
        match err with
        | Some e => Ret (Some e, permission)
        | None =>
            declareCall (k:=KTopicPermission) rmqc
              (UpdateTopicPermissionsIn (TopicPermission_Vhost (Spec permission)) username
                 (GenerateTopicPermissions permission)) (fun r => r) permission
        end
  end.

Definition clearTopicPermission (rmqc : RmqClient) (permission : TopicPermission) (user : string) :
    go (option error) :=
  res <- act (Rmq rmqc (DeleteTopicPermissionsIn (TopicPermission_Vhost (Spec permission)) user
                 (TopicPermissionConfig_Exchange (TopicPermission_Permissions (Spec permission)))));;
  let err := validateResponseForDeletion res in
  if is_err err ErrNotFound then Ret None else Ret err.

Definition TopicPermission_DeleteFunc (rmqc : RmqClient) (permission : TopicPermission) :
    go (option error * TopicPermission) :=
  found <- permissionUser (Namespace (resource_ObjectMeta permission))
             (TopicPermission_User (Spec permission))
             (TopicPermission_UserReference (Spec permission));;
  match found with
  | inl e => Ret (Some e, permission)
  | inr (_, username) =>
      err <- (if bool_decide (username = "") then Ret None
              else clearTopicPermission rmqc permission username);;
      match err with
      | Some e => Ret (Some e, permission)
      | None => removeFinalizer KTopicPermission permission
      end
  end.

#[export] Instance Permission_reconcile : ReconcileFunc KPermission :=
  Build_ReconcileFunc KPermission Permission_DeclareFunc Permission_DeleteFunc.
#[export] Instance TopicPermission_reconcile : ReconcileFunc KTopicPermission :=
  Build_ReconcileFunc KTopicPermission TopicPermission_DeclareFunc TopicPermission_DeleteFunc.
End permissions.
