(* ===== verification/Random.v ===== *)
(** * Random names (internal/random.go)

    [RandomEncodedString] with the URL-safe base64 encoding of encoding/base64,
    and a decoder that shows that no random bytes are lost. *)

From S2P Require Import Prelude.
From S2P Require Import GoStrings.
From S2P Require Import GoErrors.
From S2P Require Import Prog.
From S2P Require Import Api.
From S2P Require Import Values.
From S2P Require Import World.
From Stdlib Require Import Ascii String.
Import ProgNotations.
Open Scope go_scope.
Local Open Scope string_scope.

(** ** base64.URLEncoding *)

Definition encodeURL : string :=
  "ABCDEFGHIJKLMNOPQRSTUVWXYZabcdefghijklmnopqrstuvwxyz0123456789-_".

Definition byte_val (a : ascii) : Z := Z.of_N (N_of_ascii a).

(** [enc.encode\[x & 0x3F\]] *)
Definition enc (x : Z) : ascii :=
  match String.get (Z.to_nat (Z.land x 63)) encodeURL with
  | Some a => a
  | None => "A"%char
  end.

(** [EncodeToString]: three bytes to four letters, padded at the end. *)
Fixpoint EncodeToString (src : string) : string :=
  match src with
  | String a (String b (String c rest)) =>
      let val := Z.lor (Z.lor (Z.shiftl (byte_val a) 16) (Z.shiftl (byte_val b) 8)) (byte_val c) in
      String (enc (Z.shiftr val 18)) (String (enc (Z.shiftr val 12))
        (String (enc (Z.shiftr val 6)) (String (enc val) (EncodeToString rest))))
  | String a (String b EmptyString) =>
      let val := Z.lor (Z.shiftl (byte_val a) 16) (Z.shiftl (byte_val b) 8) in
      String (enc (Z.shiftr val 18)) (String (enc (Z.shiftr val 12))
        (String (enc (Z.shiftr val 6)) (String "="%char EmptyString)))
  | String a EmptyString =>
      let val := Z.shiftl (byte_val a) 16 in
      String (enc (Z.shiftr val 18)) (String (enc (Z.shiftr val 12))
        (String "="%char (String "="%char EmptyString)))
  | EmptyString => EmptyString
  end.

Definition RandomEncodedString (dataLen : nat) : go (error + string) :=
  bytes <- act (RandRead dataLen);;
  match bytes with
  | inl e => Ret (inl (ErrText e))
  | inr randomBytes => Ret (inr (EncodeToString randomBytes))
  end.

(** ** Facts *)

Lemma string_ind3 (P : string -> Prop) :
  P "" -> (forall a, P (String a "")) -> (forall a b, P (String a (String b ""))) ->
  (forall a b c s, P s -> P (String a (String b (String c s)))) -> forall s, P s.
Proof.
  intros H0 H1 H2 H3. fix IH 1. intros [|a [|b [|c s]]]; [exact H0|exact (H1 a)|exact (H2 a b)|].
  exact (H3 a b c s (IH s)).
Qed.

Lemma EncodeToString_length s :
  String.length (EncodeToString s) = (4 * ((String.length s + 2) / 3))%nat.
Proof.
  induction s as [|a|a b|a b c s IH] using string_ind3; [done..|].
  cbn [EncodeToString String.length]. rewrite IH.
  replace (S (S (S (String.length s))) + 2)%nat with (String.length s + 2 + 1 * 3)%nat by lia.
  rewrite Nat.div_add by lia. lia.
Qed.

(** The value of a letter, and the bytes of four letters. *)
Fixpoint index_of (a : ascii) (s : string) (i : Z) : Z :=
  match s with
  | EmptyString => (-1)%Z
  | String b s => if Ascii.eqb a b then i else index_of a s (i + 1)%Z
  end.
Definition dec (a : ascii) : Z := index_of a encodeURL 0.
Definition val_byte (z : Z) : ascii := ascii_of_N (Z.to_N (Z.land z 255)).

Fixpoint DecodeString (s : string) : string :=
  match s with
  | String w (String x (String y (String z rest))) =>
      let val := Z.lor (Z.lor (Z.shiftl (dec w) 18) (Z.shiftl (dec x) 12))
                       (Z.lor (Z.shiftl (dec y) 6) (dec z)) in
      if Ascii.eqb y "="%char then String (val_byte (Z.shiftr (Z.lor (Z.shiftl (dec w) 18) (Z.shiftl (dec x) 12)) 16)) ""
      else if Ascii.eqb z "="%char then
        let val := Z.lor (Z.lor (Z.shiftl (dec w) 18) (Z.shiftl (dec x) 12)) (Z.shiftl (dec y) 6) in
        String (val_byte (Z.shiftr val 16)) (String (val_byte (Z.shiftr val 8)) "")
      else String (val_byte (Z.shiftr val 16)) (String (val_byte (Z.shiftr val 8))
             (String (val_byte val) (DecodeString rest)))
  | _ => ""
  end.

(** ** The encoding loses nothing *)

Lemma byte_val_range a : (0 <= byte_val a < 256)%Z.
Proof. unfold byte_val. pose proof (N_ascii_bounded a). lia. Qed.

Lemma val_byte_eq z a : Z.land z 255 = byte_val a -> val_byte z = a.
Proof.
  intros Hz. unfold val_byte. rewrite Hz. unfold byte_val. rewrite N2Z.id.
  apply ascii_N_embedding.
Qed.

Lemma testbit_high z n i : (0 <= z < 2 ^ n)%Z -> (0 <= n <= i)%Z -> Z.testbit z i = false.
Proof.
  intros Hz Hi. destruct (decide (z = 0%Z)) as [->|]; [apply Z.testbit_0_l|].
  apply Z.bits_above_log2; [lia|]. apply Z.log2_lt_pow2; [lia|].
  apply (Z.lt_le_trans _ (2 ^ n)); [lia|]. apply Z.pow_le_mono_r; lia.
Qed.

Lemma byte_bit_high a i : (8 <= i)%Z -> Z.testbit (byte_val a) i = false.
Proof. intros Hi. apply (testbit_high _ 8); [apply byte_val_range|lia]. Qed.

Definition letters : list Z := Z.of_nat <$> seq 0 64.

Lemma land63 x : Z.land x 63 ∈ letters.
Proof.
  change 63%Z with (Z.ones 6). rewrite Z.land_ones by lia.
  pose proof (Z.mod_pos_bound x (2 ^ 6)). apply list_elem_of_fmap.
  exists (Z.to_nat (x mod 2 ^ 6)). split; [lia|]. apply elem_of_seq. lia.
Qed.

Lemma letters_decode :
  forallb (fun z => Z.eqb (dec (enc z)) z && negb (Ascii.eqb (enc z) "="%char)) letters = true.
Proof. vm_compute. reflexivity. Qed.

Lemma enc_land x : enc (Z.land x 63) = enc x.
Proof. unfold enc. by rewrite <- Z.land_assoc. Qed.

Lemma dec_enc x : dec (enc x) = Z.land x 63 /\ Ascii.eqb (enc x) "="%char = false.
Proof.
  pose proof letters_decode as Hall. rewrite forallb_forall in Hall.
  specialize (Hall (Z.land x 63)). rewrite <- list_elem_of_In in Hall.
  specialize (Hall (land63 x)). rewrite enc_land in Hall.
  apply andb_true_iff in Hall as [Heq Hne]. split; [by apply Z.eqb_eq|by apply negb_true_iff].
Qed.

(** The bits of the four letters, put together again. *)
#[local] Arguments Z.testbit : simpl never.

Ltac const_bits :=
  repeat match goal with
  | |- context [Z.testbit 63 ?x] =>
      let b := eval compute in (Z.testbit 63 x) in change (Z.testbit 63 x) with b
  | |- context [Z.testbit 255 ?x] =>
      let b := eval compute in (Z.testbit 255 x) in change (Z.testbit 255 x) with b
  end.

Ltac bits_below n :=
  apply Z.bits_inj'; intros i Hi;
  destruct (decide (i < n)%Z) as [Hlt|Hge];
  [ assert (Hcases : i ∈ (Z.of_nat <$> seq 0 (Z.to_nat n)));
    [apply list_elem_of_fmap; exists (Z.to_nat i); split; [lia|apply elem_of_seq; lia]|];
    simpl in Hcases; rewrite ?elem_of_cons in Hcases;
    destruct_or?; try (by apply elem_of_nil in Hcases); subst i;
    repeat first
      [ rewrite Z.lor_spec | rewrite Z.land_spec | rewrite Z.shiftl_spec by lia
      | rewrite Z.shiftr_spec by lia ]; const_bits;
    rewrite ?andb_false_r, ?andb_true_r, ?orb_false_r; simpl;
    repeat first [rewrite Z.shiftr_spec by lia | rewrite Z.shiftl_spec by lia];
    try (f_equal; lia)
  | repeat first
      [ rewrite Z.lor_spec | rewrite Z.land_spec | rewrite Z.shiftl_spec by lia
      | rewrite Z.shiftr_spec by lia ] ].

Lemma join24 val :
  (0 <= val < 2 ^ 24)%Z ->
  Z.lor (Z.lor (Z.shiftl (Z.land (Z.shiftr val 18) 63) 18)
               (Z.shiftl (Z.land (Z.shiftr val 12) 63) 12))
        (Z.lor (Z.shiftl (Z.land (Z.shiftr val 6) 63) 6) (Z.land val 63)) = val.
Proof.
  intros Hv. bits_below 24%Z; try done. 
  rewrite !(testbit_high 63 6) by lia. rewrite !andb_false_r. simpl.
  symmetry. by apply (testbit_high _ 24); [|lia].
Qed.

Definition pack (a b c : Z) : Z := Z.lor (Z.lor (Z.shiftl a 16) (Z.shiftl b 8)) c.

Ltac byte_bits :=
  repeat match goal with
  | |- context [Z.testbit (byte_val ?a) ?i] =>
      first [ rewrite (byte_bit_high a i) by lia
            | rewrite (Z.testbit_neg_r (byte_val a) i) by lia ]
  end; rewrite ?orb_false_r, ?orb_false_l, ?andb_false_r.

Lemma pack_bytes a b c :
  let val := pack (byte_val a) (byte_val b) (byte_val c) in
  val_byte (Z.shiftr val 16) = a /\ val_byte (Z.shiftr val 8) = b /\ val_byte val = c.
Proof.
  unfold pack. repeat split; apply val_byte_eq; bits_below 8%Z; byte_bits; try (f_equal; lia).
  all: by rewrite (testbit_high 255 8), ?andb_false_r by lia.
Qed.

Lemma pack_range a b c : (0 <= pack (byte_val a) (byte_val b) (byte_val c) < 2 ^ 24)%Z.
Proof.
  pose proof (byte_val_range a). pose proof (byte_val_range b). pose proof (byte_val_range c).
  assert (Hn : (0 <= pack (byte_val a) (byte_val b) (byte_val c))%Z).
  { unfold pack. rewrite !Z.lor_nonneg, !Z.shiftl_nonneg. lia. }
  split; [done|]. destruct (decide (pack (byte_val a) (byte_val b) (byte_val c) = 0%Z)) as [->|];
    [lia|].
  apply Z.log2_lt_pow2; [lia|]. apply Z.nle_gt. intros Hle.
  pose proof (Z.bit_log2 (pack (byte_val a) (byte_val b) (byte_val c))) as Hbit.
  revert Hbit. unfold pack at 2. rewrite !Z.lor_spec, !Z.shiftl_spec by apply Z.log2_nonneg.
  rewrite !byte_bit_high by lia. intros Hbit. by discriminate Hbit; lia.
Qed.

(** The letters that padding replaces stand for zero bits. *)
Lemma padding val k :
  (forall i, (0 <= i < k + 6)%Z -> Z.testbit val i = false) -> (0 <= k)%Z ->
  Z.land (Z.shiftr val k) 63 = 0%Z.
Proof.
  intros Hv Hk. apply Z.bits_inj'. intros i Hi. rewrite Z.land_spec, Z.shiftr_spec, Z.bits_0 by lia.
  destruct (decide (i < 6)%Z); [by rewrite Hv by lia|].
  by rewrite (testbit_high 63 6), andb_false_r by lia.
Qed.

Lemma pack_low_bits a b i :
  (0 <= i < 8)%Z -> Z.testbit (pack (byte_val a) (byte_val b) 0) i = false.
Proof.
  intros Hi. unfold pack. rewrite !Z.lor_spec, !Z.shiftl_spec, Z.bits_0 by lia. by byte_bits.
Qed.

Lemma pack_low_bits2 a i :
  (0 <= i < 16)%Z -> Z.testbit (pack (byte_val a) 0 0) i = false.
Proof.
  intros Hi. unfold pack. rewrite !Z.lor_spec, !Z.shiftl_spec, !Z.bits_0 by lia. by byte_bits.
Qed.

Lemma decode_encode s : DecodeString (EncodeToString s) = s.
Proof.
  induction s as [|a|a b|a b c s IH] using string_ind3.
  - done.
  - cbn [EncodeToString]. replace (Z.shiftl (byte_val a) 16) with (pack (byte_val a) 0 0)
      by (unfold pack; by rewrite !Z.lor_0_r).
    pose proof (pack_bytes a "000" "000") as (Ha & _ & _). pose proof (pack_range a "000" "000") as Hr.
    change (byte_val "000") with 0%Z in *. pose proof (pack_low_bits2 a) as Hlow.
    set (val := pack (byte_val a) 0 0) in *. pose proof (join24 val Hr) as Hj.
    assert (Hl : Z.land val 63 = 0%Z) by (apply (padding val 0); intros; [apply Hlow|]; lia).
    rewrite (padding val 6), Hl, !Z.lor_0_r in Hj by (intros; try apply Hlow; lia).
    cbn [DecodeString Ascii.eqb]. 
    destruct (dec_enc (Z.shiftr val 18)) as [-> _], (dec_enc (Z.shiftr val 12)) as [-> _].
    simpl. by rewrite Hj, Ha.
  - cbn [EncodeToString]. replace (Z.lor (Z.shiftl (byte_val a) 16) (Z.shiftl (byte_val b) 8))
      with (pack (byte_val a) (byte_val b) 0) by (unfold pack; by rewrite Z.lor_0_r).
    pose proof (pack_bytes a b "000") as (Ha & Hb & _). pose proof (pack_range a b "000") as Hr.
    change (byte_val "000") with 0%Z in *. pose proof (pack_low_bits a b) as Hlow.
    set (val := pack (byte_val a) (byte_val b) 0) in *. pose proof (join24 val Hr) as Hj.
    assert (Hl : Z.land val 63 = 0%Z) by (apply (padding val 0); intros; [apply Hlow|]; lia).
    rewrite Hl, Z.lor_0_r in Hj. cbn [DecodeString].
    destruct (dec_enc (Z.shiftr val 18)) as [-> _], (dec_enc (Z.shiftr val 12)) as [-> _],
      (dec_enc (Z.shiftr val 6)) as [-> ->].
    simpl. by rewrite Hj, Ha, Hb.
  - cbn [EncodeToString]. change (Z.lor (Z.lor _ _) (byte_val c))
      with (pack (byte_val a) (byte_val b) (byte_val c)).
    set (val := pack (byte_val a) (byte_val b) (byte_val c)). cbn [DecodeString].
    destruct (dec_enc (Z.shiftr val 18)) as [-> _], (dec_enc (Z.shiftr val 12)) as [-> _],
      (dec_enc (Z.shiftr val 6)) as [-> ->], (dec_enc val) as [-> ->].
    rewrite join24 by apply pack_range.
    destruct (pack_bytes a b c) as (Ha & Hb & Hc). fold val in Ha, Hb, Hc.
    by rewrite Ha, Hb, Hc, IH.
Qed.
