(* ===== verification/UserController.v ===== *)
(** * Users (internal/controller/user_controller.go)

    A user has credentials: generated once and kept in a secret that the user
    owns, or imported from a secret of the namespace. *)

From S2P Require Import Prelude.
From S2P Require Import GoStrings.
From S2P Require Import GoErrors.
From S2P Require Import Prog.
From S2P Require Import Api.
From S2P Require Import Values.
From S2P Require Import Scheme.
From S2P Require Import World.
From S2P Require Import Resources.
From S2P Require Import Settings.
From S2P Require Import Random.
From S2P Require Import Utils.
From S2P Require Import TopologyReconciler.
From S2P Require Import Controllers.
Import ProgNotations.
Open Scope go_scope.

Section users.
Context `{Libs}.

Definition credentialsSecretName (user : User) : string :=
  Name (resource_ObjectMeta user) +:+ "-user-credentials".

Definition generateCredentials (user : User) : go (error + UserCredentials) :=
  username <-
    (if User_UsernameFromMeta (Spec user) then Ret (inr (Name (resource_ObjectMeta user)))
     else RandomEncodedString 24);;
  match username with
  | inl e => Ret (inl (wrapf "failed to generate random username: " e))
  | inr username =>
      password <- RandomEncodedString 24;;
      match password with
      | inl e => Ret (inl (wrapf "failed to generate random password: " e))
      | inr password => Ret (inr (mkUserCredentials username None password))
      end
  end.

(** The mutate function of [CreateOrUpdate]: the label, the owner, and owner
    references of that kind that do not block deletion. *)
Definition unblock (ownerKind : string) (ref : OwnerReference) : OwnerReference :=
  if bool_decide (OwnerReference_Kind ref = ownerKind)
  then mkOwnerReference (OwnerReference_APIVersion ref) (OwnerReference_Kind ref)
         (OwnerReference_Name ref) (OwnerReference_Controller ref) (Some false)
  else ref.

Definition labelAndOwn (user : User) (secret : Secret) : error + Secret :=
  let m := Secret_ObjectMeta secret in
  let m := set_Labels (<[TopologyOperatorLabel := TopologyOperatorLabelValue]> (Labels m)) m in
  match SetControllerReference (gvk_of (ObjectType KUser)) (resource_ObjectMeta user) m with
  | inl e => inl (ErrText ("failed setting controller reference: " +:+ err_Error e))
  | inr m =>
      let m := set_OwnerReferences
                 (unblock (Kind (resource_TypeMeta user)) <$> OwnerReferences m) m in
      inr (set_meta KSecret m secret)
  end.

Definition credentialSecretData (credentials : UserCredentials) : gmap string string :=
  match Creds_PasswordHash credentials with
  | Some hash => <["passwordHash" := hash]> {["username" := Creds_Username credentials]}
  | None => <["password" := Creds_Password credentials]> {["username" := Creds_Username credentials]}
  end.

Definition declareCredentials (user : User) : go (error + string) :=
  generated <- generateCredentials user;;
  match generated with
  | inl e => Ret (inl e)
  | inr credentials =>
      let credentialSecret :=
        mkSecret (mkTypeMeta "" "" "")
          (mkObjectMeta (credentialsSecretName user) (Namespace (resource_ObjectMeta user))
             ∅ ∅ 0 None [] [])
          (credentialSecretData credentials) "Opaque" in
      ' (err, _) <- RetryOnConflict (fun secret =>
          ' (_, apiError, secret) <- act (CCreateOrUpdate KSecret secret (labelAndOwn user));;
          Ret (apiError, secret)) credentialSecret;;
      match err with
      | Some e => Ret (inl e)
      | None => Ret (inr (Creds_Username credentials))
      end
  end.

Definition importCredentials (secretName secretNamespace : string) :
    go (error + UserCredentials) :=
  got <- act (CGet KSecret (mkNamespacedName secretNamespace secretName));;
  match got with
  | inl e =>
      Ret (inl (wrapf ("could not find password secret " +:+ secretName +:+ " in namespace " +:+
                       secretNamespace +:+ "; Err: ") (ErrAPI e)))
  | inr credentialsSecret =>
      match Data credentialsSecret !! "username" with
      | None | Some EmptyString =>
          Ret (inl (ErrText ("could not find username key in credentials secret: " +:+
                             Name (Secret_ObjectMeta credentialsSecret))))
      | Some username =>
          Ret (inr (mkUserCredentials username (Data credentialsSecret !! "passwordHash")
                      (deref (Data credentialsSecret !! "password") "")))
      end
  end.

Definition set_credentials (username credentialsSecretName : string) (user : User) : User :=
  let s := Status user in
  set_Status (mkUserStatus (UserStatus_ObservedGeneration s) (UserStatus_Conditions s)
    (Some (mkLocalObjectReference credentialsSecretName)) username) user.

Definition setUserStatus (user : User) (username credentialsSecretName : string) :
    go (option error * User) :=
  let user := set_credentials username credentialsSecretName user in
  err <- act (CStatusUpdate KUser user);;
  match err with
  | inl e => Ret (Some (ErrAPI e), user)
  | inr user => Ret (None, user)
  end.

Definition secretToCredentials (s : Secret) : UserCredentials :=
  mkUserCredentials (deref (Data s !! "username") "") (Data s !! "passwordHash")
    (deref (Data s !! "password") "").

(** ** Limits *)

Definition userLimitKeys : list string := ["max-connections"; "max-channels"].
Definition userLimitsToDelete (existing new : LimitsValues) : list string :=
  limitsToDelete userLimitKeys existing new.

Definition getUserLimits (rmqc : RmqClient) (username : string) : go (error + LimitsValues) :=
  info <- act (Rmq rmqc (GetUserLimits username));;
  Ret (currentLimits info).

Definition reconcileUserLimits (rmqc : RmqClient) (user : User) (username : string) :
    go (option error) :=
  let newUserLimits := GenerateUserLimits (User_UserLimits (Spec user)) in
  existingUserLimits <- getUserLimits rmqc username;;
  match existingUserLimits with
  | inl e => Ret (Some e)
  | inr existingUserLimits =>
      let limits := userLimitsToDelete existingUserLimits newUserLimits in
      deleted <-
        (match limits with
         | [] => Ret None
         | _ :: _ => res <- act (Rmq rmqc (DeleteUserLimits username limits));;
                     Ret (validateResponseForDeletion res)
         end : go (option error));;
      if match deleted with Some e => negb (errors_Is e ErrNotFound) | None => false end
      then Ret deleted
      else if bool_decide (newUserLimits = ∅) then Ret None
      else res <- act (Rmq rmqc (PutUserLimits username newUserLimits));;
           Ret (validateResponse res)
  end.

(** ** Declaring *)

(** The end of both declarations: the user, the [PasswordSynced] condition, an
    event, the limits. *)
Definition putUser (rmqc : RmqClient) (user : User) (username : string)
    (userSettings : UserSettings) : go (option error * User) :=
  res <- act (Rmq rmqc (PutUser (UserSettings_Name userSettings) userSettings));;
  match validateResponse res with
  | Some e => Ret (Some e, user)
  | None =>
      c <- ConditionOps.PasswordSynced (UserStatus_Conditions (Status user));;
      let user := User_SetStatusConditions [c] user in
      act (Eventf KUser user (mkK8sEvent EventTypeNormal "PasswordUpdated" updateEventAction
             "synced password for user %q" [ArgS (UserStatus_Username (Status user))]));;;
      err <- reconcileUserLimits rmqc user username;;
      Ret (err, user)
  end.

(** [user.Status.Credentials == nil || user.Status.Credentials.Name != ...] *)
Definition otherCredentials (user : User) (secretName : string) : bool :=
  match UserStatus_Credentials (Status user) with
  | None => true
  | Some c => negb (bool_decide (LocalObjectReference_Name c = secretName))
  end.

Definition declareWithImportedCredentials (rmqc : RmqClient) (user : User) (ref : LocalObjectReference) :
    go (option error * User) :=
  imported <- importCredentials (LocalObjectReference_Name ref)
                (Namespace (resource_ObjectMeta user));;
  match imported with
  | inl e => Ret (Some e, user)
  | inr credentials =>
      if bool_decide (Creds_PasswordHash credentials = None) &&
         bool_decide (Creds_Password credentials = "")
      then Ret (Some (ErrText ("neither passwordHash nor password is set in credentials secret " +:+
             quoted (LocalObjectReference_Name ref) +:+
             "; for a User created before v1.20, label the existing <name>-user-credentials secret with rabbitmq.com/topology-operator=true and remove spec.importCredentialsSecret to preserve its username and password; for a new User using metadata.name as the username, remove spec.importCredentialsSecret and set spec.usernameFromMeta: true")),
             user)
      else
        ' (err, user) <-
          (if otherCredentials user (LocalObjectReference_Name ref) ||
              negb (bool_decide (UserStatus_Username (Status user) = Creds_Username credentials))
           then setUserStatus user (Creds_Username credentials) (LocalObjectReference_Name ref)
           else Ret (None, user));;
        match err with
        | Some e => Ret (Some e, user)
        | None =>
            settings <- GenerateUserSettings credentials (User_Tags (Spec user));;
            match settings with
            | inl e => Ret (Some (wrapf "failed to generate user settings from credentials: " e), user)
            | inr userSettings => putUser rmqc user (Creds_Username credentials) userSettings
            end
        end
  end.

Definition getUserCredentials (user : User) : go (error + Secret) :=
  got <- act (CGet KSecret (mkNamespacedName (Namespace (resource_ObjectMeta user))
                              (credentialsSecretName user)));;
  match got with
  | inl e => Ret (inl (ErrAPI e))
  | inr credentials => Ret (inr credentials)
  end.

Definition declareWithGeneratedCredentials (rmqc : RmqClient) (user : User) :
    go (option error * User) :=
  declared <- declareCredentials user;;
  match declared with
  | inl e => Ret (Some e, user)
  | inr _ =>
  credentials <- getUserCredentials user;;
  match credentials with
  | inl e =>
      Ret (Some (wrapf "failed to retrieve generated credentials secret (may be requeuing after label migration): " e),
           user)
  | inr credentials =>
      let name := Name (resource_ObjectMeta user) in
      let actualUsername := deref (Data credentials !! "username") "" in
      if bool_decide (actualUsername = "")
      then Ret (Some (ErrText ("could not find non-empty username key in generated credentials secret: "
                  +:+ Name (Secret_ObjectMeta credentials))), user)
      else if User_UsernameFromMeta (Spec user) && negb (bool_decide (actualUsername = name))
      then Ret (Some (ErrText ("spec.usernameFromMeta is true but the existing credentials secret " +:+
                  quoted (credentialsSecretName user) +:+
                  " has a username different from metadata.name " +:+ quoted name +:+
                  "; unset spec.usernameFromMeta to preserve the existing username and password")),
                user)
      else
        ' (err, user) <-
          (if otherCredentials user (credentialsSecretName user) ||
              bool_decide (UserStatus_Username (Status user) = "") ||
              negb (bool_decide (UserStatus_Username (Status user) = actualUsername))
           then setUserStatus user actualUsername (credentialsSecretName user)
           else Ret (None, user));;
        match err with
        | Some e => Ret (Some e, user)
        | None =>
            settings <- GenerateUserSettings (secretToCredentials credentials)
                          (User_Tags (Spec user));;
            match settings with
            | inl e => Ret (Some (wrapf "failed to generate user settings from credential: " e), user)
            | inr userSettings => putUser rmqc user actualUsername userSettings
            end
        end
  end end.

Definition User_DeclareFunc (rmqc : RmqClient) (user : User) : go (option error * User) :=
  match User_ImportCredentialsSecret (Spec user) with
  | Some ref =>
      if User_UsernameFromMeta (Spec user)
      then Ret (Some (ErrText "spec.usernameFromMeta cannot be set together with spec.importCredentialsSecret"),
                user)
      else declareWithImportedCredentials rmqc user ref
  | None => declareWithGeneratedCredentials rmqc user
  end.

Definition User_DeleteFunc (rmqc : RmqClient) (user : User) : go (option error * User) :=
  if bool_decide (UserStatus_Username (Status user) = "") then Ret (None, user)
  else
    deleteCall (k:=KUser) rmqc (DeleteUser (UserStatus_Username (Status user)))
      (fun r => r) user.

#[export] Instance User_reconcile : ReconcileFunc KUser :=
  Build_ReconcileFunc KUser User_DeclareFunc User_DeleteFunc.

(** ** The watch on secrets *)

Definition ownerKind : string := "User".

(** The index function of [SetupControllerBuilder]: the import secret of a user. *)
Definition importSecretIndex (u : User) : list string :=
  match User_ImportCredentialsSecret (Spec u) with
  | Some ref => [LocalObjectReference_Name ref]
  | None => []
  end.

Definition secretToUserRequests (secret : Secret) : go (list NamespacedName) :=
  let m := Secret_ObjectMeta secret in
  let indexed :=
    users <- act (CListUsersByImportSecret (Namespace m) (Name m));;
    match users with
    | inl _ => Ret []
    | inr items =>
        Ret ((fun u : User => mkNamespacedName (Namespace (resource_ObjectMeta u))
                                (Name (resource_ObjectMeta u))) <$> items)
    end in
  match GetControllerOf m with
  | Some owner =>
      if bool_decide (OwnerReference_Kind owner = ownerKind)
      then Ret [mkNamespacedName (Namespace m) (OwnerReference_Name owner)]
      else indexed
  | None => indexed
  end.
End users.
