(* ===== verification/ControllerProofs.v ===== *)
(** * The kinds keep their promises to the reconciler

    For each kind: what it means that nothing of an object is left on the
    broker, and an instance of [ReconcileFuncOk]. *)

From S2P Require Import Prelude.
From S2P Require Import GoStrings.
From S2P Require Import GoErrors.
From S2P Require Import Prog.
From S2P Require Import Api.
From S2P Require Import Values.
From S2P Require Import World.
From S2P Require Import Resources.
From S2P Require Import Settings.
From S2P Require Import Random.
From S2P Require Import Utils.
From S2P Require Import Traces.
From S2P Require Import TopologyReconciler.
From S2P Require Import ReconcilerProofs.
From S2P Require Import Controllers.
From S2P Require Import PermissionControllers.
From S2P Require Import UserController.

(** ** Every call of a program satisfies [P] *)

Definition all_calls {A} (P : event result -> Prop) (p : go A) : Prop :=
  wp p (fun tr _ => Forall P tr).

Section all_calls.
Context (P : event result -> Prop).

Lemma all_calls_ret {A} (x : A) : all_calls P (Ret x).
Proof. constructor. Qed.

Lemma all_calls_panic {A} w : all_calls (A:=A) P (Panic w).
Proof. constructor. Qed.

Lemma all_calls_act a : (forall x, P (existT a x)) -> all_calls P (act a).
Proof. intros Ha x. by repeat constructor. Qed.

Lemma all_calls_bind {A B} (p : go A) (f : A -> go B) :
  all_calls P p -> (forall x, all_calls P (f x)) -> all_calls P (bind p f).
Proof.
  intros Hp Hf. eapply wp_cut; [exact Hp|..]; [|done].
  intros tr x Htr. eapply wp_mono; [apply Hf|]. simpl. intros tr' _ Htr'.
  apply Forall_app. by split.
Qed.

Lemma all_calls_retry `{LibsOk} {S} (fn : S -> go (option error * S)) s :
  (forall s, all_calls P (fn s)) -> all_calls P (RetryOnConflict fn s).
Proof.
  intros Hfn. apply (wp_retry fn s (fun _ tr _ => Forall P tr)); [done|].
  intros. apply Forall_app. by split.
Qed.
End all_calls.

(** Walk through a program; the goals left are about single calls. *)
Ltac all_calls_step :=
  lazymatch goal with
  | |- all_calls _ (Ret _) => apply all_calls_ret
  | |- all_calls _ (Panic _) => apply all_calls_panic
  | |- all_calls ?P (act ?a) => apply (all_calls_act P a); intros ?
  | |- all_calls _ (bind _ _) => apply all_calls_bind;
      [|let x := fresh "x" in intros x; cbn [result rmq_result] in x]
  | |- all_calls _ (RetryOnConflict _ _) => apply all_calls_retry; [apply _|intros ?]
  | |- all_calls _ (match ?x with _ => _ end) => destruct x eqn:?
  end.

(** A call that updates no object, and reaches the broker only through [c]. *)
Definition modest (c : RmqClient) (e : event result) : Prop :=
  (forall k o, projT1 e <> CUpdate k o) /\ uses_client c e.

Lemma modest_not_drops c k f e : modest c e -> ~ drops k f e.
Proof. intros [Hm _] (k' & o & He)%drops_update. by eapply Hm. Qed.

Lemma modest_client c e : modest c e -> uses_client c e.
Proof. by intros [_ ?]. Qed.

Ltac modest := split; [by intros ? ? [=]|intros ? ?; simpl; intros [=]; done].
Ltac all_modest := repeat (cbv zeta; all_calls_step); modest.

(** ** The deletion of an object on the broker *)

(** The answer of a call that returns a response. *)
Definition http_answer (call : rmq_call) : rmq_result call -> option http_result :=
  match call with
  | GetUserLimits _ | GetVhostLimits _ | GetQueue _ _
  | ListQueueBindingsBetween _ _ _ | ListExchangeBindingsBetween _ _ _ => fun _ => None
  | _ => fun x => Some x
  end.

(** The broker was asked to [call] and did so, or had nothing to do. *)
Definition confirms (call : rmq_call) (e : event result) : Prop :=
  match e with
  | existT (Rmq _ call') x =>
      call' = call /\
      match http_answer call' x with
      | Some r => accepted r \/ says_not_found r
      | None => False
      end
  | _ => False
  end.

Definition deleted_by (call : rmq_call) (tr : go_trace) : Prop := Exists (confirms call) tr.

Lemma deleted_by_mono call tr1 tr tr2 : deleted_by call tr -> deleted_by call (tr1 ++ tr ++ tr2).
Proof. unfold deleted_by. rewrite !Exists_app. auto. Qed.

Lemma deletionResult_ok r : deletionResult r = None <-> accepted r \/ says_not_found r.
Proof.
  rewrite <- validateResponseForDeletion_ok. unfold deletionResult.
  destruct (validateResponseForDeletion r) as [e|] eqn:E; simpl; [|naive_solver].
  rewrite (validateResponseForDeletion_error _ _ _ E). case_bool_decide; naive_solver.
Qed.

(** What is left to show of a kind whose functions update no object. *)
Section modest_kind.
Context `{LibsOk} (k : kind) `{!ReconcileFunc k}.

Lemma modest_guarded c (tr : go_trace) f (R : go_trace -> Prop) :
  Forall (modest c) tr -> guarded (fun pre e => drops k f e -> R pre) tr.
Proof.
  intros Hm. eapply guarded_forall; [exact Hm|]. intros pre e He Hd.
  by apply (modest_not_drops c k f e) in He.
Qed.

Lemma modest_ok (R : object k -> go_trace -> Prop) :
  (forall o tr1 tr tr2, R o tr -> R o (tr1 ++ tr ++ tr2)) ->
  (forall c o, all_calls (modest c) (DeclareFunc c o)) ->
  (forall c o, all_calls (modest c) (DeleteFunc c o)) ->
  (forall c o, wp (DeleteFunc c o) (fun tr out =>
     forall o', out = Returned (None, o') -> R o tr)) ->
  ReconcileFuncOk k.
Proof.
  intros Hmono Hdecl Hdel HR. refine (Build_ReconcileFuncOk k _ _ R Hmono _ _ _ _).
  - intros c o f _. eapply wp_mono; [apply Hdecl|]. simpl. intros tr _ Hm.
    eapply Forall_impl; [exact Hm|]. eauto using modest_not_drops.
  - intros c o. eapply wp_mono; [apply (wp_and _ _ _ (Hdel c o) (HR c o))|]. simpl.
    intros tr out [Hm Ho]. split; [exact Ho|]. intros f _. by eapply modest_guarded.
  - intros c o. eapply wp_mono; [apply Hdecl|]. simpl. intros tr _ Hm.
    eapply Forall_impl; [exact Hm|]. apply modest_client.
  - intros c o. eapply wp_mono; [apply Hdel|]. simpl. intros tr _ Hm.
    eapply Forall_impl; [exact Hm|]. apply modest_client.
Defined.
End modest_kind.

(** ** The kinds *)

Section kinds.
Context `{LibsOk}.

(** Nothing of the object is left on the broker, or it is to be kept. *)
Definition Queue_released (q : Queue) (tr : go_trace) : Prop :=
  Queue_DeletionPolicy (Spec q) = "retain" \/
  exists opts, deleted_by (DeleteQueue (Queue_Vhost (Spec q)) (Queue_Name (Spec q)) opts) tr.
Definition Exchange_released (e : Exchange) (tr : go_trace) : Prop :=
  deleted_by (DeleteExchange (Exchange_Vhost (Spec e)) (Exchange_Name (Spec e))) tr.
Definition Policy_released (p : Policy) (tr : go_trace) : Prop :=
  deleted_by (DeletePolicy (Policy_Vhost (Spec p)) (Policy_Name (Spec p))) tr.
Definition OperatorPolicy_released (p : OperatorPolicy) (tr : go_trace) : Prop :=
  deleted_by (DeleteOperatorPolicy (OperatorPolicy_Vhost (Spec p)) (OperatorPolicy_Name (Spec p))) tr.
Definition Federation_released (f : Federation) (tr : go_trace) : Prop :=
  Federation_DeletionPolicy (Spec f) = "retain" \/
  deleted_by (DeleteFederationUpstream (Federation_Vhost (Spec f)) (Federation_Name (Spec f))) tr.
Definition Shovel_released (s : Shovel) (tr : go_trace) : Prop :=
  Shovel_DeletionPolicy (Spec s) = "retain" \/
  deleted_by (DeleteShovel (Shovel_Vhost (Spec s)) (Shovel_Name (Spec s))) tr.
Definition SchemaReplication_released (s : SchemaReplication) (tr : go_trace) : Prop :=
  deleted_by (DeleteGlobalParameter SchemaReplicationParameterName) tr.
Definition Vhost_released (v : Vhost) (tr : go_trace) : Prop :=
  Vhost_DeletionPolicy (Spec v) = "retain" \/
  deleted_by (DeleteVhost (Vhost_Name (Spec v))) tr.
(** A user without a name in its status was never declared. *)
Definition User_released (u : User) (tr : go_trace) : Prop :=
  UserStatus_Username (Status u) = "" \/
  deleted_by (DeleteUser (UserStatus_Username (Status u))) tr.

Lemma skip_retain policy name : shouldSkipDeletion policy name = true -> policy = "retain".
Proof. unfold shouldSkipDeletion. by case_bool_decide. Qed.

Lemma confirmed (c : RmqClient) (call : rmq_call) (x : rmq_result call) r :
  http_answer call x = Some r -> deletionResult r = None ->
  confirms call (existT (P:=result) (Rmq c call) x).
Proof. intros Hx Hr. split; [done|]. rewrite Hx. by apply deletionResult_ok. Qed.

(** The common case: one call that deletes. *)
Ltac deletes :=
  simpl; intros x o' [= Hx <-]; lazymatch goal with |- _ \/ _ => right | _ => idtac end;
  apply Exists_cons_hd; eapply confirmed; [|exact Hx]; done.

#[export] Instance Exchange_ok : ReconcileFuncOk KExchange.
Proof.
  apply (modest_ok KExchange Exchange_released); unfold Exchange_released.
  - intros. by apply deleted_by_mono.
  - intros c o. simpl. unfold Exchange_DeclareFunc, declareCall. all_modest.
  - intros c o. simpl. unfold Exchange_DeleteFunc, deleteCall. all_modest.
  - intros c o. deletes.
Defined.

#[export] Instance Policy_ok : ReconcileFuncOk KPolicy.
Proof.
  apply (modest_ok KPolicy Policy_released); unfold Policy_released.
  - intros. by apply deleted_by_mono.
  - intros c o. simpl. unfold Policy_DeclareFunc, declareCall, GeneratePolicy. all_modest.
  - intros c o. simpl. unfold Policy_DeleteFunc, deleteCall. all_modest.
  - intros c o. deletes.
Defined.

#[export] Instance OperatorPolicy_ok : ReconcileFuncOk KOperatorPolicy.
Proof.
  apply (modest_ok KOperatorPolicy OperatorPolicy_released); unfold OperatorPolicy_released.
  - intros. by apply deleted_by_mono.
  - intros c o. simpl. unfold OperatorPolicy_DeclareFunc, declareCall, GenerateOperatorPolicy.
    all_modest.
  - intros c o. simpl. unfold OperatorPolicy_DeleteFunc, deleteCall. all_modest.
  - intros c o. deletes.
Defined.

#[export] Instance SchemaReplication_ok : ReconcileFuncOk KSchemaReplication.
Proof.
  apply (modest_ok KSchemaReplication SchemaReplication_released);
    unfold SchemaReplication_released.
  - intros. by apply deleted_by_mono.
  - intros c o. simpl. unfold SchemaReplication_DeclareFunc, declareCall, getUpstreamEndpoints,
      upstreamSecret. all_modest.
  - intros c o. simpl. unfold SchemaReplication_DeleteFunc, deleteCall. all_modest.
  - intros c o. deletes.
Defined.

(** The kinds with a deletion policy, and users. *)

#[export] Instance Federation_ok : ReconcileFuncOk KFederation.
Proof.
  apply (modest_ok KFederation Federation_released); unfold Federation_released.
  - intros o tr1 tr tr2 [?|?]; [by left|right; by apply deleted_by_mono].
  - intros c o. simpl. unfold Federation_DeclareFunc, declareCall, Federation_getUri,
      uriSecretError. all_modest.
  - intros c o. simpl. unfold Federation_DeleteFunc, deleteCall. all_modest.
  - intros c o. simpl. unfold Federation_DeleteFunc. destruct (shouldSkipDeletion _ _) eqn:E.
    + simpl. intros _ _. left. by eapply skip_retain.
    + deletes.
Defined.

#[export] Instance Shovel_ok : ReconcileFuncOk KShovel.
Proof.
  apply (modest_ok KShovel Shovel_released); unfold Shovel_released.
  - intros o tr1 tr tr2 [?|?]; [by left|right; by apply deleted_by_mono].
  - intros c o. simpl. unfold Shovel_DeclareFunc, declareCall, Shovel_getUris,
      uriSecretError. all_modest.
  - intros c o. simpl. unfold Shovel_DeleteFunc, deleteCall. all_modest.
  - intros c o. simpl. unfold Shovel_DeleteFunc. destruct (shouldSkipDeletion _ _) eqn:E.
    + simpl. intros _ _. left. by eapply skip_retain.
    + deletes.
Defined.

#[export] Instance Vhost_ok : ReconcileFuncOk KVhost.
Proof.
  apply (modest_ok KVhost Vhost_released); unfold Vhost_released.
  - intros o tr1 tr tr2 [?|?]; [by left|right; by apply deleted_by_mono].
  - intros c o. simpl. unfold Vhost_DeclareFunc, reconcileVhostLimits, getVhostLimits. all_modest.
  - intros c o. simpl. unfold Vhost_DeleteFunc, deleteCall. all_modest.
  - intros c o. simpl. unfold Vhost_DeleteFunc. destruct (shouldSkipDeletion _ _) eqn:E.
    + simpl. intros _ _. left. by eapply skip_retain.
    + deletes.
Defined.

#[export] Instance User_ok : ReconcileFuncOk KUser.
Proof.
  apply (modest_ok KUser User_released); unfold User_released.
  - intros o tr1 tr tr2 [?|?]; [by left|right; by apply deleted_by_mono].
  - intros c o. simpl. unfold User_DeclareFunc, declareWithImportedCredentials, importCredentials,
      declareWithGeneratedCredentials, declareCredentials, generateCredentials,
      RandomEncodedString, getUserCredentials, setUserStatus, GenerateUserSettings, putUser,
      ConditionOps.PasswordSynced, ConditionOps.lastTransitionTime, reconcileUserLimits,
      getUserLimits. all_modest.
  - intros c o. simpl. unfold User_DeleteFunc, deleteCall. all_modest.
  - intros c o. simpl. unfold User_DeleteFunc. case_bool_decide.
    + simpl. intros _ _. by left.
    + deletes.
Defined.

#[export] Instance Queue_ok : ReconcileFuncOk KQueue.
Proof.
  apply (modest_ok KQueue Queue_released); unfold Queue_released.
  - intros o tr1 tr tr2 [?|[opts ?]]; [by left|right; exists opts; by apply deleted_by_mono].
  - intros c o. simpl. unfold Queue_DeclareFunc, declareCall. all_modest.
  - intros c o. simpl. unfold Queue_DeleteFunc, deleteCall, quorumGuard. all_modest.
  - intros c o. simpl. unfold Queue_DeleteFunc. destruct (shouldSkipDeletion _ _) eqn:E.
    + simpl. intros _ _. left. by eapply skip_retain.
    + simpl. apply wp_bind. apply wp_exec. intros tr [[e|]|w] _; [done| |done].
      simpl. intros x o' [= Hx <-]. right. eexists. apply Exists_app. right.
      apply Exists_cons_hd; eapply confirmed; [|exact Hx]; done.
Defined.

(** ** Bindings *)

(** A binding on the broker is the one of the object: same routing key, same
    arguments. *)
Definition binding_matches (b : Binding) (args : args_map) (info : BindingInfo) : Prop :=
  BindingInfo_RoutingKey info = Binding_RoutingKey (Spec b) /\
  DeepEqual_maps (BindingInfo_Arguments info) args = true.

Lemma lastMatch_spec (b : Binding) args infos acc :
  match lastMatch (Binding_RoutingKey (Spec b)) args infos acc with
  | Some info => acc = Some info \/ (info ∈ infos /\ binding_matches b args info)
  | None => acc = None /\ forall info, info ∈ infos -> ~ binding_matches b args info
  end.
Proof.
  unfold binding_matches. revert acc. induction infos as [|i infos IH]; intros acc; simpl.
  { destruct acc; [by left|]. set_solver. }
  specialize (IH (if bool_decide (Binding_RoutingKey (Spec b) = BindingInfo_RoutingKey i) &&
                     DeepEqual_maps (BindingInfo_Arguments i) args then Some i else acc)).
  destruct (lastMatch _ _ _ _) as [info|].
  - destruct IH as [IH|IH]; [|set_solver].
    destruct (_ && _) eqn:E; [|by left]. bool_hyps. simplify_eq. set_solver.
  - destruct IH as [IH Hno]. destruct (_ && _) eqn:E; [done|]. split; [done|].
    intros info [->|Hin]%elem_of_cons; [|by apply Hno].
    intros [Hk Hd]. by rewrite bool_decide_eq_true_2, Hd in E.
Qed.

(** The event lists the bindings [infos] between the source and the destination
    of the object. *)
Definition binding_listed (b : Binding) (infos : list BindingInfo) (e : event result) : Prop :=
  match e with
  | existT (Rmq _ (ListQueueBindingsBetween v s d)) (inr l) =>
      Binding_DestinationType (Spec b) = "queue" /\ v = Binding_Vhost (Spec b) /\
      s = Binding_Source (Spec b) /\ d = Binding_Destination (Spec b) /\ l = infos
  | existT (Rmq _ (ListExchangeBindingsBetween v s d)) (inr l) =>
      Binding_DestinationType (Spec b) <> "queue" /\ v = Binding_Vhost (Spec b) /\
      s = Binding_Source (Spec b) /\ d = Binding_Destination (Spec b) /\ l = infos
  | _ => False
  end.

(** Without arguments the binding is deleted by its properties key; with
    arguments the broker lists no such binding, or the one it lists is
    deleted. *)
Definition Binding_released (b : Binding) (tr : go_trace) : Prop :=
  let vhost := Binding_Vhost (Spec b) in
  match Binding_Arguments (Spec b) with
  | None => exists info, GenerateBindingInfo b = inr info /\
      deleted_by (DeleteBinding vhost (set_PropertiesKey (GeneratePropertiesKey b) info)) tr
  | Some raw => exists args infos, json_Unmarshal (raw_bytes raw) = inr args /\
      Exists (binding_listed b infos) tr /\
      ((forall info, info ∈ infos -> ~ binding_matches b args info) \/
       exists info, info ∈ infos /\ binding_matches b args info /\
         deleted_by (DeleteBinding vhost info) tr)
  end.

Lemma findBindingInfo_spec c (b : Binding) raw :
  Binding_Arguments (Spec b) = Some raw ->
  wp (findBindingInfo b c) (fun tr out =>
    match out with
    | Returned (inr found) => exists args infos,
        json_Unmarshal (raw_bytes raw) = inr args /\ Exists (binding_listed b infos) tr /\
        found = lastMatch (Binding_RoutingKey (Spec b)) args infos None
    | Returned (inl _) => True
    | Panicked _ => False
    end).
Proof.
  intros Hraw. unfold findBindingInfo. rewrite Hraw.
  destruct (json_Unmarshal (raw_bytes raw)) as [e|args]; simpl; [done|].
  case_bool_decide as Ht; simpl; (intros [e|infos]; simpl; [done|]);
    exists args, infos; (split; [done|]); (split; [|done]); by apply Exists_cons_hd.
Qed.

Lemma Binding_released_mono b tr1 tr tr2 :
  Binding_released b tr -> Binding_released b (tr1 ++ tr ++ tr2).
Proof.
  unfold Binding_released. destruct (Binding_Arguments (Spec b)) as [raw|].
  - intros (args & infos & Hj & Hl & Hrest). exists args, infos. split; [done|].
    split; [rewrite !Exists_app; auto|].
    destruct Hrest as [Hno|(info & Hin & Hm & Hd)]; [by left|right].
    exists info. eauto using deleted_by_mono.
  - intros (info & Hg & Hd). eauto using deleted_by_mono.
Qed.

#[export] Instance Binding_ok : ReconcileFuncOk KBinding.
Proof.
  apply (modest_ok KBinding Binding_released).
  - apply Binding_released_mono.
  - intros c o. simpl. unfold Binding_DeclareFunc, declareCall. all_modest.
  - intros c o. simpl. unfold Binding_DeleteFunc, deleteCall, findBindingInfo. all_modest.
  - intros c b. simpl. unfold Binding_DeleteFunc, Binding_released.
    destruct (Binding_Arguments (Spec b)) as [raw|] eqn:Hraw.
    + eapply wp_cut; [by apply findBindingInfo_spec|..]; [|done].
      intros tr [e|found]; [done|]. intros (args & infos & Hj & Hl & Hf).
      pose proof (lastMatch_spec b args infos None) as Hs. rewrite <- Hf in Hs.
      destruct found as [info|]; simpl.
      * intros x o' [= Hx <-]. exists args, infos. split; [done|].
        split; [apply Exists_app; by left|]. right. exists info.
        destruct Hs as [|[Hin Hm]]; [done|]. do 2 (split; [done|]).
        apply Exists_app. right. apply Exists_cons_hd. eapply confirmed; [|exact Hx]; done.
      * intros o' _. exists args, infos. rewrite app_nil_r. naive_solver.
    + destruct (GenerateBindingInfo b) as [e|info]; simpl; [done|].
      intros x o' [= Hx <-]. exists info. split; [done|].
      apply Exists_cons_hd. eapply confirmed; [|exact Hx]; done.
Defined.

(** ** Permissions *)

(** The name of the user of a permission, as the calls [tr] show it. *)
Definition resolves (namespace username : string) (ref : option LocalObjectReference)
    (tr : go_trace) (u : string) : Prop :=
  match ref with
  | None => u = username
  | Some ref => exists x,
      existT (P:=result) (CGet KUser (mkNamespacedName namespace (LocalObjectReference_Name ref))) x
        ∈ tr /\
      match x with
      | inr user => u = UserStatus_Username (Status user)
      | inl e => IsNotFound e = true /\ u = username
      end
  end.

Lemma resolves_mono ns user ref tr1 tr tr2 u :
  resolves ns user ref tr u -> resolves ns user ref (tr1 ++ tr ++ tr2) u.
Proof. unfold resolves. destruct ref; [|done]. intros (x & Hin & Hx). exists x. split; [set_solver|done]. Qed.

Lemma permissionUser_spec ns username ref :
  wp (permissionUser ns username ref) (fun tr out =>
    Forall quiet tr /\
    match out with
    | Returned (inr (_, u)) => resolves ns username ref tr u
    | Returned (inl _) => True
    | Panicked _ => False
    end).
Proof.
  unfold permissionUser, getUsernameFromUser. destruct ref as [ref|]; simpl; [|done].
  intros [e|user]; simpl.
  - destruct (IsNotFound e) eqn:E; simpl; (split; [by repeat constructor|]); [|done].
    exists (inl e). split; [set_solver|done].
  - split; [by repeat constructor|]. exists (inr user). split; [set_solver|done].
Qed.

(** A permission is released when the broker has cleared it, or its user has no
    name. *)
Definition Permission_released (p : Permission) (tr : go_trace) : Prop :=
  exists u, resolves (Namespace (resource_ObjectMeta p)) (Permission_User (Spec p))
              (Permission_UserReference (Spec p)) tr u /\
    (u = "" \/ deleted_by (ClearPermissionsIn (Permission_Vhost (Spec p)) u) tr).
Definition TopicPermission_released (p : TopicPermission) (tr : go_trace) : Prop :=
  exists u, resolves (Namespace (resource_ObjectMeta p)) (TopicPermission_User (Spec p))
              (TopicPermission_UserReference (Spec p)) tr u /\
    (u = "" \/ deleted_by (DeleteTopicPermissionsIn (TopicPermission_Vhost (Spec p)) u
                 (TopicPermissionConfig_Exchange (TopicPermission_Permissions (Spec p)))) tr).

(** The owner reference changes nothing else of the metadata, so the update of
    a permission keeps its finalizers. *)
Lemma ownedBy_spec c k user (o : object k) :
  wp (ownedBy user o) (fun tr _ =>
    Forall (uses_client c) tr /\
    forall f, f ∈ Finalizers (meta k o) -> Forall (fun e => ~ drops k f e) tr).
Proof.
  unfold ownedBy. destruct user as [user|]; [|done]. case_bool_decide; simpl; [done|].
  destruct (SetControllerReference _ _ _) as [e|m] eqn:E; simpl; [done|].
  apply SetControllerReference_rest in E. apply (f_equal Finalizers) in E. simpl in E.
  assert (Hn : forall f x, f ∈ Finalizers (meta k o) ->
    ~ drops k f (existT (P:=result) (CUpdate k (set_meta k m o)) x)).
  { intros f x Hf (sent & x' & Heq & Hnot). apply CUpdate_inj in Heq as <-.
    apply Hnot. by rewrite meta_set_meta, E. }
  intros [e|o']; simpl; (split; [repeat constructor; by intros ? ? [=]|]);
    intros f Hf; repeat constructor; by apply Hn.
Qed.

Lemma quiet_modest c e : quiet e -> modest c e.
Proof.
  intros Hq. split.
  - intros k o He. unfold quiet in Hq. by rewrite He in Hq.
  - by apply not_rmq_uses_client, quiet_not_rmq.
Qed.

(** Both [DeleteFunc]s of permissions: find the user, clear, then remove the
    finalizer.  [clear] is the middle part, [R] what it achieves. *)
Lemma permission_delete_spec c k (o : object k) ns username ref
    (clear : string -> go (option error)) (call : string -> rmq_call) :
  (forall u, all_calls (modest c) (clear u)) ->
  (forall u, wp (clear u) (fun tr out =>
     match out with Returned None => deleted_by (call u) tr
                  | Returned (Some _) => True | Panicked _ => False end)) ->
  let R tr := exists u, resolves ns username ref tr u /\ (u = "" \/ deleted_by (call u) tr) in
  wp (bind (permissionUser ns username ref) (fun found =>
        match found with
        | inl e => Ret (Some e, o)
        | inr (_, username) =>
            bind (if bool_decide (username = "") then Ret None else clear username) (fun err =>
              match err with
              | Some e => Ret (Some e, o)
              | None => removeFinalizer k o
              end)
        end)) (fun tr out =>
    Forall (uses_client c) tr /\
    (forall o', out = Returned (None, o') -> R tr) /\
    (forall f, guarded (fun pre e => drops k f e -> R pre) tr)).
Proof.
  intros Hclear Hclr R.
  assert (Hquiet : forall tr, Forall quiet tr -> Forall (modest c) tr).
  { intros tr Hq. eapply Forall_impl; [exact Hq|]. apply quiet_modest. }
  assert (Hmod : forall tr, Forall (modest c) tr -> Forall (uses_client c) tr /\
     forall f, guarded (fun pre e => drops k f e -> R pre) tr).
  { intros tr Hm. split; [eapply Forall_impl; [exact Hm|]; apply modest_client|].
    intros f. by eapply modest_guarded. }
  eapply wp_cut; [apply permissionUser_spec|..]; [|by intros tr w [_ []]].
  intros tr0 [e|[user u]] [Hq Hres].
  { simpl. rewrite app_nil_r. destruct (Hmod tr0); [auto|]. repeat split; auto; done. }
  assert (Hmid : wp (if bool_decide (u = "") then Ret None else clear u) (fun tr out =>
    Forall (modest c) tr /\
    match out with Returned None => u = "" \/ deleted_by (call u) tr
                 | Returned (Some _) => True | Panicked _ => False end)).
  { case_bool_decide; [simpl; auto|]. apply wp_and; [apply Hclear|].
    eapply wp_mono; [apply Hclr|]. intros tr [[|]|]; auto. }
  eapply wp_cut; [exact Hmid|..]; [|by intros tr w [_ []]].
  intros tr1 err [Hm1 Hr1]. assert (Hm : Forall (modest c) (tr0 ++ tr1)) by (apply Forall_app; auto).
  destruct (Hmod _ Hm) as [Hu Hg]. destruct err as [e|].
  { simpl. rewrite app_nil_r. repeat split; auto; done. }
  assert (HR : forall tr2, R (tr0 ++ tr1 ++ tr2)).
  { intros tr2. exists u. split; [by apply (resolves_mono _ _ _ [])|].
    destruct Hr1 as [->|Hd]; [by left|right]. rewrite app_assoc.
    rewrite <- app_assoc. by apply deleted_by_mono. }
  intros x. destruct x as [e|o'']; simpl; rewrite app_assoc.
  all: split; [apply Forall_app; split; [done|repeat constructor; by intros ? ? [=]]|].
  all: split; [intros; rewrite <- app_assoc; apply HR|].
  all: intros f; apply guarded_app; split; [apply Hg|]; simpl.
  all: split; [intros _; specialize (HR []); by rewrite !app_nil_r in * |done].
Qed.

(** The calls keep every finalizer of [o] and use client [c]. *)
Definition considerate (c : RmqClient) (k : kind) (o : object k) (tr : go_trace) : Prop :=
  Forall (uses_client c) tr /\
  forall f, f ∈ Finalizers (meta k o) -> Forall (fun e => ~ drops k f e) tr.

Lemma considerate_modest c k (o : object k) tr : Forall (modest c) tr -> considerate c k o tr.
Proof.
  intros Hm. split; [|intros f _]; (eapply Forall_impl; [exact Hm|]);
    eauto using modest_client, modest_not_drops.
Qed.

Lemma considerate_app c k (o : object k) tr tr' :
  considerate c k o tr -> considerate c k o tr' -> considerate c k o (tr ++ tr').
Proof.
  intros [Hu Hd] [Hu' Hd']. split; [by apply Forall_app|].
  intros f Hf. apply Forall_app. auto.
Qed.

(** Both [DeclareFunc]s of permissions: find the user, own, declare. *)
Lemma permission_declare_spec c k (o : object k) ns username ref
    (missing : option error * object k) (declare : string -> object k -> go (option error * object k)) :
  (forall u o, all_calls (modest c) (declare u o)) ->
  wp (bind (permissionUser ns username ref) (fun found =>
        match found with
        | inl e => Ret (Some e, o)
        | inr (user, username) =>
            if bool_decide (username = "") then Ret missing
            else bind (ownedBy user o) (fun x =>
              match x with
              | (err, o) => match err with Some e => Ret (Some e, o) | None => declare username o end
              end)
        end)) (fun tr _ => considerate c k o tr).
Proof.
  intros Hdecl.
  eapply wp_cut; [apply permissionUser_spec|..]; [|by intros tr w [_ []]].
  intros tr0 x [Hq _]. assert (Hc0 : considerate c k o tr0).
  { apply considerate_modest. eapply Forall_impl; [exact Hq|]. apply quiet_modest. }
  destruct x as [e|[user u]]; [simpl; by rewrite app_nil_r|].
  case_bool_decide; [simpl; by rewrite app_nil_r|].
  eapply wp_cut; [apply (ownedBy_spec c)|..]; [|intros tr w Ho; by apply considerate_app].
  intros tr1 [[e|] o1] Ho; simpl; [rewrite app_nil_r; by apply considerate_app|].
  eapply wp_mono; [apply Hdecl|]. simpl. intros tr2 _ Hm.
  auto using considerate_app, considerate_modest.
Qed.

Lemma revokePermissions_spec c p u :
  wp (revokePermissions c p u) (fun tr out =>
    match out with
    | Returned None => deleted_by (ClearPermissionsIn (Permission_Vhost (Spec p)) u) tr
    | Returned (Some _) => True
    | Panicked _ => False
    end).
Proof.
  simpl. intros x. destruct (is_err _ _) eqn:E; simpl.
  - apply Exists_cons_hd. apply (confirmed _ (ClearPermissionsIn _ _) x x); [done|]. unfold deletionResult. by rewrite E.
  - destruct (validateResponseForDeletion x) eqn:E'; [done|].
    apply Exists_cons_hd. apply (confirmed _ (ClearPermissionsIn _ _) x x); [done|]. unfold deletionResult. by rewrite E'.
Qed.

Lemma clearTopicPermission_spec c p u :
  wp (clearTopicPermission c p u) (fun tr out =>
    match out with
    | Returned None => deleted_by (DeleteTopicPermissionsIn (TopicPermission_Vhost (Spec p)) u
          (TopicPermissionConfig_Exchange (TopicPermission_Permissions (Spec p)))) tr
    | Returned (Some _) => True
    | Panicked _ => False
    end).
Proof.
  simpl. intros x. destruct (is_err _ _) eqn:E; simpl.
  - apply Exists_cons_hd. apply (confirmed _ (DeleteTopicPermissionsIn _ _ _) x x); [done|]. unfold deletionResult. by rewrite E.
  - destruct (validateResponseForDeletion x) eqn:E'; [done|].
    apply Exists_cons_hd. apply (confirmed _ (DeleteTopicPermissionsIn _ _ _) x x); [done|]. unfold deletionResult. by rewrite E'.
Qed.

#[export] Instance Permission_ok : ReconcileFuncOk KPermission.
Proof.
  refine (Build_ReconcileFuncOk KPermission _ _ Permission_released _ _ _ _ _).
  - intros o tr1 tr tr2 (u & Hr & Hd). exists u. split; [by apply resolves_mono|].
    destruct Hd; [by left|right; by apply deleted_by_mono].
  - intros c o f Hf. eapply wp_mono; [apply (permission_declare_spec c KPermission)|].
    + intros u o1. unfold declareCall. all_modest.
    + simpl. intros tr _ [_ Hd]. auto.
  - intros c o. eapply wp_mono; [apply (permission_delete_spec c KPermission o _ _ _ _
      (fun u => ClearPermissionsIn (Permission_Vhost (Spec o)) u))|].
    + intros u. unfold revokePermissions. all_modest.
    + intros u. apply revokePermissions_spec.
    + simpl. intros tr out (_ & Hr & Hg). auto.
  - intros c o. eapply wp_mono; [apply (permission_declare_spec c KPermission)|].
    + intros u o1. unfold declareCall. all_modest.
    + simpl. by intros tr _ [Hu _].
  - intros c o. eapply wp_mono; [apply (permission_delete_spec c KPermission o _ _ _ _
      (fun u => ClearPermissionsIn (Permission_Vhost (Spec o)) u))|].
    + intros u. unfold revokePermissions. all_modest.
    + intros u. apply revokePermissions_spec.
    + simpl. by intros tr out (Hu & _).
Defined.
#[export] Instance TopicPermission_ok : ReconcileFuncOk KTopicPermission.
Proof.
  refine (Build_ReconcileFuncOk KTopicPermission _ _ TopicPermission_released _ _ _ _ _).
  - intros o tr1 tr tr2 (u & Hr & Hd). exists u. split; [by apply resolves_mono|].
    destruct Hd; [by left|right; by apply deleted_by_mono].
  - intros c o f Hf. eapply wp_mono; [apply (permission_declare_spec c KTopicPermission)|].
    + intros u o1. unfold declareCall. all_modest.
    + simpl. intros tr _ [_ Hd]. auto.
  - intros c o. eapply wp_mono; [apply (permission_delete_spec c KTopicPermission o _ _ _ _
      (fun u => DeleteTopicPermissionsIn (TopicPermission_Vhost (Spec o)) u
        (TopicPermissionConfig_Exchange (TopicPermission_Permissions (Spec o)))))|].
    + intros u. unfold clearTopicPermission. all_modest.
    + intros u. apply clearTopicPermission_spec.
    + simpl. intros tr out (_ & Hr & Hg). auto.
  - intros c o. eapply wp_mono; [apply (permission_declare_spec c KTopicPermission)|].
    + intros u o1. unfold declareCall. all_modest.
    + simpl. by intros tr _ [Hu _].
  - intros c o. eapply wp_mono; [apply (permission_delete_spec c KTopicPermission o _ _ _ _
      (fun u => DeleteTopicPermissionsIn (TopicPermission_Vhost (Spec o)) u
        (TopicPermissionConfig_Exchange (TopicPermission_Permissions (Spec o)))))|].
    + intros u. unfold clearTopicPermission. all_modest.
    + intros u. apply clearTopicPermission_spec.
    + simpl. by intros tr out (Hu & _).
Defined.
End kinds.
