(* ===== verification/ControllerTheorems.v ===== *)
(** * What the kinds do on the broker *)

From S2P Require Import Prelude.
From S2P Require Import GoStrings.
From S2P Require Import GoErrors.
From S2P Require Import Prog.
From S2P Require Import Api.
From S2P Require Import Values.
From S2P Require Import World.
From S2P Require Import Resources.
From S2P Require Import Settings.
From S2P Require Import Random.
From S2P Require Import Utils.
From S2P Require Import Traces.
From S2P Require Import TopologyReconciler.
From S2P Require Import ReconcilerProofs.
From S2P Require Import Controllers.
From S2P Require Import PermissionControllers.
From S2P Require Import UserController.
From S2P Require Import ControllerProofs.

(** ** Limits

    A broker that keeps the limits of vhosts and users: [Put] adds, [Delete]
    removes, [Get] lists them (or answers 404 when there are none). *)
Section limits.
Context `{Libs}.

Record LimitsBroker := mkLimitsBroker {
  vhost_limits : gmap string LimitsValues;
  user_limits : gmap string LimitsValues
}.

Definition limits_of (m : gmap string LimitsValues) (name : string) : LimitsValues :=
  deref (m !! name) ∅.

Definition ok204 : http_result := (Some (mkHTTPResponse 204 ""), None).

Definition get_limits (m : gmap string LimitsValues) (name : string) :
    rmq_error + list LimitsValues :=
  match m !! name with
  | Some l => inr [l]
  | None => inl (RmqErrorResponse rabbithole404)
  end.

Definition drop_limits (keys : list string) (l : LimitsValues) : LimitsValues :=
  base.filter (fun kv => kv.1 ∉ keys) l.

(** The answers to calls about limits; other calls get the default answer [d]. *)
Definition limits_broker (d : forall a, result a) : handler result LimitsBroker :=
  fun a s =>
    match a return result a -> result a * LimitsBroker with
    | Rmq c call => fun dflt =>
        match call return rmq_result call -> rmq_result call * LimitsBroker with
        | GetVhostLimits n => fun _ => (get_limits (vhost_limits s) n, s)
        | DeleteVhostLimits n keys => fun _ =>
            (ok204, mkLimitsBroker
               (<[n := drop_limits keys (limits_of (vhost_limits s) n)]> (vhost_limits s))
               (user_limits s))
        | PutVhostLimits n l => fun _ =>
            (ok204, mkLimitsBroker (<[n := l ∪ limits_of (vhost_limits s) n]> (vhost_limits s))
               (user_limits s))
        | GetUserLimits n => fun _ => (get_limits (user_limits s) n, s)
        | DeleteUserLimits n keys => fun _ =>
            (ok204, mkLimitsBroker (vhost_limits s)
               (<[n := drop_limits keys (limits_of (user_limits s) n)]> (user_limits s)))
        | PutUserLimits n l => fun _ =>
            (ok204, mkLimitsBroker (vhost_limits s)
               (<[n := l ∪ limits_of (user_limits s) n]> (user_limits s)))
        | _ => fun dflt => (dflt, s)
        end dflt
    | _ => fun dflt => (dflt, s)
    end (d a).

Lemma currentLimits_get m name : currentLimits (get_limits m name) = inr (limits_of m name).
Proof.
  unfold currentLimits, get_limits, limits_of. destruct (m !! name); [done|].
  by rewrite errors_Is_refl.
Qed.

(** Dropping the outdated limits and adding the new ones leaves, among the
    managed limits, exactly the new ones, and the others as they were. *)
Definition converged (keys : list string) (old new final : LimitsValues) : Prop :=
  forall limit, final !! limit =
    if bool_decide (limit ∈ keys) then new !! limit else
    match new !! limit with Some v => Some v | None => old !! limit end.

Lemma drop_put_converged keys old new :
  converged keys old new (new ∪ drop_limits (limitsToDelete keys old new) old).
Proof.
  unfold converged, drop_limits, LimitsValues in *. intros limit. rewrite lookup_union.
  destruct (new !! limit) as [v|] eqn:En.
  { rewrite union_Some_l. by case_bool_decide. }
  rewrite (left_id_L None _). 
  case_bool_decide as Hk.
  - apply map_lookup_filter_None. right. intros v Hv. simpl. intros Hn. apply Hn.
    apply list_elem_of_filter. eauto.
  - destruct (old !! limit) as [v|] eqn:Eo.
    + apply map_lookup_filter_Some. split; [done|]. simpl.
      by intros [_ ?]%list_elem_of_filter.
    + apply map_lookup_filter_None. by left.
Qed.

Lemma drop_nothing l : drop_limits [] l = l.
Proof.
  unfold drop_limits, LimitsValues in *. apply map_filter_id. intros k v _. simpl.
  apply not_elem_of_nil.
Qed.

Lemma empty_union l : (∅ : LimitsValues) ∪ l = l.
Proof. unfold LimitsValues in *. apply (left_id_L ∅ (∪)). Qed.

Lemma limits_of_insert m n l : limits_of (<[n := l]> m) n = l.
Proof. unfold limits_of. by rewrite lookup_insert_eq. Qed.

(** The four outcomes: something to drop or not, something to add or not. *)
Ltac limits_outcome Hc :=
  let E := fresh "E" in
  case_bool_decide as E; simpl; [rewrite E in Hc |- *; rewrite empty_union in Hc|];
  rewrite ?limits_of_insert, ?delete_insert_eq, ?drop_nothing in *; done.

(** Against a broker that stores limits, declaring the limits of a vhost
    succeeds and leaves exactly the limits of the spec among the managed keys,
    others and other vhosts untouched. *)
Lemma vhost_limits_converge d c (v : Vhost) s :
  let name := Vhost_Name (Spec v) in
  let '(_, out, s') := run (limits_broker d) (reconcileVhostLimits c v) s in
  out = Returned None /\
  converged vhostLimitKeys (limits_of (vhost_limits s) name)
    (GenerateVhostLimits (Vhost_VhostLimits (Spec v))) (limits_of (vhost_limits s') name) /\
  user_limits s' = user_limits s /\
  delete name (vhost_limits s') = delete name (vhost_limits s).
Proof.
  intros name. unfold reconcileVhostLimits, getVhostLimits, vhostLimitsToDelete. fold name.
  simpl. rewrite currentLimits_get.
  set (old := limits_of (vhost_limits s) name).
  set (new := GenerateVhostLimits (Vhost_VhostLimits (Spec v))).
  pose proof (drop_put_converged vhostLimitKeys old new) as Hc.
  destruct (limitsToDelete vhostLimitKeys old new) as [|l ls]; simpl.
  - limits_outcome Hc.
  - limits_outcome Hc.
Qed.

(** C23: Against a broker that stores limits, declaring the limits of a user
    succeeds and leaves exactly the limits of the spec among the managed keys,
    others and other users untouched. *)
Theorem user_limits_converge d c (u : User) name s :
  let '(_, out, s') := run (limits_broker d) (reconcileUserLimits c u name) s in
  out = Returned None /\
  converged userLimitKeys (limits_of (user_limits s) name)
    (GenerateUserLimits (User_UserLimits (Spec u))) (limits_of (user_limits s') name) /\
  vhost_limits s' = vhost_limits s /\
  delete name (user_limits s') = delete name (user_limits s).
Proof.
  unfold reconcileUserLimits, getUserLimits, userLimitsToDelete.
  simpl. rewrite currentLimits_get.
  set (old := limits_of (user_limits s) name).
  set (new := GenerateUserLimits (User_UserLimits (Spec u))).
  pose proof (drop_put_converged userLimitKeys old new) as Hc.
  destruct (limitsToDelete userLimitKeys old new) as [|l ls]; simpl.
  - limits_outcome Hc.
  - limits_outcome Hc.
Qed.
End limits.

(** ** Users *)

Section users.
Context `{LibsOk}.

Definition puts_user (name : string) (s : UserSettings) (e : event result) : Prop :=
  exists c, projT1 e = Rmq c (PutUser name s).

(** The status with that user name was written. *)
Definition recorded (name : string) (tr : go_trace) : Prop :=
  exists o x, existT (P:=result) (CStatusUpdate KUser o) (inr x) ∈ tr /\
    UserStatus_Username (Status o) = name.

(** A user may be put on the broker: under a name that is not empty, that the
    status of the object holds, and that is the name of the object when the
    spec says so. *)
Definition put_allowed (u : User) (pre : go_trace) (name : string) (s : UserSettings) : Prop :=
  name <> "" /\ UserSettings_Name s = name /\
  (UserStatus_Username (Status u) = name \/ recorded name pre) /\
  (User_UsernameFromMeta (Spec u) = true -> name = Name (resource_ObjectMeta u)).

Definition puts_well (u : User) (tr : go_trace) : Prop :=
  guarded (fun pre e => forall name s, puts_user name s e -> put_allowed u pre name s) tr.

Definition no_put (e : event result) : Prop := forall name s, ~ puts_user name s e.

Lemma no_put_well u tr : Forall no_put tr -> puts_well u tr.
Proof.
  intros Hn. eapply guarded_forall; [exact Hn|]. intros pre e He name s Hp.
  by destruct (He name s).
Qed.

Ltac no_put := intros ? ? [? [=]].
Ltac all_no_put := repeat (cbv zeta; all_calls_step); no_put.

Lemma no_put_quiet e : quiet e -> no_put e.
Proof. intros Hq name s [c He]. unfold quiet in Hq. by rewrite He in Hq. Qed.

Lemma importCredentials_spec name ns :
  wp (importCredentials name ns) (fun tr out =>
    Forall no_put tr /\
    forall creds, out = Returned (inr creds) -> Creds_Username creds <> "").
Proof.
  unfold importCredentials. simpl. intros [e|sec]; simpl; [by repeat constructor; try no_put|].
  destruct (Data sec !! "username") as [[|a n]|]; simpl;
    (split; [repeat constructor; no_put|]); naive_solver.
Qed.

Lemma GenerateUserSettings_spec creds tags :
  wp (GenerateUserSettings creds tags) (fun tr out =>
    Forall no_put tr /\
    forall s, out = Returned (inr s) -> UserSettings_Name s = Creds_Username creds).
Proof.
  unfold GenerateUserSettings. case_bool_decide; simpl; [done|].
  destruct (Creds_PasswordHash creds); simpl; [naive_solver|].
  case_bool_decide; simpl; [done|]. intros h. split; [repeat constructor; no_put|naive_solver].
Qed.

Lemma setUserStatus_spec u name sec :
  wp (setUserStatus u name sec) (fun tr out =>
    Forall no_put tr /\ forall u', out = Returned (None, u') -> recorded name tr).
Proof.
  unfold setUserStatus. simpl. intros [e|u']; simpl;
    (split; [repeat constructor; no_put|]); [done|].
  intros _ _. eexists _, _. split; [apply list_elem_of_here|done].
Qed.

Lemma putUser_spec c u name s :
  wp (putUser c u name s) (fun tr out => exists e tr', tr = e :: tr' /\ Forall no_put tr' /\
    forall n s', puts_user n s' e -> n = UserSettings_Name s /\ s' = s).
Proof.
  unfold putUser. apply wp_bind. intros x.
  assert (Hrest : forall p : go (option error * User), all_calls no_put p ->
    wp p (fun tr _ => exists e tr', [existT (P:=result) (Rmq c (PutUser (UserSettings_Name s) s)) x] ++ tr
       = e :: tr' /\ Forall no_put tr' /\
       forall n s', puts_user n s' e -> n = UserSettings_Name s /\ s' = s)).
  { intros p Hp. eapply wp_mono; [exact Hp|]. simpl. intros tr _ Htr. do 2 eexists.
    split; [done|]. split; [done|]. by intros n s' [c' [= _ -> ->]]. }
  apply Hrest. unfold ConditionOps.PasswordSynced, ConditionOps.lastTransitionTime,
    reconcileUserLimits, getUserLimits. all_no_put.
Qed.

(** The common end of the two declarations. *)
Lemma finish_spec c (u u' : User) tr0 creds tags name errf :
  Forall no_put tr0 -> Creds_Username creds = name -> name <> "" ->
  (UserStatus_Username (Status u) = name \/ recorded name tr0) ->
  (User_UsernameFromMeta (Spec u) = true -> name = Name (resource_ObjectMeta u)) ->
  wp (bind (GenerateUserSettings creds tags) (fun settings =>
        match settings with
        | inl e => Ret (Some (errf e), u')
        | inr s => putUser c u' name s
        end)) (fun tr _ => puts_well u (tr0 ++ tr)).
Proof.
  intros Hn0 Hname Hne Hrec Hmeta.
  eapply wp_cut; [apply GenerateUserSettings_spec|..].
  - intros tr1 [e|s] [Hn Hs].
    + simpl. apply no_put_well. rewrite app_nil_r. by apply Forall_app.
    + specialize (Hs s eq_refl). eapply wp_mono; [apply putUser_spec|]. simpl.
      intros tr2 _ (e & tr' & -> & Hn' & Hput).
      rewrite app_assoc. apply guarded_app. split; [by apply no_put_well, Forall_app|].
      simpl. split.
      * intros n s' [-> ->]%Hput. rewrite Hs, Hname, app_nil_r. split; [done|]. split; [congruence|].
        split; [|done].
        destruct Hrec as [?|(o & x & Hin & Ho)]; [by left|right]. exists o, x.
        split; [set_solver|done].
      * eapply guarded_forall; [exact Hn'|]. intros pre e' He' n s' Hp. by destruct (He' n s').
  - intros tr1 w [Hn _]. by apply no_put_well, Forall_app.
Qed.

(** The status is brought up to date before the user is put. *)
Lemma sync_status_spec (u : User) name sec (outdated : bool) :
  (outdated = false -> UserStatus_Username (Status u) = name) ->
  wp (if outdated then setUserStatus u name sec else Ret (None, u)) (fun tr out =>
    Forall no_put tr /\
    forall u', out = Returned (None, u') ->
      UserStatus_Username (Status u) = name \/ recorded name tr).
Proof.
  intros Hout. destruct outdated; [|simpl; auto].
  eapply wp_mono; [apply setUserStatus_spec|]. naive_solver.
Qed.

Lemma imported_puts_well c (u : User) ref :
  User_UsernameFromMeta (Spec u) = false ->
  wp (declareWithImportedCredentials c u ref) (fun tr _ => puts_well u tr).
Proof.
  intros Hmeta. unfold declareWithImportedCredentials.
  eapply wp_cut; [apply importCredentials_spec|..]; [|intros tr w [Hn _]; by apply no_put_well].
  intros tr0 [e|creds] [Hn0 Hne]; [simpl; rewrite app_nil_r; by apply no_put_well|].
  specialize (Hne creds eq_refl). destruct (_ && _); [simpl; rewrite app_nil_r; by apply no_put_well|].
  eapply wp_cut; [apply (sync_status_spec u (Creds_Username creds))|..].
  - intros [_ Hf%negb_false_iff]%orb_false_iff. by apply bool_decide_eq_true in Hf.
  - intros tr1 [[e|] u1] [Hn1 Hrec].
    + simpl. rewrite app_nil_r. by apply no_put_well, Forall_app.
    + specialize (Hrec u1 eq_refl).
      eapply wp_mono; [apply (finish_spec c u u1 (tr0 ++ tr1))|].
      * by apply Forall_app.
      * done.
      * done.
      * destruct Hrec as [?|(o & x & Hin & Ho)]; [by left|right]. exists o, x.
        split; [set_solver|done].
      * by rewrite Hmeta.
      * simpl. intros tr2 _ Hp. by rewrite app_assoc.
  - intros tr1 w [Hn1 _]. by apply no_put_well, Forall_app.
Qed.

Lemma generated_puts_well c (u : User) :
  wp (declareWithGeneratedCredentials c u) (fun tr _ => puts_well u tr).
Proof.
  unfold declareWithGeneratedCredentials.
  assert (Hdecl : all_calls no_put (declareCredentials u)).
  { unfold declareCredentials, generateCredentials, RandomEncodedString. all_no_put. }
  eapply wp_cut; [exact Hdecl|..]; [|intros tr w Hn; by apply no_put_well].
  intros tr0 [e|_] Hn0; [simpl; rewrite app_nil_r; by apply no_put_well|].
  assert (Hget : all_calls no_put (getUserCredentials u)).
  { unfold getUserCredentials. all_no_put. }
  eapply wp_cut; [exact Hget|..]; [|intros tr w Hn; by apply no_put_well, Forall_app].
  intros tr1 [e|sec] Hn1; [simpl; rewrite app_nil_r; by apply no_put_well, Forall_app|].
  cbv zeta. set (name := deref (Data sec !! "username") "").
  case_bool_decide as Hne; [simpl; rewrite app_nil_r; by apply no_put_well, Forall_app|].
  destruct (User_UsernameFromMeta (Spec u) && _) eqn:Hm;
    [simpl; rewrite app_nil_r; by apply no_put_well, Forall_app|].
  eapply wp_cut; [apply (sync_status_spec u name)|..].
  - intros [_ Hf%negb_false_iff]%orb_false_iff. by apply bool_decide_eq_true in Hf.
  - intros tr2 [[e|] u1] [Hn2 Hrec].
    + simpl. rewrite app_nil_r. apply no_put_well. by rewrite !Forall_app.
    + specialize (Hrec u1 eq_refl).
      eapply wp_mono; [apply (finish_spec c u u1 (tr0 ++ tr1 ++ tr2) _ _ name)|].
      * by rewrite !Forall_app.
      * done.
      * done.
      * destruct Hrec as [?|(o & x & Hin & Ho)]; [by left|right]. exists o, x.
        split; [set_solver|done].
      * intros Ht. rewrite Ht in Hm. by apply negb_false_iff, bool_decide_eq_true in Hm.
      * simpl. intros tr3 _ Hp. by rewrite <- !app_assoc in Hp.
  - intros tr2 w [Hn2 _]. apply no_put_well. by rewrite !Forall_app.
Qed.

(** DeleteFunc of a user whose status holds a name deletes the user of that name. *)
Lemma User_DeleteFunc_deletes c (u : User) tr out :
  UserStatus_Username (Status u) <> "" -> exec (User_DeleteFunc c u) tr out ->
  rmq_calls tr = [DeleteUser (UserStatus_Username (Status u))].
Proof.
  intros Hne. unfold User_DeleteFunc. rewrite bool_decide_eq_false_2 by done.
  unfold deleteCall. revert tr out. apply (wp_exec _ (fun tr _ => rmq_calls tr = _)).
  simpl. intros x. by repeat case_match.
Qed.

(** A declaration deletes no user: when the secret of an imported user gets another
    name, the user of the earlier name stays, and the status forgets it. *)
Lemma User_DeclareFunc_deletes_none c (u : User) :
  all_calls (fun e => forall c' name, projT1 e <> Rmq c' (DeleteUser name)) (User_DeclareFunc c u).
Proof.
  unfold User_DeclareFunc, declareWithImportedCredentials, declareWithGeneratedCredentials,
    importCredentials, declareCredentials, generateCredentials, RandomEncodedString,
    getUserCredentials, setUserStatus, putUser, GenerateUserSettings, ConditionOps.PasswordSynced,
    ConditionOps.lastTransitionTime, reconcileUserLimits, getUserLimits.
  repeat (cbv zeta; all_calls_step); done.
Qed.

(** C14: PutUser is called only with a name, not empty, that the status of the
    user holds, either since it was read or by a status update accepted earlier in
    the same run, and that is the name of the object when usernameFromMeta is set;
    and DeleteFunc of a user whose status holds this name, which is so as long as
    no later update of the status replaces it, makes one call of the broker: it
    deletes the user of this name. *)
Theorem user_put_recorded c (u : User) tr1 e tr2 out name s :
  exec (User_DeclareFunc c u) (tr1 ++ e :: tr2) out -> puts_user name s e ->
  put_allowed u tr1 name s /\
  forall c' (u' : User) tr' out', UserStatus_Username (Status u') = name ->
    exec (User_DeleteFunc c' u') tr' out' -> rmq_calls tr' = [DeleteUser name].
Proof.
  intros Hx Hp. enough (Hput : put_allowed u tr1 name s).
  { split; [exact Hput|]. intros c' u' tr' out' <- Hd. destruct Hput as [Hne _].
    by eapply User_DeleteFunc_deletes. }
  assert (Hw : wp (User_DeclareFunc c u) (fun tr _ => puts_well u tr)).
  { unfold User_DeclareFunc. destruct (User_ImportCredentialsSecret (Spec u)).
    - destruct (User_UsernameFromMeta (Spec u)) eqn:E; [done|by apply imported_puts_well].
    - apply generated_puts_well. }
  apply (proj1 (wp_exec _ _) Hw) in Hx. by eapply (proj1 (guarded_spec _ _) Hx).
Qed.
End users.

(** ** Queues *)

Section queues.
Context `{Libs}.

(** The broker told [info] about the queue of the object. *)
Definition queue_info (q : Queue) (info : DetailedQueueInfo) (tr : go_trace) : Prop :=
  exists c, existT (P:=result)
    (Rmq c (GetQueue (Queue_Vhost (Spec q)) (Queue_Name (Spec q)))) (inr info) ∈ tr.

Definition deletes_queue (v n : string) (opts : QueueDeleteOptions) (e : event result) : Prop :=
  exists c, projT1 e = Rmq c (DeleteQueue v n opts).

(** The conditions on the deletion of a queue are checked: for a quorum queue,
    which the broker deletes unconditionally, by looking at the queue before; for
    another queue by the broker itself, which gets them as options. *)
Definition conditions_checked (q : Queue) (pre : go_trace) (opts : QueueDeleteOptions) : Prop :=
  if bool_decide (Queue_Type (Spec q) = "quorum") then
    (Queue_DeleteIfEmpty (Spec q) = true ->
       exists info, queue_info q info pre /\ (Messages info <= 0)%Z) /\
    (Queue_DeleteIfUnused (Spec q) = true ->
       exists info, queue_info q info pre /\ (Consumers info <= 0)%Z)
  else
    IfEmpty opts = Queue_DeleteIfEmpty (Spec q) /\
    IfUnused opts = Queue_DeleteIfUnused (Spec q).

Lemma quorumGuard_spec c q :
  wp (quorumGuard c q) (fun tr out =>
    Forall (fun e => forall v n o, ~ deletes_queue v n o e) tr /\
    (out = Returned None -> Queue_Type (Spec q) = "quorum" ->
     (Queue_DeleteIfEmpty (Spec q) = true ->
        exists info, queue_info q info tr /\ (Messages info <= 0)%Z) /\
     (Queue_DeleteIfUnused (Spec q) = true ->
        exists info, queue_info q info tr /\ (Consumers info <= 0)%Z))).
Proof.
  unfold quorumGuard. case_bool_decide as Ht; simpl; [|done].
  destruct (Queue_DeleteIfEmpty (Spec q)) eqn:Ee, (Queue_DeleteIfUnused (Spec q)) eqn:Eu;
    simpl; try done.
  all: intros [e|info]; simpl;
    [split; [constructor; [by intros ? ? ? [? [=]]|constructor]|done]|].
  all: destruct (Z.ltb_spec 0 (Messages info)), (Z.ltb_spec 0 (Consumers info)); simpl.
  all: split; [constructor; [by intros ? ? ? [? [=]]|constructor]|].
  all: try by intros [=].
  all: intros _ _; split; try done; intros _; exists info; (split; [|done]).
  all: by eexists; apply list_elem_of_here.
Qed.

(** C18: DeleteQueue is called only on the queue of the spec, never with policy
    retain, and for a quorum queue with ifEmpty or ifUnused only after the broker
    reported no messages or no consumers. *)
Theorem queue_deletion_guarded c q tr1 e tr2 out v n opts :
  exec (Queue_DeleteFunc c q) (tr1 ++ e :: tr2) out -> deletes_queue v n opts e ->
  v = Queue_Vhost (Spec q) /\ n = Queue_Name (Spec q) /\
  Queue_DeletionPolicy (Spec q) <> "retain" /\ conditions_checked q tr1 opts.
Proof.
  intros Hx Hdel.
  cut (wp (Queue_DeleteFunc c q) (fun tr _ => guarded (fun pre e =>
    forall v n opts, deletes_queue v n opts e ->
      v = Queue_Vhost (Spec q) /\ n = Queue_Name (Spec q) /\
      Queue_DeletionPolicy (Spec q) <> "retain" /\ conditions_checked q pre opts) tr)).
  { intros Hw. apply (proj1 (wp_exec _ _) Hw) in Hx.
    by eapply (proj1 (guarded_spec _ _) Hx). }
  clear. unfold Queue_DeleteFunc, shouldSkipDeletion. case_bool_decide as Hp; [done|].
  simpl. eapply wp_cut; [apply quorumGuard_spec|..].
  - intros tr [e|] [Hn Hok].
    + simpl. rewrite app_nil_r. eapply guarded_forall; [exact Hn|]. naive_solver.
    + simpl. intros x. apply guarded_app. split.
      { eapply guarded_forall; [exact Hn|]. naive_solver. }
      simpl. split; [|done]. rewrite app_nil_r. intros v n opts [c' [= <- <- <- <-]].
      split; [done|]. split; [done|]. split; [done|]. unfold conditions_checked.
      case_bool_decide as Ht; [by apply Hok|done].
  - intros tr w [Hn _]. eapply guarded_forall; [exact Hn|]. naive_solver.
Qed.

(** A successful declaration of a queue is one accepted call with the type,
    durability, auto-delete and decoded arguments of the spec. *)
Lemma queue_declared c q tr q' :
  exec (Queue_DeclareFunc c q) tr (Returned (None, q')) ->
  exists args x, accepted x /\ q' = q /\
    tr = [existT (P:=result) (Rmq c (DeclareQueue (Queue_Vhost (Spec q)) (Queue_Name (Spec q))
            (mkQueueSettings (Queue_Type (Spec q)) (deref (Queue_Durable (Spec q)) false)
               (Queue_AutoDelete (Spec q)) args))) x] /\
    match Queue_Arguments (Spec q) with
    | None => args = Some []
    | Some raw => json_Unmarshal (raw_bytes raw) = inr args
    end.
Proof.
  unfold Queue_DeclareFunc, GenerateQueueSettings, unmarshal_arguments.
  destruct (Queue_Arguments (Spec q)) as [raw|]; simpl.
  - destruct (json_Unmarshal (raw_bytes raw)) as [e|args]; simpl; [by intros [_ [=]]|].
    intros (x & tr' & -> & -> & [= Hx <-]). exists args, x. by rewrite <- validateResponse_ok.
  - intros (x & tr' & -> & -> & [= Hx <-]). eexists _, x. by rewrite <- validateResponse_ok.
Qed.
End queues.
