(* ===== verification/Webhooks.v ===== *)
(** * Admission (internal/webhook/v1beta1, internal/webhook/v1alpha1)

    The validators of the custom resources.  A validator that reads secrets is a
    program; the others are functions.  [None] admits the object. *)

From S2P Require Import Prelude.
From S2P Require Import GoStrings.
From S2P Require Import GoErrors.
From S2P Require Import Prog.
From S2P Require Import Api.
From S2P Require Import Values.
From S2P Require Import World.
From S2P Require Import Resources.
Import ProgNotations.
Open Scope go_scope.

(** ** Rejections *)

Record field_error := mkFieldError { field_path : string; field_detail : string }.

Inductive rejection :=
  (* apierrors.NewForbidden with one field *)
| Forbidden (f : field_error)
  (* field.ErrorList.ToAggregate *)
| Aggregate (fs : list field_error)
  (* apierrors.NewInvalid *)
| Invalid (kind : string) (fs : list field_error)
  (* field.Required, returned as it is *)
| Required (f : field_error)
  (* apierrors.NewInternalError *)
| InternalError (text : string)
  (* any other error *)
| Rejected (e : error).

(** One guard after the other: the first rejection is the answer. *)
Definition reject_if (b : bool) (r : rejection) (rest : option rejection) : option rejection :=
  if b then Some r else rest.

Definition aggregate (allErrs : list field_error) : option rejection :=
  match allErrs with [] => None | _ :: _ => Some (Aggregate allErrs) end.

Definition invalid_if (b : bool) (path detail : string) : list field_error :=
  if b then [mkFieldError path detail] else [].

Definition differ {A} `{EqDecision A} (x y : A) : bool := negb (bool_decide (x = y)).

Definition vhost_path : string := "spec.vhost".
Definition name_path : string := "spec.name".
Definition ref_path : string := "spec.rabbitmqClusterReference".

(** ** label_validation.go

    The guard on a nil client is left out: the set-up of a webhook gives it the
    client of the manager. *)

Definition validateSecretLabel (ref : option LocalObjectReference) (ns : string) :
    go (option rejection) :=
  match ref with
  | None => Ret None
  | Some ref =>
      let name := LocalObjectReference_Name ref in
      got <- act (CGet KSecret (mkNamespacedName ns name));;
      match got with
      | inr _ => Ret None
      | inl e =>
          if negb (IsNotFound e) then Ret (Some (Rejected (ErrAPI e)))
          else
            uncached <- act (AGet KSecret (mkNamespacedName ns name));;
            match uncached with
            | inr _ =>
                Ret (Some (Rejected (ErrText ("secret " +:+ quoted name +:+ " must have label " +:+
                  TopologyOperatorLabel +:+ "=" +:+ TopologyOperatorLabelValue +:+
                  " to be used by the Topology Operator"))))
            | inl _ =>
                Ret (Some (Rejected (ErrText ("secret " +:+ quoted name +:+ " not found in namespace "
                  +:+ quoted ns))))
            end
      end
  end.

(** Guards one after the other, with calls. *)
Definition andThen (p q : go (option rejection)) : go (option rejection) :=
  r <- p;; match r with Some r => Ret (Some r) | None => q end.

Definition validateOnCreate (ref : RabbitmqClusterReference) : option rejection :=
  match ClusterReference.ValidateOnCreate ref with
  | Some e => Some (Rejected e)
  | None => None
  end.

(** The end of every [ValidateCreate] of api/v1beta1: the connection secret has
    the label, and the reference is well formed. *)
Definition validateReferenceOnCreate (ref : RabbitmqClusterReference) (ns : string) :
    go (option rejection) :=
  andThen (validateSecretLabel (Ref_ConnectionSecret ref)
             (ClusterReference.ConnectionSecretNamespace ref ns))
    (Ret (validateOnCreate ref)).

Notation ns_of o := (Namespace (resource_ObjectMeta o)).

(** ** binding_webhook.go *)

Definition Binding_ValidateCreate (obj : Binding) : go (option rejection) :=
  validateReferenceOnCreate (Binding_RabbitmqClusterReference (Spec obj)) (ns_of obj).

Definition Binding_ValidateUpdate (oldObj newObj : Binding) : option rejection :=
  let detailMsg := "updates on vhost and rabbitmqClusterReference are all forbidden" in
  let o := Spec oldObj in let n := Spec newObj in
  reject_if (differ (Binding_Vhost n) (Binding_Vhost o))
    (Forbidden (mkFieldError vhost_path detailMsg)) (
  reject_if (negb (ClusterReference.Matches (Binding_RabbitmqClusterReference o)
                     (Binding_RabbitmqClusterReference n)))
    (Forbidden (mkFieldError ref_path detailMsg)) (
  aggregate (
    invalid_if (differ (Binding_Source n) (Binding_Source o))
      "spec.source" "source cannot be updated" ++
    invalid_if (differ (Binding_Destination n) (Binding_Destination o))
      "spec.destination" "destination cannot be updated" ++
    invalid_if (differ (Binding_DestinationType n) (Binding_DestinationType o))
      "spec.destinationType" "destinationType cannot be updated" ++
    invalid_if (differ (Binding_RoutingKey n) (Binding_RoutingKey o))
      "spec.routingKey" "routingKey cannot be updated" ++
    invalid_if (differ (Binding_Arguments n) (Binding_Arguments o))
      "spec.arguments" "arguments cannot be updated"))).

(** ** exchange_webhook.go *)

Definition Exchange_ValidateCreate (ex : Exchange) : go (option rejection) :=
  validateReferenceOnCreate (Exchange_RabbitmqClusterReference (Spec ex)) (ns_of ex).

Definition Exchange_ValidateUpdate (oldExchange newExchange : Exchange) : option rejection :=
  let detailMsg := "updates on name, vhost, and rabbitmqClusterReference are all forbidden" in
  let o := Spec oldExchange in let n := Spec newExchange in
  reject_if (differ (Exchange_Name n) (Exchange_Name o))
    (Forbidden (mkFieldError name_path detailMsg)) (
  reject_if (differ (Exchange_Vhost n) (Exchange_Vhost o))
    (Forbidden (mkFieldError vhost_path detailMsg)) (
  reject_if (negb (ClusterReference.Matches (Exchange_RabbitmqClusterReference o)
                     (Exchange_RabbitmqClusterReference n)))
    (Forbidden (mkFieldError ref_path detailMsg)) (
  aggregate (
    invalid_if (differ (Exchange_Type n) (Exchange_Type o))
      "spec.type" "exchange type cannot be updated" ++
    invalid_if (differ (Exchange_AutoDelete n) (Exchange_AutoDelete o))
      "spec.autoDelete" "autoDelete cannot be updated" ++
    invalid_if (differ (Exchange_Durable n) (Exchange_Durable o))
      "spec.durable" "durable cannot be updated")))).

(** The three guards that federations, policies, operator policies and shovels
    share: the name, the vhost, the reference. *)
Definition identityGuards (detailMsg oldName newName oldVhost newVhost : string)
    (oldRef newRef : RabbitmqClusterReference) (rest : option rejection) : option rejection :=
  reject_if (differ newName oldName) (Forbidden (mkFieldError name_path detailMsg)) (
  reject_if (differ newVhost oldVhost) (Forbidden (mkFieldError vhost_path detailMsg)) (
  reject_if (negb (ClusterReference.Matches oldRef newRef))
    (Forbidden (mkFieldError ref_path detailMsg)) rest)).

(** ** policy_webhook.go and operatorpolicy_webhook.go *)

Definition Policy_ValidateCreate (policy : Policy) : go (option rejection) :=
  validateReferenceOnCreate (Policy_RabbitmqClusterReference (Spec policy)) (ns_of policy).

Definition Policy_ValidateUpdate (oldPolicy newPolicy : Policy) : option rejection :=
  identityGuards "updates on name, vhost and rabbitmqClusterReference are all forbidden"
    (Policy_Name (Spec oldPolicy)) (Policy_Name (Spec newPolicy))
    (Policy_Vhost (Spec oldPolicy)) (Policy_Vhost (Spec newPolicy))
    (Policy_RabbitmqClusterReference (Spec oldPolicy))
    (Policy_RabbitmqClusterReference (Spec newPolicy)) None.

Definition OperatorPolicy_ValidateCreate (obj : OperatorPolicy) : go (option rejection) :=
  validateReferenceOnCreate (OperatorPolicy_RabbitmqClusterReference (Spec obj)) (ns_of obj).

Definition OperatorPolicy_ValidateUpdate (oldObj newObj : OperatorPolicy) : option rejection :=
  identityGuards "updates on name, vhost and rabbitmqClusterReference are all forbidden"
    (OperatorPolicy_Name (Spec oldObj)) (OperatorPolicy_Name (Spec newObj))
    (OperatorPolicy_Vhost (Spec oldObj)) (OperatorPolicy_Vhost (Spec newObj))
    (OperatorPolicy_RabbitmqClusterReference (Spec oldObj))
    (OperatorPolicy_RabbitmqClusterReference (Spec newObj)) None.

(** ** federation_webhook.go *)

Definition Federation_ValidateCreate (fed : Federation) : go (option rejection) :=
  andThen (validateSecretLabel (Federation_UriSecret (Spec fed)) (ns_of fed))
    (validateReferenceOnCreate (Federation_RabbitmqClusterReference (Spec fed)) (ns_of fed)).

Definition Federation_ValidateUpdate (oldFederation newFederation : Federation) :
    go (option rejection) :=
  andThen
    (Ret (identityGuards "updates on name, vhost and rabbitmqClusterReference are all forbidden"
       (Federation_Name (Spec oldFederation)) (Federation_Name (Spec newFederation))
       (Federation_Vhost (Spec oldFederation)) (Federation_Vhost (Spec newFederation))
       (Federation_RabbitmqClusterReference (Spec oldFederation))
       (Federation_RabbitmqClusterReference (Spec newFederation)) None))
    (validateSecretLabel (Federation_UriSecret (Spec newFederation)) (ns_of newFederation)).

(** ** shovel_webhook.go *)

Definition amqp10Validate (s : Shovel) : option rejection :=
  reject_if (bool_decide (Shovel_SourceProtocol (Spec s) = "amqp10") &&
             bool_decide (Shovel_SourceAddress (Spec s) = ""))
    (Required (mkFieldError "spec.srcAddress"
       "must specify spec.srcAddress when spec.srcProtocol is amqp10")) (
  reject_if (bool_decide (Shovel_DestinationProtocol (Spec s) = "amqp10") &&
             bool_decide (Shovel_DestinationAddress (Spec s) = ""))
    (Required (mkFieldError "spec.destAddress"
       "must specify spec.destAddress when spec.destProtocol is amqp10")) None).

Definition Shovel_ValidateCreate (obj : Shovel) : go (option rejection) :=
  andThen (Ret (amqp10Validate obj)) (
  andThen (validateSecretLabel (Shovel_UriSecret (Spec obj)) (ns_of obj))
    (validateReferenceOnCreate (Shovel_RabbitmqClusterReference (Spec obj)) (ns_of obj))).

Definition Shovel_ValidateUpdate (oldObj newObj : Shovel) : go (option rejection) :=
  andThen (Ret (amqp10Validate newObj)) (
  andThen
    (Ret (identityGuards "updates on name, vhost and rabbitmqClusterReference are all forbidden"
       (Shovel_Name (Spec oldObj)) (Shovel_Name (Spec newObj))
       (Shovel_Vhost (Spec oldObj)) (Shovel_Vhost (Spec newObj))
       (Shovel_RabbitmqClusterReference (Spec oldObj))
       (Shovel_RabbitmqClusterReference (Spec newObj)) None))
    (validateSecretLabel (Shovel_UriSecret (Spec newObj)) (ns_of newObj))).

(** ** schemareplication_webhook.go *)

Definition validateSecret (sch : SchemaReplication) : option rejection :=
  match SecretBackend_Vault (SchemaReplication_SecretBackend (Spec sch)) with
  | None => None
  | Some vault =>
      reject_if (bool_decide (VaultSpec_SecretPath vault = ""))
        (Required (mkFieldError "spec.secretBackend.vault.secretPath"
           "must specify secretBackend.vault.secretPath when secretBackend.vault is set")) (
      reject_if (bool_decide (SchemaReplication_Endpoints (Spec sch) = ""))
        (Required (mkFieldError "spec.endpoints"
           "endpoints must be set when secretBackend.vault is set")) None)
  end.

Definition SchemaReplication_ValidateCreate (obj : SchemaReplication) : go (option rejection) :=
  andThen (Ret (validateSecret obj)) (
  andThen (validateSecretLabel (SchemaReplication_UpstreamSecret (Spec obj)) (ns_of obj))
    (validateReferenceOnCreate (SchemaReplication_RabbitmqClusterReference (Spec obj)) (ns_of obj))).

Definition SchemaReplication_ValidateUpdate (oldObj newObj : SchemaReplication) :
    go (option rejection) :=
  andThen (Ret (validateSecret newObj)) (
  andThen
    (Ret (reject_if (negb (ClusterReference.Matches
              (SchemaReplication_RabbitmqClusterReference (Spec oldObj))
              (SchemaReplication_RabbitmqClusterReference (Spec newObj))))
       (Forbidden (mkFieldError ref_path "update on rabbitmqClusterReference is forbidden")) None))
    (validateSecretLabel (SchemaReplication_UpstreamSecret (Spec newObj)) (ns_of newObj))).

(** ** vhost_webhook.go *)

Definition Vhost_ValidateCreate (vhost : Vhost) : go (option rejection) :=
  validateReferenceOnCreate (Vhost_RabbitmqClusterReference (Spec vhost)) (ns_of vhost).

Definition Vhost_ValidateUpdate (oldVhost newVhost : Vhost) : option rejection :=
  let detailMsg := "updates on name and rabbitmqClusterReference are all forbidden" in
  reject_if (differ (Vhost_Name (Spec newVhost)) (Vhost_Name (Spec oldVhost)))
    (Forbidden (mkFieldError name_path detailMsg)) (
  reject_if (negb (ClusterReference.Matches (Vhost_RabbitmqClusterReference (Spec oldVhost))
                     (Vhost_RabbitmqClusterReference (Spec newVhost))))
    (Forbidden (mkFieldError ref_path detailMsg)) None).

(** ** user_webhook.go *)

Definition validateUsernameFromMeta (user : User) : option rejection :=
  reject_if (User_UsernameFromMeta (Spec user) &&
             bool_decide (is_Some (User_ImportCredentialsSecret (Spec user))))
    (Forbidden (mkFieldError "spec.usernameFromMeta"
       "usernameFromMeta cannot be set together with spec.importCredentialsSecret")) None.

Definition User_ValidateCreate (user : User) : go (option rejection) :=
  andThen (Ret (validateUsernameFromMeta user)) (
  andThen (validateSecretLabel (User_ImportCredentialsSecret (Spec user)) (ns_of user))
    (validateReferenceOnCreate (User_RabbitmqClusterReference (Spec user)) (ns_of user))).

Definition User_ValidateUpdate (oldUser newUser : User) : go (option rejection) :=
  andThen
    (Ret (reject_if (negb (ClusterReference.Matches (User_RabbitmqClusterReference (Spec oldUser))
                             (User_RabbitmqClusterReference (Spec newUser))))
       (Forbidden (mkFieldError ref_path "update on rabbitmqClusterReference is forbidden")) None))
    (match DeletionTimestamp (resource_ObjectMeta newUser) with
     | None =>
         andThen (Ret (validateUsernameFromMeta newUser))
           (validateSecretLabel (User_ImportCredentialsSecret (Spec newUser)) (ns_of newUser))
     | Some _ => Ret None
     end).

(** ** permission_webhook.go and topicpermission_webhook.go *)

Definition user_path : string := "spec.user and userReference".

Definition noUser : field_error :=
  mkFieldError user_path "must specify either spec.user or spec.userReference".
Definition twoUsers : field_error :=
  mkFieldError user_path "cannot specify spec.user and spec.userReference at the same time".

Definition userReferenceUpdated (new old : option LocalObjectReference) : bool :=
  match new, old with
  | None, None => false
  | None, Some _ | Some _, None => true
  | Some new, Some old =>
      negb (bool_decide (LocalObjectReference_Name new = LocalObjectReference_Name old))
  end.

(** Exactly one of a user name and a user reference. *)
Definition userGuards (user : string) (ref : option LocalObjectReference)
    (wrap : field_error -> rejection) (rest : option rejection) : option rejection :=
  reject_if (bool_decide (user = "") && bool_decide (ref = None)) (wrap noUser) (
  reject_if (negb (bool_decide (user = "")) && bool_decide (is_Some ref)) (wrap twoUsers) rest).

Definition Permission_ValidateCreate (obj : Permission) : go (option rejection) :=
  andThen (Ret (userGuards (Permission_User (Spec obj)) (Permission_UserReference (Spec obj))
                  Required None))
    (validateReferenceOnCreate (Permission_RabbitmqClusterReference (Spec obj)) (ns_of obj)).

Definition Permission_ValidateUpdate (oldObj newObj : Permission) : option rejection :=
  let o := Spec oldObj in let n := Spec newObj in
  let detailMsg :=
    "updates on user, userReference, vhost and rabbitmqClusterReference are all forbidden" in
  userGuards (Permission_User n) (Permission_UserReference n)
    (fun f => Invalid "Permission" [f]) (
  reject_if (differ (Permission_User n) (Permission_User o))
    (Forbidden (mkFieldError "spec.user" detailMsg)) (
  reject_if (userReferenceUpdated (Permission_UserReference n) (Permission_UserReference o))
    (Forbidden (mkFieldError "spec.userReference" detailMsg)) (
  reject_if (differ (Permission_Vhost n) (Permission_Vhost o))
    (Forbidden (mkFieldError vhost_path detailMsg)) (
  reject_if (negb (ClusterReference.Matches (Permission_RabbitmqClusterReference o)
                     (Permission_RabbitmqClusterReference n)))
    (Forbidden (mkFieldError ref_path detailMsg)) None)))).

Definition TopicPermission_ValidateCreate (obj : TopicPermission) : go (option rejection) :=
  andThen (Ret (userGuards (TopicPermission_User (Spec obj))
                  (TopicPermission_UserReference (Spec obj)) Required None))
    (validateReferenceOnCreate (TopicPermission_RabbitmqClusterReference (Spec obj)) (ns_of obj)).

Definition TopicPermission_ValidateUpdate (oldObj newObj : TopicPermission) : option rejection :=
  let o := Spec oldObj in let n := Spec newObj in
  let detailMsg :=
    "updates on exchange, user, userReference, vhost and rabbitmqClusterReference are all forbidden" in
  userGuards (TopicPermission_User n) (TopicPermission_UserReference n)
    (fun f => Invalid "TopicPermission" [f]) (
  reject_if (differ (TopicPermissionConfig_Exchange (TopicPermission_Permissions n))
                    (TopicPermissionConfig_Exchange (TopicPermission_Permissions o)))
    (Forbidden (mkFieldError "spec.permissions.exchange" detailMsg)) (
  reject_if (differ (TopicPermission_User n) (TopicPermission_User o))
    (Forbidden (mkFieldError "spec.user" detailMsg)) (
  reject_if (userReferenceUpdated (TopicPermission_UserReference n)
               (TopicPermission_UserReference o))
    (Forbidden (mkFieldError "spec.userReference" detailMsg)) (
  reject_if (differ (TopicPermission_Vhost n) (TopicPermission_Vhost o))
    (Forbidden (mkFieldError vhost_path detailMsg)) (
  reject_if (negb (ClusterReference.Matches (TopicPermission_RabbitmqClusterReference o)
                     (TopicPermission_RabbitmqClusterReference n)))
    (Forbidden (mkFieldError ref_path detailMsg)) None))))).

(** ** queue_webhook.go and queue_defaulter_webhook.go *)

Section queue_webhook.
Context `{Libs}.

Definition Queue_ValidateCreate (inQueue : Queue) : go (option rejection) :=
  andThen
    (Ret (reject_if (bool_decide (Queue_Type (Spec inQueue) = "quorum") &&
                     negb (deref (Queue_Durable (Spec inQueue)) false))
       (Forbidden (mkFieldError "spec.durable" "Quorum queues must have durable set to true"))
       None))
    (validateReferenceOnCreate (Queue_RabbitmqClusterReference (Spec inQueue)) (ns_of inQueue)).

Definition argumentsError : field_error :=
  mkFieldError "spec.arguments" "queue arguments cannot be updated".

(** The comparison of the arguments: an answer or an early return.
    [maps.Equal] compares values with [==], which panics on maps and lists. *)
Definition argumentsUpdated (old new : option RawExtension) :
    go (rejection + list field_error) :=
  match old, new with
  | None, None => Ret (inr [])
  | Some _, None | None, Some _ => Ret (inr [argumentsError])
  | Some old, Some new =>
      match json_Unmarshal (raw_bytes old) with
      | inl e => Ret (inl (InternalError ("error unmarshalling previous Queue arguments: " +:+ e)))
      | inr previousArgs =>
          match json_Unmarshal (raw_bytes new) with
          | inl e => Ret (inl (InternalError ("error unmarshalling current Queue arguments: " +:+ e)))
          | inr updatedArgs =>
              match maps_Equal previousArgs updatedArgs with
              | None => Panic "comparing uncomparable type"
              | Some true => Ret (inr [])
              | Some false => Ret (inr [argumentsError])
              end
          end
      end
  end.

Definition Queue_ValidateUpdate (oldQueue newQueue : Queue) : go (option rejection) :=
  let o := Spec oldQueue in let n := Spec newQueue in
  andThen
    (Ret (identityGuards "updates on name, vhost, and rabbitmqClusterReference are all forbidden"
       (Queue_Name o) (Queue_Name n) (Queue_Vhost o) (Queue_Vhost n)
       (Queue_RabbitmqClusterReference o) (Queue_RabbitmqClusterReference n) None))
    (let allErrs :=
       invalid_if (differ (Queue_Type n) (Queue_Type o))
         "spec.type" "queue type cannot be updated" ++
       invalid_if (differ (Queue_AutoDelete n) (Queue_AutoDelete o))
         "spec.autoDelete" "autoDelete cannot be updated" ++
       invalid_if (differ (deref (Queue_Durable n) false) (deref (Queue_Durable o) false))
         "spec.durable" "durable cannot be updated" in
     args <- argumentsUpdated (Queue_Arguments o) (Queue_Arguments n);;
     match args with
     | inl r => Ret (Some r)
     | inr errs => Ret (aggregate (allErrs ++ errs))
     end).

(** The mutating webhook, on creation. *)
Definition Queue_Default (obj : Queue) : Queue :=
  let s := Spec obj in
  match Queue_Durable s with
  | Some _ => obj
  | None =>
      set_Spec (mkQueueSpec (Queue_Name s) (Queue_Vhost s) (Queue_Type s) (Some true)
        (Queue_AutoDelete s) (Queue_DeleteIfEmpty s) (Queue_DeleteIfUnused s)
        (Queue_Arguments s) (Queue_RabbitmqClusterReference s) (Queue_DeletionPolicy s)) obj
  end.
End queue_webhook.

(** ** v1alpha1/superstream_webhook.go *)

(** [new\[i\]] panics when [new] is shorter; [None] is the panic. *)
Fixpoint sameKeys (old new : list string) : option bool :=
  match old, new with
  | [], _ => Some true
  | _ :: _, [] => None
  | o :: old, n :: new => if negb (bool_decide (o = n)) then Some false else sameKeys old new
  end.

Definition routingKeyUpdatePermitted (old new : list string) : option bool :=
  if bool_decide (old = []) && negb (bool_decide (new = [])) then Some false
  else sameKeys old new.

Definition SuperStream_ValidateCreate (obj : SuperStream) : option rejection :=
  validateOnCreate (SuperStream_RabbitmqClusterReference (Spec obj)).

Definition SuperStream_ValidateUpdate (oldObj newObj : SuperStream) : go (option rejection) :=
  let o := Spec oldObj in let n := Spec newObj in
  andThen
    (Ret (identityGuards "updates on name, vhost and rabbitmqClusterReference are all forbidden"
       (SuperStream_Name o) (SuperStream_Name n) (SuperStream_Vhost o) (SuperStream_Vhost n)
       (SuperStream_RabbitmqClusterReference o) (SuperStream_RabbitmqClusterReference n) None))
    (match routingKeyUpdatePermitted (SuperStream_RoutingKeys o) (SuperStream_RoutingKeys n) with
     | None => Panic "index out of range"
     | Some false =>
         Ret (Some (Forbidden (mkFieldError "spec.routingKeys"
           "updates may only add to the existing list of routing keys")))
     | Some true =>
         Ret (reject_if (Z.ltb (SuperStream_Partitions n) (SuperStream_Partitions o))
           (Forbidden (mkFieldError "spec.partitions"
              "updates may only increase the partition count, and may not decrease it")) None)
     end).
