(* ===== verification/WebhookProofs.v ===== *)
(** * What admission guarantees to the controllers *)

From S2P Require Import Prelude.
From S2P Require Import GoStrings.
From S2P Require Import GoErrors.
From S2P Require Import Prog.
From S2P Require Import Api.
From S2P Require Import Values.
From S2P Require Import World.
From S2P Require Import Resources.
From S2P Require Import Settings.
From S2P Require Import Utils.
From S2P Require Import Traces.
From S2P Require Import TopologyReconciler.
From S2P Require Import Controllers.
From S2P Require Import PermissionControllers.
From S2P Require Import UserController.
From S2P Require Import ControllerTheorems.
From S2P Require Import Webhooks.

(** ** Guards *)

Lemma reject_if_None b r rest : reject_if b r rest = None <-> b = false /\ rest = None.
Proof. unfold reject_if. destruct b; naive_solver. Qed.

Lemma differ_false {A} `{EqDecision A} (x y : A) : differ x y = false <-> x = y.
Proof. unfold differ. case_bool_decide; naive_solver. Qed.

Lemma aggregate_None fs : aggregate fs = None <-> fs = [].
Proof. destruct fs; naive_solver. Qed.

Lemma invalid_if_nil b p d : invalid_if b p d = [] <-> b = false.
Proof. destruct b; naive_solver. Qed.

Lemma Matches_negb r new : negb (ClusterReference.Matches r new) = false <-> r = new.
Proof. rewrite negb_false_iff. apply ClusterReference.Matches_eq. Qed.

Lemma userReferenceUpdated_false new old : userReferenceUpdated new old = false <-> new = old.
Proof.
  destruct new as [[n]|], old as [[o]|]; simpl; try naive_solver.
  rewrite negb_false_iff, bool_decide_eq_true. naive_solver.
Qed.

Lemma identityGuards_None d on nn ov nv oref nref rest :
  identityGuards d on nn ov nv oref nref rest = None <->
  nn = on /\ nv = ov /\ oref = nref /\ rest = None.
Proof. unfold identityGuards. by rewrite !reject_if_None, !differ_false, Matches_negb. Qed.

Lemma userGuards_None user ref wrap rest :
  userGuards user ref wrap rest = None <->
  ((user <> "" /\ ref = None) \/ (user = "" /\ is_Some ref)) /\ rest = None.
Proof.
  unfold userGuards. rewrite !reject_if_None.
  destruct ref; repeat case_bool_decide; simpl; naive_solver.
Qed.

#[export] Hint Rewrite reject_if_None @differ_false aggregate_None invalid_if_nil Matches_negb
  userReferenceUpdated_false identityGuards_None userGuards_None : gort.

Section webhooks.
Context `{Libs}.

Lemma andThen_None p q tr :
  exec (andThen p q) tr (Returned None) <->
  exists tr1 tr2, tr = tr1 ++ tr2 /\ exec p tr1 (Returned None) /\ exec q tr2 (Returned None).
Proof.
  unfold andThen. revert tr. induction p as [x|a f IH|w]; intros tr; simpl.
  - destruct x as [r|]; simpl.
    + split; [by intros [_ [=]]|]. by intros (? & ? & _ & [_ [=]] & _).
    + split; [|by intros (? & ? & -> & [-> _] & ?)]. intros Hq. by exists [], tr.
  - split.
    + intros (x & tr' & -> & (tr1 & tr2 & -> & Hp & Hq)%IH). 
      exists (existT a x :: tr1), tr2. eauto 6.
    + intros (tr1 & tr2 & -> & (x & tr' & -> & Hp) & Hq). exists x, (tr' ++ tr2).
      split; [done|]. apply IH. eauto.
  - split; [by intros [_ [=]]|]. by intros (? & ? & _ & [_ [=]] & _).
Qed.

Lemma ret_None (r : option rejection) tr :
  exec (Ret r : go _) tr (Returned None) <-> tr = [] /\ r = None.
Proof. simpl. naive_solver. Qed.

End webhooks.

(** Collect the equations that an admitted update satisfies. *)
Ltac admission :=
  cbv zeta; intros;
  repeat match goal with
  | H : exec (andThen _ _) _ (Returned None) |- _ =>
      apply andThen_None in H as (? & ? & -> & ? & ?)
  | H : exec (Ret _) _ (Returned None) |- _ => apply ret_None in H as [-> H]
  end;
  autorewrite with gort in *; rewrite ?app_nil in *; autorewrite with gort in *;
  destruct_and?.
Ltac admitted := admission; congruence.

Section admission.
Context `{Libs}.

(** ** What an update cannot change *)

(** Where the object of a resource lives on the broker: what the delete call of
    its controller addresses. *)
Inductive broker_target :=
| TNamed (what vhost name : string)
| TBinding (vhost source destination type key : string) (arguments : option RawExtension)
| TPermission (vhost user : string) (ref : option LocalObjectReference) (exchange : string)
| TOther.

Definition target_of (k : kind) : object k -> option (RabbitmqClusterReference * broker_target) :=
  match k with
  | KQueue => fun o => Some (Queue_RabbitmqClusterReference (Spec o),
      TNamed "queue" (Queue_Vhost (Spec o)) (Queue_Name (Spec o)))
  | KExchange => fun o => Some (Exchange_RabbitmqClusterReference (Spec o),
      TNamed "exchange" (Exchange_Vhost (Spec o)) (Exchange_Name (Spec o)))
  | KPolicy => fun o => Some (Policy_RabbitmqClusterReference (Spec o),
      TNamed "policy" (Policy_Vhost (Spec o)) (Policy_Name (Spec o)))
  | KOperatorPolicy => fun o => Some (OperatorPolicy_RabbitmqClusterReference (Spec o),
      TNamed "operatorpolicy" (OperatorPolicy_Vhost (Spec o)) (OperatorPolicy_Name (Spec o)))
  | KFederation => fun o => Some (Federation_RabbitmqClusterReference (Spec o),
      TNamed "federation" (Federation_Vhost (Spec o)) (Federation_Name (Spec o)))
  | KShovel => fun o => Some (Shovel_RabbitmqClusterReference (Spec o),
      TNamed "shovel" (Shovel_Vhost (Spec o)) (Shovel_Name (Spec o)))
  | KVhost => fun o => Some (Vhost_RabbitmqClusterReference (Spec o),
      TNamed "vhost" "" (Vhost_Name (Spec o)))
  | KBinding => fun o => Some (Binding_RabbitmqClusterReference (Spec o),
      TBinding (Binding_Vhost (Spec o)) (Binding_Source (Spec o)) (Binding_Destination (Spec o))
        (Binding_DestinationType (Spec o)) (Binding_RoutingKey (Spec o))
        (Binding_Arguments (Spec o)))
  | KPermission => fun o => Some (Permission_RabbitmqClusterReference (Spec o),
      TPermission (Permission_Vhost (Spec o)) (Permission_User (Spec o))
        (Permission_UserReference (Spec o)) "")
  | KTopicPermission => fun o => Some (TopicPermission_RabbitmqClusterReference (Spec o),
      TPermission (TopicPermission_Vhost (Spec o)) (TopicPermission_User (Spec o))
        (TopicPermission_UserReference (Spec o))
        (TopicPermissionConfig_Exchange (TopicPermission_Permissions (Spec o))))
  | KUser => fun o => Some (User_RabbitmqClusterReference (Spec o), TOther)
  | KSchemaReplication => fun o => Some (SchemaReplication_RabbitmqClusterReference (Spec o), TOther)
  | KSuperStream => fun o => Some (SuperStream_RabbitmqClusterReference (Spec o),
      TNamed "superstream" (SuperStream_Vhost (Spec o)) (SuperStream_Name (Spec o)))
  | _ => fun _ => None
  end.

(** The [ValidateUpdate] of a kind. *)
Definition ValidateUpdate (k : kind) : object k -> object k -> go (option rejection) :=
  match k with
  | KQueue => Queue_ValidateUpdate
  | KExchange => fun o n => Ret (Exchange_ValidateUpdate o n)
  | KPolicy => fun o n => Ret (Policy_ValidateUpdate o n)
  | KOperatorPolicy => fun o n => Ret (OperatorPolicy_ValidateUpdate o n)
  | KFederation => Federation_ValidateUpdate
  | KShovel => Shovel_ValidateUpdate
  | KVhost => fun o n => Ret (Vhost_ValidateUpdate o n)
  | KBinding => fun o n => Ret (Binding_ValidateUpdate o n)
  | KPermission => fun o n => Ret (Permission_ValidateUpdate o n)
  | KTopicPermission => fun o n => Ret (TopicPermission_ValidateUpdate o n)
  | KUser => User_ValidateUpdate
  | KSchemaReplication => SchemaReplication_ValidateUpdate
  | KSuperStream => SuperStream_ValidateUpdate
  | KSecret | KService | KRabbitmqCluster => fun _ _ => Ret None
  end.

(** C15: Whatever ValidateUpdate of any kind admits keeps the cluster reference
    and the fields that identify the object on the broker. *)
Theorem admitted_update_keeps_target k (old new : object k) tr :
  exec (ValidateUpdate k old new) tr (Returned None) -> target_of k new = target_of k old.
Proof.
  destruct k; cbn [ValidateUpdate target_of]; try done.
  - unfold Binding_ValidateUpdate. admitted.
  - unfold Exchange_ValidateUpdate. admitted.
  - unfold Federation_ValidateUpdate. admitted.
  - unfold OperatorPolicy_ValidateUpdate. admitted.
  - unfold Permission_ValidateUpdate. admitted.
  - unfold Policy_ValidateUpdate. admitted.
  - unfold Queue_ValidateUpdate. admitted.
  - unfold SchemaReplication_ValidateUpdate. admitted.
  - unfold Shovel_ValidateUpdate. admitted.
  - unfold TopicPermission_ValidateUpdate. admitted.
  - unfold User_ValidateUpdate. admitted.
  - unfold Vhost_ValidateUpdate. admitted.
  - unfold SuperStream_ValidateUpdate. admitted.
Qed.

(** ** Admitted objects do not make the controllers panic *)

(** A permission with both spec.user and a reference to a User that does not
    exist makes DeclareFunc dereference nil. *)
Lemma permission_both_users_panics (p : Permission) c ref e :
  Permission_UserReference (Spec p) = Some ref -> Permission_User (Spec p) <> "" ->
  IsNotFound e = true ->
  exec (Permission_DeclareFunc c p)
    [existT (P:=result) (CGet KUser (mkNamespacedName (Namespace (resource_ObjectMeta p))
       (LocalObjectReference_Name ref))) (inl e)] (Panicked nilDereference).
Proof.
  intros Href Hu He. unfold Permission_DeclareFunc, permissionUser, getUsernameFromUser.
  rewrite Href. simpl. exists (inl e), []. split; [done|]. simpl. rewrite He. simpl.
  rewrite bool_decide_eq_false_2 by done. done.
Qed.

(** ** Secrets *)

(** A referenced secret passes the label check exactly when the cached client
    finds it. *)
Lemma secret_label_admission ref ns tr r :
  exec (validateSecretLabel (Some ref) ns) tr (Returned r) ->
  r = None <-> exists s, tr = [existT (P:=result)
    (CGet KSecret (mkNamespacedName ns (LocalObjectReference_Name ref))) (inr s)].
Proof.
  unfold validateSecretLabel. simpl. intros (x & tr' & -> & Hx). destruct x as [e|s]; simpl in Hx.
  - assert (r <> None /\ (forall s, existT (P:=result) (CGet KSecret
      (mkNamespacedName ns (LocalObjectReference_Name ref))) (inl e) :: tr' <>
      [existT (P:=result) (CGet KSecret (mkNamespacedName ns (LocalObjectReference_Name ref))) (inr s)]))
      as [Hr Htr]; [|split; [done|intros [s Hs]; by destruct (Htr s)]].
    split.
    + destruct (IsNotFound e); simpl in Hx; [|by destruct Hx as [_ [= ->]]].
      destruct Hx as ([e'|s'] & tr2 & -> & _ & [= ->]); done.
    + intros s Heq. apply (f_equal head), (inj Some), CGet_answer in Heq. done.
  - destruct Hx as [-> [= ->]]. split; [|done]. intros _. by exists s.
Qed.

(** Updates of a user that is being deleted are admitted without looking at
    its secrets. *)
Lemma deleting_user_update_admitted (old new : User) :
  User_RabbitmqClusterReference (Spec old) = User_RabbitmqClusterReference (Spec new) ->
  is_Some (DeletionTimestamp (resource_ObjectMeta new)) ->
  User_ValidateUpdate old new = Ret None.
Proof.
  intros Href [t Ht]. unfold User_ValidateUpdate, andThen. simpl.
  rewrite (proj2 (reject_if_None _ _ _)), Ht; [done|]. by rewrite Matches_negb.
Qed.

(** Once the URI secret of a federation is gone every update of it is
    rejected, also the one that removes its finalizer. *)
Lemma deleting_federation_update_rejected (old new : Federation) ref e tr r :
  Federation_UriSecret (Spec new) = Some ref -> IsNotFound e = true ->
  let key := mkNamespacedName (Namespace (resource_ObjectMeta new))
               (LocalObjectReference_Name ref) in
  (forall x, existT (P:=result) (CGet KSecret key) x ∈ tr -> x = inl e) ->
  exec (Federation_ValidateUpdate old new) tr (Returned r) -> r <> None.
Proof.
  intros Href He key Hgone Hx ->. unfold Federation_ValidateUpdate in Hx.
  apply andThen_None in Hx as (tr1 & tr2 & -> & _ & Hx).
  unfold validateSecretLabel in Hx. rewrite Href in Hx. simpl in Hx. fold key in Hx.
  destruct Hx as (x & tr' & -> & Hx). rewrite (Hgone x) in Hx by set_solver.
  rewrite He in Hx. simpl in Hx. by destruct Hx as ([e'|s'] & tr3 & _ & _ & [=]).
Qed.

(** ** Users *)

(** A user admitted at creation does not take its name from its metadata and
    its credentials from a secret at once. *)
Lemma admitted_user_one_source (u : User) tr :
  exec (User_ValidateCreate u) tr (Returned None) ->
  ~ (User_UsernameFromMeta (Spec u) = true /\ is_Some (User_ImportCredentialsSecret (Spec u))).
Proof.
  unfold User_ValidateCreate, validateUsernameFromMeta. admission. intros [Hm Hi].
  rewrite Hm in *. by rewrite bool_decide_eq_true_2 in *.
Qed.

(** ** Super streams *)

Lemma sameKeys_spec old new :
  match sameKeys old new with
  | Some true => old `prefix_of` new
  | Some false => ~ old `prefix_of` new /\ ~ new `prefix_of` old
  | None => new `prefix_of` old /\ new <> old
  end.
Proof.
  revert new. induction old as [|o old IH]; intros [|n new]; simpl.
  - apply prefix_nil.
  - apply prefix_nil.
  - split; [apply prefix_nil|done].
  - case_bool_decide as E; simpl.
    + subst n. specialize (IH new). destruct (sameKeys old new) as [[]|].
      * by apply prefix_cons.
      * destruct IH. split; intros Hp%prefix_cons_inv_2; done.
      * destruct IH as [Hp Hne]. split; [by apply prefix_cons|congruence].
    + split; intros [? [=]]; congruence.
Qed.

Lemma routingKeyUpdatePermitted_true old new :
  routingKeyUpdatePermitted old new = Some true <->
  old `prefix_of` new /\ (old = [] -> new = []).
Proof.
  unfold routingKeyUpdatePermitted. pose proof (sameKeys_spec old new) as Hs.
  case_bool_decide as Eo; simpl.
  - subst old. case_bool_decide as En; simpl; naive_solver.
  - destruct (sameKeys old new) as [[]|]; try naive_solver.
    split; [done|]. intros [Hp _]. destruct Hs as [Hq Hne]. destruct Hne.
    by apply (anti_symm prefix).
Qed.

Lemma routingKeyUpdatePermitted_panics old new :
  routingKeyUpdatePermitted old new = None <-> new `prefix_of` old /\ new <> old.
Proof.
  unfold routingKeyUpdatePermitted. pose proof (sameKeys_spec old new) as Hs.
  case_bool_decide as Eo; simpl.
  - subst old. case_bool_decide as En; simpl.
    + subst new. simpl in *. naive_solver.
    + split; [done|]. by intros [Hp%prefix_nil_inv _].
  - destruct (sameKeys old new) as [[]|]; try naive_solver.
    split; [done|]. intros [Hp Hne]. destruct Hne. by apply (anti_symm prefix).
Qed.

(** C33: Routing keys may only be appended, never to an empty list; the check
    indexes out of range exactly when the new list is a proper prefix of the old
    one. *)
Theorem routing_keys_update old new :
  (routingKeyUpdatePermitted old new = Some true <->
     old `prefix_of` new /\ (old = [] -> new = [])) /\
  (routingKeyUpdatePermitted old new = None <-> new `prefix_of` old /\ new <> old).
Proof. split; [apply routingKeyUpdatePermitted_true | apply routingKeyUpdatePermitted_panics]. Qed.

(** ** Queues *)

Lemma argumentsUpdated_spec old new (oargs nargs : args_map) :
  unmarshal_arguments "" old = inr oargs -> unmarshal_arguments "" new = inr nargs ->
  maps_Equal oargs nargs =
    Some (DeepEqual (Any_map (entries oargs)) (Any_map (entries nargs))) ->
  exists errs, argumentsUpdated old new = Ret (inr errs) /\ (errs = [] <->
    (is_Some old <-> is_Some new) /\
    DeepEqual (Any_map (entries oargs)) (Any_map (entries nargs)) = true).
Proof.
  unfold unmarshal_arguments, argumentsUpdated.
  destruct old as [ro|], new as [rn|]; intros Ho Hn Hm; simplify_eq.
  - destruct (json_Unmarshal (raw_bytes ro)); simplify_eq.
    destruct (json_Unmarshal (raw_bytes rn)); simplify_eq. rewrite Hm.
    destruct (DeepEqual _ _); eexists; (split; [done|]); naive_solver.
  - eexists. split; [done|]. split; [done|]. intros [[Hs _] _]. by destruct Hs; [eauto|].
  - eexists. split; [done|]. split; [done|]. intros [[_ Hs] _]. by destruct Hs; [eauto|].
  - eexists. split; [done|]. done.
Qed.

(** C34: With comparable arguments the update of a queue does not panic and is
    admitted exactly when name, vhost, reference, type, auto-delete, durability
    and arguments stay the same. *)
Theorem queue_update_admission (old new : Queue) (oargs nargs : args_map) :
  let o := Spec old in let n := Spec new in
  unmarshal_arguments "" (Queue_Arguments o) = inr oargs ->
  unmarshal_arguments "" (Queue_Arguments n) = inr nargs ->
  Forall (fun kv => comparable kv.2 = true) (entries oargs) ->
  exists r, Queue_ValidateUpdate old new = Ret r /\
    (r = None <->
      Queue_Name n = Queue_Name o /\ Queue_Vhost n = Queue_Vhost o /\
      Queue_RabbitmqClusterReference o = Queue_RabbitmqClusterReference n /\
      Queue_Type n = Queue_Type o /\ Queue_AutoDelete n = Queue_AutoDelete o /\
      deref (Queue_Durable n) false = deref (Queue_Durable o) false /\
      (is_Some (Queue_Arguments o) <-> is_Some (Queue_Arguments n)) /\
      DeepEqual (Any_map (entries oargs)) (Any_map (entries nargs)) = true).
Proof.
  intros o n Ho Hn Hc. pose proof (maps_Equal_comparable oargs nargs Hc) as Hm.
  unfold Queue_ValidateUpdate, andThen. fold o n. simpl.
  set (allErrs := invalid_if _ _ _ ++ invalid_if _ _ _ ++ invalid_if _ _ _).
  set (guards := identityGuards _ _ _ _ _ _ _ _).
  assert (Hg : guards = None <-> Queue_Name n = Queue_Name o /\ Queue_Vhost n = Queue_Vhost o /\
     Queue_RabbitmqClusterReference o = Queue_RabbitmqClusterReference n).
  { unfold guards. rewrite identityGuards_None. naive_solver. }
  assert (Ha : allErrs = [] <-> Queue_Type n = Queue_Type o /\
     Queue_AutoDelete n = Queue_AutoDelete o /\
     deref (Queue_Durable n) false = deref (Queue_Durable o) false).
  { unfold allErrs. rewrite !app_nil, !invalid_if_nil, !differ_false. done. }
  assert (Harg : exists errs, argumentsUpdated (Queue_Arguments o) (Queue_Arguments n) =
      Ret (inr errs) /\ (errs = [] <->
        (is_Some (Queue_Arguments o) <-> is_Some (Queue_Arguments n)) /\
        DeepEqual (Any_map (entries oargs)) (Any_map (entries nargs)) = true)).
  { eapply argumentsUpdated_spec; eauto. }
  destruct Harg as (errs & -> & Herrs). destruct guards as [r|]; simpl.
  { exists (Some r). split; [done|]. split; [done|]. intros (? & ? & ? & _).
    discriminate (proj2 Hg). done. }
  eexists. split; [done|]. rewrite aggregate_None, app_nil, Ha, Herrs.
  destruct (proj1 Hg eq_refl) as (? & ? & ?). tauto.
Qed.
End admission.
