(* ===== verification/NoPanic.v ===== *)
(** * Reconciliations that cannot panic

    The controllers dereference pointers of the spec.  What an object must carry
    so that no reconciliation of it panics, and which of it admission ensures. *)

From S2P Require Import Prelude.
From S2P Require Import GoStrings.
From S2P Require Import GoErrors.
From S2P Require Import Prog.
From S2P Require Import Api.
From S2P Require Import Values.
From S2P Require Import World.
From S2P Require Import Resources.
From S2P Require Import Settings.
From S2P Require Import Random.
From S2P Require Import ParseReference.
From S2P Require Import Utils.
From S2P Require Import Traces.
From S2P Require Import TopologyReconciler.
From S2P Require Import Controllers.
From S2P Require Import PermissionControllers.
From S2P Require Import UserController.
From S2P Require Import Webhooks.
From S2P Require Import WebhookProofs.

(** ** Programs that do not panic *)

Definition returns {A} (o : outcome A) : Prop :=
  match o with Returned _ => True | Panicked _ => False end.

Definition no_panic {A} (p : go A) : Prop := wp p (fun _ o => returns o).

Lemma no_panic_ret {A} (x : A) : no_panic (Ret x).
Proof. exact I. Qed.

Lemma no_panic_act a : no_panic (act a).
Proof. by intros x. Qed.

Lemma no_panic_bind {A B} (p : go A) (f : A -> go B) :
  no_panic p -> (forall x, no_panic (f x)) -> no_panic (bind p f).
Proof.
  intros Hp Hf. eapply wp_cut; [exact Hp|..]; [|done].
  intros tr x _. eapply wp_mono; [apply Hf|]. done.
Qed.

Lemma no_panic_retry `{LibsOk} {S} (fn : S -> go (option error * S)) s :
  (forall s, no_panic (fn s)) -> no_panic (RetryOnConflict fn s).
Proof. intros Hfn. by apply (wp_retry fn s (fun _ _ o => returns o)). Qed.

(** Walks along a program; tests are split. *)
Ltac no_panic_step :=
  lazymatch goal with
  | |- no_panic (Ret _) => apply no_panic_ret
  | |- no_panic (act ?a) => exact (no_panic_act a)
  | |- no_panic (bind _ _) =>
      apply no_panic_bind; [|let x := fresh "x" in intros x; cbn [result rmq_result] in x]
  | |- no_panic (RetryOnConflict _ _) => apply no_panic_retry; intros ?
  | |- no_panic (match ?x with _ => _ end) => destruct x eqn:?
  end.
Ltac no_panic := repeat (cbv zeta; no_panic_step).

(** ** Complete objects *)

(** The pointers the controllers follow without a test. *)
Definition complete (k : kind) : object k -> Prop :=
  match k with
  | KFederation => fun f => is_Some (Federation_UriSecret (Spec f))
  | KShovel => fun s => is_Some (Shovel_UriSecret (Spec s))
  | KPolicy => fun p => is_Some (Policy_Definition (Spec p))
  | KOperatorPolicy => fun p => is_Some (OperatorPolicy_Definition (Spec p))
  | KPermission => fun p => Permission_User (Spec p) = "" \/ Permission_UserReference (Spec p) = None
  | KTopicPermission => fun p =>
      TopicPermission_User (Spec p) = "" \/ TopicPermission_UserReference (Spec p) = None
  | _ => fun _ => True
  end.

Class ReconcileFuncSafe `{Libs} (k : kind) `{!ReconcileFunc k} := {
  declare_safe c (o : object k) : complete k o -> no_panic (DeclareFunc c o);
  delete_safe c (o : object k) : no_panic (DeleteFunc c o)
}.

Section kinds.
Context `{LibsOk}.

Ltac safe := unfold declareCall, deleteCall in *; no_panic.

#[export] Instance Exchange_safe : ReconcileFuncSafe KExchange.
Proof.
  split; simpl; intros; [unfold Exchange_DeclareFunc|unfold Exchange_DeleteFunc]; safe.
Qed.

#[export] Instance Queue_safe : ReconcileFuncSafe KQueue.
Proof.
  split; simpl; intros; [unfold Queue_DeclareFunc|unfold Queue_DeleteFunc, quorumGuard]; safe.
Qed.

#[export] Instance Binding_safe : ReconcileFuncSafe KBinding.
Proof.
  split; simpl; intros; [unfold Binding_DeclareFunc|unfold Binding_DeleteFunc, findBindingInfo]; safe.
Qed.

#[export] Instance Policy_safe : ReconcileFuncSafe KPolicy.
Proof.
  split; simpl; intros; [unfold Policy_DeclareFunc, GeneratePolicy|unfold Policy_DeleteFunc];
    [destruct_and?; match goal with H : is_Some _ |- _ => destruct H as [? ->] end|]; safe.
Qed.

#[export] Instance OperatorPolicy_safe : ReconcileFuncSafe KOperatorPolicy.
Proof.
  split; simpl; intros;
    [unfold OperatorPolicy_DeclareFunc, GenerateOperatorPolicy|unfold OperatorPolicy_DeleteFunc];
    [match goal with H : is_Some _ |- _ => destruct H as [? ->] end|]; safe.
Qed.

#[export] Instance Federation_safe : ReconcileFuncSafe KFederation.
Proof.
  split; simpl; intros;
    [unfold Federation_DeclareFunc, Federation_getUri, uriSecretError|unfold Federation_DeleteFunc];
    [match goal with H : is_Some _ |- _ => destruct H as [? ->] end|]; safe.
Qed.

#[export] Instance Shovel_safe : ReconcileFuncSafe KShovel.
Proof.
  split; simpl; intros;
    [unfold Shovel_DeclareFunc, Shovel_getUris, uriSecretError|unfold Shovel_DeleteFunc];
    [match goal with H : is_Some _ |- _ => destruct H as [? ->] end|]; safe.
Qed.

#[export] Instance SchemaReplication_safe : ReconcileFuncSafe KSchemaReplication.
Proof.
  split; simpl; intros;
    [unfold SchemaReplication_DeclareFunc, getUpstreamEndpoints, upstreamSecret
    |unfold SchemaReplication_DeleteFunc]; safe.
Qed.

#[export] Instance Vhost_safe : ReconcileFuncSafe KVhost.
Proof.
  split; simpl; intros;
    [unfold Vhost_DeclareFunc, reconcileVhostLimits, getVhostLimits|unfold Vhost_DeleteFunc]; safe.
Qed.

Lemma retryStatusUpdate_safe k (o : object k) : no_panic (retryStatusUpdate k o).
Proof. unfold retryStatusUpdate. no_panic. Qed.

Lemma random_safe n : no_panic (RandomEncodedString n).
Proof. unfold RandomEncodedString. no_panic. Qed.

#[export] Instance User_safe : ReconcileFuncSafe KUser.
Proof.
  split; simpl; intros; [|unfold User_DeleteFunc; safe].
  unfold User_DeclareFunc, declareWithImportedCredentials, declareWithGeneratedCredentials,
    importCredentials, declareCredentials, generateCredentials, getUserCredentials, setUserStatus,
    putUser, reconcileUserLimits, getUserLimits, GenerateUserSettings, ConditionOps.PasswordSynced,
    ConditionOps.lastTransitionTime, RandomEncodedString.
  safe.
Qed.

(** A user that is a nil pointer has no name, unless [username] was given. *)
Lemma permissionUser_safe ns username ref :
  username = "" \/ ref = None ->
  wp (permissionUser ns username ref) (fun _ o =>
    match o with
    | Returned (inr (None, name)) => name = ""
    | Returned _ => True
    | Panicked _ => False
    end).
Proof.
  unfold permissionUser, getUsernameFromUser. destruct ref as [ref|]; simpl; [|done].
  intros [->|[=]] [e|user]; simpl; [destruct (IsNotFound e)|]; done.
Qed.

Lemma ownedBy_safe k (user : User) (o : object k) : no_panic (ownedBy (Some user) o).
Proof. unfold ownedBy. no_panic. Qed.

Lemma permission_declare_safe k (o : object k) ns username ref
    (missing : option error * object k) declare :
  username = "" \/ ref = None -> (forall u o, no_panic (declare u o)) ->
  no_panic (bind (permissionUser ns username ref) (fun found =>
        match found with
        | inl e => Ret (Some e, o)
        | inr (user, username) =>
            if bool_decide (username = "") then Ret missing
            else bind (ownedBy user o) (fun x =>
              match x with
              | (err, o) => match err with Some e => Ret (Some e, o) | None => declare username o end
              end)
        end)).
Proof.
  intros Href Hd. eapply wp_cut; [by apply permissionUser_safe|..]; [|done].
  intros tr [e|[[user|] name]]; simpl; intros Hn; [done| |by rewrite Hn].
  assert (Hs : no_panic (if bool_decide (name = "") then Ret missing
            else bind (ownedBy (Some user) o) (fun x =>
              match x with
              | (err, o) => match err with Some e => Ret (Some e, o) | None => declare name o end
              end))).
  { case_bool_decide; [done|]. apply no_panic_bind; [apply ownedBy_safe|].
    intros [[e|] o']; [done|apply Hd]. }
  exact Hs.
Qed.

#[export] Instance Permission_safe : ReconcileFuncSafe KPermission.
Proof.
  split; simpl; intros c o.
  - intros Hc. unfold Permission_DeclareFunc.
    apply (permission_declare_safe KPermission); [done|]. intros. safe.
  - unfold Permission_DeleteFunc, permissionUser, getUsernameFromUser, revokePermissions,
      removeFinalizer. safe.
Qed.

#[export] Instance TopicPermission_safe : ReconcileFuncSafe KTopicPermission.
Proof.
  split; simpl; intros c o.
  - intros Hc. unfold TopicPermission_DeclareFunc.
    apply (permission_declare_safe KTopicPermission); [done|]. intros. safe.
  - unfold TopicPermission_DeleteFunc, permissionUser, getUsernameFromUser, clearTopicPermission,
      removeFinalizer. safe.
Qed.
End kinds.

(** ** The reconciler *)

(** The API server handed out [o] in the course of [tr]. *)
Definition handed_out {k} (o : object k) (tr : go_trace) : Prop :=
  (exists key, existT (P:=result) (CGet k key) (inr o) ∈ tr) \/
  (exists sent, existT (P:=result) (CUpdate k sent) (inr o) ∈ tr).

Section reconciler.
Context `{LibsOk} (k : kind) `{!TopologyResource k} `{!ReconcileFunc k} `{!ReconcileFuncSafe k}
  (r : ReconcilerConfig).

Lemma ParseReference_safe rmq ns dom http : no_panic (ParseReference rmq ns dom http).
Proof.
  unfold ParseReference, defaultUserCredentials, kubernetesSecretCredentials, clusterAddress.
  no_panic.
Qed.

Lemma reportNotReady_safe msg (o : object k) : no_panic (reportNotReady k msg o).
Proof.
  unfold reportNotReady, ConditionOps.NotReady, ConditionOps.lastTransitionTime, statusUpdate,
    retryStatusUpdate. no_panic.
Qed.

Lemma reference_error_safe (o : object k) e :
  no_panic (Reconciler_handleRMQReferenceParseError k o e).
Proof.
  unfold Reconciler_handleRMQReferenceParseError, removeFinalizer.
  no_panic; apply reportNotReady_safe.
Qed.

Lemma reconcileDelete_safe c (o : object k) : no_panic (reconcileDelete k c o).
Proof.
  unfold reconcileDelete, removeFinalizer. apply no_panic_bind; [apply delete_safe|].
  intros [[e|] o']; no_panic.
Qed.

(** The object that is declared is the one that was read or that the update of
    the finalizer gave back. *)
Lemma addFinalizer_hands (o : object k) :
  wp (addFinalizerIfNeeded k o) (fun tr out =>
    match out with
    | Returned (None, o') => o' = o \/ handed_out o' tr
    | Returned _ => True
    | Panicked _ => False
    end).
Proof.
  unfold addFinalizerIfNeeded. destruct (_ && _); simpl; [|by left].
  intros [e|o']; simpl; [done|]. right. right. eexists. apply list_elem_of_here.
Qed.

Lemma reconcileDeclare_safe c (o : object k) :
  complete k o ->
  wp (reconcileDeclare k c o) (fun tr out =>
    (forall o', handed_out o' tr -> complete k o') -> returns out).
Proof.
  intros Hc. unfold reconcileDeclare.
  eapply wp_cut; [apply addFinalizer_hands|..]; [|done].
  intros tr [[e|] o'] Ho; cbv beta iota in *; [done|]. apply wp_exec. intros tr' out Hx Hall.
  assert (Hc' : complete k o').
  { destruct Ho as [->|Ho]; [done|]. apply Hall. unfold handed_out in *. set_solver. }
  clear Ho Hall. revert tr' out Hx. apply (wp_exec _ (fun _ => returns)).
  apply no_panic_bind; [by apply declare_safe|]. intros [[e|] o2]; no_panic;
    [apply reportNotReady_safe|..].
  all: unfold ConditionOps.Ready, ConditionOps.lastTransitionTime, statusUpdate, retryStatusUpdate;
    no_panic.
Qed.

Lemma no_panic_extract (o : object k) : no_panic (extractSystemCertPool k o).
Proof. unfold extractSystemCertPool. no_panic. Qed.

Lemma no_panic_client creds tls pool : no_panic (generateRabbitholeClient creds tls pool).
Proof. unfold generateRabbitholeClient. no_panic. Qed.

Lemma reconcileObject_safe (o : object k) :
  complete k o ->
  wp (reconcileObject k r o) (fun tr out =>
    (forall o', handed_out o' tr -> complete k o') -> returns out).
Proof.
  intros Hc. unfold reconcileObject.
  eapply wp_cut; [apply no_panic_extract|..]; [|done]. intros tr [e|pool] _; [done|].
  eapply wp_cut; [apply ParseReference_safe|..]; [|done]. intros tr2 [e|[creds tls]] _.
  { eapply wp_mono; [apply reference_error_safe|done]. }
  eapply wp_cut; [apply no_panic_client|..]; [|done]. intros tr3 [e|c] _; [done|].
  destruct (DeletionTimestamp (meta k o)).
  { eapply wp_mono; [apply reconcileDelete_safe|done]. }
  eapply wp_mono; [by apply reconcileDeclare_safe|]. simpl. intros tr4 out Hout Hall. apply Hout.
  intros o' Ho. apply Hall. unfold handed_out in *. set_solver.
Qed.

(** C12: Reconcile of any kind returns: it does not panic as long as the API
    server hands out objects whose pointers are set (URI secret of federations and
    shovels, definition of policies) and permissions that do not name their user
    twice. *)
Theorem reconcile_no_panic req tr out :
  exec (Reconcile k r req) tr out ->
  (forall o : object k, handed_out o tr -> complete k o) -> returns out.
Proof.
  intros Hx Hall. unfold Reconcile in Hx. cbn [bind act exec] in Hx.
  destruct Hx as ([e|o] & tr' & -> & Hx); [by destruct Hx as [_ ->]|].
  assert (Hc : complete k o) by (apply Hall; left; eexists; apply list_elem_of_here).
  assert (Hall' : forall o', handed_out o' tr' -> complete k o').
  { intros o' Ho. apply Hall. unfold handed_out in *. set_solver. }
  exact (proj1 (wp_exec _ _) (reconcileObject_safe o Hc) _ _ Hx Hall').
Qed.
End reconciler.

(** Every permission and topic permission that the webhooks admit, at
    creation or by an update, names its user in one way, which is what
    reconcile_no_panic asks of it. *)
Lemma admitted_permissions_complete `{Libs} :
  (forall p tr, exec (Permission_ValidateCreate p) tr (Returned None) -> complete KPermission p) /\
  (forall old new, Permission_ValidateUpdate old new = None -> complete KPermission new) /\
  (forall p tr, exec (TopicPermission_ValidateCreate p) tr (Returned None) ->
     complete KTopicPermission p) /\
  (forall old new, TopicPermission_ValidateUpdate old new = None -> complete KTopicPermission new).
Proof.
  split_and!; intros p q Hx; simpl.
  - unfold Permission_ValidateCreate in Hx. revert Hx. admission.
    destruct (Permission_UserReference (Spec p)); naive_solver.
  - unfold Permission_ValidateUpdate in Hx. revert Hx. admission.
    destruct (Permission_UserReference (Spec q)); naive_solver.
  - unfold TopicPermission_ValidateCreate in Hx. revert Hx. admission.
    destruct (TopicPermission_UserReference (Spec p)); naive_solver.
  - unfold TopicPermission_ValidateUpdate in Hx. revert Hx. admission.
    destruct (TopicPermission_UserReference (Spec q)); naive_solver.
Qed.
