(* ===== verification/SuperStreams.v ===== *)
(** * Super streams

    internal/managedresource (the builders of the resources a super stream is
    made of) and internal/controller/super_stream_controller.go. *)

From S2P Require Import Prelude.
From S2P Require Import GoStrings.
From S2P Require Import GoErrors.
From S2P Require Import Prog.
From S2P Require Import Api.
From S2P Require Import Values.
From S2P Require Import Scheme.
From S2P Require Import World.
From S2P Require Import Resources.
From S2P Require Import ParseReference.
From S2P Require Import Utils.
Import ProgNotations.
Open Scope go_scope.

(** ** managedresource *)

Definition AnnotationSuperStream : string := "rabbitmq.com/super-stream".
Definition AnnotationSuperStreamRoutingKey : string := "rabbitmq.com/super-stream-routing-key".

Definition RoutingKeyToPartitionName (parentObjectName routingKey : string) : string :=
  parentObjectName +:+ "-" +:+ routingKey.
Definition PartitionNameToRoutingKey (parentObjectName partitionName : string) : string :=
  TrimPrefix partitionName (parentObjectName +:+ "-").

(** [fmt.Sprintf("%d")] *)
Definition partitionSuffix (partitionIndex : nat) : string :=
  "-partition-" +:+ Itoa (Z.of_nat partitionIndex).
Definition bindingSuffix (partitionIndex : nat) : string :=
  "-binding-" +:+ Itoa (Z.of_nat partitionIndex).
Definition superStreamExchangeSuffix : string := "-exchange".

(** Interface [ResourceBuilder]: the kind of the resource, the object to look
    for, how it is filled in, and the type in messages. *)
Record ResourceBuilder := mkResourceBuilder {
  builder_kind : kind;
  Build : object builder_kind;
  Update : object builder_kind -> error + object builder_kind;
  ResourceType : string
}.

Section builders.
Context `{Libs} (ObjectOwner : SuperStream).

Definition owner_name : string := Name (resource_ObjectMeta ObjectOwner).

Definition GenerateChildResourceName (suffix : string) : string := owner_name +:+ suffix.

Definition childMeta (suffix : string) (labels : gmap string string) : ObjectMeta :=
  mkObjectMeta (GenerateChildResourceName suffix) (Namespace (resource_ObjectMeta ObjectOwner))
    labels ∅ 0 None [] [].

Definition noRef : RabbitmqClusterReference := mkRabbitmqClusterReference "" "" None.

(** The last step of every [Update]. *)
Definition setOwner {S T} (o : Resource S T) : error + Resource S T :=
  match SetControllerReference (gvk_of (ObjectType KSuperStream))
          (resource_ObjectMeta ObjectOwner) (resource_ObjectMeta o) with
  | inl e => inl (ErrWrap ("failed setting controller reference: " +:+ err_Error e) e)
  | inr m => inr (set_ObjectMeta m o)
  end.

Definition emptyType : TypeMeta := mkTypeMeta "" "" "".
Definition emptyStatus : CommonStatus := mkCommonStatus 0 [].

(** superstream_exchange.go *)
Definition SuperStreamExchange_Build : Exchange :=
  mkResource emptyType
    (childMeta superStreamExchangeSuffix {[AnnotationSuperStream := owner_name]})
    (mkExchangeSpec "" "" "" false false None noRef) emptyStatus.

Definition SuperStreamExchange_Update (vhost : string) (rabbitmqCluster : RabbitmqClusterReference)
    (exchange : Exchange) : error + Exchange :=
  let s := Spec exchange in
  setOwner (set_Spec (mkExchangeSpec owner_name vhost (Exchange_Type s) true
    (Exchange_AutoDelete s) (Exchange_Arguments s) rabbitmqCluster) exchange).

Definition SuperStreamExchange (vhost : string) (rabbitmqCluster : RabbitmqClusterReference) :
    ResourceBuilder :=
  mkResourceBuilder KExchange SuperStreamExchange_Build
    (SuperStreamExchange_Update vhost rabbitmqCluster) "Exchange".

Definition routingKeyLabels (routingKey : string) : gmap string string :=
  <[AnnotationSuperStream := owner_name]> {[AnnotationSuperStreamRoutingKey := routingKey]}.

(** superstream_partition.go *)
Definition SuperStreamPartition_Build (partitionIndex : nat) (routingKey : string) : Queue :=
  mkResource emptyType (childMeta (partitionSuffix partitionIndex) (routingKeyLabels routingKey))
    (mkQueueSpec "" "" "" None false false false None noRef "") emptyStatus.

Definition SuperStreamPartition_Update (routingKey vhost : string)
    (rabbitmqCluster : RabbitmqClusterReference) (partition : Queue) : error + Queue :=
  let s := Spec partition in
  setOwner (set_Spec (mkQueueSpec (RoutingKeyToPartitionName owner_name routingKey) vhost
    "stream" (Some true) (Queue_AutoDelete s) (Queue_DeleteIfEmpty s) (Queue_DeleteIfUnused s)
    (Queue_Arguments s) rabbitmqCluster (Queue_DeletionPolicy s)) partition).

Definition SuperStreamPartition (partitionIndex : nat) (routingKey vhost : string)
    (rabbitmqCluster : RabbitmqClusterReference) : ResourceBuilder :=
  mkResourceBuilder KQueue (SuperStreamPartition_Build partitionIndex routingKey)
    (SuperStreamPartition_Update routingKey vhost rabbitmqCluster) "Partition".

(** superstream_binding.go *)
Definition SuperStreamBinding_Build (partitionIndex : nat) (routingKey : string) : Binding :=
  mkResource emptyType (childMeta (bindingSuffix partitionIndex) (routingKeyLabels routingKey))
    (mkBindingSpec "" "" "" "" "" None noRef) emptyStatus.

Definition partitionOrder (partitionIndex : nat) : string :=
  "{" +:+ quoted "x-stream-partition-order" +:+ ": " +:+ Itoa (Z.of_nat partitionIndex) +:+ "}".

Definition SuperStreamBinding_Update (partitionIndex : nat) (routingKey vhost : string)
    (rabbitmqCluster : RabbitmqClusterReference) (binding : Binding) : error + Binding :=
  setOwner (set_Spec (mkBindingSpec vhost owner_name (owner_name +:+ "-" +:+ routingKey) "queue"
    routingKey (Some (mkRawExtension (Some (partitionOrder partitionIndex)))) rabbitmqCluster)
    binding).

Definition SuperStreamBinding (partitionIndex : nat) (routingKey vhost : string)
    (rabbitmqCluster : RabbitmqClusterReference) : ResourceBuilder :=
  mkResourceBuilder KBinding (SuperStreamBinding_Build partitionIndex routingKey)
    (SuperStreamBinding_Update partitionIndex routingKey vhost rabbitmqCluster) "Binding".

(** Lines 117 to 124 of the controller: one exchange, then for each routing key
    a partition and a binding. *)
Fixpoint partitionBuilders (index : nat) (routingKeys : list string) (vhost : string)
    (rmqClusterRef : RabbitmqClusterReference) : list ResourceBuilder :=
  match routingKeys with
  | [] => []
  | routingKey :: routingKeys =>
      SuperStreamPartition index routingKey vhost rmqClusterRef ::
      SuperStreamBinding index routingKey vhost rmqClusterRef ::
      partitionBuilders (S index) routingKeys vhost rmqClusterRef
  end.

Definition superStreamBuilders (routingKeys : list string) (vhost : string)
    (rmqClusterRef : RabbitmqClusterReference) : list ResourceBuilder :=
  SuperStreamExchange vhost rmqClusterRef :: partitionBuilders 0 routingKeys vhost rmqClusterRef.
End builders.

(** ** super_stream_controller.go *)

Section reconcile.
Context `{Libs}.

Definition generateRoutingKeys (superStream : SuperStream) : list string :=
  Itoa <$> seqZ 0 (SuperStream_Partitions (Spec superStream)).

Definition getRabbitmqClusterReference (rmq : RabbitmqClusterReference) (requestNamespace : string) :
    go (error + RabbitmqClusterReference) :=
  let namespace := if bool_decide (Ref_Namespace rmq = "") then requestNamespace
                   else Ref_Namespace rmq in
  got <- act (CGet KRabbitmqCluster (mkNamespacedName namespace (Ref_Name rmq)));;
  match got with
  | inl e =>
      Ret (inl (ErrWrap ("failed to get cluster from reference: " +:+ api_message e +:+
                         " Error: " +:+ err_Error ErrNoSuchRabbitmqCluster)
                  ErrNoSuchRabbitmqCluster))
  | inr cluster =>
      if negb (AllowedNamespace rmq requestNamespace cluster)
      then Ret (inl ErrResourceNotAllowed)
      else Ret (inr (mkRabbitmqClusterReference (Ref_Name rmq) namespace None))
  end.

Definition set_SuperStreamStatus (gen : Z) (cs : list Condition) (ps : list string)
    (s : SuperStream) : SuperStream :=
  set_Status (mkSuperStreamStatus gen cs ps) s.

Definition setStreamConditions (cs : list Condition) (s : SuperStream) : SuperStream :=
  set_SuperStreamStatus (SuperStreamStatus_ObservedGeneration (Status s)) cs
    (SuperStreamStatus_Partitions (Status s)) s.

Definition SetReconcileSuccess (superStream : SuperStream) (condition : Condition) :
    go (option error * SuperStream) :=
  retryStatusUpdate KSuperStream
    (set_SuperStreamStatus (Generation (resource_ObjectMeta superStream)) [condition]
       (SuperStreamStatus_Partitions (Status superStream)) superStream).

(** A [NotReady] status; a failed write is logged only. *)
Definition reportStreamNotReady (superStream : SuperStream) (msg : string) : go unit :=
  c <- ConditionOps.NotReady msg (SuperStreamStatus_Conditions (Status superStream));;
  SetReconcileSuccess superStream c;;;
  Ret tt.

(** The queue of a partition, when the resource is one. *)
Definition partitionName (k : kind) : object k -> list string :=
  match k with
  | KQueue => fun q => [Queue_Name (Spec q)]
  | _ => fun _ => []
  end.

(** Lines 126 to 152: the first failure stops the loop, with its resource type. *)
Fixpoint applyBuilders (builders : list ResourceBuilder) (partitionQueueNames : list string) :
    go ((string * error) + list string) :=
  match builders with
  | [] => Ret (inr partitionQueueNames)
  | builder :: builders =>
      ' (err, resource) <- RetryOnConflict (fun resource =>
          ' (_, apiError, resource) <-
            act (CCreateOrUpdate (builder_kind builder) resource (Update builder));;
          Ret (apiError, resource)) (Build builder);;
      match err with
      | Some e => Ret (inl (ResourceType builder, e))
      | None =>
          applyBuilders builders
            (if bool_decide (ResourceType builder = "Partition")
             then partitionQueueNames ++ partitionName (builder_kind builder) resource
             else partitionQueueNames)
      end
  end.

(** Lines 92 to 109: an error when the numbers differ. *)
Definition superStreamRoutingKeys (superStream : SuperStream) : error + list string :=
  let s := Spec superStream in
  let keys := SuperStream_RoutingKeys s in
  if bool_decide (keys = []) then inr (generateRoutingKeys superStream)
  else if negb (Z.eqb (Z.of_nat (length keys)) (SuperStream_Partitions s))
  then inl (ErrText ("expected number of routing keys (" +:+ Itoa (Z.of_nat (length keys)) +:+
              ") to match number of partitions (" +:+ Itoa (SuperStream_Partitions s) +:+ ")"))
  else inr keys.

Definition scaleDownNote : string :=
  "SuperStreams cannot be scaled down: an attempt was made to scale from %d partitions to %d".

(** Lines 65 to 167: the super stream has been read. *)
Definition reconcileStream (superStream : SuperStream) : go (Result * option error) :=
  let s := Spec superStream in
  ref <- getRabbitmqClusterReference (SuperStream_RabbitmqClusterReference s)
           (Namespace (resource_ObjectMeta superStream));;
  match ref with
  | inl e =>
      handleRMQReferenceParseError KSuperStream
        (fun o => SuperStreamStatus_Conditions (Status o)) setStreamConditions
        superStream (Some e)
  | inr rmqClusterRef =>
      let failed := "SuperStream " +:+ Name (resource_ObjectMeta superStream) +:+
                    " failed to reconcile" in
      let existing := Z.of_nat (length (SuperStreamStatus_Partitions (Status superStream))) in
      if Z.ltb (SuperStream_Partitions s) existing then
        act (Eventf KSuperStream superStream
               (mkK8sEvent EventTypeWarning "FailedScaleDown" deleteEventAction scaleDownNote
                  [ArgD existing; ArgD (SuperStream_Partitions s)]));;;
        reportStreamNotReady superStream failed;;;
        Ret (emptyResult, None)
      else
        match superStreamRoutingKeys superStream with
        | inl e =>
            reportStreamNotReady superStream failed;;;
            Ret (emptyResult, Some e)
        | inr routingKeys =>
            applied <- applyBuilders
              (superStreamBuilders superStream routingKeys (SuperStream_Vhost s) rmqClusterRef) [];;
            match applied with
            | inl (type, e) =>
                reportStreamNotReady superStream ("FailedReconcile" +:+ type);;;
                Ret (emptyResult, Some e)
            | inr partitionQueueNames =>
                ' (_, superStream) <- retryStatusUpdate KSuperStream
                  (set_SuperStreamStatus
                     (SuperStreamStatus_ObservedGeneration (Status superStream))
                     (SuperStreamStatus_Conditions (Status superStream))
                     partitionQueueNames superStream);;
                c <- ConditionOps.Ready (SuperStreamStatus_Conditions (Status superStream));;
                SetReconcileSuccess superStream c;;;
                Ret (emptyResult, None)
            end
        end
  end.

Definition SuperStream_Reconcile (req : NamespacedName) : go (Result * option error) :=
  got <- act (CGet KSuperStream req);;
  match got with
  | inl e => Ret (emptyResult, if IsNotFound e then None else Some (ErrAPI e))
  | inr superStream => reconcileStream superStream
  end.
End reconcile.
