(* ===== verification/SuperStreamProofs.v ===== *)
(** * Properties of super streams *)

From S2P Require Import Prelude.
From S2P Require Import GoStrings.
From S2P Require Import GoErrors.
From S2P Require Import Prog.
From S2P Require Import Api.
From S2P Require Import Values.
From S2P Require Import GoConv.
From S2P Require Import GoJsonProofs.
From S2P Require Import World.
From S2P Require Import Resources.
From S2P Require Import Settings.
From S2P Require Import ParseReference.
From S2P Require Import Utils.
From S2P Require Import Traces.
From S2P Require Import ReconcilerProofs.
From S2P Require Import ControllerProofs.
From S2P Require Import SuperStreams.

(** ** Names *)

(** The routing key of a partition is recovered from the name of its queue. *)
Lemma partition_name_recovered parent key :
  PartitionNameToRoutingKey parent (RoutingKeyToPartitionName parent key) = key.
Proof.
  unfold PartitionNameToRoutingKey, RoutingKeyToPartitionName.
  replace (parent +:+ "-" +:+ key) with ((parent +:+ "-") +:+ key) by apply string_app_assoc.
  apply TrimPrefix_app.
Qed.

Lemma RoutingKeyToPartitionName_inj parent key key' :
  RoutingKeyToPartitionName parent key = RoutingKeyToPartitionName parent key' -> key = key'.
Proof.
  intros Heq. unfold RoutingKeyToPartitionName in Heq.
  by apply (inj (String.append parent)), (inj (String.append "-")) in Heq.
Qed.

Section builders.
Context `{Libs}.

(** [n] partitions give [n] distinct routing keys. *)
Lemma generateRoutingKeys_length s :
  length (generateRoutingKeys s) = Z.to_nat (SuperStream_Partitions (Spec s)).
Proof. unfold generateRoutingKeys. by rewrite length_fmap, length_seqZ. Qed.

Lemma generateRoutingKeys_NoDup s : NoDup (generateRoutingKeys s).
Proof. apply NoDup_fmap_2; [intros ? ?; apply Itoa_inj|apply NoDup_seqZ]. Qed.

(** What a builder manages: a kind and a name in the namespace of the owner. *)
Definition builder_key (b : ResourceBuilder) : kind * string :=
  (builder_kind b, Name (meta (builder_kind b) (Build b))).

Definition queue_key (o : SuperStream) (j : nat) : kind * string :=
  (KQueue, owner_name o +:+ partitionSuffix j).
Definition binding_key (o : SuperStream) (j : nat) : kind * string :=
  (KBinding, owner_name o +:+ bindingSuffix j).

Lemma partitionSuffix_inj i j : partitionSuffix i = partitionSuffix j -> i = j.
Proof. intros H1%string_app_inj_l%Itoa_inj. lia. Qed.
Lemma bindingSuffix_inj i j : bindingSuffix i = bindingSuffix j -> i = j.
Proof. intros H1%string_app_inj_l%Itoa_inj. lia. Qed.

Lemma partitionBuilders_keys (o : SuperStream) i keys vhost ref x :
  x ∈ builder_key <$> partitionBuilders o i keys vhost ref <->
  exists j, i <= j < i + length keys /\ (x = queue_key o j \/ x = binding_key o j).
Proof.
  revert i. induction keys as [|key keys IH]; intros i; csimpl.
  - split; [by intros ?%elem_of_nil|]. intros (j & ? & _). lia.
  - rewrite !elem_of_cons, IH.
    change (builder_key (SuperStreamPartition o i key vhost ref)) with (queue_key o i).
    change (builder_key (SuperStreamBinding o i key vhost ref)) with (binding_key o i).
    split.
    + intros [->|[->|(j & Hj & Hx)]]; [exists i; split; [lia|auto]..|].
      exists j. split; [lia|done].
    + intros (j & Hj & Hx). destruct (decide (j = i)) as [->|]; [naive_solver|].
      right; right. exists j. split; [lia|done].
Qed.

Lemma setOwner_spec {S T} (o : SuperStream) (x x' : Resource S T) :
  setOwner o x = inr x' -> Spec x' = Spec x.
Proof. unfold setOwner. destruct (SetControllerReference _ _ _); [done|]. by intros [= <-]. Qed.

Lemma superStreamBuilders_length (o : SuperStream) keys vhost ref :
  length (superStreamBuilders o keys vhost ref) = 1 + 2 * length keys.
Proof.
  unfold superStreamBuilders. simpl. f_equal. generalize 0 at 1.
  induction keys as [|key keys IH]; intros i; simpl; [done|]. rewrite IH. lia.
Qed.

(** No two children have the same kind and name. *)
Lemma builders_distinct (o : SuperStream) keys vhost ref :
  length (superStreamBuilders o keys vhost ref) = 1 + 2 * length keys /\
  NoDup (builder_key <$> superStreamBuilders o keys vhost ref).
Proof.
  split; [apply superStreamBuilders_length|]. unfold superStreamBuilders.
  - csimpl. constructor.
    { rewrite partitionBuilders_keys. by intros (j & _ & [[=]|[=]]). }
    generalize 0. induction keys as [|key keys IH]; intros i; csimpl; [constructor|].
    change (builder_key (SuperStreamPartition o i key vhost ref)) with (queue_key o i).
    change (builder_key (SuperStreamBinding o i key vhost ref)) with (binding_key o i).
    constructor; [|constructor; [|apply IH]].
    + rewrite elem_of_cons, partitionBuilders_keys. intros [[=]|(j & Hj & [Hq|[=]])].
      injection Hq as Hq%string_app_inj_l%partitionSuffix_inj. lia.
    + rewrite partitionBuilders_keys. intros (j & Hj & [[=]|Hq]).
      injection Hq as Hq%string_app_inj_l%bindingSuffix_inj. lia.
Qed.

(** The exchange, partition queue and binding that the builders fill in name
    each other, are durable, share one vhost and cluster, and the routing key can
    be recovered from the queue name. *)
Lemma builders_wired (o : SuperStream) i key vhost ref ex ex' q q' b b' :
  SuperStreamExchange_Update o vhost ref ex = inr ex' ->
  SuperStreamPartition_Update o key vhost ref q = inr q' ->
  SuperStreamBinding_Update o i key vhost ref b = inr b' ->
  Binding_Source (Spec b') = Exchange_Name (Spec ex') /\
  Binding_Destination (Spec b') = Queue_Name (Spec q') /\
  Binding_DestinationType (Spec b') = "queue" /\
  Binding_RoutingKey (Spec b') = key /\
  PartitionNameToRoutingKey (owner_name o) (Queue_Name (Spec q')) = key /\
  Exchange_Durable (Spec ex') = true /\ Queue_Durable (Spec q') = Some true /\
  Queue_Type (Spec q') = "stream" /\
  Binding_Vhost (Spec b') = vhost /\ Queue_Vhost (Spec q') = vhost /\
  Exchange_Vhost (Spec ex') = vhost /\
  Binding_RabbitmqClusterReference (Spec b') = ref /\
  Queue_RabbitmqClusterReference (Spec q') = ref /\
  Exchange_RabbitmqClusterReference (Spec ex') = ref.
Proof.
  unfold SuperStreamExchange_Update, SuperStreamPartition_Update, SuperStreamBinding_Update.
  intros Hex Hq Hb. apply setOwner_spec in Hex as ->, Hq as ->, Hb as ->. simpl.
  repeat (split; [done|]). split; [apply partition_name_recovered|done].
Qed.

Lemma plain_partition_order : plain "x-stream-partition-order".
Proof.
  intros c. destruct c as [[] [] [] [] [] [] [] []];
    first [discriminate 1 | intros _; split_and!; [reflexivity|discriminate..]].
Qed.

(** The binding of partition i that the builder fills in is declared on the
    broker with the JSON-decoded argument x-stream-partition-order of value i,
    exactly up to 2^53, between the exchange of the super stream and the partition
    queue. *)
Lemma partition_order_declared (o : SuperStream) i key vhost ref b b' :
  (Z.of_nat i < 2 ^ 53)%Z ->
  SuperStreamBinding_Update o i key vhost ref b = inr b' ->
  exists f, f64_to_Z f = Z.of_nat i /\
    GenerateBindingInfo b' =
      inr (mkBindingInfo vhost (owner_name o) (RoutingKeyToPartitionName (owner_name o) key) "queue"
             key (Some [("x-stream-partition-order", Any_float64 f)]) "").
Proof.
  unfold SuperStreamBinding_Update. intros Hi Hb. apply setOwner_spec in Hb as Hb.
  destruct (decode_single _ i plain_partition_order Hi) as (f & Hf & Hfi).
  exists f. split; [done|]. unfold GenerateBindingInfo, unmarshal_arguments. rewrite Hb.
  cbn [Spec set_Spec Binding_Arguments].
  unfold raw_bytes, json_Unmarshal. cbn [Raw deref]. fold (partitionOrder i) in Hf. by rewrite Hf.
Qed.
End builders.

(** ** The reconciliation *)

Section reconcile.
Context `{LibsOk}.

(** Nothing but the super stream itself is written. *)
Definition writes_no_child (e : event result) : Prop :=
  match projT1 e with
  | CCreateOrUpdate _ _ _ => False
  | CUpdate KSuperStream _ | CStatusUpdate KSuperStream _ => True
  | CUpdate _ _ | CStatusUpdate _ _ => False
  | _ => True
  end.

(** No resource is created or updated, and the status keeps the partitions. *)
Definition keeps_partitions (s : SuperStream) (e : event result) : Prop :=
  writes_no_child e /\
  match projT1 e with
  | CStatusUpdate KSuperStream o =>
      SuperStreamStatus_Partitions (Status o) = SuperStreamStatus_Partitions (Status s)
  | _ => True
  end.

Lemma status_keeps (s o : SuperStream) :
  SuperStreamStatus_Partitions (Status o) = SuperStreamStatus_Partitions (Status s) ->
  all_calls (keeps_partitions s) (retryStatusUpdate KSuperStream o).
Proof.
  intros Ho. eapply wp_mono; [apply retryStatusUpdate_spec|]. simpl. intros tr _ (_ & _ & Hall).
  eapply Forall_impl; [exact Hall|]. by intros e [x ->].
Qed.

Lemma quiet_keeps s e : quiet e -> keeps_partitions s e.
Proof. unfold quiet, keeps_partitions, writes_no_child. by destruct (projT1 e). Qed.

Lemma reportStreamNotReady_keeps s msg :
  all_calls (keeps_partitions s) (reportStreamNotReady s msg).
Proof.
  unfold reportStreamNotReady, ConditionOps.NotReady, ConditionOps.lastTransitionTime.
  repeat all_calls_step; try by apply quiet_keeps. by apply status_keeps.
Qed.

Lemma Stream_inv req s tr out :
  exec (SuperStream_Reconcile req) (existT (P:=result) (CGet KSuperStream req) (inr s) :: tr) out ->
  exec (reconcileStream s) tr out.
Proof.
  unfold SuperStream_Reconcile. simpl. intros (x & tr' & Heq & Hx).
  pose proof (f_equal tail Heq) as Htl. simpl in Htl. subst tr'.
  apply (f_equal head) in Heq. simpl in Heq. by apply (inj Some), CGet_answer in Heq as <-.
Qed.

(** C20: With fewer partitions in the spec than in the status, Reconcile creates
    and changes no child resource, and every status it writes keeps the
    partitions. *)
Theorem scale_down_refused req s tr out :
  exec (SuperStream_Reconcile req) (existT (P:=result) (CGet KSuperStream req) (inr s) :: tr) out ->
  (SuperStream_Partitions (Spec s) <
     Z.of_nat (length (SuperStreamStatus_Partitions (Status s))))%Z ->
  Forall (keeps_partitions s) tr.
Proof.
  intros Hx%Stream_inv Hlt. revert tr out Hx. apply wp_exec. apply Z.ltb_lt in Hlt.
  change (all_calls (keeps_partitions s) (reconcileStream s)).
  unfold reconcileStream, getRabbitmqClusterReference, handleRMQReferenceParseError,
    removeFinalizer, ConditionOps.NotReady, ConditionOps.lastTransitionTime.
  cbv zeta. rewrite Hlt.
  repeat first [by apply reportStreamNotReady_keeps | by apply status_keeps | all_calls_step].
  all: first [by apply quiet_keeps | done].
Qed.

(** Without a routing key for each partition no child is written. *)
Lemma unmatched_keys_no_child s e :
  superStreamRoutingKeys s = inl e -> all_calls writes_no_child (reconcileStream s).
Proof.
  intros Hk. eapply wp_mono with (Q := fun tr _ => Forall (keeps_partitions s) tr).
  2:{ intros tr _ Hall. eapply Forall_impl; [exact Hall|]. by intros ev [? _]. }
  change (all_calls (keeps_partitions s) (reconcileStream s)).
  unfold reconcileStream, getRabbitmqClusterReference, handleRMQReferenceParseError,
    removeFinalizer, ConditionOps.NotReady, ConditionOps.lastTransitionTime.
  cbv zeta. rewrite Hk.
  repeat first [by apply reportStreamNotReady_keeps | by apply status_keeps | all_calls_step].
  all: first [by apply quiet_keeps | done].
Qed.

(** ** A successful reconciliation *)

(** [CreateOrUpdate] applies the mutate function to the object it found or
    made, and returns the result. *)
Definition honest (e : event result) : Prop :=
  match e with
  | existT (CCreateOrUpdate KQueue _ mutate) (_, None, q) => exists base, mutate base = inr q
  | _ => True
  end.

(** The resource of builder [b] was created or updated, with object [o] as the
    result. *)
Definition applied (b : ResourceBuilder) (o : object (builder_kind b)) (tr : go_trace) : Prop :=
  exists o0 x, existT (P:=result) (CCreateOrUpdate (builder_kind b) o0 (Update b))
    (x, None, o) ∈ tr.

Lemma applied_mono b o tr1 tr tr2 : applied b o tr -> applied b o (tr1 ++ tr ++ tr2).
Proof. intros (o0 & x & Hin). exists o0, x. set_solver. Qed.

(** The resources of the builders were created or updated one after the other. *)
Fixpoint applied_in_order (bs : list ResourceBuilder) (tr : go_trace) : Prop :=
  match bs with
  | [] => True
  | b :: bs =>
      exists tr1 tr2, tr = tr1 ++ tr2 /\ (exists o, applied b o tr1) /\ applied_in_order bs tr2
  end.

(** One turn of the loop. *)
Lemma apply_one_spec b :
  wp (RetryOnConflict (fun resource =>
        bind (act (CCreateOrUpdate (builder_kind b) resource (Update b)))
          (fun y => let '(_, apiError, resource) := y in Ret (apiError, resource)))
        (Build b))
    (fun tr out => exists err o, out = Returned (err, o) /\ (err = None -> applied b o tr)).
Proof.
  apply (wp_retry _ _ (fun _ tr out =>
    exists err o, out = Returned (err, o) /\ (err = None -> applied b o tr))).
  - intros o0. simpl. intros [[x err] o]. simpl. do 2 eexists. split; [done|].
    intros ->. exists o0, x. apply list_elem_of_here.
  - intros o0 tr e s1 tr' out _ _ (err & o & -> & Ho). do 2 eexists. split; [done|].
    intros He. rewrite <- (app_nil_r tr'). by apply applied_mono, Ho.
Qed.

Lemma applyBuilders_spec (o : SuperStream) i keys vhost ref names :
  wp (applyBuilders (partitionBuilders o i keys vhost ref) names) (fun tr out =>
    forall names', out = Returned (inr names') -> Forall honest tr ->
      names' = names ++ (RoutingKeyToPartitionName (owner_name o) <$> keys) /\
      applied_in_order (partitionBuilders o i keys vhost ref) tr).
Proof.
  revert i names. induction keys as [|key keys IH]; intros i names.
  { simpl. intros names' [= <-] _. by rewrite app_nil_r. }
  cbn [partitionBuilders applyBuilders].
  eapply wp_cut; [apply apply_one_spec|..]; [|naive_solver].
  intros tr1 [[e|] q] (err & q' & [= <- <-] & Hq); [done|]. specialize (Hq eq_refl).
  eapply wp_cut; [apply apply_one_spec|..]; [|naive_solver].
  intros tr2 [[e|] b] (err & b' & [= <- <-] & Hb); [done|]. specialize (Hb eq_refl).
  eapply wp_mono; [apply IH|]. simpl. intros tr3 out Hrest names' Hout Hhon.
  rewrite !Forall_app in Hhon. destruct Hhon as (Hh1 & _ & Hh3).
  destruct (Hrest names' Hout Hh3) as [-> Hall].
  assert (Queue_Name (Spec q) = RoutingKeyToPartitionName (owner_name o) key) as ->.
  { destruct Hq as (o0 & x & Hin). rewrite Forall_forall in Hh1. apply Hh1 in Hin as [base Hu].
    apply setOwner_spec in Hu as ->. done. }
  split; [csimpl; by rewrite <- app_assoc|].
  exists tr1, (tr2 ++ tr3). split; [done|]. split; [by exists q|].
  exists tr2, tr3. split; [done|]. split; [by exists b|done].
Qed.

(** The builders of a super stream, in order. *)
Lemma superStream_applied (o : SuperStream) keys vhost ref :
  wp (applyBuilders (superStreamBuilders o keys vhost ref) []) (fun tr out =>
    forall names, out = Returned (inr names) -> Forall honest tr ->
      names = RoutingKeyToPartitionName (owner_name o) <$> keys /\
      applied_in_order (superStreamBuilders o keys vhost ref) tr).
Proof.
  unfold superStreamBuilders. cbn [applyBuilders].
  eapply wp_cut; [apply apply_one_spec|..]; [|naive_solver].
  intros tr1 [[e|] ex] (err & ex' & [= <- <-] & Hex); [done|]. specialize (Hex eq_refl).
  eapply wp_mono; [apply applyBuilders_spec|]. simpl.
  intros tr2 out Hrest names Hout [_ Hh]%Forall_app.
  destruct (Hrest names Hout Hh) as [-> Hall]. split; [done|].
  exists tr1, tr2. split; [done|]. split; [by exists ex|done].
Qed.

(** The names of the partitions are sent to the API server. *)
Definition partitions_published (s : SuperStream) (names : list string) (tr : go_trace) : Prop :=
  exists o x, existT (P:=result) (CStatusUpdate KSuperStream o) x ∈ tr /\
    SuperStreamStatus_Partitions (Status o) = names /\
    resource_ObjectMeta o = resource_ObjectMeta s.

(** One routing key for each partition: those of the spec, or the numbers from 0
    when it has none. *)
Definition partition_keys (s : SuperStream) (keys : list string) : Prop :=
  length keys = Z.to_nat (SuperStream_Partitions (Spec s)) /\
  (SuperStream_RoutingKeys (Spec s) <> [] -> keys = SuperStream_RoutingKeys (Spec s)) /\
  (SuperStream_RoutingKeys (Spec s) = [] ->
     forall i, i < length keys -> keys !! i = Some (Itoa (Z.of_nat i))).

Lemma superStreamRoutingKeys_spec s keys :
  superStreamRoutingKeys s = inr keys -> partition_keys s keys.
Proof.
  unfold superStreamRoutingKeys, partition_keys. case_bool_decide as E.
  - intros [= <-]. rewrite generateRoutingKeys_length. split_and!; try done.
    intros _ i Hi. unfold generateRoutingKeys. rewrite list_lookup_fmap.
    by rewrite lookup_seqZ_lt by lia.
  - destruct (Z.eqb_spec (Z.of_nat (length (SuperStream_RoutingKeys (Spec s))))
      (SuperStream_Partitions (Spec s))) as [Hl|]; [|done].
    simpl. intros [= <-]. split_and!; try done. lia.
Qed.

(** The part of the reconciliation after the cluster has been resolved: the
    children in order, then the status. *)
Definition stream_done (s : SuperStream) (ref : RabbitmqClusterReference) (tr : go_trace) : Prop :=
  exists keys tr1 tr2, tr = tr1 ++ tr2 /\ partition_keys s keys /\
    applied_in_order (superStreamBuilders s keys (SuperStream_Vhost (Spec s)) ref) tr1 /\
    partitions_published s (RoutingKeyToPartitionName (owner_name s) <$> keys) tr2.

Lemma reported_error (s : SuperStream) msg (e : error) :
  wp (bind (reportStreamNotReady s msg) (fun _ => Ret (emptyResult, Some e))) (fun _ out =>
    forall res, out <> Returned (res, None)).
Proof.
  eapply (wp_cut _ _ (fun _ _ => True)); [by apply wp_exec|..]; [|done].
  by intros tr x _ res [=].
Qed.

Lemma stream_done_spec s ref failed vhost :
  vhost = SuperStream_Vhost (Spec s) ->
  wp (match superStreamRoutingKeys s with
      | inl e => bind (reportStreamNotReady s failed) (fun _ => Ret (emptyResult, Some e))
      | inr routingKeys =>
          bind (applyBuilders (superStreamBuilders s routingKeys vhost ref) []) (fun applied =>
            match applied with
            | inl (type, e) =>
                bind (reportStreamNotReady s ("FailedReconcile" +:+ type))
                  (fun _ => Ret (emptyResult, Some e))
            | inr partitionQueueNames =>
                bind (retryStatusUpdate KSuperStream
                  (set_SuperStreamStatus (SuperStreamStatus_ObservedGeneration (Status s))
                     (SuperStreamStatus_Conditions (Status s)) partitionQueueNames s))
                  (fun x => match x with (_, superStream) =>
                    bind (ConditionOps.Ready (SuperStreamStatus_Conditions (Status superStream)))
                      (fun c => bind (SetReconcileSuccess superStream c)
                         (fun _ => Ret (emptyResult, None))) end)
            end)
      end) (fun tr out =>
    forall res, out = Returned (res, None) -> Forall honest tr -> stream_done s ref tr).
Proof.
  intros ->. unfold stream_done. destruct (superStreamRoutingKeys s) as [e|keys] eqn:Hkeys.
  { eapply wp_mono; [apply reported_error|]. intros tr out Hne res Hout. by destruct (Hne res). }
  eapply wp_cut; [apply superStream_applied|..]; [|naive_solver].
  intros tr1 [[type e]|names] Happ.
  { eapply wp_mono; [apply reported_error|]. intros tr out Hne res Hout. by destruct (Hne res). }
  eapply wp_cut; [apply retryStatusUpdate_spec|..]; [|naive_solver].
  intros tr2 [err s'] (_ & Hne & Hall). apply wp_exec. intros tr3 out _ res _ [Hh _]%Forall_app.
  destruct (Happ names eq_refl Hh) as [-> Hb]. exists keys, tr1, (tr2 ++ tr3). split; [done|].
  split; [by apply superStreamRoutingKeys_spec|]. split; [exact Hb|].
  destruct tr2 as [|e2 tr2]; [done|]. apply Forall_cons in Hall as [[x ->] _].
  eexists _, x. split; [set_solver|done].
Qed.

(** C19: When Reconcile of a super stream returns no error for a readable,
    allowing cluster and no scale-down, there is one routing key for each
    partition, the exchange and then the queue and the binding of each partition
    were created or updated one after the other, and after them a status that
    names the partition queues was sent to the API server, whose refusal the code
    would only log. *)
Theorem superstream_declared req s c tr res :
  let ref := SuperStream_RabbitmqClusterReference (Spec s) in
  let ns := Namespace (resource_ObjectMeta s) in
  let target := if bool_decide (Ref_Namespace ref = "") then ns else Ref_Namespace ref in
  exec (SuperStream_Reconcile req)
    (existT (P:=result) (CGet KSuperStream req) (inr s) ::
     existT (P:=result) (CGet KRabbitmqCluster (mkNamespacedName target (Ref_Name ref))) (inr c) ::
     tr) (Returned (res, None)) ->
  AllowedNamespace ref ns c = true -> Forall honest tr ->
  (Z.of_nat (length (SuperStreamStatus_Partitions (Status s))) <=
     SuperStream_Partitions (Spec s))%Z ->
  stream_done s (mkRabbitmqClusterReference (Ref_Name ref) target None) tr.
Proof.
  intros ref ns target Hx%Stream_inv Hallow Hhon Hle.
  unfold reconcileStream, getRabbitmqClusterReference in Hx. fold ref ns target in Hx.
  cbv zeta in Hx. cbn [bind act exec] in Hx. destruct Hx as (x & tr' & Heq & Hx).
  pose proof (f_equal tail Heq) as Htl. simpl in Htl. subst tr'.
  apply (f_equal head) in Heq. simpl in Heq. apply (inj Some), CGet_answer in Heq as <-.
  rewrite Hallow in Hx. cbn [negb bind] in Hx.
  rewrite (proj2 (Z.ltb_ge _ _) Hle) in Hx.
  exact (proj1 (wp_exec _ _) (stream_done_spec s _ _ _ eq_refl) _ _ Hx res eq_refl Hhon).
Qed.
End reconcile.
