(* ===== verification/SettingsProofs.v ===== *)
(** * What the generated settings say *)

From S2P Require Import Prelude.
From S2P Require Import GoStrings.
From S2P Require Import GoErrors.
From S2P Require Import Prog.
From S2P Require Import Api.
From S2P Require Import Values.
From S2P Require Import World.
From S2P Require Import Resources.
From S2P Require Import Settings.
From S2P Require Import Random.
From Stdlib Require Import Ascii String.

Section settings.
Context `{Libs}.

(** The message TTL sent is the TTL of the spec reduced to a signed 32-bit
    integer: unchanged exactly when it fits. *)
Lemma federation_ttl (f : Federation) uri :
  let ttl := Federation_MessageTTL (Spec f) in
  let sent := FederationDefinition_MessageTTL (GenerateFederationDefinition f uri) in
  (- 2 ^ 31 <= sent < 2 ^ 31)%Z /\ ((sent - ttl) mod 2 ^ 32 = 0)%Z /\
  (sent = ttl <-> (- 2 ^ 31 <= ttl < 2 ^ 31)%Z).
Proof.
  intros ttl sent. assert (sent = int32_of ttl) as -> by done.
  pose proof (int32_of_range ttl). split; [done|]. split; [apply int32_of_congr|].
  split; [intros <-; done|apply int32_of_id].
Qed.

(** The URIs of a federation are the comma-separated parts of the secret,
    none lost and none with a comma. *)
Lemma federation_uris (f : Federation) uri :
  let uris := FederationDefinition_Uri (GenerateFederationDefinition f uri) in
  Join uris ","%char = uri /\ uris <> [] /\ Forall (fun u => contains u ","%char = false) uris.
Proof.
  simpl. split; [apply Join_Split|]. split; [apply Split_nonempty|apply Split_no_sep].
Qed.

(** The properties key of a binding without arguments is a tilde for an empty
    routing key and otherwise the key with its tildes escaped. *)
Lemma properties_key (b : Binding) :
  Binding_Arguments (Spec b) = None ->
  let key := GeneratePropertiesKey b in
  (Binding_RoutingKey (Spec b) = "" <-> key = "~") /\
  (Binding_RoutingKey (Spec b) <> "" -> contains key "~"%char = false /\ key <> "") /\
  (contains (Binding_RoutingKey (Spec b)) "~"%char = false ->
   Binding_RoutingKey (Spec b) <> "" -> key = Binding_RoutingKey (Spec b)).
Proof.
  intros Hargs key. unfold key, GeneratePropertiesKey. rewrite Hargs.
  case_bool_decide as E; [naive_solver|].
  assert (Hc : contains (ReplaceAll (Binding_RoutingKey (Spec b)) "~"%char "%7E") "~"%char = false)
    by (by apply ReplaceAll_contains).
  split; [|split].
  - split; [done|]. intros Heq. by rewrite Heq in Hc.
  - intros _. split; [done|]. intros Heq%ReplaceAll_empty; done.
  - intros Hn _. by apply ReplaceAll_id.
Qed.

(** ** Random names *)

(** A random name of n bytes has 4*ceil(n/3) letters and decodes to the
    random bytes. *)
Lemma random_string (h : forall a, result a) n bytes :
  h (RandRead n) = inr bytes -> String.length bytes = n ->
  exists s, (run (fun a u => (h a, u)) (RandomEncodedString n) tt).1.2 = Returned (inr s) /\
    String.length s = (4 * ((n + 2) / 3))%nat /\ DecodeString s = bytes.
Proof.
  intros Hh Hlen. unfold RandomEncodedString. simpl. rewrite Hh. simpl. eexists. split; [done|].
  split; [by rewrite EncodeToString_length, Hlen|apply decode_encode].
Qed.
End settings.

(** ** Conditions *)

(** The last condition of a type in a list. *)
Definition newCondition (t : ConditionType) (cs : list Condition) : option Condition :=
  List.find (fun c => bool_decide (Condition_Type c = t)) (rev cs).

(** Setting conditions on a user keeps one condition per type, replaces those
    given and leaves the rest of the object alone. *)
Lemma user_conditions (u : User) cs :
  NoDup (Condition_Type <$> UserStatus_Conditions (Status u)) ->
  let u' := User_SetStatusConditions cs u in
  NoDup (Condition_Type <$> UserStatus_Conditions (Status u')) /\
  (forall t, ConditionOps.findCondition t (UserStatus_Conditions (Status u')) =
     match newCondition t cs with
     | Some c => Some c
     | None => ConditionOps.findCondition t (UserStatus_Conditions (Status u))
     end) /\
  resource_ObjectMeta u' = resource_ObjectMeta u /\ Spec u' = Spec u /\
  UserStatus_Username (Status u') = UserStatus_Username (Status u).
Proof.
  intros Hnd u'. destruct (User_SetStatusConditions_frame cs u) as (Hm & _ & Hs & _ & _ & Hu).
  fold u' in Hm, Hs, Hu. split; [|split; [|done]]; clear Hm Hs Hu.
  - subst u'. unfold User_SetStatusConditions. revert u Hnd.
    induction cs as [|c cs IH]; intros u Hnd; simpl; [done|].
    apply IH. simpl. by apply ConditionOps.upsert_NoDup.
  - subst u'. unfold User_SetStatusConditions, newCondition. clear Hnd. revert u.
    induction cs as [|c cs IH]; intros u t; simpl; [done|]. rewrite IH. simpl.
    change (rev cs ++ [c]) with (rev cs ++ rev [c]). rewrite <- rev_app_distr.
    change ([c] ++ cs) with (c :: cs).
    rewrite (last_match_app _ [c] cs : List.find _ (rev (c :: cs)) = _). simpl.
    destruct (List.find _ (rev cs)) as [d|]; [done|].
    case_bool_decide as E; [by rewrite <- E, ConditionOps.findCondition_upsert_same|].
    by apply ConditionOps.findCondition_upsert_other.
Qed.

(** A Ready condition keeps its transition time while the status stays True
    and takes the time of the clock when it changes. *)
Lemma ready_transition_time (h : forall a, result a) old :
  match (run (fun a u => (h a, u)) (ConditionOps.Ready old) tt).1.2 with
  | Returned c =>
      Condition_Type c = ready /\ Condition_Status c = ConditionTrue /\
      (forall d, ConditionOps.findCondition ready old = Some d ->
         Condition_Status d = ConditionTrue ->
         Condition_LastTransitionTime c = Condition_LastTransitionTime d) /\
      ((forall d, d ∈ old -> Condition_Type d = ready -> Condition_Status d <> ConditionTrue) ->
         Condition_LastTransitionTime c = h Now)
  | Panicked _ => False
  end.
Proof.
  unfold ConditionOps.Ready, ConditionOps.lastTransitionTime.
  destruct (ConditionOps.sameTransition ready ConditionTrue old) as [t|] eqn:E; simpl.
  - split; [done|]. split; [done|]. split.
    + revert E. induction old as [|d old IH]; simpl; [done|]. intros E e.
      case_bool_decide as Ht; simpl in *; [|by apply IH].
      intros [= <-] Hs. rewrite bool_decide_eq_true_2 in E by done. by injection E.
    + intros Hno. exfalso. revert E Hno. induction old as [|d old IH]; simpl; [done|].
      intros E Hno. destruct (decide (Condition_Type d = ready)) as [Ht|Ht];
        [rewrite (bool_decide_eq_true_2 _ Ht) in E|rewrite (bool_decide_eq_false_2 _ Ht) in E];
        simpl in E; [|eapply IH; [exact E|]; set_solver].
      rewrite bool_decide_eq_false_2 in E by (apply Hno; set_solver).
      eapply IH; [exact E|]. set_solver.
  - split; [done|]. split; [done|]. split; [|done].
    intros d. revert E. induction old as [|d' old IH]; simpl; [done|].
    intros E. case_bool_decide as Ht; simpl in *; [|by apply IH].
    intros [= <-] Hs. by rewrite bool_decide_eq_true_2 in E.
Qed.
