(* ===== verification/GoRegexp.v ===== *)
(** * Go package regexp

    Regular expressions over bytes, with their language, and the derivative
    matcher that decides it.  [regexp.MatchString] with an expression between
    [^] and [$] asks whether the whole text is in the language. *)

From S2P Require Import Prelude.
From S2P Require Import GoStrings.
From Stdlib Require Import Ascii.

Inductive re :=
| RNone
| REps
| RByte (p : ascii -> bool)
| RSeq (r1 r2 : re)
| RAlt (r1 r2 : re)
| RStar (r : re).

(** [r?] *)
Definition ROpt (r : re) : re := RAlt REps r.

Inductive lang : re -> string -> Prop :=
| lang_eps : lang REps ""
| lang_byte p c : p c = true -> lang (RByte p) (String c "")
| lang_seq r1 r2 s1 s2 : lang r1 s1 -> lang r2 s2 -> lang (RSeq r1 r2) (s1 +:+ s2)
| lang_alt_l r1 r2 s : lang r1 s -> lang (RAlt r1 r2) s
| lang_alt_r r1 r2 s : lang r2 s -> lang (RAlt r1 r2) s
| lang_star_nil r : lang (RStar r) ""
| lang_star_cons r s1 s2 : lang r s1 -> lang (RStar r) s2 -> lang (RStar r) (s1 +:+ s2).

#[export] Hint Constructors lang : topology.

Fixpoint nullable (r : re) : bool :=
  match r with
  | RNone | RByte _ => false
  | REps | RStar _ => true
  | RSeq r1 r2 => nullable r1 && nullable r2
  | RAlt r1 r2 => nullable r1 || nullable r2
  end.

Fixpoint deriv (c : ascii) (r : re) : re :=
  match r with
  | RNone | REps => RNone
  | RByte p => if p c then REps else RNone
  | RSeq r1 r2 =>
      if nullable r1 then RAlt (RSeq (deriv c r1) r2) (deriv c r2) else RSeq (deriv c r1) r2
  | RAlt r1 r2 => RAlt (deriv c r1) (deriv c r2)
  | RStar r => RSeq (deriv c r) (RStar r)
  end.

Fixpoint re_match (r : re) (s : string) : bool :=
  match s with
  | "" => nullable r
  | String c s => re_match (deriv c r) s
  end.

(** ** The matcher decides the language *)

Lemma lang_byte_inv p s : lang (RByte p) s -> exists c, s = String c "" /\ p c = true.
Proof. intros Hl. inv Hl. eauto. Qed.

Lemma lang_seq_inv r1 r2 s :
  lang (RSeq r1 r2) s -> exists s1 s2, s = s1 +:+ s2 /\ lang r1 s1 /\ lang r2 s2.
Proof. intros Hl. inv Hl. eauto. Qed.

Lemma lang_alt_inv r1 r2 s : lang (RAlt r1 r2) s -> lang r1 s \/ lang r2 s.
Proof. intros Hl. inv Hl; eauto. Qed.

Lemma nullable_lang r : nullable r = true -> lang r "".
Proof.
  induction r as [| | |r1 IH1 r2 IH2|r1 IH1 r2 IH2|r IH]; simpl; intros Hn; try done;
    auto with topology.
  - apply andb_true_iff in Hn as [H1 H2]. apply (lang_seq r1 r2 "" ""); auto.
  - apply orb_true_iff in Hn as [H1|H2]; auto with topology.
Qed.

Lemma lang_nullable r s : lang r s -> s = "" -> nullable r = true.
Proof.
  induction 1 as [| | ? ? s1 s2 ? IH1 ? IH2| ? ? ? ? IH| ? ? ? ? IH| |]; intros Hs; try done;
    simpl.
  - apply string_app_empty in Hs as [-> ->]. by rewrite IH1, IH2.
  - by rewrite IH.
  - by rewrite IH, orb_true_r.
Qed.

Lemma deriv_lang c r s : lang (deriv c r) s -> lang r (String c s).
Proof.
  revert s. induction r as [| |p|r1 IH1 r2 IH2|r1 IH1 r2 IH2|r IH]; simpl; intros s Hl.
  - inv Hl.
  - inv Hl.
  - destruct (p c) eqn:E; inv Hl. auto with topology.
  - assert (Hseq : lang (RSeq (deriv c r1) r2) s -> lang (RSeq r1 r2) (String c s)).
    { intros (s1 & s2 & -> & H1 & H2)%lang_seq_inv. apply (lang_seq r1 r2 (String c s1)); auto. }
    destruct (nullable r1) eqn:E; [|by apply Hseq].
    apply lang_alt_inv in Hl as [Hl|Hl]; [by apply Hseq|].
    apply (lang_seq r1 r2 ""); auto using nullable_lang.
  - apply lang_alt_inv in Hl as [Hl|Hl]; auto with topology.
  - apply lang_seq_inv in Hl as (s1 & s2 & -> & H1 & H2).
    apply (lang_star_cons r (String c s1)); auto.
Qed.

Lemma lang_deriv c r s s' : lang r s' -> s' = String c s -> lang (deriv c r) s.
Proof.
  intros Hl. revert s.
  induction Hl as [|p d Hp|r1 r2 s1 s2 H1 IH1 H2 IH2|r1 r2 s' H1 IH1|r1 r2 s' H2 IH2|
                   |r s1 s2 H1 IH1 H2 IH2];
    intros s Hs; simpl; simplify_eq; auto with topology.
  - rewrite Hp. constructor.
  - destruct s1 as [|d s1]; simplify_eq/=.
    + rewrite (lang_nullable _ _ H1) by done. apply lang_alt_r. by apply IH2.
    + destruct (nullable r1); [apply lang_alt_l|]; constructor; auto.
  - destruct s1 as [|d s1]; simplify_eq/=.
    + by apply IH2.
    + constructor; auto.
Qed.

Lemma re_match_lang r s : re_match r s = true <-> lang r s.
Proof.
  revert r. induction s as [|c s IH]; intros r; simpl.
  - split; [apply nullable_lang|]. intros Hl. by eapply lang_nullable.
  - rewrite IH. split; [apply deriv_lang|]. intros Hl. by eapply lang_deriv.
Qed.

(** ** Languages of the common shapes *)

Lemma lang_opt r s : lang (ROpt r) s <-> s = "" \/ lang r s.
Proof.
  split; [intros [Hl|Hl]%lang_alt_inv; [inv Hl|]; auto|].
  intros [->|Hl]; unfold ROpt; auto with topology.
Qed.

(** Every byte satisfies [p]. *)
Fixpoint all_bytes (p : ascii -> bool) (s : string) : bool :=
  match s with "" => true | String c s => p c && all_bytes p s end.

Lemma lang_star_byte p s : lang (RStar (RByte p)) s <-> all_bytes p s = true.
Proof.
  split.
  - remember (RStar (RByte p)) as r eqn:Er. induction 1; simplify_eq; [done|].
    apply lang_byte_inv in H as (c & -> & Hc). simpl. by rewrite Hc, IHlang2.
  - induction s as [|c s IH]; simpl; [auto with topology|].
    intros [Hc Hs]%andb_true_iff. apply (lang_star_cons _ (String c "")); auto with topology.
Qed.
