(* ===== verification/GoFlag.v ===== *)
(** * Command-line flags (Go package flag)

    [flag.Parse] on the default flag set, as main.go uses it.  The variables of
    the flags are a state; a flag that another package has defined keeps its own
    variable and may only refuse its value. *)

From S2P Require Import Prelude.
From S2P Require Import GoStrings.
From S2P Require Import GoConv.
From Stdlib Require Import Ascii.

(** [flag.Value] of a defined flag. *)
Inductive flag_value (S : Type) :=
| StringVar (set : string -> S -> S)
| BoolVar (set : bool -> S -> S)
| OtherVar (IsBoolFlag : bool) (Set_error : string -> option string).
Arguments StringVar {S} set.
Arguments BoolVar {S} set.
Arguments OtherVar {S} IsBoolFlag Set_error.

(** What ends the process: exit code 0 for [ErrHelp], 2 otherwise. *)
Inductive flag_error :=
| ErrHelp
| BadSyntax (s : string)
| NotDefined (name : string)
| InvalidBool (value name : string)
| NeedsArgument (name : string)
| InvalidValue (value name err : string).

(** The text before the first equals sign, and the text behind it. *)
Fixpoint cutEquals (s : string) : string * option string :=
  match s with
  | EmptyString => ("", None)
  | String c s =>
      if Ascii.eqb c "=" then ("", Some s)
      else let '(name, value) := cutEquals s in (String c name, value)
  end.

(** What an argument is for [parseOne]: no flag, the end of the flags, or the
    name of a flag with the value behind its equals sign. *)
Inductive flag_arg :=
| NoFlag
| EndOfFlags
| BadFlag
| Flag (name : string) (value : option string).

Definition named (name : string) : flag_arg :=
  match name with
  | EmptyString => BadFlag
  | String c rest =>
      if Ascii.eqb c "-" || Ascii.eqb c "=" then BadFlag
      else let '(name, value) := cutEquals rest in Flag (String c name) value
  end.

Definition flagArg (s : string) : flag_arg :=
  match s with
  | String "-" (String "-" EmptyString) => EndOfFlags
  | String "-" (String "-" name) => named name
  | String "-" (String c rest) => named (String c rest)
  | _ => NoFlag
  end.

Section parse.
Context {S : Type} (formal : string -> option (flag_value S)).

Definition boolSet (set : bool -> S -> S) (name value : string) (vars : S) : flag_error + S :=
  match ParseBool value with
  | Some b => inr (set b vars)
  | None => inl (InvalidBool value name)
  end.

(** [Set] of the value of a flag that takes one. *)
Definition valueSet (f : flag_value S) (name value : string) (vars : S) : flag_error + S :=
  match f with
  | StringVar set => inr (set value vars)
  | BoolVar set => boolSet set name value vars
  | OtherVar _ Set_error =>
      match Set_error value with
      | Some e => inl (InvalidValue value name e)
      | None => inr vars
      end
  end.

Definition isBoolFlag (f : flag_value S) : bool :=
  match f with StringVar _ => false | BoolVar _ => true | OtherVar b _ => b end.

(** The loop over [parseOne]: the variables and the arguments that are left. *)
Fixpoint Parse (args : list string) (vars : S) : flag_error + (S * list string) :=
  match args with
  | [] => inr (vars, [])
  | s :: rest =>
      match flagArg s with
      | NoFlag => inr (vars, args)
      | EndOfFlags => inr (vars, rest)
      | BadFlag => inl (BadSyntax s)
      | Flag name value =>
          match formal name with
          | None => if bool_decide (name = "help" \/ name = "h") then inl ErrHelp
                    else inl (NotDefined name)
          | Some f =>
              if isBoolFlag f then
                match valueSet f name (deref value "true") vars with
                | inl e => inl e
                | inr vars => Parse rest vars
                end
              else
                match value, rest with
                | Some value, _ =>
                    match valueSet f name value vars with
                    | inl e => inl e
                    | inr vars => Parse rest vars
                    end
                | None, value :: rest =>
                    match valueSet f name value vars with
                    | inl e => inl e
                    | inr vars => Parse rest vars
                    end
                | None, [] => inl (NeedsArgument name)
                end
          end
      end
  end.

(** ** Lemmas *)

(** Setting the flag keeps [P]. *)
Definition flag_keeps (P : S -> Prop) (f : flag_value S) : Prop :=
  forall name value vars vars', valueSet f name value vars = inr vars' -> P vars -> P vars'.

(** What no flag among the arguments changes is as it was. *)
Lemma Parse_keeps (P : S -> Prop) args vars vars' rest :
  (forall a name value f, a ∈ args -> flagArg a = Flag name value -> formal name = Some f ->
     flag_keeps P f) ->
  Parse args vars = inr (vars', rest) -> P vars -> P vars'.
Proof.
  revert vars. induction args as [args IH] using (induction_ltof1 _ length). unfold ltof in IH.
  intros vars Hk. destruct args as [|a args]; [by intros [= <- _]|]. cbn [Parse].
  destruct (flagArg a) as [| | |name value] eqn:Ha; [by intros [= <- _]..|done|].
  destruct (formal name) as [f|] eqn:Hf; [|by case_bool_decide].
  pose proof (Hk a name value f (list_elem_of_here _ _) Ha Hf) as Hkeep.
  assert (Hrest : forall args' v, length args' <= length args -> args' ⊆ args ->
    match valueSet f name v vars with inl e => inl e | inr vars => Parse args' vars end =
      inr (vars', rest) -> P vars -> P vars').
  { intros args' v Hlen Hsub. destruct (valueSet f name v vars) as [e|vars2] eqn:Hv; [done|].
    intros Hp HP. eapply (IH args'); [simpl; lia| |exact Hp|by eapply Hkeep].
    intros a' name' value' f' Hin. apply Hk. set_solver. }
  destruct (isBoolFlag f); [by apply Hrest|]. destruct value as [value|]; [by apply Hrest|].
  destruct args as [|value args]; [done|]. apply Hrest; [simpl; lia|set_solver].
Qed.
End parse.
