(* ===== verification/Setup.v ===== *)
(** * Starting the operator (cmd/main.go)

    What [main] makes of the command line and the environment of the process: the
    options of the manager and of its servers, the controllers, the webhooks and
    the checks.  [os.Exit] is [inl] with the message that was logged.  What
    controller-runtime does with them is a parameter: it may fail. *)

From S2P Require Import Prelude.
From S2P Require Import GoStrings.
From S2P Require Import Api.
From S2P Require Import GoUrl.
From S2P Require Import GoRegexp.
From S2P Require Import GoConv.
From S2P Require Import GoFlag.
From S2P Require Import TopologyReconciler.
From Stdlib Require Import Ascii.

(** The process: its environment variables and the files it can read. *)
Record process := mkProcess {
  environ : gmap string string;
  ReadFile : string -> string + string
}.

Definition LookupEnv (p : process) (name : string) : option string := environ p !! name.
Definition Getenv (p : process) (name : string) : string := deref (LookupEnv p name) "".

(** [os.Exit(1)] after a logged message, or a value. *)
Definition or_exit (A : Type) : Type := string + A.
Definition proceed {A B} (m : or_exit A) (f : A -> or_exit B) : or_exit B :=
  match m with inl why => inl why | inr x => f x end.
Notation "x <-! m ; k" := (proceed m (fun x => k))
  (at level 100, m at next level, right associativity) : go_scope.
Local Open Scope go_scope.

(** ** Environment variables *)

Definition KubernetesInternalDomainEnvVar : string := "MESSAGING_DOMAIN_NAME".
Definition OperatorNamespaceEnvVar : string := "OPERATOR_NAMESPACE".
Definition EnableWebhooksEnvVar : string := "ENABLE_WEBHOOKS".
Definition ControllerSyncPeriodEnvVar : string := "SYNC_PERIOD".
Definition ConnectUsingPlainHTTPEnvVar : string := "CONNECT_USING_PLAIN_HTTP".
Definition MaxConcurrentReconcilesEnvVar : string := "MAX_CONCURRENT_RECONCILES".

Definition is_dot (c : ascii) : bool := Ascii.eqb c ".".
Definition is_lower_digit (c : ascii) : bool := is_lower c || is_digit c.
Definition is_lower_digit_hyphen (c : ascii) : bool := is_lower_digit c || Ascii.eqb c "-".

(** [[a-z]([-a-z0-9]*[a-z0-9])?] *)
Definition domainLabel : re :=
  RSeq (RByte is_lower)
    (ROpt (RSeq (RStar (RByte is_lower_digit_hyphen)) (RByte is_lower_digit))).

(** The allow-list expression: [\.?] label [(\.] label [)*] *)
Definition domainRegexp : re :=
  RSeq (ROpt (RByte is_dot))
    (RSeq domainLabel (RStar (RSeq (RByte is_dot) domainLabel))).

Definition sanitizeClusterDomainInput (clusterDomain : string) : string :=
  if bool_decide (clusterDomain = "") then ""
  else if negb (re_match domainRegexp clusterDomain) then ""
  else if negb (HasPrefix clusterDomain ".") then "." +:+ clusterDomain
  else clusterDomain.

Definition unable (envName : string) : string := "unable to parse provided '" +:+ envName +:+ "'".

(** [time.Duration(durationInt) * time.Second] is a product of [int64]. *)
Definition getEnvInDuration (p : process) (envName : string) : or_exit Z :=
  match LookupEnv p envName with
  | Some durationStr =>
      match ParseInt durationStr with
      | Some durationInt => inr (int64_of (durationInt * 1000000000))
      | None => inl (unable envName)
      end
  | None => inr 0%Z
  end.

Definition getBoolEnv (p : process) (envName : string) : or_exit bool :=
  match LookupEnv p envName with
  | Some boolStr =>
      match ParseBool boolStr with Some b => inr b | None => inl (unable envName) end
  | None => inr false
  end.

Definition getIntEnv (p : process) (envName : string) : or_exit Z :=
  match LookupEnv p envName with
  | Some intStr => match Atoi intStr with Some n => inr n | None => inl (unable envName) end
  | None => inr 0%Z
  end.

Definition namespaceFile : string := "/var/run/secrets/kubernetes.io/serviceaccount/namespace".

Definition getOperatorNamespace (p : process) : string + string :=
  let ns := Getenv p OperatorNamespaceEnvVar in
  if negb (bool_decide (ns = "")) then inr ns
  else match ReadFile p namespaceFile with
       | inl e => inl ("failed to read namespace from environment variable or service account file: "
                       +:+ e)
       | inr nsBytes => inr (TrimSpace nsBytes)
       end.

(** ** The command line *)

Record Flags := mkFlags {
  metricsAddr : string;
  probeAddr : string;
  enableLeaderElection : bool;
  secureMetrics : bool;
  webhookCertPath : string;
  webhookCertName : string;
  webhookCertKey : string;
  metricsCertPath : string;
  metricsCertName : string;
  metricsCertKey : string;
  enableHTTP2 : bool
}.

Definition defaultFlags : Flags :=
  mkFlags "0" ":8081" false true "" "tls.crt" "tls.key" "" "tls.crt" "tls.key" false.

Definition set_metricsAddr v f := mkFlags v (probeAddr f) (enableLeaderElection f) (secureMetrics f)
  (webhookCertPath f) (webhookCertName f) (webhookCertKey f) (metricsCertPath f) (metricsCertName f)
  (metricsCertKey f) (enableHTTP2 f).
Definition set_probeAddr v f := mkFlags (metricsAddr f) v (enableLeaderElection f) (secureMetrics f)
  (webhookCertPath f) (webhookCertName f) (webhookCertKey f) (metricsCertPath f) (metricsCertName f)
  (metricsCertKey f) (enableHTTP2 f).
Definition set_enableLeaderElection v f := mkFlags (metricsAddr f) (probeAddr f) v (secureMetrics f)
  (webhookCertPath f) (webhookCertName f) (webhookCertKey f) (metricsCertPath f) (metricsCertName f)
  (metricsCertKey f) (enableHTTP2 f).
Definition set_secureMetrics v f := mkFlags (metricsAddr f) (probeAddr f) (enableLeaderElection f) v
  (webhookCertPath f) (webhookCertName f) (webhookCertKey f) (metricsCertPath f) (metricsCertName f)
  (metricsCertKey f) (enableHTTP2 f).
Definition set_webhookCertPath v f := mkFlags (metricsAddr f) (probeAddr f) (enableLeaderElection f)
  (secureMetrics f) v (webhookCertName f) (webhookCertKey f) (metricsCertPath f) (metricsCertName f)
  (metricsCertKey f) (enableHTTP2 f).
Definition set_webhookCertName v f := mkFlags (metricsAddr f) (probeAddr f) (enableLeaderElection f)
  (secureMetrics f) (webhookCertPath f) v (webhookCertKey f) (metricsCertPath f) (metricsCertName f)
  (metricsCertKey f) (enableHTTP2 f).
Definition set_webhookCertKey v f := mkFlags (metricsAddr f) (probeAddr f) (enableLeaderElection f)
  (secureMetrics f) (webhookCertPath f) (webhookCertName f) v (metricsCertPath f) (metricsCertName f)
  (metricsCertKey f) (enableHTTP2 f).
Definition set_metricsCertPath v f := mkFlags (metricsAddr f) (probeAddr f) (enableLeaderElection f)
  (secureMetrics f) (webhookCertPath f) (webhookCertName f) (webhookCertKey f) v (metricsCertName f)
  (metricsCertKey f) (enableHTTP2 f).
Definition set_metricsCertName v f := mkFlags (metricsAddr f) (probeAddr f) (enableLeaderElection f)
  (secureMetrics f) (webhookCertPath f) (webhookCertName f) (webhookCertKey f) (metricsCertPath f) v
  (metricsCertKey f) (enableHTTP2 f).
Definition set_metricsCertKey v f := mkFlags (metricsAddr f) (probeAddr f) (enableLeaderElection f)
  (secureMetrics f) (webhookCertPath f) (webhookCertName f) (webhookCertKey f) (metricsCertPath f)
  (metricsCertName f) v (enableHTTP2 f).
Definition set_enableHTTP2 v f := mkFlags (metricsAddr f) (probeAddr f) (enableLeaderElection f)
  (secureMetrics f) (webhookCertPath f) (webhookCertName f) (webhookCertKey f) (metricsCertPath f)
  (metricsCertName f) (metricsCertKey f) v.

(** Lines 98 to 114 *)
Definition mainFlags : list (string * flag_value Flags) :=
  [("metrics-bind-address", StringVar set_metricsAddr);
   ("health-probe-bind-address", StringVar set_probeAddr);
   ("leader-elect", BoolVar set_enableLeaderElection);
   ("metrics-secure", BoolVar set_secureMetrics);
   ("webhook-cert-path", StringVar set_webhookCertPath);
   ("webhook-cert-name", StringVar set_webhookCertName);
   ("webhook-cert-key", StringVar set_webhookCertKey);
   ("metrics-cert-path", StringVar set_metricsCertPath);
   ("metrics-cert-name", StringVar set_metricsCertName);
   ("metrics-cert-key", StringVar set_metricsCertKey);
   ("enable-http2", BoolVar set_enableHTTP2)].

(** [zap.Options.BindFlags] and controller-runtime define flags with variables of
    their own: whether a flag is boolean, and the error of a value. *)
Definition other_flags : Type := string -> option (bool * (string -> option string)).

Definition formalFlags (others : other_flags) (name : string) : option (flag_value Flags) :=
  match list_find (fun '(n, _) => n = name) mainFlags with
  | Some (_, (_, f)) => Some f
  | None => (fun '(isBool, err) => OtherVar isBool err) <$> others name
  end.

(** [flag.Parse()]; arguments behind the flags are ignored. *)
Definition parseFlags (others : other_flags) (args : list string) : flag_error + Flags :=
  match Parse (formalFlags others) args defaultFlags with
  | inl e => inl e
  | inr (f, _) => inr f
  end.

(** ** Options of the servers *)

(** [tls.Config]: the protocols of the handshake, in order of preference. *)
Record TLSConfig := mkTLSConfig { NextProtos : list string }.

Definition disableHTTP2 (c : TLSConfig) : TLSConfig := mkTLSConfig ["http/1.1"].

(** Lines 137 to 139 *)
Definition tlsOpts (f : Flags) : list (TLSConfig -> TLSConfig) :=
  if negb (enableHTTP2 f) then [disableHTTP2] else [].

(** [webhook.Options] and [metricsserver.Options] *)
Record ServerOptions := mkServerOptions {
  TLSOpts : list (TLSConfig -> TLSConfig);
  CertDir : string;
  CertName : string;
  KeyName : string
}.

(** The files of the certificate, when a directory is given. *)
Definition withCertificate (path name key : string) (o : ServerOptions) : ServerOptions :=
  if bool_decide (path = "") then o else mkServerOptions (TLSOpts o) path name key.

Definition webhookServerOptions (f : Flags) : ServerOptions :=
  withCertificate (webhookCertPath f) (webhookCertName f) (webhookCertKey f)
    (mkServerOptions (tlsOpts f) "" "" "").

Record MetricsOptions := mkMetricsOptions {
  BindAddress : string;
  SecureServing : bool;
  (* FilterProvider is filters.WithAuthenticationAndAuthorization *)
  Authenticated : bool;
  metricsServer : ServerOptions
}.

Definition metricsServerOptions (f : Flags) : MetricsOptions :=
  mkMetricsOptions (metricsAddr f) (secureMetrics f) (secureMetrics f)
    (withCertificate (metricsCertPath f) (metricsCertName f) (metricsCertKey f)
       (mkServerOptions (tlsOpts f) "" "" "")).

(** ** Options of the manager *)

Record ManagerOptions := mkManagerOptions {
  Metrics : MetricsOptions;
  WebhookServer : ServerOptions;
  HealthProbeBindAddress : string;
  LeaderElection : bool;
  LeaderElectionNamespace : string;
  LeaderElectionID : string;
  (* Cache.DefaultNamespaces: the namespaces that are watched, all when nil *)
  DefaultNamespaces : option (gset string);
  SyncPeriod : option Z;
  LeaseDuration : option Z;
  RenewDeadline : option Z;
  RetryPeriod : option Z;
  PprofEnabled : bool;
  (* Cache.ByObject of corev1.Secret: the labels of its selector *)
  SecretSelector : gmap string string;
  (* Client.Cache.DisableFor *)
  DisableFor : list kind
}.

(** Lines 216 to 234 *)
Definition watchedNamespaces (operatorScopeNamespace : string) : option (gset string) :=
  if bool_decide (operatorScopeNamespace = "") then None
  else if contains operatorScopeNamespace "," then
    Some (list_to_set (Split operatorScopeNamespace ","))
  else Some {[operatorScopeNamespace]}.

(** [if d := ...; d != 0 { opt = &d }] *)
Definition when_set (d : Z) : option Z := if (d =? 0)%Z then None else Some d.

(** Lines 236 to 244 *)
Definition syncPeriod (p : process) : or_exit (option Z) :=
  let v := Getenv p ControllerSyncPeriodEnvVar in
  if bool_decide (v = "") then inr None
  else match ParseDuration v with
       | Some d => inr (Some d)
       | None => inl "unable to parse provided sync period"
       end.

(** Lines 267 to 276; [addPprof] is the error of
    [profiling.AddDebugPprofEndpoints], if any. *)
Definition pprof (p : process) (addPprof : option string) : or_exit bool :=
  match LookupEnv p "ENABLE_DEBUG_PPROF" with
  | Some v =>
      match ParseBool v with
      | Some true =>
          match addPprof with
          | Some _ => inl "unable to add debug endpoints to manager"
          | None => inr true
          end
      | _ => inr false
      end
  | None => inr false
  end.

(** ** Controllers and webhooks, in the order of the source *)

Inductive registration :=
| Controller (k : kind) (name : string) (r : ReconcilerConfig)
| SuperStreamController (name : string) (maxConcurrentReconciles : Z)
| Validator (k : kind)
| QueueDefaulter.

(** Lines 303 to 517: the twelve controllers differ in their type only; each of
    them sets [ListType]. *)
Definition controllerNames : list (kind * string) :=
  [(KQueue, "queue-controller"); (KExchange, "exchange-controller");
   (KBinding, "binding-controller"); (KUser, "user-controller");
   (KVhost, "vhost-controller"); (KPolicy, "policy-controller");
   (KOperatorPolicy, "operator-policy-controller"); (KPermission, "permission-controller");
   (KSchemaReplication, "schema-replication-controller");
   (KFederation, "federation-controller"); (KShovel, "shovel-controller");
   (KTopicPermission, "topic-permission-controller")].

Definition controllers (clusterDomain : string) (usePlainHTTP : bool)
    (maxConcurrentReconciles : Z) : list registration :=
  ((fun '(k, name) => Controller k name
      (mkReconcilerConfig clusterDomain usePlainHTTP true maxConcurrentReconciles))
     <$> controllerNames) ++
  [SuperStreamController "super-stream-controller" maxConcurrentReconciles].

(** Lines 531 to 627 *)
Definition webhooks (p : process) : list registration :=
  if bool_decide (Getenv p EnableWebhooksEnvVar = "false") then []
  else [Validator KBinding; Validator KExchange; Validator KFederation; Validator KPermission;
        Validator KPolicy; Validator KQueue; QueueDefaulter; Validator KSchemaReplication;
        Validator KVhost; Validator KSuperStream; Validator KShovel; Validator KUser;
        Validator KTopicPermission; Validator KOperatorPolicy].

(** Each registration may fail, which ends the process. *)
Fixpoint registerAll (register : registration -> option string) (rs : list registration) :
    or_exit unit :=
  match rs with
  | [] => inr tt
  | r :: rs => match register r with Some why => inl why | None => registerAll register rs end
  end.

(** ** [main] *)

(** The calls into controller-runtime: the error of each, if any. *)
Record Runtime := mkRuntime {
  AddDebugPprofEndpoints : option string;
  NewManager : option string;
  SetupWithManager : registration -> option string;
  AddHealthzCheck : option string;
  AddReadyzCheck : option string;
  Start : option string
}.

Definition exit_if (err : option string) (why : string) : or_exit unit :=
  match err with Some _ => inl why | None => inr tt end.

(** Lines 141 to 627: the options and what is registered with the manager. *)
Definition start (p : process) (f : Flags) (rt : Runtime) :
    or_exit (ManagerOptions * list registration) :=
  operatorNamespace <-! (match getOperatorNamespace p with
                         | inl _ => inl "unable to find operator namespace"
                         | inr ns => inr ns
                         end);
  let clusterDomain := sanitizeClusterDomainInput (Getenv p KubernetesInternalDomainEnvVar) in
  usePlainHTTP <-! getBoolEnv p ConnectUsingPlainHTTPEnvVar;
  sync <-! syncPeriod p;
  leaseDuration <-! getEnvInDuration p "LEASE_DURATION";
  renewDeadline <-! getEnvInDuration p "RENEW_DEADLINE";
  retryPeriod <-! getEnvInDuration p "RETRY_PERIOD";
  maxEnv <-! getIntEnv p MaxConcurrentReconcilesEnvVar;
  let maxConcurrentReconciles := if (0 <? maxEnv)%Z then maxEnv else 0%Z in
  pprofEnabled <-! pprof p (AddDebugPprofEndpoints rt);
  let managerOpts :=
    mkManagerOptions (metricsServerOptions f) (webhookServerOptions f) (probeAddr f)
      (enableLeaderElection f) operatorNamespace "messaging-topology-operator-leader-election"
      (watchedNamespaces (Getenv p "OPERATOR_SCOPE_NAMESPACE"))
      sync (when_set leaseDuration) (when_set renewDeadline) (when_set retryPeriod) pprofEnabled
      {[TopologyOperatorLabel := TopologyOperatorLabelValue]} [KService] in
  _ <-! exit_if (NewManager rt) "unable to start manager";
  let rs := controllers clusterDomain usePlainHTTP maxConcurrentReconciles ++ webhooks p in
  _ <-! registerAll (SetupWithManager rt) rs;
  inr (managerOpts, rs).

(** The manager that was started, when the process does not end with an error. *)
Definition main (args : list string) (p : process) (others : other_flags) (rt : Runtime) :
    or_exit (ManagerOptions * list registration) :=
  f <-! (match parseFlags others args with
         | inl _ => inl "usage"
         | inr f => inr f
         end);
  started <-! start p f rt;
  _ <-! exit_if (AddHealthzCheck rt) "unable to set up health check";
  _ <-! exit_if (AddReadyzCheck rt) "unable to set up ready check";
  _ <-! exit_if (Start rt) "problem running manager";
  inr started.
