(* ===== verification/SetupProofs.v ===== *)
(** * Properties of the start of the operator

    What the allow-list of the cluster domain admits, what becomes of durations
    and namespaces, what the command line decides and what a started operator has
    registered. *)

From S2P Require Import Prelude.
From S2P Require Import GoStrings.
From S2P Require Import Api.
From S2P Require Import GoUrl.
From S2P Require Import GoRegexp.
From S2P Require Import GoConv.
From S2P Require Import GoFlag.
From S2P Require Import TopologyReconciler.
From S2P Require Import Setup.
From Stdlib Require Import Ascii.

(** ** The cluster domain *)

(** A label: a lower-case letter, then lower-case letters, digits and hyphens,
    the last of them no hyphen. *)
Definition dns_label (w : string) : Prop :=
  exists c w', w = String c w' /\ is_lower c = true /\
    (w' = "" \/ exists t d, w' = t +:+ String d "" /\
       all_bytes is_lower_digit_hyphen t = true /\ is_lower_digit d = true).

Lemma domainLabel_spec w : lang domainLabel w <-> dns_label w.
Proof.
  unfold domainLabel, dns_label. split.
  - intros (s1 & w' & -> & (c & -> & Hc)%lang_byte_inv & Hw)%lang_seq_inv.
    exists c, w'. split_and!; [done..|].
    apply lang_opt in Hw as [->|Hw]; [by left|]. right.
    apply lang_seq_inv in Hw as (t & u & -> & Ht & (d & -> & Hd)%lang_byte_inv).
    apply lang_star_byte in Ht. eauto.
  - intros (c & w' & -> & Hc & Hw).
    apply (lang_seq _ _ (String c "")); [by constructor|]. apply lang_opt.
    destruct Hw as [->|(t & d & -> & Ht & Hd)]; [by left|]. right.
    constructor; [by apply lang_star_byte|by constructor].
Qed.

(** Labels, each behind a dot. *)
Fixpoint dotted (ls : list string) : string :=
  match ls with [] => "" | l :: ls => String "." (l +:+ dotted ls) end.

Lemma Join_dotted l ls : Join (l :: ls) "." = l +:+ dotted ls.
Proof.
  revert l. induction ls as [|l' ls IH]; intros l; [by rewrite string_app_nil_r|].
  rewrite Join_cons by done. simpl dotted. by rewrite <- IH.
Qed.

Lemma dotted_spec s :
  lang (RStar (RSeq (RByte is_dot) domainLabel)) s <->
  exists ls, Forall dns_label ls /\ s = dotted ls.
Proof.
  split.
  - remember (RStar _) as r eqn:Er. induction 1 as [| | | | | |r s1 s2 H1 _ _ IH]; simplify_eq.
    + by exists [].
    + destruct (IH eq_refl) as (ls & Hls & ->).
      apply lang_seq_inv in H1 as (d & l & -> & (c & -> & Hc)%lang_byte_inv & Hl).
      apply Ascii.eqb_eq in Hc as ->. exists (l :: ls). split; [|done].
      constructor; [by apply domainLabel_spec|done].
  - intros (ls & Hls & ->). induction Hls as [|l ls Hl Hls IH]; simpl; [constructor|].
    change (String "." (l +:+ dotted ls)) with (String "." l +:+ dotted ls).
    constructor; [|done]. apply (lang_seq _ _ (String "." "")); [by constructor|].
    by apply domainLabel_spec.
Qed.

Lemma domainRegexp_spec s :
  lang domainRegexp s <->
  exists ls, ls <> [] /\ Forall dns_label ls /\ (s = Join ls "." \/ s = String "." (Join ls ".")).
Proof.
  unfold domainRegexp. split.
  - intros (s1 & s2 & -> & Hs1 & Hs2)%lang_seq_inv.
    apply lang_seq_inv in Hs2 as (l & t & -> & Hl & (ls & Hls & ->)%dotted_spec).
    exists (l :: ls). rewrite Join_dotted. split; [done|]. split.
    { constructor; [by apply domainLabel_spec|done]. }
    apply lang_opt in Hs1 as [->|(c & -> & Hc)%lang_byte_inv]; [by left|right].
    by apply Ascii.eqb_eq in Hc as ->.
  - intros ([|l ls] & Hne & Hls & Hs); [done|]. rewrite Join_dotted in Hs. inv Hls.
    assert (Hl : lang (RSeq domainLabel (RStar (RSeq (RByte is_dot) domainLabel)))
                   (l +:+ dotted ls)).
    { constructor; [by apply domainLabel_spec|apply dotted_spec; eauto]. }
    destruct Hs as [->| ->].
    + apply (lang_seq _ _ ""); [apply lang_opt; by left|done].
    + apply (lang_seq _ _ (String "." "")); [apply lang_opt; right; by constructor|done].
Qed.

(** A label is not empty and does not start with a dot. *)
Lemma dns_label_no_dot ls : ls <> [] -> Forall dns_label ls -> HasPrefix (Join ls ".") "." = false.
Proof.
  intros Hne Hls. destruct Hls as [|l ls (c & w & -> & Hc & _) Hls]; [done|].
  apply not_true_iff_false. rewrite Join_dotted. intros [t [= -> _]]%HasPrefix_true.
  by vm_compute in Hc.
Qed.

(** Every byte of a domain stays as it is in the host of a URL. *)
Lemma all_bytes_contains p s c : all_bytes p s = true -> contains s c = true -> p c = true.
Proof.
  induction s as [|d s IH]; simpl; [done|]. intros [Hd Hs]%andb_true_iff [Hc|Hc]%orb_true_iff; auto.
  by apply Ascii.eqb_eq in Hc as ->.
Qed.

Lemma all_bytes_app p s t : all_bytes p (s +:+ t) = all_bytes p s && all_bytes p t.
Proof. induction s as [|c s IH]; simpl; [done|]. by rewrite IH, andb_assoc. Qed.

Lemma all_bytes_mono (p q : ascii -> bool) s :
  (forall c, p c = true -> q c = true) -> all_bytes p s = true -> all_bytes q s = true.
Proof.
  intros Hpq. induction s as [|c s IH]; simpl; [done|].
  intros [Hc Hs]%andb_true_iff. by rewrite Hpq, IH.
Qed.

Definition plain_in_host (c : ascii) : bool := negb (escape_in_host c).

Lemma hyphen_plain c : is_lower_digit_hyphen c = true -> plain_in_host c = true.
Proof.
  unfold is_lower_digit_hyphen, is_lower_digit, plain_in_host, escape_in_host, unreserved, is_alpha.
  rewrite negb_involutive. intros [[->| ->]%orb_true_iff|Hc%Ascii.eqb_eq]%orb_true_iff;
    [by destruct (is_upper c)|by rewrite !orb_true_r|by rewrite Hc].
Qed.

Lemma dns_label_plain l : dns_label l -> all_bytes plain_in_host l = true.
Proof.
  intros (c & w & -> & Hc & Hw). simpl. rewrite hyphen_plain.
  2:{ unfold is_lower_digit_hyphen, is_lower_digit. by rewrite Hc. }
  destruct Hw as [->|(t & d & -> & Ht & Hd)]; [done|]. rewrite all_bytes_app.
  rewrite (all_bytes_mono _ _ _ hyphen_plain Ht). simpl. rewrite hyphen_plain; [done|].
  unfold is_lower_digit_hyphen. by rewrite Hd.
Qed.

Lemma dotted_plain ls : Forall dns_label ls -> all_bytes plain_in_host (dotted ls) = true.
Proof.
  induction 1 as [|l ls Hl Hls IH]; [done|]. simpl dotted. simpl.
  by rewrite all_bytes_app, dns_label_plain, IH.
Qed.

Lemma plain_escape s : all_bytes plain_in_host s = true -> escape escape_in_host s = s.
Proof.
  intros Hs. apply escape_id. intros c Hc.
  pose proof (all_bytes_contains _ _ _ Hs Hc) as Hp. by apply negb_true_iff in Hp.
Qed.

Lemma sanitize_valid ls :
  ls <> [] -> Forall dns_label ls ->
  sanitizeClusterDomainInput (Join ls ".") = "." +:+ Join ls "." /\
  sanitizeClusterDomainInput ("." +:+ Join ls ".") = "." +:+ Join ls ".".
Proof.
  intros Hne Hls. pose proof (dns_label_no_dot ls Hne Hls) as Hdot.
  unfold sanitizeClusterDomainInput.
  assert (Hm : re_match domainRegexp (Join ls ".") = true)
    by (apply re_match_lang, domainRegexp_spec; eauto).
  assert (Hm' : re_match domainRegexp ("." +:+ Join ls ".") = true)
    by (apply re_match_lang, domainRegexp_spec; eauto).
  rewrite Hm, Hm', Hdot. split.
  - rewrite bool_decide_false; [done|]. intros E. rewrite E in Hm. by vm_compute in Hm.
  - rewrite bool_decide_false by done. by rewrite HasPrefix_app.
Qed.

(** The cluster domain is empty or a dot followed by DNS labels joined by
    dots, and every such domain of the environment, with or without the leading
    dot, is accepted; it needs no escaping in a URL and sanitizing it again
    changes nothing. *)
Lemma cluster_domain (s : string) :
  let d := sanitizeClusterDomainInput s in
  ((exists ls, ls <> [] /\ Forall dns_label ls /\ (s = Join ls "." \/ s = "." +:+ Join ls ".") /\
      d = "." +:+ Join ls ".") \/
   (d = "" /\ forall ls, ls <> [] -> Forall dns_label ls ->
                s <> Join ls "." /\ s <> "." +:+ Join ls ".")) /\
  escape escape_in_host d = d /\ sanitizeClusterDomainInput d = d.
Proof.
  intros d.
  destruct (re_match domainRegexp s) eqn:Em.
  - apply re_match_lang, domainRegexp_spec in Em as (ls & Hne & Hls & Hs).
    destruct (sanitize_valid ls Hne Hls) as [E1 E2].
    assert (Hd : d = "." +:+ Join ls ".") by (unfold d; destruct Hs as [->| ->]; done).
    split; [left; eauto 10|]. rewrite Hd. split; [|done].
    apply plain_escape. destruct ls as [|l ls]; [done|].
    exact (eq_trans (f_equal _ (f_equal _ (Join_dotted l ls))) (dotted_plain (l :: ls) Hls)).
  - assert (Hd : d = "") by (unfold d, sanitizeClusterDomainInput; rewrite Em; by case_bool_decide).
    rewrite Hd. split; [|done]. right. split; [done|]. intros ls Hne Hls.
    apply not_true_iff_false in Em.
    split; intros ->; apply Em, re_match_lang, domainRegexp_spec; eauto.
Qed.

(** ** Durations *)

(** C40: A duration of the environment is its seconds in nanoseconds as an int64:
    it lies in the range of int64 and differs from the product by a multiple of
    2^64, by none up to 9223372036 seconds and by another, the wrap-around,
    beyond. *)
Theorem env_duration (p : process) envName v :
  getEnvInDuration p envName = inr v ->
  match LookupEnv p envName with
  | None => v = 0%Z
  | Some s => exists d, ParseInt s = Some d /\ (- 2 ^ 63 <= v < 2 ^ 63)%Z /\
      ((v - d * 1000000000) mod 2 ^ 64 = 0)%Z /\
      (v = (d * 1000000000)%Z <-> (- 9223372036 <= d <= 9223372036)%Z)
  end.
Proof.
  unfold getEnvInDuration. intros E. destruct (LookupEnv p envName) as [s|]; simplify_eq; [|done].
  destruct (ParseInt s) as [d|] eqn:Ed; simplify_eq. exists d.
  pose proof (int64_of_range (d * 1000000000)) as Hr.
  split_and!; [done|lia|lia|apply int64_of_congr|].
  split; intros Hd.
  - rewrite Hd in Hr. lia.
  - apply int64_of_id. lia.
Qed.

(** ** Watched namespaces *)

Lemma contains_Join ns : 2 <= length ns -> contains (Join ns ",") "," = true.
Proof.
  destruct ns as [|n [|n' ns]]; simpl length; [lia..|]. intros _.
  rewrite Join_cons by done. rewrite contains_app. simpl. by rewrite orb_true_r.
Qed.

Lemma watched_Split scope :
  scope <> "" -> watchedNamespaces scope = Some (list_to_set (Split scope ",")).
Proof.
  intros Hne. unfold watchedNamespaces. rewrite bool_decide_false by done.
  destruct (contains scope ",") eqn:E; [done|].
  rewrite Split_no_sep_id by done. f_equal. set_solver.
Qed.

(** A comma-separated list of namespaces is watched as it is; a comma too
    many at its end adds the empty namespace, which controller-runtime reads as
    all namespaces. *)
Lemma watched_namespaces (ns : list string) :
  Forall (fun n => n <> "" /\ contains n "," = false) ns -> ns <> [] ->
  watchedNamespaces (Join ns ",") = Some (list_to_set ns) /\
  watchedNamespaces (Join ns "," +:+ ",") = Some ({[""]} ∪ list_to_set ns) /\
  "" ∉ (list_to_set ns : gset string).
Proof.
  intros Hns Hne.
  assert (Hnc : Forall (fun n => contains n "," = false) ns) by (eapply Forall_impl; [done|naive_solver]).
  assert (Hj : Join ns "," <> "").
  { destruct Hns as [|n ns' [Hn _] _]; [done|]. destruct ns'; simpl; by destruct n. }
  assert (Htrail : Split (Join ns "," +:+ ",") "," = ns ++ [""]).
  { clear Hj Hns. induction Hnc as [|n ns' Hn Hnc IH]; [done|].
    destruct ns' as [|n' ns']; [by rewrite (Split_app_sep n "")|].
    rewrite Join_cons, string_app_assoc by done. change (String "," ?a +:+ ?b) with (String "," (a +:+ b)).
    rewrite Split_app_sep, IH by done. done. }
  rewrite !watched_Split; [|by intros [_ ?]%string_app_empty|done].
  rewrite Split_Join, Htrail by done. split_and!; [done|f_equal; set_solver|].
  rewrite elem_of_list_to_set. intros Hin. rewrite Forall_forall in Hns. by destruct (Hns _ Hin).
Qed.

(** ** What is registered *)

(** The kinds of the group rabbitmq.com/v1beta1. *)
Definition topology_kinds : list kind :=
  [KBinding; KExchange; KFederation; KOperatorPolicy; KPermission; KPolicy;
   KQueue; KSchemaReplication; KShovel; KTopicPermission; KUser; KVhost].

Definition controller_kind (r : registration) : option kind :=
  match r with
  | Controller k _ _ => Some k
  | SuperStreamController _ _ => Some KSuperStream
  | _ => None
  end.
Definition validated_kind (r : registration) : option kind :=
  match r with Validator k => Some k | _ => None end.

Lemma registerAll_ok register rs u :
  registerAll register rs = inr u -> Forall (fun r => register r = None) rs.
Proof.
  induction rs as [|r rs IH]; simpl; [done|]. destruct (register r) eqn:E; [done|]. by constructor; auto.
Qed.

Lemma proceed_inr {A B} (m : or_exit A) (f : A -> or_exit B) y :
  proceed m f = inr y -> exists x, m = inr x /\ f x = inr y.
Proof. destruct m; simpl; [done|eauto]. Qed.

Lemma start_inv p f rt opts rs :
  start p f rt = inr (opts, rs) ->
  exists plain max, getBoolEnv p ConnectUsingPlainHTTPEnvVar = inr plain /\
    rs = controllers (sanitizeClusterDomainInput (Getenv p KubernetesInternalDomainEnvVar))
           plain max ++ webhooks p /\
    Forall (fun r => SetupWithManager rt r = None) rs /\
    SecretSelector opts = {[TopologyOperatorLabel := TopologyOperatorLabelValue]} /\
    DisableFor opts = [KService] /\
    Metrics opts = metricsServerOptions f /\ WebhookServer opts = webhookServerOptions f /\
    HealthProbeBindAddress opts = probeAddr f /\ LeaderElection opts = enableLeaderElection f.
Proof.
  intros (ns & _ & E)%proceed_inr. apply proceed_inr in E as (plain & Hp & E).
  do 7 (apply proceed_inr in E as (? & _ & E)).
  apply proceed_inr in E as (u & Hr & [= <- <-]). eexists _, _.
  split_and!; [done|done|by eapply registerAll_ok|done..].
Qed.

Lemma main_inv args p others rt opts rs :
  main args p others rt = inr (opts, rs) ->
  exists f, parseFlags others args = inr f /\ start p f rt = inr (opts, rs).
Proof.
  intros (f & Hf & E)%proceed_inr. apply proceed_inr in E as ([opts' rs'] & Hs & E).
  do 3 (apply proceed_inr in E as (? & _ & E)). injection E as -> ->. exists f. split; [|done].
  destruct (parseFlags others args); [done|]. by injection Hf as ->.
Qed.

Lemma controllers_kinds d plain max p :
  omap controller_kind (controllers d plain max ++ webhooks p) ≡ₚ KSuperStream :: topology_kinds.
Proof.
  unfold webhooks. case_bool_decide; simpl; (apply (bool_decide_unpack _); vm_compute; exact I).
Qed.

Lemma controllers_config d plain max p k name r :
  Controller k name r ∈ controllers d plain max ++ webhooks p ->
  KubernetesClusterDomain r = d /\ ConnectUsingPlainHTTP r = plain /\ WatchesClusters r = true.
Proof.
  rewrite elem_of_app. unfold controllers. intros [Hin|Hin].
  - apply elem_of_app in Hin as [Hin|Hin]; [|set_solver].
    apply list_elem_of_fmap in Hin as ([k' name'] & [= -> -> ->] & _). done.
  - unfold webhooks in Hin. case_bool_decide; set_solver.
Qed.

Lemma validators_kinds d plain max p :
  Getenv p EnableWebhooksEnvVar <> "false" ->
  omap validated_kind (controllers d plain max ++ webhooks p) ≡ₚ KSuperStream :: topology_kinds.
Proof.
  intros Hw. unfold webhooks. rewrite bool_decide_false by done.
  apply (bool_decide_unpack _). vm_compute. exact I.
Qed.

(** When main starts the manager, each of the thirteen kinds has one
    controller, the twelve of v1beta1 watch clusters and use the sanitized domain,
    each kind has one validator unless ENABLE_WEBHOOKS is false, only labelled
    secrets are cached and services are not. *)
Lemma started_complete args p others rt opts rs :
  main args p others rt = inr (opts, rs) ->
  omap controller_kind rs ≡ₚ KSuperStream :: topology_kinds /\
  (forall k name r, Controller k name r ∈ rs ->
     WatchesClusters r = true /\
     KubernetesClusterDomain r = sanitizeClusterDomainInput (Getenv p KubernetesInternalDomainEnvVar) /\
     getBoolEnv p ConnectUsingPlainHTTPEnvVar = inr (ConnectUsingPlainHTTP r)) /\
  omap validated_kind rs ≡ₚ (if bool_decide (Getenv p EnableWebhooksEnvVar = "false") then []
                             else KSuperStream :: topology_kinds) /\
  Forall (fun r => SetupWithManager rt r = None) rs /\
  SecretSelector opts = {[TopologyOperatorLabel := TopologyOperatorLabelValue]} /\
  KService ∈ DisableFor opts.
Proof.
  intros (f & _ & (plain & max & Hplain & -> & Hreg & Hsel & -> & _)%start_inv)%main_inv.
  split_and!; try done.
  - apply controllers_kinds.
  - intros k name r (-> & -> & ->)%controllers_config. done.
  - case_bool_decide as Hw; [|by apply validators_kinds].
    unfold webhooks. rewrite bool_decide_true by done. done.
  - set_solver.
Qed.

(** ** The command line *)

(** A complete command line. *)
Definition boolText (b : bool) : string := if b then "true" else "false".
Definition renderFlags (f : Flags) : list string :=
  ["--metrics-bind-address=" +:+ metricsAddr f;
   "--health-probe-bind-address=" +:+ probeAddr f;
   "--leader-elect=" +:+ boolText (enableLeaderElection f);
   "--metrics-secure=" +:+ boolText (secureMetrics f);
   "--webhook-cert-path=" +:+ webhookCertPath f;
   "--webhook-cert-name=" +:+ webhookCertName f;
   "--webhook-cert-key=" +:+ webhookCertKey f;
   "--metrics-cert-path=" +:+ metricsCertPath f;
   "--metrics-cert-name=" +:+ metricsCertName f;
   "--metrics-cert-key=" +:+ metricsCertKey f;
   "--enable-http2=" +:+ boolText (enableHTTP2 f)].

(** C38: The command line that spells out every flag of main is parsed to exactly
    these values, also with further arguments behind a double dash. *)
Theorem flags_roundtrip others f rest :
  parseFlags others (renderFlags f) = inr f /\
  parseFlags others (renderFlags f ++ "--" :: rest) = inr f.
Proof.
  destruct f as [? ? [] [] ? ? ? ? ? ? []]; split; reflexivity.
Qed.

(** No argument is a flag of that name. *)
Definition no_flag (name : string) (args : list string) : Prop :=
  forall a value, a ∈ args -> flagArg a <> Flag name value.

Lemma formalFlags_elim others name f :
  formalFlags others name = Some f ->
  (name, f) ∈ mainFlags \/ exists isBool err, f = OtherVar isBool err.
Proof.
  unfold formalFlags. destruct (list_find _ _) as [[i [n f']]|] eqn:E.
  - intros [= ->]. left. apply list_find_Some in E as (Hi & <- & _). by eapply list_elem_of_lookup_2.
  - destruct (others name) as [[isBool err]|]; [|done]. intros [= <-]. eauto.
Qed.

(** The value of a variable survives the command line when all flags but [name]
    leave it alone and [name] is not given. *)
Lemma parseFlags_default {A} (get : Flags -> A) name others args f :
  Forall (fun '(n, v) => n = name \/
    match v with
    | StringVar set => forall x vars, get (set x vars) = get vars
    | BoolVar set => forall x vars, get (set x vars) = get vars
    | OtherVar _ _ => True
    end) mainFlags ->
  no_flag name args -> parseFlags others args = inr f -> get f = get defaultFlags.
Proof.
  intros Hset Hno Hp. unfold parseFlags in Hp.
  destruct (Parse _ _ _) as [e|[f' rest]] eqn:E; simplify_eq.
  eapply (Parse_keeps _ (fun vars => get vars = get defaultFlags)); [|exact E|done].
  intros a n value v Ha Hn Hv. rewrite Forall_forall in Hset.
  intros n' x vars vars' Hs <-. apply formalFlags_elim in Hv as [Hv|(isBool & err & ->)].
  - destruct (Hset _ Hv) as [->|Hg]; [by destruct (Hno a value)|].
    destruct v as [set|set|isBool err]; simpl in Hs.
    + by simplify_eq.
    + unfold boolSet in Hs. destruct (ParseBool x); by simplify_eq.
    + by destruct (err x); simplify_eq.
  - simpl in Hs. by destruct (err x); simplify_eq.
Qed.

Ltac flag_default :=
  eapply parseFlags_default; [|eassumption..];
  repeat (constructor; [first [by left | by right]|]); constructor.

(** The protocols that a server with these options offers. *)
Definition offered (o : ServerOptions) (c : TLSConfig) : list string :=
  NextProtos (foldl (fun c opt => opt c) c (TLSOpts o)).

(** C37: Whatever the command line, the webhook and metrics servers offer no
    HTTP/2 unless --enable-http2 is given, metrics are served with TLS unless
    --metrics-secure is given and always with authentication then, and without
    their flags metrics are off and there is no leader election. *)
Theorem servers_protected args p others rt opts rs :
  main args p others rt = inr (opts, rs) ->
  (no_flag "enable-http2" args -> forall c,
     offered (WebhookServer opts) c = ["http/1.1"] /\
     offered (metricsServer (Metrics opts)) c = ["http/1.1"]) /\
  (no_flag "metrics-secure" args -> SecureServing (Metrics opts) = true) /\
  (SecureServing (Metrics opts) = true -> Authenticated (Metrics opts) = true) /\
  (no_flag "metrics-bind-address" args -> BindAddress (Metrics opts) = "0") /\
  (no_flag "leader-elect" args -> LeaderElection opts = false).
Proof.
  intros (f & Hf & Hs)%main_inv.
  apply start_inv in Hs as (plain & max & _ & _ & _ & _ & _ & -> & -> & _ & ->).
  split_and!.
  - intros Hno c. assert (enableHTTP2 f = enableHTTP2 defaultFlags) as E by flag_default.
    unfold offered, webhookServerOptions, metricsServerOptions, withCertificate, tlsOpts.
    rewrite E. simpl. by repeat case_bool_decide.
  - intros Hno. change (secureMetrics f = secureMetrics defaultFlags). flag_default.
  - done.
  - intros Hno. change (metricsAddr f = metricsAddr defaultFlags). flag_default.
  - intros Hno. change (enableLeaderElection f = enableLeaderElection defaultFlags). flag_default.
Qed.
