(* ===== verification/Vault.v ===== *)
(** * The Vault client (rabbitmqclient/vault_reader.go)

    Reading credentials from Vault, logging in with the service account, and the
    goroutine that keeps the token alive.  The functions that return are
    programs over the calls they make; the goroutine, which does not, is a step
    relation whose steps run those programs. *)

From S2P Require Import Prelude.
From S2P Require Import GoStrings.
From S2P Require Import GoErrors.
From S2P Require Import Prog.
From S2P Require Import World.
From Stdlib Require Import Ascii.
Import ProgNotations.
Open Scope go_scope.

(** ** Secrets of package github.com/hashicorp/vault/api *)

(** A decoded JSON value; numbers keep their text ([json.Number]). *)
Inductive vault_value :=
| VNil
| VBool (b : bool)
| VNumber (text : string)
| VString (s : string)
| VSlice (l : list vault_value)
| VMap (m : list (string * vault_value)).

Record SecretAuth := mkSecretAuth { ClientToken : string; Renewable : bool }.

Record vault_secret := mkVaultSecret {
  Warnings : list string;
  (* nil or a map, its members in the order of an iteration *)
  vault_Data : option (list (string * vault_value));
  Auth : option SecretAuth
}.

(** ** Calls *)

Inductive vault_action :=
| VGetenv (name : string)
| VReadFile (path : string)
| VSystemCertPool
| VNewClient (rootCAs : option CertPool)
| VSetNamespace (ns : string)
| VSetToken (token : string)
  (* client.Logical().Write(path, params) and Read(path) *)
| VWrite (path : string) (params : gmap string string)
| VRead (path : string)
| VNewLifetimeWatcher (token : vault_secret).

Definition vault_result (a : vault_action) : Type :=
  match a with
  | VGetenv _ => string
  | VReadFile _ => string + string
  | VSystemCertPool => string + CertPool
  | VNewClient _ => option string
  | VSetNamespace _ | VSetToken _ => unit
  | VWrite _ _ | VRead _ => string + option vault_secret
  | VNewLifetimeWatcher _ => option string
  end.

Notation vault_go := (prog vault_result).
Notation vault_trace := (trace vault_result).

(** ** Reading credentials *)

(** [%v] of a slice of strings *)
Definition fmt_strings (l : list string) : string := "[" +:+ Join l " "%char +:+ "]".

(** [%T] *)
Definition type_name (v : vault_value) : string :=
  match v with
  | VNil => "<nil>"
  | VBool _ => "bool"
  | VNumber _ => "json.Number"
  | VString _ => "string"
  | VSlice _ => "[]interface {}"
  | VMap _ => "map[string]interface {}"
  end.

(** Indexing a map: nil for a missing key. *)
Fixpoint index (m : list (string * vault_value)) (key : string) : vault_value :=
  match m with
  | [] => VNil
  | (k, v) :: m => if bool_decide (k = key) then v else index m key
  end.

Definition ReadSecret (path : string) : vault_go (string + option vault_secret) :=
  r <- act (VRead path);;
  Ret r.

Definition getValue (key : string) (data : list (string * vault_value)) : error + string :=
  match index data key with
  | VString result => inr result
  | v => inl (ErrText ("expected " +:+ key +:+ " to be a string but is a " +:+ type_name v))
  end.

Definition availableKeys (m : list (string * vault_value)) : list string := m.*1.

(** [fmt.Errorf("...: %w", err)]; the errors of this file are texts, no error of
    the RabbitMQ client is among them. *)
Definition wrap_text (what : string) (e : error) : error :=
  ErrWrap (what +:+ Error (fun _ => "") e) e.

(** What is made of the answer of Vault. *)
Definition credentialsOf (path : string) (secret : option vault_secret) :
    error + (string * string) :=
  match secret with
  | None => inl (ErrText "returned Vault secret is nil")
  | Some s =>
      if negb (bool_decide (Warnings s = [])) then
        inl (ErrText ("warnings were returned from Vault: " +:+ fmt_strings (Warnings s)))
      else
        match vault_Data s with
        | None => inl (ErrText "returned Vault secret has a nil Data map")
        | Some [] => inl (ErrText "returned Vault secret has an empty Data map")
        | Some m =>
            match index m "data" with
            | VNil =>
                inl (ErrText ("returned Vault secret has a Data map that contains no value for key 'data'. Available keys are: "
                              +:+ fmt_strings (availableKeys m)))
            | VMap data =>
                match getValue "username" data with
                | inl e => inl (wrap_text "unable to get username from Vault secret: " e)
                | inr username =>
                    match getValue "password" data with
                    | inl e => inl (wrap_text "unable to get password from Vault secret: " e)
                    | inr password => inr (username, password)
                    end
                end
            | v =>
                inl (ErrText ("data type assertion failed for Vault secret of type: " +:+
                              type_name v +:+ " read from path " +:+ path))
            end
        end
  end.

Definition VaultClient_ReadCredentials (path : string) : vault_go (error + (string * string)) :=
  secret <- ReadSecret path;;
  match secret with
  | inl e => Ret (inl (wrap_text "unable to read Vault secret: " (ErrText e)))
  | inr secret => Ret (credentialsOf path secret)
  end.

(** ** Logging in *)

Definition defaultAuthPath : string := "auth/kubernetes".
Definition defaultVaultRole : string := "messaging-topology-operator".
Definition serviceAccountToken : string := "/var/run/secrets/kubernetes.io/serviceaccount/token".

Definition ReadServiceAccountToken : vault_go (error + string) :=
  token <- act (VReadFile serviceAccountToken);;
  match token with
  | inl e => Ret (inl (wrap_text ("unable to read file " +:+ serviceAccountToken +:+ ": ")
                         (ErrText e)))
  | inr token => Ret (inr token)
  end.

Definition LoginToVault (authPath : string) (params : gmap string string) :
    vault_go (string + option vault_secret) :=
  act (VWrite (authPath +:+ "/login") params).

Definition ReadVaultClientSecret (jwtToken vaultRole authPath : string) :
    vault_go (string + option vault_secret) :=
  LoginToVault authPath (<["jwt" := jwtToken]> {["role" := vaultRole]}).

Definition getenv_or (name default : string) : vault_go string :=
  v <- act (VGetenv name);;
  Ret (if bool_decide (v = "") then default else v).

(** The client token of an answer: neither the secret nor its [Auth] may be nil,
    and the token may not be empty. *)
Definition clientToken (secret : option vault_secret) : option (vault_secret * string) :=
  match secret with
  | Some s =>
      match Auth s with
      | Some a => if bool_decide (ClientToken a = "") then None else Some (s, ClientToken a)
      | None => None
      end
  | None => None
  end.

Definition login : vault_go (error + vault_secret) :=
  jwt <- ReadServiceAccountToken;;
  match jwt with
  | inl e =>
      Ret (inl (wrap_text "unable to read file containing service account token: " e))
  | inr jwt =>
      vaultNamespace <- act (VGetenv "OPERATOR_VAULT_NAMESPACE");;
      (if bool_decide (vaultNamespace = "") then Ret tt else act (VSetNamespace vaultNamespace));;;
      loginAuthPath <- getenv_or "OPERATOR_VAULT_AUTH_PATH" defaultAuthPath;;
      role <- getenv_or "OPERATOR_VAULT_ROLE" defaultVaultRole;;
      vaultSecret <- ReadVaultClientSecret jwt role loginAuthPath;;
      match vaultSecret with
      | inl e => Ret (inl (wrap_text "unable to obtain Vault client secret: " (ErrText e)))
      | inr vaultSecret =>
          match clientToken vaultSecret with
          | None => Ret (inl (ErrText "no client token found in Vault secret"))
          | Some (secret, token) =>
              act (VSetToken token);;;
              Ret (inr secret)
          end
      end
  end.

(** ** The goroutine [renewToken] *)

(** Where the goroutine is: before a login ([sent]: the result of the first
    login has been reported), in the select loop of [manageTokenLifecycle],
    before the pause of two seconds, or returned. *)
Inductive renew_pc :=
| AtLogin (sent : bool)
| AtSelect
| AtSleep
| AtReturn.

(** [manageTokenLifecycle] up to its select loop; it returns at once when there
    is nothing to renew or no watcher can be made. *)
Definition manageTokenLifecycle (token : option vault_secret) : vault_go renew_pc :=
  match token with
  | None => Ret AtSleep
  | Some s =>
      match Auth s with
      | None => Ret AtSleep
      | Some a =>
          if negb (Renewable a) then Ret AtSleep
          else
            err <- act (VNewLifetimeWatcher s);;
            Ret (match err with Some _ => AtSleep | None => AtSelect end)
      end
  end.

Definition error_of {A} (r : error + A) : option error :=
  match r with inl e => Some e | inr _ => None end.
Definition value_of {A} (r : error + A) : option A :=
  match r with inl _ => None | inr x => Some x end.

(** One turn of the loop: what it sends on the channel, and where it goes on. *)
Definition renewTurn (sent : bool) : vault_go (list (option error) * renew_pc) :=
  r <- login;;
  if negb sent then
    match error_of r with
    | Some e => Ret ([Some e], AtReturn)
    | None =>
        next <- manageTokenLifecycle (value_of r);;
        Ret ([None], next)
    end
  else
    next <- manageTokenLifecycle (value_of r);;
    Ret ([], next).

(** The goroutine, with the messages it has sent. *)
Record renew_state := mkRenewState { pc : renew_pc; sends : list (option error) }.

Inductive renew_step : renew_state -> vault_trace -> renew_state -> Prop :=
| step_turn sent ch tr msgs next :
    exec (renewTurn sent) tr (Returned (msgs, next)) ->
    renew_step (mkRenewState (AtLogin sent) ch) tr (mkRenewState next (ch ++ msgs))
  (* a message on RenewCh, or on DoneCh, with an error or without *)
| step_renewed ch : renew_step (mkRenewState AtSelect ch) [] (mkRenewState AtSelect ch)
| step_done ch : renew_step (mkRenewState AtSelect ch) [] (mkRenewState AtSleep ch)
  (* after the pause *)
| step_slept ch : renew_step (mkRenewState AtSleep ch) [] (mkRenewState (AtLogin true) ch).

Inductive renew_run : renew_state -> vault_trace -> renew_state -> Prop :=
| run_refl s : renew_run s [] s
| run_step s tr s' tr' s'' :
    renew_run s tr s' -> renew_step s' tr' s'' -> renew_run s (tr ++ tr') s''.

Definition renewToken : renew_state := mkRenewState (AtLogin false) [].

(** ** The client, created once *)

(** Up to the first login, whose result the goroutine reports. *)
Definition InitializeClient : vault_go (option error) :=
  vaultURL <- act (VGetenv "VAULT_ADDR");;
  if bool_decide (vaultURL = "") then
    Ret (Some (ErrText "VAULT_ADDR environment variable not set; cannot initialize vault client"))
  else
    certs <- (if HasPrefix vaultURL "https"
              then pool <- act VSystemCertPool;;
                   Ret (match pool with inl e => inl e | inr pool => inr (Some pool) end)
              else Ret (inr None));;
    match certs with
    | inl e => Ret (Some (wrap_text "failed to retrieve system trusted certs: " (ErrText e)))
    | inr rootCAs =>
        err <- act (VNewClient rootCAs);;
        match err with
        | Some e => Ret (Some (wrap_text "unable to initialize Vault client: " (ErrText e)))
        | None =>
            first <- login;;
            Ret (match error_of first with
                 | Some e => Some (wrap_text "unable to login to Vault: " e)
                 | None => None
                 end)
        end
    end.

(** The package variables: [createSecretStoreClientOnce] has run, and
    [SecretClientCreationError]; the client is set when there is no error. *)
Record secret_store := mkSecretStore { once : bool; SecretClientCreationError : option error }.

Definition GetSecretStoreClient (s : secret_store) : vault_go (option error * secret_store) :=
  if once s then Ret (SecretClientCreationError s, s)
  else
    err <- InitializeClient;;
    Ret (err, mkSecretStore true err).
