(* ===== verification/VaultProofs.v ===== *)
(** * Properties of the Vault client *)

From S2P Require Import Prelude.
From S2P Require Import GoStrings.
From S2P Require Import GoErrors.
From S2P Require Import Prog.
From S2P Require Import World.
From S2P Require Import Api.
From S2P Require Import ParseReference.
From S2P Require Import ParseReferenceProofs.
From S2P Require Import Vault.

(** ** Credentials *)

Lemma getValue_inr key m v : getValue key m = inr v <-> index m key = VString v.
Proof. unfold getValue. destruct (index m key); naive_solver. Qed.

(** The credentials that a secret of Vault holds. *)
Definition holds_credentials (s : vault_secret) (user pass : string) : Prop :=
  Warnings s = [] /\ exists m data, vault_Data s = Some m /\ index m "data" = VMap data /\
    index data "username" = VString user /\ index data "password" = VString pass.

Lemma credentialsOf_inr path secret user pass :
  credentialsOf path secret = inr (user, pass) <->
  exists s, secret = Some s /\ holds_credentials s user pass.
Proof.
  unfold credentialsOf, holds_credentials. split.
  - intros E. destruct secret as [s|]; [|done]. exists s. split; [done|].
    case_bool_decide as Hw; simpl in E; [|done]. split; [done|].
    destruct (vault_Data s) as [m|]; [|done]. exists m.
    destruct m as [|kv m]; [done|]. destruct (index (kv :: m) "data") as [| | | | |data]; try done.
    exists data. destruct (getValue "username" data) as [|u] eqn:Eu; [done|].
    destruct (getValue "password" data) as [|p] eqn:Ep; simplify_eq.
    by apply getValue_inr in Eu, Ep.
  - intros (s & -> & Hw & m & data & Hm & Hd & Hu & Hp). rewrite bool_decide_true by done. simpl.
    rewrite Hm. destruct m as [|kv m]; [done|]. rewrite Hd.
    apply getValue_inr in Hu as ->. by apply getValue_inr in Hp as ->.
Qed.

(** The credentials come from one read of Vault, and only from a secret that
    holds them. *)
Lemma read_credentials path tr user pass :
  exec (VaultClient_ReadCredentials path) tr (Returned (inr (user, pass))) <->
  exists s, tr = [existT (P:=vault_result) (VRead path) (inr (Some s))] /\
    holds_credentials s user pass.
Proof.
  unfold VaultClient_ReadCredentials, ReadSecret. cbn [bind act exec]. split.
  - intros (r & tr' & -> & Hx). destruct r as [e|secret]; destruct Hx as [-> [= E]].
    symmetry in E. apply credentialsOf_inr in E as (s & -> & Hs). eauto.
  - intros (s & -> & Hs). eexists _, []. split; [done|]. split; [done|].
    f_equal. symmetry. apply credentialsOf_inr. eauto.
Qed.

(** ** Tokens *)

(** The tokens that were set, in order. *)
Definition tokens (tr : vault_trace) : list string :=
  omap (fun e => match projT1 e with VSetToken t => Some t | _ => None end) tr.

Lemma tokens_app tr tr' : tokens (tr ++ tr') = tokens tr ++ tokens tr'.
Proof. apply omap_app. Qed.

(** A successful login sets one token, a failed one none. *)
Definition login_post (tr : vault_trace) (o : outcome (error + vault_secret)) : Prop :=
  match o with
  | Returned (inl _) => tokens tr = []
  | Returned (inr s) => exists t, tokens tr = [t] /\ t <> "" /\ ClientToken <$> Auth s = Some t
  | Panicked _ => False
  end.

Lemma clientToken_Some secret s t :
  clientToken secret = Some (s, t) -> t <> "" /\ ClientToken <$> Auth s = Some t.
Proof.
  unfold clientToken. destruct secret as [s'|]; [|done]. destruct (Auth s') as [a|] eqn:E; [|done].
  case_bool_decide; intros; simplify_eq. by rewrite E.
Qed.

Lemma login_spec : wp login login_post.
Proof.
  unfold login, ReadServiceAccountToken, getenv_or, ReadVaultClientSecret, LoginToVault.
  cbn [bind act wp]. intros [e|jwt]; cbn [bind act wp]; [done|]. intros ns.
  case_bool_decide; cbn [bind act wp].
  all: intros; repeat (intros; cbn [bind act wp]).
  all: match goal with r : vault_result (VWrite _ _) |- _ => destruct r as [e|secret] end;
    cbn [bind act wp]; [done|].
  all: destruct (clientToken secret) as [[s t]|] eqn:E; cbn [bind act wp]; [|done].
  all: intros []; apply clientToken_Some in E as [Ht Hs]; exists t; done.
Qed.

Lemma manage_tokens token :
  wp (manageTokenLifecycle token) (fun tr o => tokens tr = [] /\
    match o with Returned next => next = AtSleep \/ next = AtSelect | Panicked _ => False end).
Proof.
  unfold manageTokenLifecycle. destruct token as [s|]; [|simpl; auto].
  destruct (Auth s) as [a|]; [|simpl; auto]. destruct (Renewable a); simpl; [|auto].
  intros [e|]; simpl; auto.
Qed.

(** One turn of the goroutine. *)
Definition turn_post (sent : bool) (tr : vault_trace)
    (o : outcome (list (option error) * renew_pc)) : Prop :=
  match o with
  | Returned (msgs, next) =>
      (next = AtReturn /\ sent = false /\ tokens tr = [] /\ exists e, msgs = [Some e]) \/
      ((next = AtSleep \/ next = AtSelect) /\ msgs = (if sent then [] else [None]) /\
       ((sent = true /\ tokens tr = []) \/ exists t, tokens tr = [t] /\ t <> ""))
  | Panicked _ => False
  end.

Lemma renewTurn_spec sent : wp (renewTurn sent) (turn_post sent).
Proof.
  unfold renewTurn. eapply wp_cut; [apply login_spec|..]; simpl; [|done].
  intros tr [e|s]; simpl; intros Htr.
  - destruct sent; simpl.
    + rewrite tokens_app, Htr. auto 10.
    + rewrite tokens_app, Htr. left. eauto.
  - destruct Htr as (t & Ht & Hne & _).
    assert (Hm : forall msgs, msgs = (if sent then [] else [None]) ->
      wp (bind (manageTokenLifecycle (Some s)) (fun next => Ret (msgs, next)))
        (fun tr' o => turn_post sent (tr ++ tr') o)).
    { intros msgs ->. eapply wp_cut; [apply manage_tokens|..]; simpl; [|naive_solver].
      intros tr' next [Htr' Hnext]. right. split; [done|]. split; [done|]. right. exists t.
      by rewrite app_nil_r, tokens_app, Ht, Htr'. }
    destruct sent; simpl; by apply Hm.
Qed.

(** What holds of the goroutine at all times. *)
Definition session_ok (tr : vault_trace) (s : renew_state) : Prop :=
  match pc s with
  | AtLogin false => sends s = [] /\ tokens tr = []
  | AtReturn => tokens tr = [] /\ exists e, sends s = [Some e]
  | _ => sends s = [None] /\ exists t, last (tokens tr) = Some t /\ t <> ""
  end.

Lemma step_session_ok tr s tr' s' :
  session_ok tr s -> renew_step s tr' s' -> session_ok (tr ++ tr') s'.
Proof.
  intros Hok Hstep. destruct Hstep as [sent ch tr' msgs next Hx|ch|ch|ch]; simpl in *.
  2-4: by rewrite app_nil_r.
  pose proof (proj1 (wp_exec _ _) (renewTurn_spec sent) _ _ Hx) as Hpost. unfold turn_post in Hpost.
  destruct sent; unfold session_ok in *; simpl in *; rewrite tokens_app.
  - destruct Hpost as [(? & ? & ?)|(Hnext & -> & Htok)]; [done|].
    destruct Hok as (-> & t & Ht & Hne). rewrite app_nil_r.
    assert (Hlast : exists t', last (tokens tr ++ tokens tr') = Some t' /\ t' <> "").
    { destruct Htok as [[_ ->]|(t' & -> & Ht')]; [rewrite app_nil_r; eauto|].
      rewrite last_snoc. eauto. }
    by destruct Hnext as [->| ->].
  - destruct Hok as [-> ->]. simpl.
    destruct Hpost as [(-> & _ & Htok & Hmsgs)|(Hnext & -> & [[? _]|(t & -> & Ht)])]; [done..|].
    assert (Hlast : exists t', last [t] = Some t' /\ t' <> "") by eauto.
    by destruct Hnext as [->| ->].
Qed.

(** C35: The goroutine that renews the Vault token reports the result of its first
    login exactly once (the channel has one slot); after a reported success the
    client always holds a non-empty token, after a reported failure the goroutine
    has ended and no token was set. *)
Theorem vault_session tr s :
  renew_run renewToken tr s ->
  length (sends s) <= 1 /\
  (pc s <> AtLogin false -> sends s <> []) /\
  (sends s = [None] -> exists t, last (tokens tr) = Some t /\ t <> "") /\
  (forall e, sends s = [Some e] -> pc s = AtReturn /\ tokens tr = []).
Proof.
  intros Hrun. assert (Hok : session_ok tr s).
  { remember renewToken as s0 eqn:E0. induction Hrun as [s|s tr s' tr' s'' Hrun IH Hstep]; subst.
    - done.
    - eapply step_session_ok; [by apply IH|done]. }
  clear Hrun. unfold session_ok in Hok.
  destruct (pc s) as [[]| | |]; destruct Hok as [H1 H2]; try destruct H2 as [e H2];
    rewrite ?H1, ?H2; simpl; split_and!; naive_solver lia.
Qed.

(** ** The client *)

(** [n] calls one after the other, with their results. *)
Fixpoint callTimes (n : nat) (s : secret_store) : vault_go (list (option error)) :=
  match n with
  | O => Ret []
  | S n => bind (GetSecretStoreClient s) (fun '(r, s) =>
             bind (callTimes n s) (fun rs => Ret (r :: rs)))
  end.

Lemma callTimes_done n err :
  callTimes n (mkSecretStore true err) = Ret (replicate n err).
Proof. induction n as [|n IH]; simpl; [done|]. by rewrite IH. Qed.

(** However often the secret store client is asked for, it is created once:
    all calls give the result of one run of InitializeClient, also when that run
    failed. *)
Lemma client_created_once n tr rs :
  exec (callTimes (S n) (mkSecretStore false None)) tr (Returned rs) ->
  exists err, exec InitializeClient tr (Returned err) /\ rs = replicate (S n) err.
Proof.
  cbn [callTimes]. unfold GetSecretStoreClient. cbn [once]. rewrite bind_assoc.
  revert tr rs. cut (wp (bind InitializeClient (fun err =>
      bind (callTimes n (mkSecretStore true err)) (fun rs => Ret (err :: rs))))
    (fun tr o => forall rs, o = Returned rs -> exists err,
       exec InitializeClient tr (Returned err) /\ rs = replicate (S n) err)).
  { intros Hwp tr rs Hx. exact (proj1 (wp_exec _ _) Hwp _ _ Hx rs eq_refl). }
  eapply wp_cut; [apply wp_self|..]; [|done].
  intros tr err Hx. rewrite callTimes_done. cbn [bind wp]. intros rs [= <-].
  exists err. by rewrite app_nil_r.
Qed.

(** ** The secret store of the operator

    [SecretStoreClientProvider] and [ReadCredentials] of World.v, answered by the
    definitions of Vault.v: [store] is the error of the creation of the client,
    [va] answers the calls of the client. *)
Definition with_vault (store : option error) (va : forall a, vault_result a)
    (h : forall a, result a) : forall a, result a :=
  fun a =>
    match a with
    | SecretStoreClientProvider => Error (fun _ => "") <$> store
    | ReadCredentials path =>
        match (run (fun a u => (va a, u)) (VaultClient_ReadCredentials path) tt).1.2 with
        | Returned (inr userpass) => inr userpass
        | Returned (inl e) => inl (Error (fun _ => "") e)
        | Panicked why => inl why
        end
    | a => h a
    end.

(** C36: Answered by the Vault client, the secret store gives the credentials of a
    cluster exactly when the client could be created and Vault holds, without
    warnings, a map under 'data' with the strings username and password. *)
Theorem vault_default_user `{Libs} store va h cluster ns user pass :
  let path := deref (Cluster_VaultDefaultUserPath cluster) "" in
  path <> "" ->
  (run (answers (with_vault store va h)) (defaultUserCredentials cluster ns) tt).1.2 =
    Returned (inr (user, pass)) <->
  store = None /\ exists s, va (VRead path) = inr (Some s) /\ holds_credentials s user pass.
Proof.
  intros path Hpath. unfold defaultUserCredentials. fold path.
  rewrite bool_decide_false by done. destruct store as [e|]; simpl; [naive_solver|].
  destruct (va (VRead path)) as [e|secret] eqn:Ev; simpl; [naive_solver|].
  destruct (credentialsOf path secret) as [e|[u p]] eqn:Ec; simpl.
  - split; [done|]. intros [_ (s & [= ->] & Hs)].
    by rewrite (proj2 (credentialsOf_inr path (Some s) user pass)) in Ec by eauto.
  - pose proof Ec as (s & -> & Hs)%credentialsOf_inr. split; [intros [= <- <-]; eauto|].
    intros [_ (s' & [= <-] & Hs')].
    by rewrite (proj2 (credentialsOf_inr path (Some s) user pass)) in Ec by eauto; simplify_eq.
Qed.
