(* ===== verification/Broker.v ===== *)
(** * The broker, abstractly

    What a RabbitMQ broker keeps for the operator: a finite map from names to what
    was last put under them.  Names lie inside others (everything of a virtual
    host inside it, bindings inside what they connect), and go with them.  A kind
    asks for a [Goal]: entries, and names that must be absent. *)

From S2P Require Import Prelude.
From S2P Require Import GoStrings.
From Stdlib Require Import Ascii.
From S2P Require Import World.
From S2P Require Import Values.
From S2P Require Import Utils.
From S2P Require Import GoErrors.

(** ** Names *)

Inductive bkey :=
| BVhost (name : string)
| BVhostLimit (vhost limit : string)
| BUser (name : string)
| BPermission (vhost user : string)
| BTopicPermission (vhost user exchange : string)
| BExchange (vhost name : string)
| BQueue (vhost name : string)
| BBinding (vhost source dest destType id : string)
| BPolicy (vhost name : string)
| BOperatorPolicy (vhost name : string)
| BFederation (vhost name : string)
| BShovel (vhost name : string)
| BGlobalParameter (name : string).

#[export] Instance bkey_eq_dec : EqDecision bkey.
Proof. solve_decision. Defined.

Definition bkey_code (k : bkey) : nat * list string :=
  match k with
  | BVhost n => (0, [n])
  | BVhostLimit v l => (1, [v; l])
  | BUser n => (2, [n])
  | BPermission v u => (3, [v; u])
  | BTopicPermission v u x => (4, [v; u; x])
  | BExchange v n => (5, [v; n])
  | BQueue v n => (6, [v; n])
  | BBinding v s d t i => (7, [v; s; d; t; i])
  | BPolicy v n => (8, [v; n])
  | BOperatorPolicy v n => (9, [v; n])
  | BFederation v n => (10, [v; n])
  | BShovel v n => (11, [v; n])
  | BGlobalParameter n => (12, [n])
  end.

Definition bkey_decode (c : nat * list string) : bkey :=
  match c with
  | (0, [n]) => BVhost n
  | (1, [v; l]) => BVhostLimit v l
  | (2, [n]) => BUser n
  | (3, [v; u]) => BPermission v u
  | (4, [v; u; x]) => BTopicPermission v u x
  | (5, [v; n]) => BExchange v n
  | (6, [v; n]) => BQueue v n
  | (7, [v; s; d; t; i]) => BBinding v s d t i
  | (8, [v; n]) => BPolicy v n
  | (9, [v; n]) => BOperatorPolicy v n
  | (10, [v; n]) => BFederation v n
  | (11, [v; n]) => BShovel v n
  | (_, [n]) => BGlobalParameter n
  | _ => BGlobalParameter ""
  end%nat.

#[export] Instance bkey_countable : Countable bkey.
Proof. apply (inj_countable' bkey_code bkey_decode). by intros []. Defined.

(** The virtual host of a name. *)
Definition vhost_of (key : bkey) : option string :=
  match key with
  | BVhostLimit v _ | BPermission v _ | BTopicPermission v _ _ | BExchange v _ | BQueue v _
  | BBinding v _ _ _ _ | BPolicy v _ | BOperatorPolicy v _ | BFederation v _ | BShovel v _ => Some v
  | BVhost _ | BUser _ | BGlobalParameter _ => None
  end.

(** [key'] goes with [key]. *)
Definition covers (key key' : bkey) : bool :=
  bool_decide (key = key') ||
  match key, key' with
  | BVhost v, _ => bool_decide (vhost_of key' = Some v)
  | BUser u, BPermission _ u' | BUser u, BTopicPermission _ u' _ => bool_decide (u = u')
  | BExchange v x, BBinding v' s d t _ =>
      bool_decide (v = v') && (bool_decide (x = s) || bool_decide (x = d) && bool_decide (t = "exchange"))
  | BQueue v q, BBinding v' _ d t _ =>
      bool_decide (v = v') && bool_decide (q = d) && bool_decide (t = "queue")
  | _, _ => false
  end.

(** ** States *)

Notation broker_state := (gmap bkey rmq_call).

(** Without [key] and what lies inside it. *)
Definition wipe (key : bkey) (b : broker_state) : broker_state :=
  base.filter (fun kv => covers key kv.1 = false) b.

Lemma lookup_wipe key b key' :
  wipe key b !! key' = if covers key key' then None else b !! key'.
Proof.
  unfold wipe. destruct (covers key key') eqn:E.
  - apply map_lookup_filter_None. right. intros v _. simpl. by rewrite E.
  - destruct (b !! key') as [v|] eqn:Hb.
    + by apply map_lookup_filter_Some.
    + apply map_lookup_filter_None. by left.
Qed.

(** A name that holds nothing else. *)
Lemma wipe_absent key b :
  (forall key', covers key key' = true -> key' = key) -> b !! key = None -> wipe key b = b.
Proof.
  intros Hc Hn. apply map_eq. intros key'. rewrite lookup_wipe.
  destruct (covers key key') eqn:E; [|done]. by apply Hc in E as ->.
Qed.

Lemma covers_refl key : covers key key = true.
Proof. unfold covers. by rewrite bool_decide_eq_true_2. Qed.

(** How the broker tells the bindings between a source and a destination apart, and
    which of them a properties key names. *)
Class BrokerLib := {
  binding_id : string -> args_map -> string;
  named_by : string -> string
}.

(** How the broker writes a routing key as the properties key of a binding without
    arguments: as it is, with its tildes escaped.  Keys with characters that stand
    for others when the broker reads them back are not [plain_key]s. *)
Fixpoint tilde_escaped (key : string) : string :=
  match key with
  | "" => ""
  | String "~"%char key => "%7E" +:+ tilde_escaped key
  | String c key => String c (tilde_escaped key)
  end.
Definition plain_key (key : string) : bool :=
  negb (contains key "%"%char) && negb (contains key "+"%char).

(** Bindings with the same routing key and the same arguments are the same.  A
    tilde names the binding with no routing key and no arguments, an escaped key
    the one with that key and no arguments. *)
Class BrokerLibOk `{BrokerLib} : Prop := {
  binding_id_equal key args args' :
    DeepEqual_maps args args' = true -> binding_id key args = binding_id key args';
  named_by_tilde : named_by "~" = binding_id "" (Some []);
  named_by_key key :
    key <> "" -> plain_key key = true ->
    named_by (tilde_escaped key) = binding_id key (Some [])
}.

Section calls.
Context `{BrokerLib}.

Definition binding_at (vhost : string) (b : BindingInfo) (id : string) : bkey :=
  BBinding vhost (BindingInfo_Source b) (BindingInfo_Destination b) (BindingInfo_DestinationType b) id.
Definition declared_at (vhost : string) (b : BindingInfo) : bkey :=
  binding_at vhost b (binding_id (BindingInfo_RoutingKey b) (BindingInfo_Arguments b)).

(** The name a call puts itself under. *)
Definition puts (call : rmq_call) : option bkey :=
  match call with
  | PutVhost n _ => Some (BVhost n)
  | PutUser n _ => Some (BUser n)
  | UpdatePermissionsIn v u _ => Some (BPermission v u)
  | UpdateTopicPermissionsIn v u p => Some (BTopicPermission v u (TopicPermissions_Exchange p))
  | DeclareExchange v n _ => Some (BExchange v n)
  | DeclareQueue v n _ => Some (BQueue v n)
  | DeclareBinding v b => Some (declared_at v b)
  | PutPolicy v n _ => Some (BPolicy v n)
  | PutOperatorPolicy v n _ => Some (BOperatorPolicy v n)
  | PutFederationUpstream v n _ => Some (BFederation v n)
  | DeclareShovel v n _ => Some (BShovel v n)
  | PutGlobalParameter n _ => Some (BGlobalParameter n)
  | _ => None
  end.

(** The name a call clears; a queue that must be empty or unused may stay. *)
Definition deletes (call : rmq_call) : option bkey :=
  match call with
  | DeleteVhost n => Some (BVhost n)
  | DeleteUser n => Some (BUser n)
  | ClearPermissionsIn v u => Some (BPermission v u)
  | DeleteTopicPermissionsIn v u x => Some (BTopicPermission v u x)
  | DeleteExchange v n => Some (BExchange v n)
  | DeleteQueue v n o => if IfEmpty o || IfUnused o then None else Some (BQueue v n)
  | DeleteBinding v b => Some (binding_at v b (named_by (BindingInfo_PropertiesKey b)))
  | DeletePolicy v n => Some (BPolicy v n)
  | DeleteOperatorPolicy v n => Some (BOperatorPolicy v n)
  | DeleteFederationUpstream v n => Some (BFederation v n)
  | DeleteShovel v n => Some (BShovel v n)
  | DeleteGlobalParameter n => Some (BGlobalParameter n)
  | _ => None
  end.

(** What must be there for a call to be accepted. *)
Definition needs (call : rmq_call) : list bkey :=
  match call with
  | DeclareExchange v _ _ | DeclareQueue v _ _ | PutPolicy v _ _ | PutOperatorPolicy v _ _
  | PutFederationUpstream v _ _ | DeclareShovel v _ _ => [BVhost v]
  | DeclareBinding v b =>
      [BVhost v; BExchange v (BindingInfo_Source b);
       if bool_decide (BindingInfo_DestinationType b = "queue")
       then BQueue v (BindingInfo_Destination b) else BExchange v (BindingInfo_Destination b)]
  | UpdatePermissionsIn v u _ | UpdateTopicPermissionsIn v u _ => [BVhost v; BUser u]
  | _ => []
  end.

(** Exchanges and queues are declared again only as they are. *)
Definition agrees (b : broker_state) (call : rmq_call) : Prop :=
  match call with
  | DeclareExchange v n _ => b !! BExchange v n = None \/ b !! BExchange v n = Some call
  | DeclareQueue v n _ => b !! BQueue v n = None \/ b !! BQueue v n = Some call
  | _ => True
  end.

(** ** The limits of a virtual host *)

(** A limit is kept as the call that sets it alone. *)
Definition limit_call (vhost limit : string) (v : Z) : rmq_call :=
  PutVhostLimits vhost (<[limit := v]> (∅ : gmap string Z)).
Definition limit_entries (vhost : string) (l : gmap string Z) : broker_state :=
  kmap (BVhostLimit vhost) (map_imap (fun limit v => Some (limit_call vhost limit v)) l).

(** [l] are the limits of the virtual host in [b]. *)
Definition limits_in (vhost : string) (b : broker_state) (l : gmap string Z) : Prop :=
  forall limit, b !! BVhostLimit vhost limit = limit_call vhost limit <$> l !! limit.

(** The answers that list them. *)
Definition lists_limits (x : rmq_error + list LimitsValues) (l : LimitsValues) : Prop :=
  x = inr [l] \/ l = (∅ : gmap string Z) /\ (x = inr [] \/ x = inl (RmqErrorResponse rabbithole404)).

Definition drop_limits_at (vhost : string) (limits : list string) (b : broker_state) : broker_state :=
  base.filter (fun kv => kv.1 ∉ BVhostLimit vhost <$> limits) b.

Lemma lookup_limit_entries vhost l key :
  limit_entries vhost l !! key =
  match key with
  | BVhostLimit v limit => if decide (v = vhost) then limit_call vhost limit <$> l !! limit else None
  | _ => None
  end.
Proof.
  unfold limit_entries.
  assert (Hout : (forall limit, key <> BVhostLimit vhost limit) ->
    (kmap (BVhostLimit vhost) (map_imap (fun limit v => Some (limit_call vhost limit v)) l)
       : broker_state) !! key = None).
  { intros Hn. apply lookup_kmap_None; [congruence|]. intros limit ->. by destruct (Hn limit). }
  destruct key; try (by apply Hout). case_decide as E; [subst|by apply Hout; congruence].
  rewrite lookup_kmap by congruence. rewrite map_lookup_imap. by destruct (l !! limit).
Qed.

Lemma lookup_drop_limits_at vhost limits b key :
  drop_limits_at vhost limits b !! key =
  if decide (key ∈ BVhostLimit vhost <$> limits) then None else b !! key.
Proof.
  unfold drop_limits_at. case_decide as E.
  - apply map_lookup_filter_None. right. intros v _. simpl. tauto.
  - destruct (b !! key) as [v|] eqn:Hb.
    + by apply map_lookup_filter_Some.
    + apply map_lookup_filter_None. by left.
Qed.

(** ** The bindings between a source and a destination *)

(** [l] is an answer that lists them: what is listed is named by its properties
    key, and what was declared, with arguments that equal themselves, is listed. *)
Record lists_bindings (b : broker_state) (vhost source dest destType : string)
    (l : list BindingInfo) : Prop := {
  listed_at i : i ∈ l ->
    binding_at vhost i (named_by (BindingInfo_PropertiesKey i)) =
    BBinding vhost source dest destType
      (binding_id (BindingInfo_RoutingKey i) (BindingInfo_Arguments i));
  listed_all i :
    BindingInfo_Source i = source -> BindingInfo_Destination i = dest ->
    BindingInfo_DestinationType i = destType ->
    b !! declared_at vhost i = Some (DeclareBinding vhost i) ->
    DeepEqual_maps (BindingInfo_Arguments i) (BindingInfo_Arguments i) = true ->
    exists i', i' ∈ l /\ BindingInfo_RoutingKey i' = BindingInfo_RoutingKey i /\
      DeepEqual_maps (BindingInfo_Arguments i') (BindingInfo_Arguments i) = true
}.
End calls.

(** ** Goals *)

(** What an object wants of the broker: entries, and names that must be absent. *)
Record Goal := mkGoal { g_entries : broker_state; g_absent : gset bkey }.

Definition footprint (g : Goal) : gset bkey := dom (g_entries g) ∪ g_absent g.

Definition achieve (g : Goal) (b : broker_state) : broker_state :=
  g_entries g ∪ base.filter (fun kv => kv.1 ∉ g_absent g) b.

(** The goal holds already. *)
Definition met (g : Goal) (b : broker_state) : Prop :=
  g_entries g ⊆ b /\ forall key, key ∈ g_absent g -> g_entries g !! key = None -> b !! key = None.

Lemma lookup_achieve g b key :
  achieve g b !! key =
  match g_entries g !! key with
  | Some v => Some v
  | None => if decide (key ∈ g_absent g) then None else b !! key
  end.
Proof.
  unfold achieve. rewrite lookup_union. destruct (g_entries g !! key) as [v|] eqn:E.
  { by rewrite union_Some_l. }
  rewrite (left_id_L None _). case_decide as Hd.
  - apply map_lookup_filter_None. right. intros v _. simpl. tauto.
  - destruct (b !! key) as [v|] eqn:Hb.
    + by apply map_lookup_filter_Some.
    + apply map_lookup_filter_None. by left.
Qed.

Lemma lookup_achieve_out g b key : key ∉ footprint g -> achieve g b !! key = b !! key.
Proof.
  unfold footprint. rewrite not_elem_of_union, not_elem_of_dom, lookup_achieve.
  intros [-> Hn]. by rewrite decide_False.
Qed.

(** Inside its footprint the goal decides alone. *)
Lemma lookup_achieve_in g b b' key :
  key ∈ footprint g -> achieve g b !! key = achieve g b' !! key.
Proof.
  unfold footprint. rewrite elem_of_union, elem_of_dom, !lookup_achieve.
  intros [[v ->]|Hin]; [done|]. rewrite !decide_True by done. done.
Qed.

Lemma met_spec g b : met g b <-> achieve g b = b.
Proof.
  split.
  - intros [He Ha]. apply map_eq. intros key. rewrite lookup_achieve.
    destruct (g_entries g !! key) as [v|] eqn:E; [by erewrite lookup_weaken|].
    case_decide; [|done]. symmetry. by apply Ha.
  - intros Heq. split.
    + apply map_subseteq_spec. intros key v Hv. by rewrite <- Heq, lookup_achieve, Hv.
    + intros key Hin Hn. by rewrite <- Heq, lookup_achieve, Hn, decide_True.
Qed.

Lemma met_achieve g b : met g (achieve g b).
Proof.
  apply met_spec, map_eq. intros key. rewrite !lookup_achieve.
  destruct (g_entries g !! key); [done|]. by case_decide.
Qed.

(** Only the footprint matters. *)
Lemma met_agree g b b' :
  (forall key, key ∈ footprint g -> b' !! key = b !! key) -> met g b -> met g b'.
Proof.
  unfold footprint. intros Heq [He Ha]. split.
  - apply map_subseteq_spec. intros key v Hv. rewrite Heq; [by eapply lookup_weaken|].
    apply elem_of_union_l, elem_of_dom. by eexists.
  - intros key Hin Hn. rewrite Heq; [by apply Ha|]. by apply elem_of_union_r.
Qed.

(** The goal of a single entry. *)
Definition entry (key : bkey) (call : rmq_call) : Goal := mkGoal {[key := call]} ∅.

Lemma achieve_entry key call b : achieve (entry key call) b = <[key := call]> b.
Proof.
  apply map_eq. intros key'. rewrite lookup_achieve, decide_False by set_solver. simpl.
  destruct (decide (key = key')) as [->|Hn].
  - by rewrite lookup_singleton_eq, lookup_insert_eq.
  - by rewrite lookup_singleton_ne, lookup_insert_ne.
Qed.

Lemma footprint_entry key call : footprint (entry key call) = {[key]}.
Proof. unfold footprint. simpl. rewrite dom_singleton_L. set_solver. Qed.
