(* ===== verification/Lifecycle.v ===== *)
(** * From the custom resource to the broker and back

    An abstract specification of the operator: a Kubernetes API that stores
    objects, a clock that moves on, and the broker of Broker.v.  Against every server
    that behaves so, one reconciliation of a live object makes the broker meet the
    goal of the object and changes nothing else, a second one changes nothing, and
    the reconciliation of an object that is being deleted clears its name and lets
    the object go. *)

From S2P Require Import Prelude.
From S2P Require Import GoStrings.
From S2P Require Import GoErrors.
From S2P Require Import Prog.
From S2P Require Import Api.
From S2P Require Import Values.
From S2P Require Import World.
From S2P Require Import Resources.
From S2P Require Import ParseReference.
From S2P Require Import ParseReferenceProofs.
From S2P Require Import Utils.
From S2P Require Import TopologyReconciler.
From S2P Require Import Traces.
From S2P Require Import ReconcilerProofs.
From S2P Require Import ControllerProofs.
From S2P Require Import Broker.
Import ProgNotations.
Open Scope go_scope.

(** ** Runs that return *)

Definition yields {S A} (h : handler result S) (p : go A) (s : S) (x : A) (s' : S) : Prop :=
  exists tr, run h p s = (tr, Returned x, s').

Section yields.
Context {S : Type} (h : handler result S).

Lemma yields_ret {A} (x : A) s : yields h (Ret x) s x s.
Proof. by exists []. Qed.

Lemma yields_act a s x s' : h a s = (x, s') -> yields h (act a) s x s'.
Proof. intros Ha. unfold yields. simpl. rewrite Ha. by eexists. Qed.

Lemma yields_bind {A B} (p : go A) (f : A -> go B) s x s1 y s2 :
  yields h p s x s1 -> yields h (f x) s1 y s2 -> yields h (bind p f) s y s2.
Proof.
  intros [tr Hp] [tr' Hf]. unfold yields. rewrite run_bind, Hp, Hf. by eexists.
Qed.

(** The answers of a run are those of the environment. *)
Fixpoint replays (tr : go_trace) (s s' : S) : Prop :=
  match tr with
  | [] => s' = s
  | existT a x :: tr => exists s1, h a s = (x, s1) /\ replays tr s1 s'
  end.

Lemma run_replays {A} (p : go A) s tr o s' : run h p s = (tr, o, s') -> replays tr s s'.
Proof.
  revert s tr. induction p as [x|a k IH|w]; intros s tr; simpl; [by intros [= <- _ <-]| |].
  - destruct (h a s) as [x s1] eqn:Ea. destruct (run h (k x) s1) as [[tr1 o1] s2] eqn:E.
    intros [= <- <- <-]. simpl. eauto.
  - by intros [= <- _ <-].
Qed.

(** An accepted status update is not retried. *)
Lemma yields_status `{LibsOk} k (o o' : object k) s s' :
  h (CStatusUpdate k o) s = (inr o', s') ->
  yields h (retryStatusUpdate k o) s (None, o') s'.
Proof.
  intros Ha. unfold yields. destruct (run h (retryStatusUpdate k o) s) as [[tr out] s2] eqn:E.
  pose proof (run_replays _ _ _ _ _ E) as Hr. exists tr.
  apply run_exec, RetryOnConflict_spec in E.
  inversion E as [? ? ? ? Hx|? ? tr1 e s1 tr2 ? Hx Hc Hrest]; subst.
  - simpl in Hx. destruct Hx as (x & tr' & -> & Hx). destruct Hr as (s3 & Hh & Hr).
    rewrite Ha in Hh. injection Hh as <- <-. simpl in Hx. destruct Hx as [-> ->].
    simpl in Hr. by subst.
  - exfalso. simpl in Hx. destruct Hx as (x & tr' & -> & Hx). destruct Hr as (s3 & Hh & _).
    rewrite Ha in Hh. injection Hh as <- <-. simpl in Hx. by destruct Hx as [_ [=]].
Qed.
End yields.

(** ** The surroundings of a reconciliation *)

(** Kinds that the operator reads but does not manage. *)
Definition unmanaged (k : kind) : Prop :=
  match k with KSecret | KService | KRabbitmqCluster => True | _ => False end.

(** Calls that only read, and nothing that the operator manages.  The clock and the
    random source, whose answers are never the same, are not among them. *)
Definition ambient (a : action) : Prop :=
  match a with
  | CUpdate _ _ | CStatusUpdate _ _ | CCreateOrUpdate _ _ _ | Rmq _ _ => False
  | CList _ | CListUsersByImportSecret _ _ => False
  | Now | RandRead _ | Base64EncodedSaltedPasswordHashSHA512 _ => False
  | CGet k _ | AGet k _ => unmanaged k
  | _ => True
  end.

(** Calls that change nothing. *)
Definition reading (a : action) : Prop :=
  match a with
  | CUpdate _ _ | CStatusUpdate _ _ | CCreateOrUpdate _ _ _ | Rmq _ _ => False
  | _ => True
  end.

Definition settled_reads {S} (h : handler result S) (reads : forall a, result a) : Prop :=
  forall a s, ambient a -> h a s = (reads a, s).

(** What a program that only makes such calls returns. *)
Definition outcome_with {A} (reads : forall a, result a) (p : go A) : outcome A :=
  (run (answers reads) p tt).1.2.

Lemma yields_ambient {S A} (h : handler result S) reads (p : go A) s x :
  settled_reads h reads -> all_calls (fun e => ambient (projT1 e)) p ->
  outcome_with reads p = Returned x -> yields h p s x s.
Proof.
  intros Hh. unfold outcome_with, yields. induction p as [y|a f IH|w]; simpl; intros Hp Ho.
  - injection Ho as ->. by exists [].
  - assert (Ha : ambient a).
    { specialize (Hp (reads a)). apply wp_exec with (tr := (run (answers reads) (f (reads a)) tt).1.1)
        (o := (run (answers reads) (f (reads a)) tt).1.2) in Hp.
      - by apply Forall_cons in Hp as [? _].
      - destruct (run _ _ _) as [[tr o] u] eqn:E. by apply run_exec in E. }
    rewrite (Hh a s Ha). destruct (IH (reads a)) as [tr Htr].
    + eapply wp_mono; [apply Hp|]. simpl. by intros tr o [_ ?]%Forall_cons.
    + by destruct (run (answers reads) (f (reads a)) tt) as [[? ?] ?].
    + rewrite Htr. by eexists.
  - done.
Qed.

(** What the status setters leave alone, and that setting twice is setting once. *)
Class StatusStable (k : kind) `{!TopologyResource k} := {
  stable_ref_meta m (o : object k) : RabbitReference (set_meta k m o) = RabbitReference o;
  stable_ref_conditions cs (o : object k) :
    RabbitReference (SetStatusConditions cs o) = RabbitReference o;
  stable_ref_generation g (o : object k) :
    RabbitReference (set_status_ObservedGeneration g o) = RabbitReference o;
  stable_transition c (o : object k) :
    ConditionOps.sameTransition (Condition_Type c) (Condition_Status c)
      (status_Conditions (SetStatusConditions [c] o)) = Some (Condition_LastTransitionTime c);
  stable_twice c g (o : object k) :
    let o' := set_status_ObservedGeneration g (SetStatusConditions [c] o) in
    set_status_ObservedGeneration g (SetStatusConditions [c] o') = o'
}.

(** Objects that differ in their status only. *)
Inductive status_variant {k} `{!TopologyResource k} : object k -> object k -> Prop :=
| variant_refl o : status_variant o o
| variant_sym o o' : status_variant o o' -> status_variant o' o
| variant_trans o o' o'' : status_variant o o' -> status_variant o' o'' -> status_variant o o''
| variant_conditions cs o : status_variant o (SetStatusConditions cs o)
| variant_generation g o : status_variant o (set_status_ObservedGeneration g o).

#[export] Instance status_variant_equivalence {k} `{!TopologyResource k} :
  Equivalence (@status_variant k _).
Proof.
  split; [exact variant_refl|exact variant_sym|].
  intros o o' o''. apply variant_trans.
Qed.

(** A function of objects that no setter of the status changes. *)
Lemma variant_respects {k} `{!TopologyResource k} {A} (f : object k -> A) o o' :
  (forall cs o, f (SetStatusConditions cs o) = f o) ->
  (forall g o, f (set_status_ObservedGeneration g o) = f o) ->
  status_variant o o' -> f o = f o'.
Proof. intros Hc Hg. induction 1; congruence. Qed.

(** ** A server *)

Section laws.
Context `{LibsOk} `{BrokerLib} (k : kind) `{!TopologyResource k} (req : NamespacedName).
Context {S : Type} (h : handler result S) (reads : forall a, result a).
(** The objects of all kinds, and what is on the broker. *)
Context (objects : S -> forall k, NamespacedName -> option (object k)) (broker : S -> broker_state).
(** The broker accepts a call in a state: the virtual host exists, the arguments
    are valid and agree with what is there. *)
Context (willing : broker_state -> rmq_call -> Prop).

(** The object that the request names, and the others. *)
Definition stored (s : S) : option (object k) := objects s k req.
Definition elsewhere (s s' : S) : Prop :=
  forall k' req', (k', req') <> (k, req) -> objects s' k' req' = objects s k' req'.
Definition same_objects (s s' : S) : Prop :=
  forall k' req', objects s' k' req' = objects s k' req'.

(** Neither an object nor the broker changed; time may have passed. *)
Definition quietly (s s' : S) : Prop := same_objects s s' /\ broker s' = broker s.

(** What the operator reads and does not manage (the cluster, its service and its
    secret) stays as it is; the clock tells any time and moves on.
    Kubernetes stores what it accepts, and an object that is being deleted goes
    with its last finalizer; the status has its own update.  The broker keeps what
    it accepted and accepts it again, takes or refuses what is put, and forgets what
    is deleted; it sets limits of virtual hosts it has, and lists limits and
    bindings. *)
Record ServerOk : Prop := {
  server_reads : settled_reads h reads;
  server_get s o : stored s = Some o -> h (CGet k req) s = (inr o, s);
  server_gone s : stored s = None -> exists e, h (CGet k req) s = (inl e, s) /\ IsNotFound e = true;
  server_pure s a : reading a -> quietly s (h a s).2;
  server_update s o m :
    stored s = Some o -> set_Finalizers [] m = set_Finalizers [] (meta k o) ->
    exists s', h (CUpdate k (set_meta k m o)) s = (inr (set_meta k m o), s') /\
      stored s' = (if decide (is_Some (DeletionTimestamp m) /\ Finalizers m = [])
                   then None else Some (set_meta k m o)) /\
      elsewhere s s' /\ broker s' = broker s;
  server_status s o o' :
    stored s = Some o -> status_variant o o' ->
    exists s', h (CStatusUpdate k o') s = (inr o', s') /\ stored s' = Some o' /\
      elsewhere s s' /\ broker s' = broker s;
  server_again b call key : puts call = Some key -> b !! key = Some call -> willing b call;
  server_put s c call key :
    puts call = Some key ->
    exists x res s', h (Rmq c call) s = (x, s') /\ http_answer call x = Some res /\
      same_objects s s' /\ (willing (broker s) call -> accepted res) /\
      (accepted res /\ broker s' = <[key := call]> (broker s) \/
       ~ accepted res /\ broker s' = broker s);
  server_delete s c call key :
    deletes call = Some key ->
    exists x res s', h (Rmq c call) s = (x, s') /\ http_answer call x = Some res /\
      (if decide (broker s !! key = None) then says_not_found res else accepted res) /\
      same_objects s s' /\ broker s' = wipe key (broker s);
  server_limits s c vhost :
    exists x l, h (Rmq c (GetVhostLimits vhost)) s = (x, s) /\ lists_limits x l /\
      limits_in vhost (broker s) l;
  server_put_limits s c vhost l :
    is_Some (broker s !! BVhost vhost) ->
    exists res s', h (Rmq c (PutVhostLimits vhost l)) s = (res, s') /\ accepted res /\
      same_objects s s' /\ broker s' = limit_entries vhost l ∪ broker s;
  server_delete_limits s c vhost ls :
    is_Some (broker s !! BVhost vhost) ->
    exists res s', h (Rmq c (DeleteVhostLimits vhost ls)) s = (res, s') /\ accepted res /\
      same_objects s s' /\ broker s' = drop_limits_at vhost ls (broker s);
  server_queue_bindings s c vhost source dest :
    is_Some (broker s !! BVhost vhost) ->
    exists l, h (Rmq c (ListQueueBindingsBetween vhost source dest)) s = (inr l, s) /\
      lists_bindings (broker s) vhost source dest "queue" l;
  server_exchange_bindings s c vhost source dest :
    is_Some (broker s !! BVhost vhost) ->
    exists l, h (Rmq c (ListExchangeBindingsBetween vhost source dest)) s = (inr l, s) /\
      lists_bindings (broker s) vhost source dest "exchange" l
}.

#[export] Instance elsewhere_preorder : PreOrder elsewhere.
Proof. split; [done|]. intros s1 s2 s3 Ha Hb k' req' Hn. by rewrite Hb, Ha. Qed.
#[export] Instance same_objects_preorder : PreOrder same_objects.
Proof. split; [done|]. intros s1 s2 s3 Ha Hb k' req'. by rewrite Hb, Ha. Qed.

Lemma same_elsewhere s s' : same_objects s s' -> elsewhere s s'.
Proof. intros Hs k' req' _. apply Hs. Qed.
Lemma same_stored s s' : same_objects s s' -> stored s' = stored s.
Proof. intros Hs. apply Hs. Qed.
End laws.



(** ** What a kind puts on the broker *)

(** An object has a name and asks for a goal, which begins with a call that puts
    the name; its deletion clears the name. *)
Class OnBroker `{Libs} `{BrokerLib} (k : kind) `{!TopologyResource k} `{!ReconcileFunc k} := {
  on_key : object k -> bkey;
  (** what is asked for, given what is read *)
  on_wanted : (forall a, result a) -> object k -> option (rmq_call * Goal);
  (** the deletion policy keeps it on the broker; deleting it has no condition *)
  on_retained : object k -> bool;
  on_unguarded : broker_state -> object k -> Prop;
  on_wanted_key reads o call g :
    on_wanted reads o = Some (call, g) ->
    puts call = Some (on_key o) /\ g_entries g !! on_key o = Some call;
  on_declare S (h : handler result S) reads objects broker willing req c o call g s :
    ServerOk k req h reads objects broker willing -> on_wanted reads o = Some (call, g) ->
    exists err s', yields h (DeclareFunc c o) s (err, o) s' /\ same_objects objects s s' /\
      (willing (broker s) call -> err = None) /\
      (err = None /\ broker s' = achieve g (broker s) \/ err <> None /\ broker s' = broker s);
  on_delete S (h : handler result S) reads objects broker willing req c o s :
    ServerOk k req h reads objects broker willing ->
    on_retained o = false -> on_unguarded (broker s) o ->
    exists s', yields h (DeleteFunc c o) s (None, o) s' /\ same_objects objects s s' /\
      broker s' = wipe (on_key o) (broker s);
  on_retain S (h : handler result S) c o s :
    on_retained o = true -> yields h (DeleteFunc c o) s (None, o) s;
  (** only the namespace of the metadata matters, and nothing of the status *)
  on_meta reads m o :
    Namespace m = Namespace (meta k o) -> on_wanted reads (set_meta k m o) = on_wanted reads o;
  on_conditions reads cs o : on_wanted reads (SetStatusConditions cs o) = on_wanted reads o;
  on_generation reads g o :
    on_wanted reads (set_status_ObservedGeneration g o) = on_wanted reads o
}.

(** ** Reconciliations against the server *)

Section server.
Context `{LibsOk} `{BrokerLib} (k : kind) `{!TopologyResource k} `{!TopologyResourceOk k}
  `{!StatusStable k} `{!ReconcileFunc k} `{!OnBroker k}.
Context (r : ReconcilerConfig) (req : NamespacedName).
Context {S : Type} (h : handler result S) (reads : forall a, result a).
Context (objects : S -> forall k, NamespacedName -> option (object k)) (broker : S -> broker_state).
Context (willing : broker_state -> rmq_call -> Prop).
Notation stored := (stored k req objects).
Notation elsewhere := (elsewhere k req objects).
Notation quietly := (quietly objects broker).

(** The cluster of the object can be reached. *)
Definition reachable (o : object k) : Prop :=
  exists pool creds tls c,
    reads SystemCertPool = inr pool /\
    outcome_with reads (ParseReference (RabbitReference o) (Namespace (meta k o))
      (KubernetesClusterDomain r) (ConnectUsingPlainHTTP r)) = Returned (inr (creds, tls)) /\
    outcome_with reads (generateRabbitholeClient creds tls pool) = Returned (inr c).


Context (Hserver : ServerOk k req h reads objects broker willing).

Lemma ParseReference_ambient rmq ns dom http :
  all_calls (fun e => ambient (projT1 e)) (ParseReference rmq ns dom http).
Proof.
  unfold ParseReference, defaultUserCredentials, kubernetesSecretCredentials, clusterAddress.
  repeat (cbv zeta; all_calls_step); simpl; done.
Qed.

Lemma generateRabbitholeClient_ambient creds tls pool :
  all_calls (fun e => ambient (projT1 e)) (generateRabbitholeClient creds tls pool).
Proof. unfold generateRabbitholeClient. repeat all_calls_step; simpl; done. Qed.

(** Everything up to the declaration or the deletion. *)
Lemma reconcile_prefix s o :
  stored s = Some o -> reachable o ->
  exists c, forall x s',
    yields h (match DeletionTimestamp (meta k o) with
              | Some _ => reconcileDelete k c o
              | None => reconcileDeclare k c o
              end) s x s' ->
    yields h (Reconcile k r req) s x s'.
Proof.
  pose proof (server_reads _ _ _ _ _ _ _ Hserver) as Hreads.
  intros Ho (pool & creds & tls & c & Hpool & Hparse & Hclient). exists c. intros x s' Hx.
  eapply yields_bind; [eapply yields_act, (server_get _ _ _ _ _ _ _ Hserver); eauto|]. simpl.
  eapply yields_bind.
  { unfold extractSystemCertPool. eapply yields_bind; [apply yields_act, Hreads; done|].
    rewrite Hpool. apply yields_ret. }
  cbv iota. eapply yields_bind.
  { eapply yields_ambient; [exact Hreads|apply ParseReference_ambient|exact Hparse]. }
  cbv iota. apply (yields_bind _ _ _ s (inr c) s); [|exact Hx].
  eapply yields_ambient; [exact Hreads|apply generateRabbitholeClient_ambient|exact Hclient].
Qed.

(** ** A live object *)

Lemma set_meta_meta (o : object k) : set_meta k (meta k o) o = o.
Proof. clear. destruct k; by destruct o. Qed.

Lemma addFinalizer_yields s o :
  stored s = Some o -> DeletionTimestamp (meta k o) = None ->
  exists m s1, yields h (addFinalizerIfNeeded k o) s (None, set_meta k m o) s1 /\
    stored s1 = Some (set_meta k m o) /\ elsewhere s s1 /\ broker s1 = broker s /\
    finalizerOf k o ∈ Finalizers m /\ set_Finalizers [] m = set_Finalizers [] (meta k o) /\
    (finalizerOf k o ∈ Finalizers (meta k o) -> m = meta k o).
Proof.
  intros Ho Hlive. unfold addFinalizerIfNeeded. rewrite Hlive. cbn [time_IsZero andb].
  destruct (ContainsFinalizer _ _) eqn:E; cbn [negb].
  - apply ContainsFinalizer_spec in E. exists (meta k o), s. rewrite set_meta_meta.
    by split; [apply yields_ret|].
  - set (m := AddFinalizer (meta k o) (finalizerOf k o)).
    pose proof (AddFinalizer_rest (meta k o) (finalizerOf k o)) as Hrest. fold m in Hrest.
    destruct (server_update _ _ _ _ _ _ _ Hserver s o m Ho Hrest) as (s1 & Hh & Hs1 & He & Hb).
    exists m, s1.
    assert (DeletionTimestamp m = None) as Hm by (rewrite <- Hlive; by injection Hrest).
    rewrite Hm, decide_False in Hs1 by (intros [[? [=]] _]).
    split; [eapply yields_bind; [by apply yields_act|apply yields_ret]|].
    split_and!; [done|done|done|apply AddFinalizer_spec; by left|done|].
    intros Hin%ContainsFinalizer_spec. congruence.
Qed.

(** A condition, whose time is kept or is what the clock says. *)
Lemma lastTransitionTime_yields type status old s :
  exists t s', yields h (ConditionOps.lastTransitionTime type status old) s t s' /\
    quietly s s' /\ forall t', ConditionOps.sameTransition type status old = Some t' -> t = t'.
Proof.
  unfold ConditionOps.lastTransitionTime.
  destruct (ConditionOps.sameTransition type status old) as [t|].
  - exists t, s. split; [apply yields_ret|]. split; [done|naive_solver].
  - pose proof (server_pure _ _ _ _ _ _ _ Hserver s Now I) as Hq.
    destruct (h Now s) as [t s'] eqn:E. exists t, s'. split; [by apply (yields_act h Now)|done].
Qed.

(** The condition of a declared object. *)
Definition declared_condition (t : Z) : Condition :=
  mkCondition ready ConditionTrue t "SuccessfulCreateOrUpdate" "".
(** The condition of an object that could not be declared. *)
Definition failed_condition (t : Z) (e : error) : Condition :=
  mkCondition ready ConditionFalse t "FailedCreateOrUpdate" (err_Error e).

(** The object as a reconciliation leaves it. *)
Definition declared (m : ObjectMeta) (t : Z) (o : object k) : object k :=
  set_status_ObservedGeneration (Generation m)
    (SetStatusConditions [declared_condition t] (set_meta k m o)).
Definition failed (m : ObjectMeta) (t : Z) (e : error) (o : object k) : object k :=
  SetStatusConditions [failed_condition t e] (set_meta k m o).

(** The event that follows a declaration. *)
Lemma event_yields (o : object k) note s : yields h (act (Eventf k o note)) s (reads (Eventf k o note)) s.
Proof. apply (yields_act h (Eventf k o note)). by apply (server_reads _ _ _ _ _ _ _ Hserver). Qed.

(** The two ends of [reconcileDeclare]. *)
Lemma declare_end c o o1 err s s1 s2 :
  yields h (addFinalizerIfNeeded k o) s (None, o1) s1 ->
  yields h (DeclareFunc c o1) s1 (err, o1) s2 -> stored s2 = Some o1 ->
  exists t s3, yields h (reconcileDeclare k c o) s (emptyResult, err) s3 /\
    elsewhere s2 s3 /\ broker s3 = broker s2 /\
    match err with
    | None =>
        stored s3 = Some (set_status_ObservedGeneration (Generation (meta k o1))
                            (SetStatusConditions [declared_condition t] o1)) /\
        (forall t', ConditionOps.sameTransition ready ConditionTrue (status_Conditions o1) = Some t' ->
           t = t')
    | Some e => stored s3 = Some (SetStatusConditions [failed_condition t e] o1)
    end.
Proof.
  intros Hfin Hd Ho2. destruct err as [e|].
  - destruct (lastTransitionTime_yields ready ConditionFalse (status_Conditions o1) s2)
      as (t & st & Ht & [Hobj Hb] & _).
    rewrite <- (same_stored k req _ _ _ Hobj) in Ho2.
    destruct (server_status _ _ _ _ _ _ _ Hserver st o1 (SetStatusConditions [failed_condition t e] o1) Ho2)
      as (s3 & Hst & Ho3 & He3 & Hb3); [apply variant_conditions|].
    exists t, s3. split; [|by split_and!; [etrans; [apply same_elsewhere|]|congruence|]]. eapply yields_bind; [exact Hfin|]. cbv iota.
    eapply yields_bind; [exact Hd|]. cbv iota. eapply yields_bind; [apply event_yields|].
    eapply yields_bind; [|apply yields_ret].
    eapply yields_bind; [eapply yields_bind; [exact Ht|apply yields_ret]|].
    eapply yields_bind; [|apply yields_ret]. exact (yields_status h k _ _ _ _ Hst).
  - destruct (lastTransitionTime_yields ready ConditionTrue (status_Conditions o1) s2)
      as (t & st & Ht & [Hobj Hb] & Hsame).
    rewrite <- (same_stored k req _ _ _ Hobj) in Ho2.
    destruct (server_status _ _ _ _ _ _ _ Hserver st o1 (set_status_ObservedGeneration (Generation (meta k o1))
      (SetStatusConditions [declared_condition t] o1)) Ho2) as (s3 & Hst & Ho3 & He3 & Hb3).
    { etrans; [apply variant_conditions|apply variant_generation]. }
    exists t, s3. split; [|by split_and!; [etrans; [apply same_elsewhere|]|congruence| |]].
    eapply yields_bind; [exact Hfin|]. cbv iota.
    eapply yields_bind; [exact Hd|]. cbv iota. eapply yields_bind; [apply event_yields|].
    eapply yields_bind; [eapply yields_bind; [exact Ht|apply yields_ret]|].
    eapply yields_bind; [|apply yields_ret]. eapply yields_bind; [|apply yields_ret].
    unfold setObservedGeneration. rewrite SetStatusConditions_meta. exact (yields_status h k _ _ _ _ Hst).
Qed.

(** One reconciliation of a live object, whether or not the broker is willing. *)
Lemma reconcile_live s o call g :
  stored s = Some o -> DeletionTimestamp (meta k o) = None -> reachable o ->
  on_wanted reads o = Some (call, g) ->
  exists m t err s', yields h (Reconcile k r req) s (emptyResult, err) s' /\ elsewhere s s' /\
    finalizerOf k o ∈ Finalizers m /\ set_Finalizers [] m = set_Finalizers [] (meta k o) /\
    (finalizerOf k o ∈ Finalizers (meta k o) -> m = meta k o) /\
    (willing (broker s) call -> err = None) /\
    match err with
    | None =>
        stored s' = Some (declared m t o) /\ broker s' = achieve g (broker s) /\
        (forall t', ConditionOps.sameTransition ready ConditionTrue
           (status_Conditions (set_meta k m o)) = Some t' -> t = t')
    | Some e => stored s' = Some (failed m t e o) /\ broker s' = broker s
    end.
Proof.
  intros Ho Hlive Hreach Hw. destruct (reconcile_prefix s o Ho Hreach) as [c Hpre].
  rewrite Hlive in Hpre.
  destruct (addFinalizer_yields s o Ho Hlive) as (m & s1 & Hfin & Ho1 & He1 & Hb1 & Hin & Hrest & Hsame).
  assert (Hw1 : on_wanted reads (set_meta k m o) = Some (call, g))
    by (rewrite on_meta; [done|by injection Hrest]).
  destruct (on_declare _ h reads objects broker willing req c _ call g s1 Hserver Hw1)
    as (err & s2 & Hd & Hobj & Hwill & Hb2).
  pose proof (same_elsewhere k req _ _ _ Hobj) as He2.
  rewrite <- (same_stored k req _ _ _ Hobj) in Ho1.
  destruct (declare_end c o _ err s s1 s2 Hfin Hd Ho1) as (t & s3 & Hrun & He3 & Hb3 & Hend).
  exists m, t, err, s3. split_and!; try done.
  - by apply Hpre.
  - etrans; [exact He1|]. by etrans.
  - by rewrite <- Hb1.
  - rewrite Hb3, <- Hb1. destruct Hb2 as [[-> Hb2]|[Hne Hb2]].
    + destruct Hend as [Hend Ht]. rewrite meta_set_meta in Hend. by split_and!.
    + by destruct err as [e|].
Qed.

Lemma declared_facts m t (o : object k) :
  let o' := declared m t o in
  meta k o' = m /\ RabbitReference o' = RabbitReference o /\
  finalizerOf k o' = finalizerOf k o /\ status_ObservedGeneration o' = Generation m /\
  ConditionOps.findCondition ready (status_Conditions o') = Some (declared_condition t) /\
  ConditionOps.sameTransition ready ConditionTrue (status_Conditions o') = Some t.
Proof.
  unfold declared, finalizerOf.
  rewrite set_generation_meta, SetStatusConditions_meta, meta_set_meta, stable_ref_generation,
    stable_ref_conditions, stable_ref_meta, set_generation_gvk, SetStatusConditions_gvk,
    gvk_set_meta, set_generation_get, set_generation_conditions.
  split_and!; try done; [apply (SetStatusConditions_find (declared_condition t))|].
  apply (stable_transition (declared_condition t)).
Qed.

Lemma reachable_declared m t o :
  set_Finalizers [] m = set_Finalizers [] (meta k o) -> reachable o -> reachable (declared m t o).
Proof.
  intros Hm. destruct (declared_facts m t o) as (Hmeta & Href & _). unfold reachable.
  rewrite Hmeta, Href. by replace (Namespace m) with (Namespace (meta k o)) by by injection Hm.
Qed.

Lemma wanted_declared m t o :
  set_Finalizers [] m = set_Finalizers [] (meta k o) ->
  on_wanted reads (declared m t o) = on_wanted reads o.
Proof.
  intros Hm. unfold declared. rewrite on_generation, on_conditions, on_meta; [done|].
  by injection Hm.
Qed.

(** What was put can be put again. *)
Lemma willing_met o call g b :
  on_wanted reads o = Some (call, g) -> met g b -> willing b call.
Proof.
  intros [Hk He]%on_wanted_key [Hsub _].
  eapply (server_again _ _ _ _ _ _ _ Hserver); [exact Hk|]. by eapply lookup_weaken.
Qed.

(** A declared object whose goal is met stays as it is, and so does all else. *)
Lemma reconcile_again m t o call g s :
  stored s = Some (declared m t o) -> DeletionTimestamp m = None ->
  set_Finalizers [] m = set_Finalizers [] (meta k o) -> finalizerOf k o ∈ Finalizers m ->
  reachable o -> on_wanted reads o = Some (call, g) -> met g (broker s) ->
  exists s', yields h (Reconcile k r req) s (emptyResult, None) s' /\
    same_objects objects s s' /\ broker s' = broker s.
Proof.
  intros Ho Hlive Hrest Hin Hreach Hw Hmet.
  destruct (declared_facts m t o) as (Hmeta & _ & Hfin & _ & _ & Htime).
  assert (Hlive' : DeletionTimestamp (meta k (declared m t o)) = None) by by rewrite Hmeta.
  rewrite <- (wanted_declared m t o Hrest) in Hw.
  destruct (reconcile_live s _ call g Ho Hlive' (reachable_declared m t o Hrest Hreach) Hw)
    as (m2 & t2 & err & s' & Hrun & Helse & _ & _ & Hsame & Hwill & Hend).
  specialize (Hwill (willing_met _ _ _ _ Hw Hmet)) as ->. destruct Hend as (Ho2 & Hb2 & Htime2).
  rewrite Hmeta, Hfin in Hsame. specialize (Hsame Hin) as ->.
  pose proof (set_meta_meta (declared m t o)) as Heq. rewrite Hmeta in Heq.
  rewrite Heq in Htime2. specialize (Htime2 t Htime) as ->.
  exists s'. split; [done|]. split; [|rewrite Hb2; by apply met_spec].
  intros k' req'. destruct (decide ((k', req') = (k, req))) as [[= -> ->]|Hne]; [|by apply Helse].
  fold (Lifecycle.stored k req objects s') (Lifecycle.stored k req objects s).
  rewrite Ho2, Ho. f_equal. unfold declared at 1. rewrite Heq. apply stable_twice.
Qed.

(** C6: Against a server that stores objects, a broker that keeps what it accepts
    and a clock that tells any time and moves on, and as long as the cluster, its
    secret and its service stay readable as they are: when the settings of a live
    object can be generated and the broker is willing to take them, Reconcile
    makes the broker meet the goal of the object and changes no other name, stores
    the finalizer, the Ready condition and the observed generation and touches no
    other object, and a second Reconcile, whatever the time, changes neither an
    object (nor the transition time of its condition) nor the broker; for virtual
    hosts with their limits, permissions and topic permissions that name their
    user, exchanges, queues, bindings, policies, operator policies, federations,
    shovels and schema replications. *)
Theorem reconcile_converges s o call g :
  stored s = Some o -> DeletionTimestamp (meta k o) = None -> reachable o ->
  on_wanted reads o = Some (call, g) -> willing (broker s) call ->
  exists o' s', yields h (Reconcile k r req) s (emptyResult, None) s' /\
    stored s' = Some o' /\ elsewhere s s' /\ broker s' = achieve g (broker s) /\
    finalizerOf k o ∈ Finalizers (meta k o') /\
    set_Finalizers [] (meta k o') = set_Finalizers [] (meta k o) /\
    status_ObservedGeneration o' = Generation (meta k o) /\
    (exists t, ConditionOps.findCondition ready (status_Conditions o') =
               Some (declared_condition t)) /\
    exists s'', yields h (Reconcile k r req) s' (emptyResult, None) s'' /\
      same_objects objects s' s'' /\ broker s'' = broker s'.
Proof.
  intros Ho Hlive Hreach Hw Hwill.
  destruct (reconcile_live s o call g Ho Hlive Hreach Hw)
    as (m & t & err & s' & Hrun & Helse & Hin & Hrest & _ & Herr & Hend).
  specialize (Herr Hwill) as ->. destruct Hend as (Ho' & Hb & _).
  destruct (declared_facts m t o) as (Hmeta & _ & _ & Hgen & Hready & _).
  exists (declared m t o), s'. rewrite Hmeta, Hgen.
  split_and!; try done; [by injection Hrest|by exists t|].
  apply (reconcile_again m t o call g); try done.
  - rewrite <- Hlive. by injection Hrest.
  - rewrite Hb. apply met_achieve.
Qed.

(** ** An object that is being deleted *)

Lemma removeFinalizer_yields s o :
  stored s = Some o -> is_Some (DeletionTimestamp (meta k o)) ->
  Finalizers (meta k o) = [finalizerOf k o] ->
  exists o' s', yields h (removeFinalizer k o) s (None, o') s' /\
    stored s' = None /\ elsewhere s s' /\ broker s' = broker s.
Proof.
  intros Ho Hdel Hfin. unfold removeFinalizer.
  set (m := RemoveFinalizer (meta k o) (finalizerOf k o)).
  pose proof (RemoveFinalizer_rest (meta k o) (finalizerOf k o)) as Hrest. fold m in Hrest.
  destruct (server_update _ _ _ _ _ _ _ Hserver s o m Ho Hrest) as (s' & Hh & Hs' & He & Hb).
  exists (set_meta k m o), s'. split; [eapply yields_bind; [by apply yields_act|apply yields_ret]|].
  split; [|done]. rewrite Hs', decide_True; [done|]. split.
  - replace (DeletionTimestamp m) with (DeletionTimestamp (meta k o)) by by injection Hrest. done.
  - apply elem_of_nil_inv. intros f [Hne Hf]%RemoveFinalizer_spec. rewrite Hfin in Hf. set_solver.
Qed.

Lemma delete_yields c s o :
  on_unguarded (broker s) o ->
  exists s', yields h (DeleteFunc c o) s (None, o) s' /\ same_objects objects s s' /\
    broker s' = (if on_retained o then broker s else wipe (on_key o) (broker s)).
Proof.
  intros Hun. destruct (on_retained o) eqn:Hret; [exists s; by split; [apply on_retain|]|].
  by apply (on_delete S h reads objects broker willing req c o s Hserver).
Qed.

(** The broker first, then the finalizer. *)
Lemma reconcile_deleted s o :
  stored s = Some o -> is_Some (DeletionTimestamp (meta k o)) ->
  Finalizers (meta k o) = [finalizerOf k o] -> reachable o -> on_unguarded (broker s) o ->
  exists s', yields h (Reconcile k r req) s (emptyResult, None) s' /\ stored s' = None /\
    elsewhere s s' /\
    broker s' = (if on_retained o then broker s else wipe (on_key o) (broker s)).
Proof.
  intros Ho Hdel Hfin Hreach Hun. destruct (reconcile_prefix s o Ho Hreach) as [c Hpre].
  destruct (delete_yields c s o Hun) as (s1 & Hd & Hobj & Hb1).
  rewrite <- (same_stored k req _ _ _ Hobj) in Ho.
  destruct (removeFinalizer_yields s1 o Ho Hdel Hfin) as (o2 & s2 & Hf & Ho2 & He2 & Hb2).
  exists s2. split_and!; [|done|by etrans; [apply same_elsewhere|]|congruence].
  apply Hpre. destruct Hdel as [t Ht]. rewrite Ht.
  eapply yields_bind; [exact Hd|]. cbv iota. eapply yields_bind; [apply event_yields|].
  eapply yields_bind; [exact Hf|]. apply yields_ret.
Qed.

(** C7: Against the same server, Reconcile of an object that is being deleted and
    carries only the operator's finalizer clears its name on the broker and what
    lies inside it, and no other, unless its policy is to retain it, and the
    object, no other, is gone afterwards. A queue must not ask to be empty or
    unused; a binding without arguments has a routing key without percent and plus
    signs, for which the broker's properties key is the key with its tildes
    escaped (a tilde when it is empty); the virtual host of a binding with
    arguments must exist, and under the name of the binding nothing else;
    permissions, topic permissions and users are excepted. *)
Theorem deletion_converges s o :
  stored s = Some o -> is_Some (DeletionTimestamp (meta k o)) ->
  Finalizers (meta k o) = [finalizerOf k o] -> reachable o -> on_unguarded (broker s) o ->
  exists s', yields h (Reconcile k r req) s (emptyResult, None) s' /\ stored s' = None /\
    elsewhere s s' /\
    broker s' = (if on_retained o then broker s else wipe (on_key o) (broker s)).
Proof. apply reconcile_deleted. Qed.
End server.
