(* ===== verification/LifecycleKinds.v ===== *)
(** * Eleven kinds on the broker

    The name of an object on the broker, what its declaration puts there and what
    its deletion takes away: exchanges, queues, bindings, policies, operator
    policies, federations, shovels, schema replications, virtual hosts, and the
    permissions that name their user. *)

From S2P Require Import Prelude.
From Stdlib Require Import Ascii.
From S2P Require Import GoStrings.
From S2P Require Import GoErrors.
From S2P Require Import Prog.
From S2P Require Import Api.
From S2P Require Import Values.
From S2P Require Import World.
From S2P Require Import Resources.
From S2P Require Import Settings.
From S2P Require Import Utils.
From S2P Require Import TopologyReconciler.
From S2P Require Import Traces.
From S2P Require Import ReconcilerProofs.
From S2P Require Import Controllers.
From S2P Require Import ControllerProofs.
From S2P Require Import PermissionControllers.
From S2P Require Import Broker.
From S2P Require Import Lifecycle.

(** ** The status *)

Ltac common_stable :=
  split; try done; intros c o; simpl; by rewrite !bool_decide_eq_true_2.

#[export] Instance Binding_stable : StatusStable KBinding.
Proof. common_stable. Qed.
#[export] Instance Exchange_stable : StatusStable KExchange.
Proof. common_stable. Qed.
#[export] Instance Federation_stable : StatusStable KFederation.
Proof. common_stable. Qed.
#[export] Instance OperatorPolicy_stable : StatusStable KOperatorPolicy.
Proof. common_stable. Qed.
#[export] Instance Permission_stable : StatusStable KPermission.
Proof. common_stable. Qed.
#[export] Instance Policy_stable : StatusStable KPolicy.
Proof. common_stable. Qed.
#[export] Instance Queue_stable : StatusStable KQueue.
Proof. common_stable. Qed.
#[export] Instance SchemaReplication_stable : StatusStable KSchemaReplication.
Proof. common_stable. Qed.
#[export] Instance Shovel_stable : StatusStable KShovel.
Proof. common_stable. Qed.
#[export] Instance TopicPermission_stable : StatusStable KTopicPermission.
Proof. common_stable. Qed.
#[export] Instance Vhost_stable : StatusStable KVhost.
Proof. common_stable. Qed.

(** ** Calls *)

Section calls.
Context `{LibsOk} `{BrokerLib} {k : kind} `{!TopologyResource k} {req : NamespacedName}.
Context {S : Type} {h : handler result S} {reads : forall a, result a}.
Context {objects : S -> forall k, NamespacedName -> option (object k)} {broker : S -> broker_state}.
Context {willing : broker_state -> rmq_call -> Prop}.
Context (Hserver : ServerOk k req h reads objects broker willing).

(** What [on_declare] asks for. *)
Definition declares (p : go (option error * object k)) (o : object k) (call : rmq_call) (g : Goal)
    (s : S) : Prop :=
  exists err s', yields h p s (err, o) s' /\ same_objects objects s s' /\
    (willing (broker s) call -> err = None) /\
    (err = None /\ broker s' = achieve g (broker s) \/ err <> None /\ broker s' = broker s).

(** What [on_delete] asks for. *)
Definition removes (p : go (option error * object k)) (o : object k) (key : bkey) (s : S) : Prop :=
  exists s', yields h p s (None, o) s' /\ same_objects objects s s' /\ broker s' = wipe key (broker s).

Lemma declareCall_yields c call key (answer : rmq_result call -> http_result) o s :
  (forall x, http_answer call x = Some (answer x)) -> puts call = Some key ->
  declares (declareCall c call answer o) o call (entry key call) s.
Proof.
  intros Hans Hkey.
  destruct (server_put _ _ _ _ _ _ _ Hserver s c call key Hkey)
    as (x & res & s' & Hh & Hx & Hobj & Hwill & Hb).
  rewrite Hans in Hx. injection Hx as <-.
  exists (validateResponse (answer x)), s'. split_and!.
  - eapply yields_bind; [by apply yields_act|]. apply yields_ret.
  - done.
  - intros Hw. by apply validateResponse_ok, Hwill.
  - rewrite <- validateResponse_ok, achieve_entry in *. naive_solver.
Qed.

Lemma deleteCall_yields c call key (answer : rmq_result call -> http_result) o s :
  (forall x, http_answer call x = Some (answer x)) -> deletes call = Some key ->
  removes (deleteCall c call answer o) o key s.
Proof.
  intros Hans Hkey.
  destruct (server_delete _ _ _ _ _ _ _ Hserver s c call key Hkey)
    as (x & res & s' & Hh & Hx & Hres & Hobj & Hb).
  rewrite Hans in Hx. injection Hx as <-. exists s'. split; [|done].
  assert (Hok : deletionResult (answer x) = None) by (apply deletionResult_ok; case_decide; auto).
  eapply yields_bind; [by apply yields_act|]. rewrite Hok. apply yields_ret.
Qed.

(** A first part whose value is settled. *)
Lemma declares_bind {A} (p : go (error + A)) f x o call g s :
  all_calls (fun e => ambient (projT1 e)) p -> outcome_with reads p = Returned (inr x) ->
  declares (f (inr x)) o call g s -> declares (bind p f) o call g s.
Proof.
  intros Hp Hx (err & s' & Hy & Hrest). exists err, s'. split; [|done].
  eapply yields_bind; [|exact Hy].
  eapply yields_ambient; [apply (server_reads _ _ _ _ _ _ _ Hserver)|done|done].
Qed.
End calls.

(** The value that a program with settled reads returns. *)
Definition value_with {A} (reads : forall a, result a) (p : go (error + A)) : option A :=
  match outcome_with reads p with Returned (inr x) => Some x | _ => None end.

Lemma value_with_outcome {A} reads (p : go (error + A)) x :
  value_with reads p = Some x -> outcome_with reads p = Returned (inr x).
Proof. unfold value_with. destruct (outcome_with reads p) as [[e|y]|w]; naive_solver. Qed.

Ltac ambient_calls := repeat (cbv zeta; all_calls_step); simpl; done.

(** The goal of an object that puts one call. *)
Definition single (key : bkey) (call : option rmq_call) : option (rmq_call * Goal) :=
  (fun call => (call, entry key call)) <$> call.

Lemma single_key `{BrokerLib} key call0 call g :
  (forall call, call0 = Some call -> puts call = Some key) ->
  single key call0 = Some (call, g) ->
  puts call = Some key /\ g_entries g !! key = Some call.
Proof.
  intros Hk (c & Hc & [= -> ->])%fmap_Some. split; [by apply Hk|apply lookup_singleton_eq].
Qed.

Section kinds.
Context `{LibsOk} `{BrokerLib}.

(** ** Exchanges and queues *)

Definition Exchange_key (e : object KExchange) : bkey :=
  BExchange (Exchange_Vhost (Spec e)) (Exchange_Name (Spec e)).
Definition Exchange_wanted (e : Exchange) : option rmq_call :=
  match GenerateExchangeSettings e with
  | inr st => Some (DeclareExchange (Exchange_Vhost (Spec e)) (Exchange_Name (Spec e)) st)
  | inl _ => None
  end.

#[export] Instance Exchange_on_broker : OnBroker KExchange.
Proof.
  refine {| on_key := Exchange_key;
    on_wanted _ e := single (Exchange_key e) (Exchange_wanted e);
    on_retained _ := false; on_unguarded _ _ := True |}; try done.
  - intros _ e call g. apply single_key. unfold Exchange_wanted. intros call'.
    by destruct (GenerateExchangeSettings e) as [?|?]; intros [= <-].
  - intros S h reads objects broker willing req c e call g s Hs (x & Hw & [= -> ->])%fmap_Some.
    unfold Exchange_wanted in Hw. simpl. unfold Exchange_DeclareFunc.
    destruct (GenerateExchangeSettings e); [done|]. injection Hw as <-.
    by apply (declareCall_yields Hs).
  - intros S h reads objects broker willing req c e s Hs _ _. by apply (deleteCall_yields Hs).
Defined.

Definition Queue_key (q : object KQueue) : bkey :=
  BQueue (Queue_Vhost (Spec q)) (Queue_Name (Spec q)).
Definition Queue_wanted (q : Queue) : option rmq_call :=
  match GenerateQueueSettings q with
  | inr st => Some (DeclareQueue (Queue_Vhost (Spec q)) (Queue_Name (Spec q)) st)
  | inl _ => None
  end.

#[export] Instance Queue_on_broker : OnBroker KQueue.
Proof.
  refine {| on_key := Queue_key;
    on_wanted _ q := single (Queue_key q) (Queue_wanted q);
    on_retained q := shouldSkipDeletion (Queue_DeletionPolicy (Spec q)) (Queue_Name (Spec q));
    on_unguarded _ q :=
      Queue_DeleteIfEmpty (Spec q) = false /\ Queue_DeleteIfUnused (Spec q) = false |}; try done.
  - intros _ q call g. apply single_key. unfold Queue_wanted. intros call'.
    by destruct (GenerateQueueSettings q) as [?|?]; intros [= <-].
  - intros S h reads objects broker willing req c q call g s Hs (x & Hw & [= -> ->])%fmap_Some.
    unfold Queue_wanted in Hw. simpl. unfold Queue_DeclareFunc.
    destruct (GenerateQueueSettings q); [done|]. injection Hw as <-.
    by apply (declareCall_yields Hs).
  - intros S h reads objects broker willing req c q s Hs Hret [He Hu]. simpl in Hret. simpl.
    unfold Queue_DeleteFunc, GenerateQueueDeleteOptions, quorumGuard.
    rewrite Hret, He, Hu, !andb_false_r. simpl. by apply (deleteCall_yields Hs).
  - intros S h c q s Hret. simpl in *. unfold Queue_DeleteFunc. rewrite Hret. apply yields_ret.
Defined.

(** ** Policies *)

Definition Policy_key (p : object KPolicy) : bkey :=
  BPolicy (Policy_Vhost (Spec p)) (Policy_Name (Spec p)).
Definition Policy_wanted (reads : forall a, result a) (p : Policy) : option rmq_call :=
  PutPolicy (Policy_Vhost (Spec p)) (Policy_Name (Spec p)) <$> value_with reads (GeneratePolicy p).

Definition OperatorPolicy_key (p : object KOperatorPolicy) : bkey :=
  BOperatorPolicy (OperatorPolicy_Vhost (Spec p)) (OperatorPolicy_Name (Spec p)).
Definition OperatorPolicy_wanted (reads : forall a, result a) (p : OperatorPolicy) :
    option rmq_call :=
  PutOperatorPolicy (OperatorPolicy_Vhost (Spec p)) (OperatorPolicy_Name (Spec p)) <$>
    value_with reads (GenerateOperatorPolicy p).

(** The kinds whose call is a function of what is read. *)
Ltac single_call_key :=
  let reads := fresh "reads" in
  intros reads ? ? ?; apply single_key; by intros ? (? & _ & ->)%fmap_Some.

#[export] Instance Policy_on_broker : OnBroker KPolicy.
Proof.
  refine {| on_key := Policy_key;
    on_wanted reads p := single (Policy_key p) (Policy_wanted reads p);
    on_retained _ := false; on_unguarded _ _ := True |}; try done.
  - single_call_key.
  - intros S h reads objects broker willing req c p call g s Hs
      (x & (info & Hv%value_with_outcome & ->)%fmap_Some & [= -> ->])%fmap_Some.
    eapply (declares_bind Hs); [|exact Hv|by apply (declareCall_yields Hs)].
    unfold GeneratePolicy. ambient_calls.
  - intros S h reads objects broker willing req c p s Hs _ _. by apply (deleteCall_yields Hs).
Defined.

#[export] Instance OperatorPolicy_on_broker : OnBroker KOperatorPolicy.
Proof.
  refine {| on_key := OperatorPolicy_key;
    on_wanted reads p := single (OperatorPolicy_key p) (OperatorPolicy_wanted reads p);
    on_retained _ := false; on_unguarded _ _ := True |}; try done.
  - single_call_key.
  - intros S h reads objects broker willing req c p call g s Hs
      (x & (info & Hv%value_with_outcome & ->)%fmap_Some & [= -> ->])%fmap_Some.
    eapply (declares_bind Hs); [|exact Hv|by apply (declareCall_yields Hs)].
    unfold GenerateOperatorPolicy. ambient_calls.
  - intros S h reads objects broker willing req c p s Hs _ _. by apply (deleteCall_yields Hs).
Defined.

(** ** Federations, shovels and schema replications, which read a secret *)

Definition Federation_key (f : object KFederation) : bkey :=
  BFederation (Federation_Vhost (Spec f)) (Federation_Name (Spec f)).
Definition Federation_wanted (reads : forall a, result a) (f : Federation) : option rmq_call :=
  (fun uri => PutFederationUpstream (Federation_Vhost (Spec f)) (Federation_Name (Spec f))
                (GenerateFederationDefinition f uri)) <$> value_with reads (Federation_getUri f).

Lemma Federation_getUri_meta m (f : Federation) :
  Namespace m = Namespace (resource_ObjectMeta f) ->
  Federation_getUri (set_ObjectMeta m f) = Federation_getUri f.
Proof. unfold Federation_getUri. simpl. by intros ->. Qed.

#[export] Instance Federation_on_broker : OnBroker KFederation.
Proof.
  refine {| on_key := Federation_key;
    on_wanted reads f := single (Federation_key f) (Federation_wanted reads f);
    on_retained f := shouldSkipDeletion (Federation_DeletionPolicy (Spec f)) (Federation_Name (Spec f));
    on_unguarded _ _ := True |}; try done.
  - single_call_key.
  - intros S h reads objects broker willing req c f call g s Hs
      (x & (uri & Hv%value_with_outcome & ->)%fmap_Some & [= -> ->])%fmap_Some.
    eapply (declares_bind Hs); [|exact Hv|by apply (declareCall_yields Hs)].
    unfold Federation_getUri. ambient_calls.
  - intros S h reads objects broker willing req c f s Hs Hret _. simpl in Hret. simpl.
    unfold Federation_DeleteFunc. rewrite Hret. by apply (deleteCall_yields Hs).
  - intros S h c f s Hret. simpl in *. unfold Federation_DeleteFunc. rewrite Hret. apply yields_ret.
  - intros reads m f Hm. unfold Federation_wanted. simpl. by rewrite Federation_getUri_meta.
Defined.

Definition Shovel_key (s : object KShovel) : bkey :=
  BShovel (Shovel_Vhost (Spec s)) (Shovel_Name (Spec s)).
Definition Shovel_wanted (reads : forall a, result a) (s : Shovel) : option rmq_call :=
  match value_with reads (Shovel_getUris s) with
  | Some (srcUri, destUri) =>
      match GenerateShovelDefinition s srcUri destUri with
      | inr d => Some (DeclareShovel (Shovel_Vhost (Spec s)) (Shovel_Name (Spec s)) d)
      | inl _ => None
      end
  | None => None
  end.

Lemma Shovel_wanted_inv reads (sh : Shovel) call :
  Shovel_wanted reads sh = Some call ->
  exists src dest d, value_with reads (Shovel_getUris sh) = Some (src, dest) /\
    GenerateShovelDefinition sh src dest = inr d /\
    call = DeclareShovel (Shovel_Vhost (Spec sh)) (Shovel_Name (Spec sh)) d.
Proof.
  unfold Shovel_wanted. destruct (value_with _ _) as [[src dest]|]; [|done].
  destruct (GenerateShovelDefinition sh src dest) as [e|d] eqn:E; [done|]. intros [= <-]. eauto 10.
Qed.

Lemma Shovel_getUris_meta m (sh : Shovel) :
  Namespace m = Namespace (resource_ObjectMeta sh) ->
  Shovel_getUris (set_ObjectMeta m sh) = Shovel_getUris sh.
Proof. unfold Shovel_getUris. simpl. by intros ->. Qed.

#[export] Instance Shovel_on_broker : OnBroker KShovel.
Proof.
  refine {| on_key := Shovel_key;
    on_wanted reads sh := single (Shovel_key sh) (Shovel_wanted reads sh);
    on_retained s := shouldSkipDeletion (Shovel_DeletionPolicy (Spec s)) (Shovel_Name (Spec s));
    on_unguarded _ _ := True |}; try done.
  - intros reads sh call g. apply single_key.
    by intros call' (src & dest & d & _ & _ & ->)%Shovel_wanted_inv.
  - intros S h reads objects broker willing req c sh call g s Hs
      (x & (src & dest & d & Hv%value_with_outcome & Hd & ->)%Shovel_wanted_inv & [= -> ->])%fmap_Some.
    eapply (declares_bind Hs); [|exact Hv|].
    { unfold Shovel_getUris. ambient_calls. }
    cbv iota. rewrite Hd. by apply (declareCall_yields Hs).
  - intros S h reads objects broker willing req c sh s Hs Hret _. simpl in Hret. simpl.
    unfold Shovel_DeleteFunc. rewrite Hret. by apply (deleteCall_yields Hs).
  - intros S h c sh s Hret. simpl in *. unfold Shovel_DeleteFunc. rewrite Hret. apply yields_ret.
  - intros reads m sh Hm. unfold Shovel_wanted. simpl. by rewrite Shovel_getUris_meta.
Defined.

Definition SchemaReplication_wanted (reads : forall a, result a) (r : SchemaReplication) :
    option rmq_call :=
  PutGlobalParameter SchemaReplicationParameterName <$> value_with reads (getUpstreamEndpoints r).

Lemma getUpstreamEndpoints_meta m (r : SchemaReplication) :
  Namespace m = Namespace (resource_ObjectMeta r) ->
  getUpstreamEndpoints (set_ObjectMeta m r) = getUpstreamEndpoints r.
Proof. unfold getUpstreamEndpoints, upstreamSecret. simpl. by intros ->. Qed.

(** All schema replications of a cluster share one name. *)
#[export] Instance SchemaReplication_on_broker : OnBroker KSchemaReplication.
Proof.
  refine {| on_key (_ : object KSchemaReplication) := BGlobalParameter SchemaReplicationParameterName;
    on_wanted reads r := single (BGlobalParameter SchemaReplicationParameterName)
                           (SchemaReplication_wanted reads r);
    on_retained _ := false; on_unguarded _ _ := True |}; try done.
  - single_call_key.
  - intros S h reads objects broker willing req c r call g s Hs
      (x & (v & Hv%value_with_outcome & ->)%fmap_Some & [= -> ->])%fmap_Some.
    eapply (declares_bind Hs); [|exact Hv|by apply (declareCall_yields Hs)].
    unfold getUpstreamEndpoints, upstreamSecret. ambient_calls.
  - intros S h reads objects broker willing req c r s Hs _ _. by apply (deleteCall_yields Hs).
  - intros reads m r Hm. unfold SchemaReplication_wanted. simpl. by rewrite getUpstreamEndpoints_meta.
Defined.

(** ** Bindings *)

Definition Binding_key (b : object KBinding) : bkey :=
  match GenerateBindingInfo b with
  | inr info => declared_at (Binding_Vhost (Spec b)) info
  | inl _ => BVhost (Binding_Vhost (Spec b))
  end.
Definition Binding_wanted (b : Binding) : option rmq_call :=
  match GenerateBindingInfo b with
  | inr info => Some (DeclareBinding (Binding_Vhost (Spec b)) info)
  | inl _ => None
  end.

(** The routing key of a binding without arguments is plain; a binding with
    arguments is looked up in its virtual host, which must exist, and what is there
    under its name must be what was declared. *)
Definition Binding_found (b : broker_state) (o : Binding) : Prop :=
  exists info, GenerateBindingInfo o = inr info /\
  let key := declared_at (Binding_Vhost (Spec o)) info in
  match Binding_Arguments (Spec o) with
  | None => plain_key (Binding_RoutingKey (Spec o)) = true
  | Some _ =>
      (Binding_DestinationType (Spec o) = "queue" \/ Binding_DestinationType (Spec o) = "exchange") /\
      is_Some (b !! BVhost (Binding_Vhost (Spec o))) /\
      DeepEqual_maps (BindingInfo_Arguments info) (BindingInfo_Arguments info) = true /\
      (b !! key = None \/ b !! key = Some (DeclareBinding (Binding_Vhost (Spec o)) info))
  end.

(** The properties key that the operator generates is the one by which the broker
    knows the binding. *)
Lemma ReplaceAll_tilde key : ReplaceAll key "~"%char "%7E" = tilde_escaped key.
Proof.
  induction key as [|c key IH]; [done|]. cbn [ReplaceAll]. rewrite IH.
  destruct (Ascii.eqb_spec c "~"%char) as [->|Hne]; [done|].
  destruct c as [[] [] [] [] [] [] [] []]; done.
Qed.

Lemma GeneratePropertiesKey_names `{!BrokerLibOk} (o : Binding) info :
  Binding_Arguments (Spec o) = None -> plain_key (Binding_RoutingKey (Spec o)) = true ->
  GenerateBindingInfo o = inr info ->
  named_by (GeneratePropertiesKey o) =
  binding_id (BindingInfo_RoutingKey info) (BindingInfo_Arguments info).
Proof.
  intros Hargs Hplain. unfold GenerateBindingInfo, unmarshal_arguments, GeneratePropertiesKey.
  rewrite Hargs. intros [= <-]. cbn. case_bool_decide as E.
  - rewrite E. apply named_by_tilde.
  - rewrite ReplaceAll_tilde. by apply named_by_key.
Qed.

(** The lookup that precedes the deletion of a binding with arguments. *)
Lemma findBindingInfo_yields {S} `{!BrokerLibOk} (h : handler result S) reads objects broker willing req
    c (o : Binding) raw info s :
  ServerOk KBinding req h reads objects broker willing ->
  Binding_Arguments (Spec o) = Some raw -> GenerateBindingInfo o = inr info ->
  Binding_found (broker s) o ->
  exists found, yields h (findBindingInfo o c) s (inr found) s /\
    match found with
    | Some i => deletes (DeleteBinding (Binding_Vhost (Spec o)) i) =
                Some (declared_at (Binding_Vhost (Spec o)) info)
    | None => broker s !! declared_at (Binding_Vhost (Spec o)) info = None
    end.
Proof.
  intros Hs Hraw Hinfo (info' & Hinfo' & Hf). rewrite Hinfo in Hinfo'. injection Hinfo' as <-.
  rewrite Hraw in Hf. destruct Hf as (Htype & Hvhost & Hself & Hkey).
  set (v := Binding_Vhost (Spec o)) in *.
  unfold GenerateBindingInfo, unmarshal_arguments in Hinfo. rewrite Hraw in Hinfo.
  destruct (json_Unmarshal (raw_bytes raw)) as [e|args] eqn:Hj; [done|]. injection Hinfo as <-.
  simpl in Hself.
  assert (Hlist : exists (l : list BindingInfo),
    yields h (if bool_decide (Binding_DestinationType (Spec o) = "queue")
              then act (Rmq c (ListQueueBindingsBetween v (Binding_Source (Spec o)) (Binding_Destination (Spec o))))
              else act (Rmq c (ListExchangeBindingsBetween v (Binding_Source (Spec o)) (Binding_Destination (Spec o))))
              : go (rmq_error + list BindingInfo)) s (inr l) s /\
    lists_bindings (broker s) v (Binding_Source (Spec o)) (Binding_Destination (Spec o))
      (Binding_DestinationType (Spec o)) l).
  { destruct Htype as [Ht|Ht]; rewrite Ht; simpl.
    - destruct (server_queue_bindings _ _ _ _ _ _ _ Hs s c v (Binding_Source (Spec o))
        (Binding_Destination (Spec o)) Hvhost) as (l & Hl & Hok).
      exists l. split; [exact (yields_act h _ _ _ _ Hl)|done].
    - destruct (server_exchange_bindings _ _ _ _ _ _ _ Hs s c v (Binding_Source (Spec o))
        (Binding_Destination (Spec o)) Hvhost) as (l & Hl & Hok).
      exists l. split; [exact (yields_act h _ _ _ _ Hl)|done]. }
  destruct Hlist as (l & Hy & [Hat Hall]).
  exists (lastMatch (Binding_RoutingKey (Spec o)) args l None). split.
  { unfold findBindingInfo. rewrite Hraw, Hj. cbv zeta. eapply yields_bind; [exact Hy|]. apply yields_ret. }
  pose proof (lastMatch_spec o args l None) as Hm. destruct (lastMatch _ _ _ _) as [i|].
  - destruct Hm as [|[Hin [Hk Hd]]]; [done|]. cbn [deletes]. f_equal.
    rewrite (Hat i Hin), Hk, (binding_id_equal _ _ _ Hd). done.
  - destruct Hm as [_ Hno]. destruct Hkey as [Hkey|Hkey]; [done|].
    specialize (Hall _ (eq_refl : BindingInfo_Source (mkBindingInfo v _ _ _ _ args "") = _)
      eq_refl eq_refl Hkey Hself) as (i & Hin & Hrk & Hd).
    by destruct (Hno i Hin).
Qed.

#[export] Instance Binding_on_broker `{!BrokerLibOk} : OnBroker KBinding.
Proof.
  refine {| on_key := Binding_key;
    on_wanted _ b := single (Binding_key b) (Binding_wanted b);
    on_retained _ := false; on_unguarded := Binding_found |}; try done.
  - intros _ b call g. apply single_key. unfold Binding_wanted, Binding_key. intros call'.
    by destruct (GenerateBindingInfo b) as [?|?]; intros [= <-].
  - intros S h reads objects broker willing req c b call g s Hs (x & Hw & [= -> ->])%fmap_Some.
    unfold Binding_wanted in Hw. simpl. unfold Binding_DeclareFunc, Binding_key.
    destruct (GenerateBindingInfo b); [done|]. injection Hw as <-.
    by apply (declareCall_yields Hs).
  - intros S h reads objects broker willing req c b s Hs _ Hfound. simpl.
    pose proof Hfound as (info & Hinfo & Hf). unfold Binding_DeleteFunc, Binding_key. rewrite Hinfo.
    destruct (Binding_Arguments (Spec b)) as [raw|] eqn:Hraw.
    + destruct (findBindingInfo_yields h reads objects broker willing req c b raw info s Hs Hraw Hinfo Hfound)
        as ([i|] & Hy & Hi).
      * destruct (deleteCall_yields Hs c (DeleteBinding (Binding_Vhost (Spec b)) i) _
          (fun r => r) b s (fun _ => eq_refl) Hi) as (s' & Hd & Hrest).
        exists s'. split; [|done]. eapply yields_bind; [exact Hy|]. exact Hd.
      * exists s. split; [eapply yields_bind; [exact Hy|apply yields_ret]|]. split; [done|].
        rewrite wipe_absent; [done| |done]. unfold covers, declared_at, binding_at. simpl.
        intros key'. rewrite orb_false_r. by intros ->%bool_decide_eq_true.
    + apply (deleteCall_yields Hs); [done|]. unfold declared_at. simpl in Hf |- *.
      by rewrite (GeneratePropertiesKey_names b info).
Defined.

(** ** Permissions that name their user *)

Definition Permission_key (p : object KPermission) : bkey :=
  BPermission (Permission_Vhost (Spec p)) (Permission_User (Spec p)).
Definition Permission_wanted (p : Permission) : option rmq_call :=
  match Permission_UserReference (Spec p) with
  | None =>
      if bool_decide (Permission_User (Spec p) = "") then None
      else Some (UpdatePermissionsIn (Permission_Vhost (Spec p)) (Permission_User (Spec p))
                   (GeneratePermissions p))
  | Some _ => None
  end.

Lemma Permission_wanted_inv p call :
  Permission_wanted p = Some call ->
  Permission_UserReference (Spec p) = None /\ bool_decide (Permission_User (Spec p) = "") = false /\
  call = UpdatePermissionsIn (Permission_Vhost (Spec p)) (Permission_User (Spec p)) (GeneratePermissions p).
Proof.
  unfold Permission_wanted. destruct (Permission_UserReference _); [done|].
  destruct (bool_decide _); [done|]. by intros [= <-].
Qed.

Lemma Permission_declares c (p : Permission) :
  Permission_UserReference (Spec p) = None -> bool_decide (Permission_User (Spec p) = "") = false ->
  Permission_DeclareFunc c p =
  declareCall (k:=KPermission) c (UpdatePermissionsIn (Permission_Vhost (Spec p)) (Permission_User (Spec p))
    (GeneratePermissions p)) (fun r => r) p.
Proof. intros Href Huser. unfold Permission_DeclareFunc, permissionUser. rewrite Href. cbn [bind]. by rewrite Huser. Qed.

(** Their deletion is the subject of PermissionDeletion.v. *)
#[export] Instance Permission_on_broker : OnBroker KPermission.
Proof.
  refine {| on_key := Permission_key;
    on_wanted _ p := single (Permission_key p) (Permission_wanted p);
    on_retained _ := false; on_unguarded _ _ := False |}; try done.
  - intros _ p call g. apply single_key. by intros call' (_ & _ & ->)%Permission_wanted_inv.
  - intros S h reads objects broker willing req c p call g s Hs
      (x & (Href & Huser & ->)%Permission_wanted_inv & [= -> ->])%fmap_Some.
    simpl. rewrite (Permission_declares c p Href Huser). by apply (declareCall_yields Hs).
Defined.

Definition TopicPermission_key (p : object KTopicPermission) : bkey :=
  BTopicPermission (TopicPermission_Vhost (Spec p)) (TopicPermission_User (Spec p))
    (TopicPermissionConfig_Exchange (TopicPermission_Permissions (Spec p))).
Definition TopicPermission_wanted (p : TopicPermission) : option rmq_call :=
  match TopicPermission_UserReference (Spec p) with
  | None =>
      if bool_decide (TopicPermission_User (Spec p) = "") then None
      else Some (UpdateTopicPermissionsIn (TopicPermission_Vhost (Spec p))
                   (TopicPermission_User (Spec p)) (GenerateTopicPermissions p))
  | Some _ => None
  end.

Lemma TopicPermission_wanted_inv p call :
  TopicPermission_wanted p = Some call ->
  TopicPermission_UserReference (Spec p) = None /\
  bool_decide (TopicPermission_User (Spec p) = "") = false /\
  call = UpdateTopicPermissionsIn (TopicPermission_Vhost (Spec p)) (TopicPermission_User (Spec p))
           (GenerateTopicPermissions p).
Proof.
  unfold TopicPermission_wanted. destruct (TopicPermission_UserReference _); [done|].
  destruct (bool_decide _); [done|]. by intros [= <-].
Qed.

Lemma TopicPermission_declares c (p : TopicPermission) :
  TopicPermission_UserReference (Spec p) = None -> bool_decide (TopicPermission_User (Spec p) = "") = false ->
  TopicPermission_DeclareFunc c p =
  declareCall (k:=KTopicPermission) c (UpdateTopicPermissionsIn (TopicPermission_Vhost (Spec p)) (TopicPermission_User (Spec p))
    (GenerateTopicPermissions p)) (fun r => r) p.
Proof. intros Href Huser. unfold TopicPermission_DeclareFunc, permissionUser. rewrite Href. cbn [bind]. by rewrite Huser. Qed.

#[export] Instance TopicPermission_on_broker : OnBroker KTopicPermission.
Proof.
  refine {| on_key := TopicPermission_key;
    on_wanted _ p := single (TopicPermission_key p) (TopicPermission_wanted p);
    on_retained _ := false; on_unguarded _ _ := False |}; try done.
  - intros _ p call g. apply single_key. by intros call' (_ & _ & ->)%TopicPermission_wanted_inv.
  - intros S h reads objects broker willing req c p call g s Hs
      (x & (Href & Huser & ->)%TopicPermission_wanted_inv & [= -> ->])%fmap_Some.
    simpl. rewrite (TopicPermission_declares c p Href Huser). by apply (declareCall_yields Hs).
Defined.

(** ** Virtual hosts, with their limits *)

Definition Vhost_key (v : object KVhost) : bkey := BVhost (Vhost_Name (Spec v)).
Definition Vhost_call (v : Vhost) : rmq_call :=
  PutVhost (Vhost_Name (Spec v)) (GenerateVhostSettings v).
Definition Vhost_limits (v : Vhost) : gmap string Z :=
  GenerateVhostLimits (Vhost_VhostLimits (Spec v)).

(** The managed limits are those of the object and no others. *)
Definition Vhost_goal (v : Vhost) : Goal :=
  mkGoal (<[Vhost_key v := Vhost_call v]> (limit_entries (Vhost_Name (Spec v)) (Vhost_limits v)))
    (list_to_set (BVhostLimit (Vhost_Name (Spec v)) <$> vhostLimitKeys)).

Lemma currentLimits_lists x l : lists_limits x l -> currentLimits x = inr l.
Proof.
  intros [->|[-> [->| ->]]]; [done..|]. unfold currentLimits. by rewrite errors_Is_refl.
Qed.

(** Dropping the outdated limits and putting the new ones meets the goal. *)
Lemma Vhost_goal_achieved (v : Vhost) (l : gmap string Z) b b1 :
  limits_in (Vhost_Name (Spec v)) b l -> b1 = <[Vhost_key v := Vhost_call v]> b ->
  limit_entries (Vhost_Name (Spec v)) (Vhost_limits v) ∪
    drop_limits_at (Vhost_Name (Spec v)) (vhostLimitsToDelete l (Vhost_limits v)) b1 =
  achieve (Vhost_goal v) b.
Proof.
  intros Hl ->. set (n := Vhost_Name (Spec v)) in *. apply map_eq. intros key.
  rewrite lookup_achieve, lookup_union, lookup_drop_limits_at, lookup_limit_entries. simpl g_entries.
  destruct (decide (key = BVhost n)) as [->|Hne].
  { rewrite (left_id_L None _), decide_False; [|by intros (? & [=] & _)%list_elem_of_fmap].
    unfold Vhost_key. by rewrite !lookup_insert_eq. }
  unfold Vhost_key. fold n. rewrite !(lookup_insert_ne _ (BVhost n)) by done.
  rewrite lookup_limit_entries.
  destruct (match key with BVhostLimit v' limit => if decide (v' = n) then
      limit_call n limit <$> Vhost_limits v !! limit else None | _ => None end) as [call|] eqn:E.
  { by rewrite union_Some_l. }
  rewrite (left_id_L None _).
  change (g_absent (Vhost_goal v)) with (list_to_set (BVhostLimit n <$> vhostLimitKeys) : gset bkey).
  destruct (decide (key ∈ (list_to_set (BVhostLimit n <$> vhostLimitKeys) : gset bkey))) as [Hin|Hout];
    rewrite elem_of_list_to_set in *.
  - apply list_elem_of_fmap in Hin as (limit & -> & Hin).
    cbv iota beta in E. rewrite (decide_True _ _ (eq_refl n)) in E.
    apply fmap_None in E. case_decide as Hd; [done|]. rewrite Hl.
    destruct (l !! limit) as [z|] eqn:Ez; [|done]. exfalso. apply Hd, list_elem_of_fmap_2.
    apply list_elem_of_filter. split; [|done]. split; [|done]. by exists z.
  - rewrite decide_False; [done|]. intros (limit & -> & Hin)%list_elem_of_fmap.
    apply list_elem_of_filter in Hin as [_ Hin]. apply Hout. by apply list_elem_of_fmap_2.
Qed.

Lemma accepted_deletion res : accepted res -> validateResponseForDeletion res = None.
Proof.
  intros Hacc. pose proof (proj2 (validateResponse_ok res) Hacc) as Hok.
  destruct Hacc as (x & -> & Hx). unfold validateResponseForDeletion. simpl fst. cbv iota.
  unfold StatusNotFound. by rewrite (proj2 (Z.eqb_neq _ _)) by lia.
Qed.

(** The three calls on the limits: each of the last two only when there is
    something to do. *)
Section limits.
Context {S : Type} {h : handler result S} {reads : forall a, result a}.
Context {objects : S -> forall k, NamespacedName -> option (object k)} {broker : S -> broker_state}.
Context {willing : broker_state -> rmq_call -> Prop} {req : NamespacedName}.
Context (Hserver : ServerOk KVhost req h reads objects broker willing) (c : RmqClient) (n : string).

Lemma drop_limits_yields limits s :
  is_Some (broker s !! BVhost n) ->
  exists s', yields h (match limits with
      | [] => Ret None
      | _ :: _ => bind (act (Rmq c (DeleteVhostLimits n limits)))
                    (fun res => Ret (validateResponseForDeletion res))
      end) s None s' /\ same_objects objects s s' /\ broker s' = drop_limits_at n limits (broker s).
Proof.
  intros Hv. destruct limits as [|limit limits].
  - exists s. split; [apply yields_ret|]. split; [done|]. apply map_eq. intros key.
    rewrite lookup_drop_limits_at, decide_False; [done|]. apply not_elem_of_nil.
  - destruct (server_delete_limits _ _ _ _ _ _ _ Hserver s c n (limit :: limits) Hv)
      as (res & s' & Hh & Hacc & Hobj & Hb).
    exists s'. split; [|done]. eapply yields_bind; [exact (yields_act h _ _ _ _ Hh)|].
    rewrite (accepted_deletion _ Hacc). apply yields_ret.
Qed.

Lemma put_limits_yields (l : LimitsValues) s :
  is_Some (broker s !! BVhost n) ->
  exists s', yields h (if bool_decide (l = ∅) then Ret None
      else bind (act (Rmq c (PutVhostLimits n l))) (fun res => Ret (validateResponse res)))
      s None s' /\ same_objects objects s s' /\ broker s' = limit_entries n l ∪ broker s.
Proof.
  intros Hv. case_bool_decide as Hl.
  - exists s. split; [apply yields_ret|]. split; [done|]. rewrite Hl. apply map_eq. intros key.
    rewrite lookup_union, lookup_limit_entries. unfold LimitsValues.
    replace (match key with BVhostLimit v limit => _ | _ => None end) with (@None rmq_call)
      by (destruct key; try done; by case_decide).
    by rewrite (left_id_L None _).
  - destruct (server_put_limits _ _ _ _ _ _ _ Hserver s c n l Hv) as (res & s' & Hh & Hacc & Hobj & Hb).
    exists s'. split; [|done]. eapply yields_bind; [exact (yields_act h _ _ _ _ Hh)|].
    rewrite (proj2 (validateResponse_ok res) Hacc). apply yields_ret.
Qed.
End limits.

Lemma reconcileVhostLimits_yields {S} (h : handler result S) reads objects broker willing req c
    (v : Vhost) b s :
  ServerOk KVhost req h reads objects broker willing ->
  broker s = <[Vhost_key v := Vhost_call v]> b ->
  exists s', yields h (reconcileVhostLimits c v) s None s' /\ same_objects objects s s' /\
    broker s' = achieve (Vhost_goal v) b.
Proof.
  intros Hs Hb. set (n := Vhost_Name (Spec v)).
  destruct (server_limits _ _ _ _ _ _ _ Hs s c n) as (x & l & Hget & Hx%currentLimits_lists & Hl).
  assert (Hlb : limits_in n b l).
  { intros limit. rewrite <- Hl, Hb. unfold Vhost_key. by rewrite lookup_insert_ne. }
  rewrite <- (Vhost_goal_achieved v l b (broker s) Hlb Hb). fold n.
  set (limits := vhostLimitsToDelete l (Vhost_limits v)).
  assert (Hv : is_Some (broker s !! BVhost n))
    by (exists (Vhost_call v); rewrite Hb; apply lookup_insert_eq).
  destruct (drop_limits_yields Hs c n limits s Hv) as (s1 & Hy1 & Hobj1 & Hb1).
  assert (Hv1 : is_Some (broker s1 !! BVhost n)).
  { rewrite Hb1, lookup_drop_limits_at, decide_False; [done|]. by intros (? & [=] & _)%list_elem_of_fmap. }
  destruct (put_limits_yields Hs c n (Vhost_limits v) s1 Hv1) as (s2 & Hy2 & Hobj2 & Hb2).
  exists s2. split; [|split; [by etrans|by rewrite Hb2, Hb1]].
  eapply yields_bind; [eapply yields_bind; [exact (yields_act h _ _ _ _ Hget)|apply yields_ret]|].
  rewrite Hx. cbv iota. eapply yields_bind; [exact Hy1|]. exact Hy2.
Qed.

#[export] Instance Vhost_on_broker : OnBroker KVhost.
Proof.
  refine {| on_key := Vhost_key;
    on_wanted _ v := Some (Vhost_call v, Vhost_goal v);
    on_retained v := shouldSkipDeletion (Vhost_DeletionPolicy (Spec v)) (Vhost_Name (Spec v));
    on_unguarded _ _ := True |}; try done.
  - intros _ v call g [= <- <-]. split; [done|]. apply lookup_insert_eq.
  - intros S h reads objects broker willing req c v call g s Hs [= <- <-].
    destruct (server_put _ _ _ _ _ _ _ Hs s c (Vhost_call v) (Vhost_key v) eq_refl)
      as (x & res & s1 & Hh & [= ->] & Hobj & Hwill & Hb).
    simpl. unfold Vhost_DeclareFunc. destruct Hb as [[Hacc Hb]|[Hrej Hb]].
    + destruct (reconcileVhostLimits_yields h reads objects broker willing req c v (broker s) s1 Hs Hb)
        as (s2 & Hy & Hobj2 & Hb2).
      exists None, s2. split_and!; [|by etrans|done|by left].
      eapply yields_bind; [exact (yields_act h _ _ _ _ Hh)|].
      rewrite (proj2 (validateResponse_ok res) Hacc). eapply yields_bind; [exact Hy|apply yields_ret].
    + destruct (validateResponse res) as [e|] eqn:Ee; [|by apply validateResponse_ok in Ee].
      exists (Some e), s1. split_and!; [|done|by intros Hw%Hwill|by right].
      eapply yields_bind; [exact (yields_act h _ _ _ _ Hh)|]. cbv beta. rewrite Ee. apply yields_ret.
  - intros S h reads objects broker willing req c v s Hs Hret _. simpl in Hret. simpl.
    unfold Vhost_DeleteFunc. rewrite Hret. by apply (deleteCall_yields Hs).
  - intros S h c v s Hret. simpl in *. unfold Vhost_DeleteFunc. rewrite Hret. apply yields_ret.
Defined.
End kinds.
