(* ===== verification/Faults.v ===== *)
(** * Reconciliation under faults and concurrency

    Reads and writes of the Kubernetes API, calls of the broker and of the secret
    store may fail; a write that failed may nevertheless have taken effect, its
    answer being lost.  Between two calls others may act: workers that reconcile
    other objects, users of the broker.  A reconciliation that asks to be repeated
    has met a fault, and whatever it met the next one starts from a state as good
    as before: with [n] faults in all, one of [n + 1] reconciliations declares the
    object. *)

From S2P Require Import Prelude.
From S2P Require Import GoStrings.
From S2P Require Import GoErrors.
From S2P Require Import Prog.
From S2P Require Import Api.
From S2P Require Import Values.
From S2P Require Import World.
From S2P Require Import Resources.
From S2P Require Import ParseReference.
From S2P Require Import ParseReferenceProofs.
From S2P Require Import Utils.
From S2P Require Import TopologyReconciler.
From S2P Require Import Traces.
From S2P Require Import ReconcilerProofs.
From S2P Require Import ReconcilerTheorems.
From S2P Require Import ControllerProofs.
From S2P Require Import Broker.
From S2P Require Import Lifecycle.

(** ** Faults *)

(** The broker fails.  That something is not found is no fault when it is read or
    deleted. *)
Definition broker_fault (call : rmq_call) : rmq_result call -> Prop :=
  match call with
  | GetVhostLimits _ | GetUserLimits _ =>
      fun x => exists e, x = inl e /\ errors_Is (ErrRmq e) (ErrRmq (RmqErrorResponse rabbithole404)) = false
  | ListQueueBindingsBetween _ _ _ | ListExchangeBindingsBetween _ _ _ | GetQueue _ _ =>
      fun x => exists e, x = inl e
  | DeleteUser _ | DeleteUserLimits _ _ | DeleteBinding _ _ | ClearPermissionsIn _ _
  | DeletePolicy _ _ | DeleteQueue _ _ _ | DeleteExchange _ _ | DeleteVhost _
  | DeleteVhostLimits _ _ | DeleteGlobalParameter _ | DeleteFederationUpstream _ _
  | DeleteShovel _ _ | DeleteOperatorPolicy _ _ | DeleteTopicPermissionsIn _ _ _ =>
      fun x => ~ accepted x /\ ~ says_not_found x
  | _ => fun x => ~ accepted x
  end.

(** The answer of a call that failed.  That the object itself is not found is not
    a fault: the reconciler takes it for deleted. *)
Definition fault (k : kind) (a : action) : result a -> Prop :=
  match a with
  | CGet k' _ => fun x => exists e, x = inl e /\ (k' = k -> IsNotFound e = false)
  | AGet _ _ | CUpdate _ _ | CStatusUpdate _ _ => fun x => exists e, x = inl e
  | SystemCertPool | ReadCredentials _ => fun x => exists e, x = inl e
  | NewTLSClient _ _ _ _ | NewClient _ _ _ | SecretStoreClientProvider => fun x => is_Some x
  | Rmq _ call => broker_fault call
  | _ => fun _ => False
  end.

Section faulty.
Context (k : kind) {S : Type} (h : handler result S) (others : S -> S -> Prop).

(** The calls [tr], with steps of others in between, lead from [s] to [s'] with
    [n] faults. *)
Fixpoint faulty (tr : go_trace) (s s' : S) (n : nat) : Prop :=
  match tr with
  | [] => others s s' /\ n = 0
  | existT a x :: tr =>
      exists s0, others s s0 /\
      ((exists s1, h a s0 = (x, s1) /\ faulty tr s1 s' n) \/
       (fault k a x /\ exists s1 n', (s1 = s0 \/ s1 = (h a s0).2) /\ n = Datatypes.S n' /\
         faulty tr s1 s' n'))
  end.

Context `{!PreOrder others}.

Lemma faulty_app tr1 tr2 s s' n :
  faulty (tr1 ++ tr2) s s' n ->
  exists s1 n1 n2, faulty tr1 s s1 n1 /\ faulty tr2 s1 s' n2 /\ n = n1 + n2.
Proof.
  revert s n. induction tr1 as [|[a x] tr1 IH]; intros s n; simpl.
  { intros Hf. by exists s, 0, n. }
  intros (s0 & Hs0 & [(s1 & Hh & Hf)|(Hx & s1 & n' & Hs & -> & Hf)]).
  - destruct (IH _ _ Hf) as (s2 & n1 & n2 & Hf1 & Hf2 & ->).
    exists s2, n1, n2. split_and!; [|done|done]. exists s0. split; [done|]. left. eauto.
  - destruct (IH _ _ Hf) as (s2 & n1 & n2 & Hf1 & Hf2 & ->).
    exists s2, (Datatypes.S n1), n2. split_and!; [|done|done].
    exists s0. split; [done|]. right. eauto 10.
Qed.

(** A run of the environment alone is without faults. *)
Lemma run_faulty {A} (p : go A) tr o s s' : run h p s = (tr, o, s') -> faulty tr s s' 0.
Proof.
  revert s tr. induction p as [y|a f IH|w]; intros s tr; simpl; [by intros [= <- _ <-]| |].
  - destruct (h a s) as [x s1] eqn:Ea. destruct (run h (f x) s1) as [[tr1 o1] s2] eqn:E.
    intros [= <- <- <-]. simpl. exists s. split; [done|]. left. exists s1. split; [done|]. by eapply IH.
  - by intros [= <- _ <-].
Qed.

(** Reads are answered as they should or fail. *)
Definition sound (reads : forall a, result a) (e : event result) : Prop :=
  projT2 e = reads (projT1 e) \/ fault k (projT1 e) (projT2 e).

Definition true_answer (reads : forall a, result a) (e : event result) : Prop :=
  projT2 e = reads (projT1 e).

Lemma faulty_sound reads tr s s' n :
  settled_reads h reads -> faulty tr s s' n ->
  Forall (fun e => ambient (projT1 e) -> sound reads e) tr /\
  (n = 0 -> Forall (fun e => ambient (projT1 e) -> true_answer reads e) tr).
Proof.
  intros Hr. revert s n. induction tr as [|[a x] tr IH]; intros s n; simpl; [done|].
  intros (s0 & Hs0 & [(s1 & Hh & Hf)|(Hx & s1 & n' & _ & -> & Hf)]).
  - destruct (IH _ _ Hf) as [Hs Ht].
    assert (ambient a -> x = reads a).
    { intros Ha. rewrite (Hr a s0 Ha) in Hh. by injection Hh. }
    split; [constructor; [by left; auto|done]|]. intros ->. constructor; auto.
  - destruct (IH _ _ Hf) as [Hs _]. split; [|done]. constructor; [by right|done].
Qed.
End faulty.

(** The outcome when all answers are those of [reads]. *)
Lemma exec_with {A} (reads : forall a, result a) (p : go A) tr o :
  exec p tr o -> Forall (true_answer reads) tr -> outcome_with reads p = o.
Proof.
  unfold outcome_with. revert tr. induction p as [y|a f IH|w]; intros tr; simpl.
  - by intros [_ ->].
  - intros (x & tr' & -> & Hx) [Heq Htr]%Forall_cons. unfold true_answer in Heq. simpl in Heq. subst x.
    specialize (IH (reads a) tr' Hx Htr). by destruct (run _ _ _) as [[? ?] ?].
  - by intros [_ ->].
Qed.

Section parse.
Context `{LibsOk} (k : kind) (reads : forall a, result a).

(** An answer that is no error is the true one. *)
Lemma sound_true a x :
  sound k reads (existT a x) -> ~ fault k a x -> true_answer reads (existT a x).
Proof. by intros [?|?]. Qed.

Ltac settle_leaf :=
  intros Hs; first
  [ left; repeat (apply Forall_cons in Hs as [?He Hs]);
    repeat constructor; (apply sound_true; [done|simpl; unfold is_Some; naive_solver])
  | right; eexists; split; [done|]; by split ].

Lemma defaultUserCredentials_faulty c ns :
  wp (defaultUserCredentials c ns) (fun tr out =>
    Forall (sound k reads) tr ->
    Forall (true_answer reads) tr \/
    exists e, out = Returned (inl e) /\ errors_Is e ErrClusterScaledToZero = false /\
      errors_Is e ErrResourceNotAllowed = false).
Proof.
  unfold defaultUserCredentials, kubernetesSecretCredentials. case_bool_decide; simpl.
  - destruct (Cluster_Binding c); simpl; [|settle_leaf].
    intros [e|sec]; simpl; [destruct (IsNotFound e); simpl|]; settle_leaf.
  - intros [e|]; simpl; [settle_leaf|]. intros [e|x]; simpl; settle_leaf.
Qed.

Lemma clusterAddress_faulty c svc ns dom http user pass :
  wp (clusterAddress c svc ns dom http user pass) (fun tr out =>
    Forall (sound k reads) tr ->
    Forall (true_answer reads) tr \/
    exists e, out = Returned (inl e) /\ errors_Is e ErrClusterScaledToZero = false /\
      errors_Is e ErrResourceNotAllowed = false).
Proof.
  unfold clusterAddress. destruct (Annotations _ !! _) as [a|]; simpl.
  - destruct (extractURIandScheme a) as [e|[u b]]; simpl; by left.
  - intros [e|s]; simpl; [destruct (IsNotFound e); simpl; settle_leaf|].
    destruct (readClusterAdditionalConfig c); simpl; [settle_leaf|].
    destruct (managementURI _ _ _ _); simpl; settle_leaf.
Qed.

(** A fault while the cluster is looked up is an error that is returned. *)
Lemma ParseReference_faulty rmq ns dom http :
  wp (ParseReference rmq ns dom http) (fun tr out =>
    Forall (sound k reads) tr ->
    Forall (true_answer reads) tr \/
    exists e, out = Returned (inl e) /\ errors_Is e ErrClusterScaledToZero = false /\
      errors_Is e ErrResourceNotAllowed = false).
Proof.
  unfold ParseReference. destruct (Ref_ConnectionSecret rmq) as [ref|]; simpl.
  - intros [e|s]; simpl; [settle_leaf|]. destruct (AllowedNamespaceSecret rmq ns s); simpl; settle_leaf.
  - intros [e|c]; simpl; [settle_leaf|]. destruct (AllowedNamespace rmq ns c); simpl; [|settle_leaf].
    case_bool_decide; simpl; [settle_leaf|].
    destruct (Cluster_DefaultUser c) as [[svc|]|]; simpl; [|settle_leaf..].
    eapply wp_cut; [apply defaultUserCredentials_faulty|..].
    + intros tr [e|[user pass]] Hd; simpl.
      * rewrite app_nil_r. intros [He Hs]%Forall_cons. destruct (Hd Hs) as [Ht|(? & [= <-] & Hr)]; [|right; by exists e].
        left. constructor; [|done]. apply sound_true; [done|simpl; naive_solver].
      * eapply wp_mono; [apply clusterAddress_faulty|]. simpl.
        intros tr' out Ha [He [Hs Hs']%Forall_app]%Forall_cons.
        destruct (Hd Hs) as [Ht|(? & [=] & _)]. destruct (Ha Hs') as [Ht'|Hr]; [|by right].
        left. constructor; [|by apply Forall_app]. apply sound_true; [done|simpl; naive_solver].
    + intros tr w Hd [He Hs]%Forall_cons. destruct (Hd Hs) as [Ht|(? & [=] & _)].
      left. constructor; [|done]. apply sound_true; [done|simpl; naive_solver].
Qed.
End parse.

(** ** One reconciliation *)

Lemma exec_bind {A B} (p : go A) (f : A -> go B) tr o :
  exec (bind p f) tr o ->
  (exists tr1 x tr2, tr = tr1 ++ tr2 /\ exec p tr1 (Returned x) /\ exec (f x) tr2 o) \/
  (exists w, exec p tr (Panicked w) /\ o = Panicked w).
Proof.
  revert tr. induction p as [y|a g IH|w]; intros tr; simpl.
  - intros Hx. left. by exists [], y, tr.
  - intros (x & tr' & -> & Hx). destruct (IH x tr' Hx) as [(tr1 & y & tr2 & -> & H1 & H2)|(w & Hw & ->)].
    + left. exists (existT a x :: tr1), y, tr2. split; [done|]. split; [|done]. by exists x, tr1.
    + right. exists w. split; [|done]. by exists x, tr'.
  - intros [-> ->]. right. by exists w.
Qed.

(** ** Interference *)

Section interference.
Context `{Libs} `{BrokerLib} (k : kind) `{!TopologyResource k} (req : NamespacedName).
Context {S : Type} (h : handler result S) (reads : forall a, result a).
Context (objects : S -> forall k, NamespacedName -> option (object k)) (broker : S -> broker_state).
Context (willing : broker_state -> rmq_call -> Prop).
(** The object asks for [call] and the goal [g]. *)
Context (call : rmq_call) (g : Goal).
Notation stored := (stored k req objects).

(** The others leave the object and the names of its goal alone, and do not make
    the broker unwilling. *)
Record OthersOk (others : S -> S -> Prop) : Prop := {
  others_preorder : PreOrder others;
  others_stored s s' : others s s' -> stored s' = stored s;
  others_key s s' key : others s s' -> key ∈ footprint g -> broker s' !! key = broker s !! key;
  others_willing s s' : others s s' -> willing (broker s) call -> willing (broker s') call
}.

(** Nothing happened to the object, the names of its goal and the willingness. *)
Definition untouched (s s' : S) : Prop :=
  stored s' = stored s /\ (forall key, key ∈ footprint g -> broker s' !! key = broker s !! key) /\
  (willing (broker s) call -> willing (broker s') call).

#[export] Instance untouched_preorder : PreOrder untouched.
Proof.
  split; [done|]. intros s s' s'' (Ho & Hb & Hw) (Ho' & Hb' & Hw').
  split_and!; [congruence| |auto]. intros key Hin. by rewrite Hb', Hb.
Qed.

Lemma untouched_quietly s s' : quietly objects broker s s' -> untouched s s'.
Proof. intros [Hobj Hb]. unfold untouched. rewrite Hb. by split; [apply same_stored|]. Qed.

Context (Hserver : ServerOk k req h reads objects broker willing).
Context (others : S -> S -> Prop) (Hothers : OthersOk others).
#[local] Instance others_PreOrder : PreOrder others := others_preorder _ Hothers.
Notation faulty := (faulty k h others).

Lemma others_untouched s s' : others s s' -> untouched s s'.
Proof.
  intros Ho. split_and!;
    [by apply (others_stored _ Hothers)|intros key; by apply (others_key _ Hothers)
    |by apply (others_willing _ Hothers)].
Qed.

Lemma quiet_faulty tr s s' n : Forall quiet tr -> faulty tr s s' n -> untouched s s'.
Proof.
  pose proof (server_pure _ _ _ _ _ _ _ Hserver) as Hpure.
  revert s n. induction tr as [|[a x] tr IH]; intros s n; simpl.
  { intros _ [Ho _]. by apply others_untouched. }
  intros [Hq Htr]%Forall_cons (s0 & Ho%others_untouched & Hf). specialize (Hpure s0 a Hq).
  transitivity s0; [exact Ho|].
  destruct Hf as [(s1 & Hh & Hf)|(_ & s1 & n' & Hs & -> & Hf)]; transitivity s1;
    [|by eapply IH| |by eapply IH].
  - apply untouched_quietly. by rewrite Hh in Hpure.
  - destruct Hs as [->| ->]; [done|by apply untouched_quietly].
Qed.

(** One call [a] of a trace, and what the others do around it. *)
Lemma call_faulty a x s s' n :
  faulty [existT a x] s s' n ->
  exists s0 s1, untouched s s0 /\ untouched s1 s' /\
    ((h a s0 = (x, s1) /\ n = 0) \/
     (fault k a x /\ (s1 = s0 \/ s1 = (h a s0).2) /\ n <> 0)).
Proof.
  intros (s0 & Hu0%others_untouched & [(s1 & Hh & Hu1%others_untouched & ->)|
    (Hx & s1 & n' & Hs & -> & Hu1%others_untouched & ->)]); exists s0, s1; split_and!; auto.
Qed.

(** A call of the broker that would be answered well: it is, or it fails; only an
    answer that is lost lets it happen nevertheless. *)
Lemma rmq_faulty c cl x s s' n (f : broker_state -> broker_state) (good : rmq_result cl -> Prop) :
  (forall s0, untouched s s0 -> exists x0 s1, h (Rmq c cl) s0 = (x0, s1) /\ good x0 /\
     same_objects objects s0 s1 /\ broker s1 = f (broker s0)) ->
  faulty [existT (Rmq c cl) x] s s' n ->
  exists s0, untouched s s0 /\
    let applied := exists s1, same_objects objects s0 s1 /\ broker s1 = f (broker s0) /\
                     untouched s1 s' in
    (good x /\ n = 0 /\ applied) \/ (broker_fault cl x /\ n <> 0 /\ (applied \/ untouched s0 s')).
Proof.
  intros Hf Hc. apply call_faulty in Hc as (s0 & s1 & Hu0 & Hu1 & Hc).
  destruct (Hf s0 Hu0) as (x0 & s2 & Hh & Hgood & Hobj & Hb). exists s0. split; [done|]. cbv zeta.
  destruct Hc as [[Hh2 ->]|(Hfault & Hs & Hn)].
  - rewrite Hh in Hh2. injection Hh2 as <- <-. left. split_and!; [done|done|by exists s2].
  - right. split; [exact Hfault|]. split; [done|]. destruct Hs as [->| ->]; [by right|left].
    rewrite Hh in Hu1. by exists s2.
Qed.

(** Putting the first entry of the goal. *)
Lemma put_faulty c key x s s' n :
  puts call = Some key -> g_entries g !! key = Some call -> willing (broker s) call ->
  faulty [existT (Rmq c call) x] s s' n ->
  exists res, http_answer call x = Some res /\ stored s' = stored s /\ willing (broker s') call /\
    (accepted res -> broker s' !! key = Some call) /\ (n = 0 -> accepted res).
Proof.
  intros Hkey Hg Hwill Hc.
  assert (Hin : key ∈ footprint g) by (apply elem_of_union_l, elem_of_dom; by eexists).
  assert (Hagain : forall s1, broker s1 !! key = Some call -> willing (broker s1) call).
  { intros s1. by apply (server_again _ _ _ _ _ _ _ Hserver). }
  destruct (rmq_faulty c call x s s' n (<[key := call]>)
    (fun x => exists res, http_answer call x = Some res /\ accepted res)) as (s0 & Hu0 & Hcase); [|done|].
  { intros s0 (_ & _ & Hw). destruct (server_put _ _ _ _ _ _ _ Hserver s0 c call key Hkey)
      as (x0 & res & s1 & Hh & Hx & Hobj & Hacc & Hb).
    specialize (Hacc (Hw Hwill)). exists x0, s1. split_and!; [done|by exists res|done|].
    by destruct Hb as [[_ ?]|[? _]]. }
  assert (Happ : forall s1, same_objects objects s0 s1 /\ broker s1 = <[key := call]> (broker s0) /\
    untouched s1 s' -> stored s' = stored s /\ willing (broker s') call /\ broker s' !! key = Some call).
  { intros s1 (Hobj & Hb & (Hs & Hk & Hw)). destruct Hu0 as (Hs0 & _ & _).
    assert (Hb1 : broker s1 !! key = Some call) by (rewrite Hb; apply lookup_insert_eq).
    split_and!; [rewrite Hs, <- Hs0; by apply same_stored|auto|by rewrite Hk]. }
  assert (Hbad : broker_fault call x -> exists res, http_answer call x = Some res /\ ~ accepted res).
  { clear - Hkey. destruct call; try done; intros Hx; by exists x. }
  destruct Hcase as [((res & Hx & Hacc) & Hn & s1 & (Hs & Hw & Hb)%Happ)|(Hf & Hn & Hs)].
  - exists res. by split_and!.
  - destruct (Hbad Hf) as (res & Hx & Hna). exists res.
    destruct Hs as [[s1 (Hs & Hw & Hb)%Happ]|Hu]; split_and!; try done.
    + destruct Hu as (Hs & _ & _), Hu0 as (Hs0 & _ & _). congruence.
    + destruct Hu as (_ & _ & Hw), Hu0 as (_ & _ & Hw0). auto.
Qed.
End interference.

(** ** What a kind owes

    Whatever fails, the declaration leaves the object as it is and the broker
    willing; it reports no error only when the goal is met, and none without a
    fault. *)
Class DeclaresUnderFaults `{Libs} `{BrokerLib} (k : kind) `{!TopologyResource k}
    `{!ReconcileFunc k} `{!OnBroker k} := {
  on_faulty S (h : handler result S) reads objects broker willing req c others o call g s tr out s' n :
    ServerOk k req h reads objects broker willing -> on_wanted reads o = Some (call, g) ->
    OthersOk k req objects broker willing call g others ->
    objects s k req = Some o -> willing (broker s) call ->
    exec (DeclareFunc c o) tr out -> faulty k h others tr s s' n ->
    exists err, out = Returned (err, o) /\ objects s' k req = Some o /\ willing (broker s') call /\
      (err = None -> met g (broker s')) /\ (n = 0 -> err = None)
}.

Section server.
Context `{LibsOk} `{BrokerLib} (k : kind) `{!TopologyResource k} `{!TopologyResourceOk k}
  `{!StatusStable k} `{!ReconcileFunc k} `{!OnBroker k} `{!DeclaresUnderFaults k}.
Context (r : ReconcilerConfig) (req : NamespacedName).
Context {S : Type} (h : handler result S) (reads : forall a, result a).
Context (objects : S -> forall k, NamespacedName -> option (object k)) (broker : S -> broker_state).
Context (willing : broker_state -> rmq_call -> Prop).
Context (Hserver : ServerOk k req h reads objects broker willing).
Context (call : rmq_call) (g : Goal).
Context (others : S -> S -> Prop).
Context (Hothers : OthersOk k req objects broker willing call g others).
#[local] Instance server_PreOrder : PreOrder others := others_preorder _ _ _ _ _ _ _ _ Hothers.
Notation stored := (stored k req objects).
Notation faulty := (faulty k h others).
Notation untouched := (untouched k req objects broker willing call g).

Lemma others_leave s s' : others s s' -> untouched s s'.
Proof. by apply others_untouched. Qed.
Lemma quiet_leaves tr s s' n : Forall quiet tr -> faulty tr s s' n -> untouched s s'.
Proof. eapply quiet_faulty; eauto. Qed.
Lemma call_leaves a x s s' n :
  faulty [existT a x] s s' n ->
  exists s0 s1, untouched s s0 /\ untouched s1 s' /\
    ((h a s0 = (x, s1) /\ n = 0) \/
     (fault k a x /\ (s1 = s0 \/ s1 = (h a s0).2) /\ n <> 0)).
Proof. eapply call_faulty; eauto. Qed.

(** A part of the reconciliation that only reads. *)
Lemma reads_faulty {A} (p : go A) tr o s s' n :
  exec p tr o -> all_calls (fun e => ambient (projT1 e)) p -> faulty tr s s' n ->
  untouched s s' /\ Forall (sound k reads) tr /\ (n = 0 -> outcome_with reads p = o).
Proof.
  intros Hx Hp Hf. assert (Ha := proj1 (wp_exec _ _) Hp _ _ Hx). simpl in Ha.
  destruct (faulty_sound k h others reads tr s s' n (server_reads _ _ _ _ _ _ _ Hserver) Hf) as [Hs Ht].
  split_and!.
  - eapply quiet_leaves; [|exact Hf]. eapply Forall_impl; [exact Ha|]. intros [a x]. by destruct a.
  - rewrite Forall_forall in *. auto.
  - intros Hn. eapply exec_with; [exact Hx|]. specialize (Ht Hn). rewrite Forall_forall in *. auto.
Qed.

(** The broker did not change within the goal, nor its willingness. *)
Definition kept (s s' : S) : Prop :=
  (forall key, key ∈ footprint g -> broker s' !! key = broker s !! key) /\
  (willing (broker s) call -> willing (broker s') call).

#[local] Instance kept_preorder : PreOrder kept.
Proof.
  split; [done|]. intros s1 s2 s3 [Hk Hw] [Hk' Hw']. split; [|auto]. intros key Hin. by rewrite Hk', Hk.
Qed.
Lemma untouched_kept s s' : untouched s s' -> kept s s'.
Proof. by intros [_ ?]. Qed.
Lemma kept_eq s s' : broker s' = broker s -> kept s s'.
Proof. unfold kept. by intros ->. Qed.

Lemma status_faulty o' tr s s' n o :
  stored s = Some o -> status_variant o o' -> Forall (sends_status k o') tr ->
  faulty tr s s' n ->
  exists o2, stored s' = Some o2 /\ status_variant o o2 /\ kept s s'.
Proof.
  revert s n o. induction tr as [|e tr IH]; intros s n o Ho Hv.
  { intros _ [Hu%others_leave _]. exists o. pose proof (untouched_kept _ _ Hu) as Hk.
    destruct Hu as (Hs & _). by rewrite Hs. }
  intros [[x ->] Htr]%Forall_cons (s0 & Hu%others_leave & Hf).
  pose proof (untouched_kept _ _ Hu) as Hk. destruct Hu as (Hs & _). rewrite <- Hs in Ho.
  destruct (server_status _ _ _ _ _ _ _ Hserver s0 o o' Ho Hv) as (s1 & Hh & Ho1 & _ & Hb1%kept_eq).
  assert (Hnext : forall n, faulty tr s1 s' n ->
    exists o2, stored s' = Some o2 /\ status_variant o o2 /\ kept s s').
  { intros n0 Hf0. destruct (IH s1 n0 o' Ho1 ltac:(reflexivity) Htr Hf0) as (o2 & Ho2 & Hv2 & Hk2).
    exists o2. split_and!; [done|exact (variant_trans _ _ _ Hv Hv2)|].
    etrans; [exact Hk|]. by etrans. }
  destruct Hf as [(s2 & Hh2 & Hf)|(_ & s2 & n' & Hs2 & -> & Hf)].
  - rewrite Hh in Hh2. injection Hh2 as _ <-. eauto.
  - destruct Hs2 as [->| ->]; [|rewrite Hh in Hf; eauto].
    destruct (IH s0 n' o Ho Hv Htr Hf) as (o2 & Ho2 & Hv2 & Hk2).
    exists o2. split_and!; [done|done|by etrans].
Qed.

Lemma reported_faulty st reason msg fin o trs s s' n :
  (forall c, status_variant o (fin (SetStatusConditions [c] o))) ->
  stored s = Some o -> reported k st reason msg fin o trs -> faulty trs s s' n ->
  exists o2, stored s' = Some o2 /\ status_variant o o2 /\ kept s s'.
Proof.
  intros Hfin Ho (trn & trs' & c & -> & _ & Hc%new_condition_quiet & Hs) Hf.
  apply (faulty_app k h others) in Hf as (s1 & n1 & n2 & Hf1 & Hf2 & ->).
  apply (quiet_leaves _ _ _ _ Hc) in Hf1 as Hu. pose proof (untouched_kept _ _ Hu) as Hk.
  destruct Hu as (Hs1 & _). rewrite <- Hs1 in Ho.
  destruct (status_faulty _ _ _ _ _ _ Ho (Hfin c) Hs Hf2) as (o2 & Ho2 & Hv & Hk2).
  exists o2. split_and!; [done|done|by etrans].
Qed.

Definition asks (o : object k) : Prop :=
  DeletionTimestamp (meta k o) = None /\ reachable k r reads o /\ on_wanted reads o = Some (call, g).

Definition pending (s : S) : Prop :=
  (exists o, stored s = Some o /\ asks o) /\ willing (broker s) call.

(** What is to be reached. *)
Definition satisfied (s : S) : Prop :=
  met g (broker s) /\
  exists o, stored s = Some o /\ asks o /\ finalizerOf k o ∈ Finalizers (meta k o).

Lemma asks_variant o o' : status_variant o o' -> asks o -> asks o'.
Proof.
  intros Hv (Hd & Hr & Hw). unfold asks, reachable in *.
  rewrite <- (variant_respects (meta k) o o'), <- (variant_respects RabbitReference o o'),
    <- (variant_respects (on_wanted reads) o o'); try done;
    auto using on_conditions, on_generation, SetStatusConditions_meta, set_generation_meta,
      stable_ref_conditions, stable_ref_generation.
Qed.

Lemma finalizer_variant o o' :
  status_variant o o' -> finalizerOf k o ∈ Finalizers (meta k o) ->
  finalizerOf k o' ∈ Finalizers (meta k o').
Proof.
  intros Hv. rewrite <- (variant_respects (meta k) o o'), <- (variant_respects (finalizerOf k) o o');
    try done; unfold finalizerOf; intros;
    rewrite ?SetStatusConditions_gvk, ?set_generation_gvk, ?SetStatusConditions_meta,
      ?set_generation_meta; done.
Qed.

Lemma asks_meta m o :
  set_Finalizers [] m = set_Finalizers [] (meta k o) -> asks o -> asks (set_meta k m o).
Proof.
  intros Hm (Hd & Hr & Hw). unfold asks, reachable in *.
  rewrite meta_set_meta, stable_ref_meta, on_meta by (by injection Hm).
  replace (Namespace m) with (Namespace (meta k o)) by (by injection Hm).
  replace (DeletionTimestamp m) with (DeletionTimestamp (meta k o)) by (by injection Hm). done.
Qed.

(** The finalizer: whether or not the update failed, the object still asks. *)
Lemma addFinalizer_faulty s o tr err o1 s' n :
  stored s = Some o -> asks o ->
  exec (addFinalizerIfNeeded k o) tr (Returned (err, o1)) -> faulty tr s s' n ->
  (n = 0 -> err = None) /\ (willing (broker s) call -> willing (broker s') call) /\
  exists o2, stored s' = Some o2 /\ asks o2 /\
    (err = None -> o2 = o1 /\ finalizerOf k o2 ∈ Finalizers (meta k o2)).
Proof.
  intros Ho Hasks. pose proof Hasks as (Hlive & _ & _). unfold addFinalizerIfNeeded.
  rewrite Hlive. cbn [time_IsZero andb].
  destruct (ContainsFinalizer _ _) eqn:E; cbn [negb].
  { intros [-> [= <- <-]] [(Hs & _ & Hw)%others_leave _]. apply ContainsFinalizer_spec in E.
    split_and!; [done|done|]. exists o1. by rewrite Hs. }
  set (m := AddFinalizer (meta k o) (finalizerOf k o)).
  assert (Hm : set_Finalizers [] m = set_Finalizers [] (meta k o)) by apply AddFinalizer_rest.
  pose proof (asks_meta m o Hm Hasks) as Hasks1.
  simpl. intros (x & tr' & -> & Hx) Hf.
  assert (tr' = []) as -> by (by destruct x; destruct Hx).
  apply call_leaves in Hf as (s0 & s1 & (Hs0 & _ & Hw0) & (Hs1 & _ & Hw1) & Hf).
  destruct (server_update _ _ _ _ _ _ _ Hserver s0 o m) as (s2 & Hh & Ho2 & _ & Hb2); [congruence|done|].
  assert (Hmd : DeletionTimestamp m = None) by (rewrite <- Hlive; by injection Hm).
  rewrite Hmd, decide_False in Ho2 by (intros [[? [=]] _]). rewrite Hs1.
  destruct Hf as [[Hh2 ->]|([e ->] & Hs & Hn)].
  - rewrite Hh in Hh2. injection Hh2 as <- <-. simpl in Hx. destruct Hx as [_ [= -> ->]].
    split_and!; [done|rewrite Hb2 in Hw1; auto|]. eexists. split; [exact Ho2|]. split; [done|].
    intros _. split; [done|]. rewrite finalizerOf_set_meta, meta_set_meta.
    apply AddFinalizer_spec. by left.
  - simpl in Hx. destruct Hx as [_ [= -> _]]. split; [done|].
    destruct Hs as [->| ->]; [split; [auto|]; exists o; split_and!; [congruence|done|done]|].
    rewrite Hh in Hw1 |- *. simpl in *. rewrite Hb2 in Hw1. split; [auto|].
    by exists (set_meta k m o).
Qed.

(** The event and the status that follow a declaration. *)
Lemma report_faulty cst st reason rsn msg fin o ev trs s s' n :
  fin = (fun o => o) \/ fin = setObservedGeneration k ->
  stored s = Some o -> is_event k st reason ev -> reported k cst rsn msg fin o trs ->
  faulty (ev :: trs) s s' n ->
  exists o2, stored s' = Some o2 /\ status_variant o o2 /\ kept s s'.
Proof.
  intros Hfin Ho Hev Hrep Hf. change (ev :: trs) with ([ev] ++ trs) in Hf.
  apply (faulty_app k h others) in Hf as (s1 & n1 & n2 & Hf1 & Hf2 & ->).
  apply quiet_leaves in Hf1 as Hu; [|constructor; [by eapply is_event_quiet|done]].
  pose proof (untouched_kept _ _ Hu) as Hk. destruct Hu as (Hs1 & _). rewrite <- Hs1 in Ho.
  destruct (reported_faulty cst rsn msg fin o trs s1 s' n2) as (o2 & Ho2 & Hv & Hk2); try done.
  - intros c'. destruct Hfin as [->| ->]; [apply variant_conditions|].
    etrans; [apply variant_conditions|apply variant_generation].
  - exists o2. split_and!; [done|done|by etrans].
Qed.

(** The parts of the trace of a live object. *)
Lemma declare_parts c o tr out :
  declare_post k c o tr out ->
  exists tra err o1 trx, tr = tra ++ trx /\
    exec (addFinalizerIfNeeded k o) tra (Returned (err, o1)) /\
    match err with
    | Some e => trx = [] /\ out = Returned (emptyResult, Some e)
    | None => exists trd od try, trx = trd ++ try /\ exec (DeclareFunc c o1) trd od /\
        forall err o2, od = Returned (err, o2) ->
          out = Returned (emptyResult, err) /\
          exists ev trs st reason cst rsn msg fin, try = ev :: trs /\ is_event k st reason ev /\
            (fin = (fun o => o) \/ fin = setObservedGeneration k) /\
            reported k cst rsn msg fin o2 trs
    end.
Proof.
  intros (tra & err & o1 & Ha & Hrest). destruct err as [e|].
  { destruct Hrest as [-> ->]. exists tra, (Some e), o1, []. by rewrite app_nil_r. }
  destruct Hrest as (trd & od & Hd & Hrest). destruct od as [[[e|] o2]|w].
  1,2: destruct Hrest as (ev & trs & -> & Hev & Hr & ->);
    eexists tra, None, o1, _; (split; [reflexivity|]); (split; [done|]);
    eexists trd, _, _; (split; [reflexivity|]); (split; [exact Hd|]);
    intros ? ? [= <- <-]; (split; [done|]); eexists ev, trs, _, _, _, _, _, _;
    (split; [done|]); (split; [exact Hev|]); (split; [|exact Hr]); auto.
  destruct Hrest as [-> ->]. eexists tra, None, o1, trd. split; [done|]. split; [done|].
  exists trd, (Panicked w), []. rewrite app_nil_r. by split_and!.
Qed.

(** What a reconciliation leaves, with [n] faults. *)
Definition leaves (n : nat) (out : outcome (Result * option error)) (s' : S) : Prop :=
  pending s' /\ exists res err, out = Returned (res, err) /\
    (err = None -> res = emptyResult /\ satisfied s') /\ (n = 0 -> err = None).

Lemma leaves_error n res e s' : n <> 0 -> pending s' -> leaves n (Returned (res, Some e)) s'.
Proof. intros Hn Hp. split; [done|]. by exists res, (Some e). Qed.

Lemma leaves_mono n m out s' : leaves m out s' -> (n = 0 -> m = 0) -> leaves n out s'.
Proof. intros (Hp & res & err & -> & Hs & Hz) Hn. split; [done|]. exists res, err. auto. Qed.

Lemma live_faulty c s o tr out s' n :
  stored s = Some o -> asks o -> willing (broker s) call ->
  exec (reconcileDeclare k c o) tr out -> faulty tr s s' n -> leaves n out s'.
Proof.
  intros Ho Hasks Hwill Hx Hf. apply (proj1 (wp_exec _ _) (reconcileDeclare_spec k c o)) in Hx.
  apply declare_parts in Hx as (tra & err & o1 & trx & -> & Ha & Hrest).
  apply (faulty_app k h others) in Hf as (s1 & n1 & n2 & Hf1 & Hf2 & ->).
  destruct (addFinalizer_faulty _ _ _ _ _ _ _ Ho Hasks Ha Hf1) as (Hz1 & Hw1 & o2 & Ho2 & Hasks2 & Hnone).
  specialize (Hw1 Hwill). destruct err as [e|].
  { destruct Hrest as [-> ->]. destruct Hf2 as [(Hs & _ & Hw)%others_leave ->].
    apply leaves_error; [intros ?; naive_solver lia|]. split; [exists o2; by rewrite Hs|auto]. }
  destruct (Hnone eq_refl) as [-> Hfin]. destruct Hrest as (trd & od & try & -> & Hd & Hrest).
  apply (faulty_app k h others) in Hf2 as (s2 & n3 & n4 & Hf3 & Hf4 & ->).
  destruct (on_faulty S h reads objects broker willing req c others o1 call g s1 trd od s2 n3
    Hserver (proj2 (proj2 Hasks2)) Hothers Ho2 Hw1 Hd Hf3) as (err & -> & Ho3 & Hw3 & Hb3 & Hz3).
  destruct (Hrest err o1 eq_refl) as (-> & ev & trs & st & rn & cst & rsn & msg & fin & -> & Hev & Hfn & Hr).
  destruct (report_faulty cst st rn rsn msg fin o1 ev trs s2 s' n4 Hfn Ho3 Hev Hr Hf4)
    as (o4 & Ho4 & Hv & Hb4 & Hw4).
  pose proof (asks_variant _ _ Hv Hasks2) as Hasks4.
  split; [split; [by exists o4|auto]|]. exists emptyResult, err. split_and!; [done| |].
  - intros ->. split; [done|]. split; [by apply (met_agree g (broker s2)); auto|]. exists o4.
    split_and!; [done|done|exact (finalizer_variant _ _ Hv Hfin)].
  - intros Hn. apply Hz3. lia.
Qed.

Lemma pending_untouched s s' : untouched s s' -> pending s -> pending s'.
Proof. intros (Hs & _ & Hw) [(o & Ho & Ha) Hwill]. split; [exists o; by rewrite Hs|auto]. Qed.

(** An error of the reference that comes of faults is returned. *)
Lemma reference_faulty s o e tr out s' n :
  pending s -> stored s = Some o -> asks o ->
  errors_Is e ErrClusterScaledToZero = false -> errors_Is e ErrResourceNotAllowed = false ->
  exec (Reconciler_handleRMQReferenceParseError k o (Some e)) tr out -> faulty tr s s' n ->
  pending s' /\ exists res, out = Returned (res, Some e).
Proof.
  intros Hpend Ho Hasks Hns Hna Hx Hf. pose proof Hasks as (Hlive & _).
  apply (proj1 (wp_exec _ _) (handleReferenceError_spec k o e)) in Hx as Hpost.
  unfold reference_error_post in Hpost. rewrite Hlive, Hns, Hna in Hpost. simpl in Hpost.
  destruct (errors_Is e ErrNoSuchRabbitmqCluster).
  { destruct Hpost as [-> ->]. destruct Hf as [Hu%others_leave _].
    split; [by eapply pending_untouched|by eexists]. }
  destruct Hpost as (tre & trs & msg & -> & Hev & Hr & ->). split; [|by eexists].
  apply (faulty_app k h others) in Hf as (s2 & n3 & n4 & Hf3 & Hf4 & ->).
  apply quiet_leaves in Hf3 as Hu.
  2:{ eapply Forall_impl; [exact Hev|]. intros ev (t & rsn & Hq). by eapply is_event_quiet. }
  pose proof (pending_untouched _ _ Hu Hpend) as [_ Hwill]. destruct Hu as (Hs & _ & _).
  rewrite <- Hs in Ho.
  destruct (reported_faulty _ _ _ _ _ _ _ _ _ (fun c => variant_conditions [c] o) Ho Hr Hf4)
    as (o2 & Ho2 & Hv & _ & Hw2).
  split; [exists o2; split; [done|exact (asks_variant _ _ Hv Hasks)]|auto].
Qed.

Lemma extractSystemCertPool_ambient (o : object k) :
  all_calls (fun e => ambient (projT1 e)) (extractSystemCertPool k o).
Proof. unfold extractSystemCertPool. repeat all_calls_step; simpl; done. Qed.

(** After the cluster has been found: the client and the declaration. *)
Lemma client_faulty m s o pool creds tls pool0 creds0 tls0 c0 tr out s' n :
  pending s -> stored s = Some o -> asks o ->
  outcome_with reads (generateRabbitholeClient creds0 tls0 pool0) = Returned (inr c0) ->
  exec (bind (generateRabbitholeClient creds tls pool) (fun c =>
    match c with
    | inl e => Ret (emptyResult, Some e)
    | inr rabbitClient =>
        match DeletionTimestamp (meta k o) with
        | Some _ => reconcileDelete k rabbitClient o
        | None => reconcileDeclare k rabbitClient o
        end
    end)) tr out ->
  faulty tr s s' n ->
  (m = 0 -> pool = pool0 /\ creds = creds0 /\ tls = tls0) -> leaves (m + n) out s'.
Proof.
  intros Hpend Ho Hasks Hc0 Hx Hf Hz. pose proof Hasks as (Hlive & _).
  apply exec_bind in Hx as [(tr1 & x & tr2 & -> & Hx1 & Hx2)|(w & Hx1 & ->)].
  2:{ destruct (proj1 (wp_exec _ _) (generateRabbitholeClient_spec creds tls pool) _ _ Hx1)
        as (_ & x & [=] & _). }
  apply (faulty_app k h others) in Hf as (s1 & n1 & n2 & Hf1 & Hf2 & ->).
  destruct (reads_faulty _ _ _ _ _ _ Hx1 (generateRabbitholeClient_ambient creds tls pool) Hf1)
    as (Hu & _ & Hzero).
  pose proof (pending_untouched _ _ Hu Hpend) as Hpend1. pose proof Hu as (Hs & _ & _).
  destruct x as [e|c].
  - destruct Hx2 as [-> ->]. destruct Hf2 as [Hu2%others_leave ->].
    apply leaves_error; [|by eapply pending_untouched]. intros Hn.
    destruct (Hz ltac:(lia)) as (-> & -> & ->). rewrite Hc0 in Hzero. by specialize (Hzero ltac:(lia)).
  - rewrite Hlive in Hx2. destruct Hpend1 as [_ Hwill]. rewrite <- Hs in Ho.
    eapply leaves_mono; [exact (live_faulty c s1 o tr2 out s' n2 Ho Hasks Hwill Hx2 Hf2)|lia].
Qed.

Lemma object_faulty s o tr out s' n :
  pending s -> stored s = Some o -> asks o ->
  exec (reconcileObject k r o) tr out -> faulty tr s s' n -> leaves n out s'.
Proof.
  intros Hpend Ho Hasks Hx Hf.
  pose proof Hasks as (_ & (pool0 & creds0 & tls0 & c0 & Hpool & Hparse & Hclient) & _).
  unfold reconcileObject in Hx. apply exec_bind in Hx as [(tr1 & x & tr2 & -> & Hx1 & Hx2)|(w & Hx1 & ->)].
  2:{ by destruct (proj1 (wp_exec _ _) (extractSystemCertPool_quiet k o) _ _ Hx1) as [_ [x [=]]]. }
  apply (faulty_app k h others) in Hf as (s1 & n1 & n2 & Hf1 & Hf2 & ->).
  destruct (reads_faulty _ _ _ _ _ _ Hx1 (extractSystemCertPool_ambient o) Hf1) as (Hu1 & _ & Hz1).
  unfold extractSystemCertPool, outcome_with in Hz1. simpl in Hz1. rewrite Hpool in Hz1. simpl in Hz1.
  pose proof (pending_untouched _ _ Hu1 Hpend) as Hpend1. destruct Hu1 as (Hs1 & _ & _).
  rewrite <- Hs1 in Ho. destruct x as [e|pool].
  { destruct Hx2 as [-> ->]. destruct Hf2 as [Hu2%others_leave ->].
    apply leaves_error; [|by eapply pending_untouched]. intros Hn. by specialize (Hz1 ltac:(lia)). }
  apply exec_bind in Hx2 as [(tr3 & y & tr4 & -> & Hx3 & Hx4)|(w & Hx3 & ->)].
  2:{ by destruct (proj1 (wp_exec _ _) (ParseReference_answer _ _ _ _) _ _ Hx3). }
  apply (faulty_app k h others) in Hf2 as (s2 & n3 & n4 & Hf3 & Hf4 & ->).
  destruct (reads_faulty _ _ _ _ _ _ Hx3 (ParseReference_ambient _ _ _ _) Hf3) as (Hu3 & Hsound & Hz3).
  rewrite Hparse in Hz3.
  pose proof (pending_untouched _ _ Hu3 Hpend1) as Hpend2. destruct Hu3 as (Hs3 & _ & _).
  rewrite <- Hs3 in Ho. destruct y as [e|[creds tls]].
  - destruct (proj1 (wp_exec _ _) (ParseReference_faulty k reads _ _ _ _) _ _ Hx3 Hsound)
      as [Htrue|(e' & [= <-] & Hns & Hna)].
    { pose proof (exec_with reads _ _ _ Hx3 Htrue) as Ho'. by rewrite Hparse in Ho'. }
    destruct (reference_faulty s2 o e tr4 out s' n4 Hpend2 Ho Hasks Hns Hna Hx4 Hf4) as [Hp [res ->]].
    apply leaves_error; [|done]. intros Hn. by specialize (Hz3 ltac:(lia)).
  - rewrite Nat.add_assoc.
    eapply (client_faulty (n1 + n3) s2 o pool creds tls pool0 creds0 tls0 c0); try done.
    intros Hn. specialize (Hz1 ltac:(lia)). specialize (Hz3 ltac:(lia)). naive_solver.
Qed.

(** Whatever fails, the object keeps asking, and a reconciliation that does not
    ask to be repeated has satisfied it; without faults it does not ask. *)
Lemma one_run s tr out s' n :
  pending s -> exec (Reconcile k r req) tr out -> faulty tr s s' n -> leaves n out s'.
Proof.
  intros Hpend Hx Hf. unfold Reconcile in Hx. simpl in Hx. destruct Hx as (x & tr1 & -> & Hx).
  destruct Hf as (s0 & Hu%others_leave & Hf).
  pose proof (pending_untouched _ _ Hu Hpend) as Hpend0. pose proof Hpend0 as [(o & Ho & Hasks) _].
  destruct Hf as [(s1 & Hh & Hf)|(Hfault & s1 & n' & Hs & -> & Hf)].
  - rewrite (server_get _ _ _ _ _ _ _ Hserver s0 o Ho) in Hh. injection Hh as <- <-. by eapply object_faulty.
  - destruct Hfault as (e & -> & Hne). simpl in Hx. rewrite (Hne eq_refl) in Hx.
    destruct Hx as [-> ->]. destruct Hf as [Hu1%others_leave _].
    apply leaves_error; [done|]. eapply pending_untouched; [exact Hu1|].
    destruct Hs as [->| ->]; [done|]. eapply pending_untouched; [|exact Hpend0].
    by apply untouched_quietly, (server_pure _ _ _ _ _ _ _ Hserver).
Qed.

(** ** Repeated reconciliations *)

(** Reconciliations one after the other, the state after each, and the number of
    faults in all. *)
Inductive attempts : S -> list (outcome (Result * option error) * S) -> nat -> Prop :=
| attempts_nil s : attempts s [] 0
| attempts_cons s tr out s1 n l m :
    exec (Reconcile k r req) tr out -> faulty tr s s1 n -> attempts s1 l m ->
    attempts s ((out, s1) :: l) (n + m).

Lemma attempts_settle s l n :
  pending s -> attempts s l n -> n < length l ->
  Exists (fun '(out, s') => out = Returned (emptyResult, None) /\ satisfied s') l.
Proof.
  intros Hp Ha. revert Hp. induction Ha as [s|s tr out s1 n l m Hx Hf Ha IH]; intros Hp Hn;
    [simpl in Hn; lia|].
  destruct (one_run s tr out s1 n Hp Hx Hf) as (Hp1 & res & err & -> & Hok & Hz).
  destruct err as [e|].
  - apply Exists_cons_tl. apply IH; [done|]. simpl in Hn.
    assert (n <> 0) by naive_solver. lia.
  - apply Exists_cons_hd. by destruct (Hok eq_refl) as [-> Hs].
Qed.
End server.

Section liveness.
Context `{LibsOk} `{BrokerLib} (k : kind) `{!TopologyResource k} `{!TopologyResourceOk k}
  `{!StatusStable k} `{!ReconcileFunc k} `{!OnBroker k} `{!DeclaresUnderFaults k}.
Context (r : ReconcilerConfig) (req : NamespacedName).
Context {S : Type} (h : handler result S) (reads : forall a, result a).
Context (objects : S -> forall k, NamespacedName -> option (object k)) (broker : S -> broker_state).
Context (willing : broker_state -> rmq_call -> Prop).
Context (Hserver : ServerOk k req h reads objects broker willing).

(** C10: With n calls that fail or whose answer is lost, and others at work on
    other objects and other names in between, one of any n + 1 reconciliations of
    an object returns without an error and leaves the goal of the object met on
    the broker and the finalizer on the object; for the eleven kinds of
    LifecycleKinds.v. *)
Theorem declared_despite_faults others s o call g l n :
  objects s k req = Some o -> DeletionTimestamp (meta k o) = None -> reachable k r reads o ->
  on_wanted reads o = Some (call, g) -> willing (broker s) call ->
  OthersOk k req objects broker willing call g others ->
  attempts k r req h others s l n -> n < length l ->
  Exists (fun '(out, s') => out = Returned (emptyResult, None) /\ met g (broker s') /\
    exists o', objects s' k req = Some o' /\ finalizerOf k o' ∈ Finalizers (meta k o') /\
      on_wanted reads o' = Some (call, g)) l.
Proof.
  intros Ho Hlive Hreach Hw Hwill Hothers Ha Hn.
  assert (Hp : pending k r req reads objects broker willing call g s).
  { split; [exists o; by split_and!|done]. }
  pose proof (attempts_settle k r req h reads objects broker willing Hserver call g
    others Hothers s l n Hp Ha Hn) as Hex.
  eapply Exists_impl; [exact Hex|]. intros [out s'] (-> & Hb & o' & Ho' & Hasks & Hfin).
  split_and!; [done|exact Hb|]. exists o'. destruct Hasks as (_ & _ & Hw'). done.
Qed.
End liveness.
