(* ===== verification/FaultKinds.v ===== *)
(** * The kinds of LifecycleKinds.v under faults *)

From S2P Require Import Prelude.
From S2P Require Import GoStrings.
From S2P Require Import GoErrors.
From S2P Require Import Prog.
From S2P Require Import Api.
From S2P Require Import Values.
From S2P Require Import World.
From S2P Require Import Resources.
From S2P Require Import Settings.
From S2P Require Import Utils.
From S2P Require Import TopologyReconciler.
From S2P Require Import Traces.
From S2P Require Import ReconcilerProofs.
From S2P Require Import Controllers.
From S2P Require Import ControllerProofs.
From S2P Require Import PermissionControllers.
From S2P Require Import Broker.
From S2P Require Import Lifecycle.
From S2P Require Import LifecycleKinds.
From S2P Require Import Faults.
Import ProgNotations.
Open Scope go_scope.

(** The declaration reads and then makes at most the one call that the true answers
    ask for. *)
Definition reads_then_put (k : kind) (reads : forall a, result a) (c : RmqClient) (o : object k)
    (call : rmq_call) (tr : go_trace) (out : outcome (option error * object k)) : Prop :=
  exists tra, Forall (fun e => ambient (projT1 e)) tra /\
    ((tr = tra /\ (exists e, out = Returned (Some e, o)) /\ ~ Forall (true_answer reads) tra) \/
     exists x res, tr = tra ++ [existT (P:=result) (Rmq c call) x] /\
       http_answer call x = Some res /\ out = Returned (validateResponse res, o)).

Section shapes.
Context `{LibsOk} (k : kind) (reads : forall a, result a).

Lemma shape_put c call (answer : rmq_result call -> http_result) (o : object k) tr out :
  (forall x, http_answer call x = Some (answer x)) ->
  exec (declareCall c call answer o) tr out -> reads_then_put k reads c o call tr out.
Proof.
  intros Hans. unfold declareCall. simpl. intros (x & tr' & -> & -> & ->).
  exists []. split; [done|]. right. exists x, (answer x). auto.
Qed.

(** A first part [p] that answers as it should, or with an error that is
    returned. *)
Lemma shape_bind {A} c call (o : object k) (p : go (error + A)) f v tr out :
  all_calls (fun e => ambient (projT1 e)) p ->
  wp p (fun tr o => Forall (sound k reads) tr ->
    Forall (true_answer reads) tr \/ exists e, o = Returned (inl e)) ->
  value_with reads p = Some v ->
  (forall e tr out, exec (f (inl e)) tr out -> tr = [] /\ exists e', out = Returned (Some e', o)) ->
  (forall tr out, exec (f (inr v)) tr out -> reads_then_put k reads c o call tr out) ->
  exec (bind p f) tr out ->
  Forall (fun e => ambient (projT1 e) -> sound k reads e) tr ->
  reads_then_put k reads c o call tr out.
Proof.
  intros Hamb Hp Hv Herr Hok Hx Hs.
  assert (Htrue : forall tr o, exec p tr o -> Forall (true_answer reads) tr -> o = Returned (inr v)).
  { intros tr0 o0 Hx0 Ht. pose proof (exec_with reads _ _ _ Hx0 Ht) as Ho. unfold value_with in Hv.
    rewrite Ho in Hv. destruct o0 as [[e|y]|w]; by simplify_eq. }
  assert (Hsound : forall tr o, exec p tr o ->
    Forall (fun e => ambient (projT1 e) -> sound k reads e) tr ->
    Forall (fun e => ambient (projT1 e)) tr /\
    (Forall (true_answer reads) tr \/ exists e, o = Returned (inl e))).
  { intros tr0 o0 Hx0 Hs0. pose proof (proj1 (wp_exec _ _) Hamb _ _ Hx0) as Ha. split; [done|].
    apply (proj1 (wp_exec _ _) Hp _ _ Hx0). rewrite Forall_forall in *. auto. }
  apply exec_bind in Hx as [(tr1 & x & tr2 & -> & Hx1 & Hx2)|(w & Hx1 & ->)].
  - apply Forall_app in Hs as [Hs _]. destruct (Hsound _ _ Hx1 Hs) as [Ha Hc]. destruct x as [e|y].
    + destruct (Herr e tr2 out Hx2) as [-> He]. exists tr1. split; [done|]. left.
      rewrite app_nil_r. split_and!; [done|done|]. intros Ht. by specialize (Htrue _ _ Hx1 Ht).
    + destruct Hc as [Ht|[e [=]]]. injection (Htrue _ _ Hx1 Ht) as ->.
      destruct (Hok tr2 out Hx2) as (tra & Ha2 & [(-> & He & Hn)|(z & res & -> & Hres)]);
        exists (tr1 ++ tra); (split; [by apply Forall_app|]).
      * left. split_and!; [done|done|]. by intros [_ ?]%Forall_app.
      * right. exists z, res. by rewrite app_assoc.
  - destruct (Hsound _ _ Hx1 Hs) as [_ [Ht|[e [=]]]]. by specialize (Htrue _ _ Hx1 Ht).
Qed.
End shapes.

(** A kind whose declarations have this shape owes nothing more. *)
Lemma single_faulty `{LibsOk} `{BrokerLib} k `{!TopologyResource k} `{!ReconcileFunc k} `{!OnBroker k}
    (key : object k -> bkey) (wanted : (forall a, result a) -> object k -> option rmq_call) :
  (forall reads o, on_wanted reads o = single (key o) (wanted reads o)) ->
  (forall reads c o call tr out, wanted reads o = Some call -> exec (DeclareFunc c o) tr out ->
     Forall (fun e => ambient (projT1 e) -> sound k reads e) tr ->
     reads_then_put k reads c o call tr out) ->
  DeclaresUnderFaults k.
Proof.
  intros Hsingle Hshape. split.
  intros S h reads objects broker willing req c others o call g s tr out s' n Hserver Hw Hothers Ho
    Hwill Hx Hf.
  pose proof (on_wanted_key _ _ _ _ Hw) as [Hkey Hg].
  rewrite Hsingle in Hw. apply fmap_Some in Hw as (call' & Hw & [= <- ->]).
  pose proof (others_preorder _ _ _ _ _ _ _ _ Hothers) as Hpre.
  pose proof (faulty_sound k h others reads _ _ _ _ (server_reads _ _ _ _ _ _ _ Hserver) Hf)
    as [Hsound Htrue].
  destruct (Hshape reads c o call tr out Hw Hx Hsound)
    as (tra & Ha & [(-> & [e ->] & Hfail)|(x & res & -> & Hres & ->)]).
  - apply (quiet_faulty k req h reads objects broker willing _ _ Hserver others Hothers)
      in Hf as (Hs & _ & Hw'); [|eapply Forall_impl; [exact Ha|]; intros [a y]; by destruct a].
    exists (Some e). unfold stored in Hs. split_and!; [done|congruence|auto|done|].
    intros Hn. destruct Hfail. specialize (Htrue Hn). rewrite Forall_forall in *. auto.
  - apply (faulty_app k h others) in Hf as (s1 & n1 & n2 & Hf1 & Hf2 & ->).
    apply (quiet_faulty k req h reads objects broker willing _ _ Hserver others Hothers)
      in Hf1 as (Hs1 & _ & Hw1); [|eapply Forall_impl; [exact Ha|]; intros [a y]; by destruct a].
    destruct (put_faulty k req h reads objects broker willing _ _ Hserver others Hothers c _ x s1 s' n2
      Hkey Hg (Hw1 Hwill) Hf2) as (res' & Hres' & Hs2 & Hw2 & Hb2 & Hz2).
    rewrite Hres in Hres'. injection Hres' as <-. exists (validateResponse res).
    unfold stored in *. split_and!; [done|congruence|done| |].
    + intros Hacc%validateResponse_ok. split; [|done]. apply map_singleton_subseteq_l.
      rewrite <- (Hb2 Hacc). f_equal. apply (inj Some). rewrite <- Hkey. simpl in Hg.
      by apply lookup_singleton_Some in Hg as [-> _].
    + intros Hn. apply validateResponse_ok, Hz2. lia.
Qed.

(** Answers that are no errors are true. *)
Ltac settle_reads :=
  let Hr := fresh "Hr" in intros Hr; first
  [ right; by eexists
  | left; repeat (apply Forall_cons in Hr as [?He Hr]);
    repeat constructor; (eapply sound_true; [eassumption|simpl; unfold is_Some; naive_solver]) ].

Ltac put_shape K c o Hx :=
  cbv beta iota in Hx;
  lazymatch type of Hx with
  | exec (declareCall _ ?call ?ans _) _ _ =>
      exact (shape_put K _ c call ans o _ _ (fun x => eq_refl) Hx)
  end.

Section kinds.
Context `{LibsOk} `{BrokerLib}.

#[export] Instance Exchange_under_faults : DeclaresUnderFaults KExchange.
Proof.
  apply (single_faulty KExchange Exchange_key (fun _ => Exchange_wanted)); [done|]. intros reads c e call tr out Hw Hx _. simpl in Hw, Hx. unfold Exchange_wanted in Hw.
  unfold Exchange_DeclareFunc in Hx. destruct (GenerateExchangeSettings e) as [?|st]; [done|].
  injection Hw as <-. put_shape KExchange c e Hx.
Qed.

#[export] Instance Queue_under_faults : DeclaresUnderFaults KQueue.
Proof.
  apply (single_faulty KQueue Queue_key (fun _ => Queue_wanted)); [done|]. intros reads c q call tr out Hw Hx _. simpl in Hw, Hx. unfold Queue_wanted in Hw.
  unfold Queue_DeclareFunc in Hx. destruct (GenerateQueueSettings q) as [?|st]; [done|].
  injection Hw as <-. put_shape KQueue c q Hx.
Qed.

#[export] Instance Policy_under_faults : DeclaresUnderFaults KPolicy.
Proof.
  apply (single_faulty KPolicy Policy_key Policy_wanted); [done|]. intros reads c p call tr out (info & Hv & ->)%fmap_Some Hx Hs.
  eapply (shape_bind KPolicy reads c _ p (GeneratePolicy p)); [..|exact Hx|exact Hs].
  - unfold GeneratePolicy. ambient_calls.
  - unfold GeneratePolicy. destruct (Policy_Definition _); simpl; [|by left].
    destruct (json_Unmarshal _); simpl; by left.
  - exact Hv.
  - intros e tr' out' [-> ->]. eauto.
  - intros tr' out' Hx'.
    put_shape KPolicy c p Hx'.
Qed.

#[export] Instance OperatorPolicy_under_faults : DeclaresUnderFaults KOperatorPolicy.
Proof.
  apply (single_faulty KOperatorPolicy OperatorPolicy_key OperatorPolicy_wanted); [done|]. intros reads c p call tr out (info & Hv & ->)%fmap_Some Hx Hs.
  eapply (shape_bind KOperatorPolicy reads c _ p (GenerateOperatorPolicy p)); [..|exact Hx|exact Hs].
  - unfold GenerateOperatorPolicy. ambient_calls.
  - unfold GenerateOperatorPolicy. destruct (OperatorPolicy_Definition _); simpl; [|by left].
    destruct (json_Unmarshal _); simpl; by left.
  - exact Hv.
  - intros e tr' out' [-> ->]. eauto.
  - intros tr' out' Hx'.
    put_shape KOperatorPolicy c p Hx'.
Qed.

#[export] Instance Federation_under_faults : DeclaresUnderFaults KFederation.
Proof.
  apply (single_faulty KFederation Federation_key Federation_wanted); [done|]. intros reads c f call tr out (uri & Hv & ->)%fmap_Some Hx Hs.
  destruct (Federation_UriSecret (Spec f)) as [ref|] eqn:Href.
  2:{ unfold Federation_getUri in Hv. by rewrite Href in Hv. }
  eapply (shape_bind KFederation reads c _ f (Federation_getUri f)); [..|exact Hx|exact Hs].
  - unfold Federation_getUri. ambient_calls.
  - unfold Federation_getUri. rewrite Href. simpl. intros [e|sec]; simpl; [settle_reads|].
    destruct (Data sec !! "uri"); simpl; settle_reads.
  - exact Hv.
  - intros e tr' out' Hx'. unfold uriSecretError in Hx'. rewrite Href in Hx'.
    destruct Hx' as [-> ->]. eauto.
  - intros tr' out' Hx'. put_shape KFederation c f Hx'.
Qed.

#[export] Instance Shovel_under_faults : DeclaresUnderFaults KShovel.
Proof.
  apply (single_faulty KShovel Shovel_key Shovel_wanted); [done|]. intros reads c sh call tr out (src & dest & d & Hv & Hd & ->)%Shovel_wanted_inv Hx Hs.
  destruct (Shovel_UriSecret (Spec sh)) as [ref|] eqn:Href.
  2:{ unfold Shovel_getUris in Hv. by rewrite Href in Hv. }
  eapply (shape_bind KShovel reads c _ sh (Shovel_getUris sh)); [..|exact Hx|exact Hs].
  - unfold Shovel_getUris. ambient_calls.
  - unfold Shovel_getUris. rewrite Href. simpl. intros [e|sec]; simpl; [settle_reads|].
    destruct (Data sec !! "srcUri"); simpl; [|settle_reads].
    destruct (Data sec !! "destUri"); simpl; settle_reads.
  - exact Hv.
  - intros e tr' out' Hx'. unfold uriSecretError in Hx'. rewrite Href in Hx'.
    destruct Hx' as [-> ->]. eauto.
  - intros tr' out' Hx'. cbv beta iota in Hx'. rewrite Hd in Hx'. put_shape KShovel c sh Hx'.
Qed.

#[export] Instance SchemaReplication_under_faults : DeclaresUnderFaults KSchemaReplication.
Proof.
  apply (single_faulty KSchemaReplication (fun _ => BGlobalParameter SchemaReplicationParameterName)
    SchemaReplication_wanted); [done|]. intros reads c sr call tr out (v & Hv & ->)%fmap_Some Hx Hs.
  eapply (shape_bind KSchemaReplication reads c _ sr (getUpstreamEndpoints sr)); [..|exact Hx|exact Hs].
  - unfold getUpstreamEndpoints, upstreamSecret. ambient_calls.
  - unfold getUpstreamEndpoints, upstreamSecret. case_bool_decide; simpl.
    + destruct (SchemaReplication_UpstreamSecret _); simpl; [|settle_reads].
      intros [e|sec]; simpl; settle_reads.
    + intros [e|]; simpl; [settle_reads|]. intros [e|[u p]]; simpl; settle_reads.
  - exact Hv.
  - intros e tr' out' [-> ->]. eauto.
  - intros tr' out' Hx'. put_shape KSchemaReplication c sr Hx'.
Qed.

#[export] Instance Binding_under_faults `{!BrokerLibOk} : DeclaresUnderFaults KBinding.
Proof.
  apply (single_faulty KBinding Binding_key (fun _ => Binding_wanted)); [done|].
  intros reads c b call tr out Hw Hx _. simpl in Hx. unfold Binding_wanted in Hw.
  unfold Binding_DeclareFunc in Hx. destruct (GenerateBindingInfo b) as [?|info]; [done|].
  injection Hw as <-. put_shape KBinding c b Hx.
Qed.

#[export] Instance Permission_under_faults : DeclaresUnderFaults KPermission.
Proof.
  apply (single_faulty KPermission Permission_key (fun _ => Permission_wanted)); [done|].
  intros reads c p call tr out (Href & Huser & ->)%Permission_wanted_inv Hx _.
  change (exec (Permission_DeclareFunc c p) tr out) in Hx. rewrite (Permission_declares c p Href Huser) in Hx.
  put_shape KPermission c p Hx.
Qed.

#[export] Instance TopicPermission_under_faults : DeclaresUnderFaults KTopicPermission.
Proof.
  apply (single_faulty KTopicPermission TopicPermission_key (fun _ => TopicPermission_wanted)); [done|].
  intros reads c p call tr out (Href & Huser & ->)%TopicPermission_wanted_inv Hx _.
  change (exec (TopicPermission_DeclareFunc c p) tr out) in Hx. rewrite (TopicPermission_declares c p Href Huser) in Hx.
  put_shape KTopicPermission c p Hx.
Qed.

(** ** Virtual hosts: four calls, any of which may fail *)

Section vhost.
Context (v : Vhost) (req : NamespacedName) (c : RmqClient).
Context {S : Type} (h : handler result S) (reads : forall a, result a).
Context (objects : S -> forall k, NamespacedName -> option (object k)) (broker : S -> broker_state).
Context (willing : broker_state -> rmq_call -> Prop) (others : S -> S -> Prop).
Context (Hserver : ServerOk KVhost req h reads objects broker willing).
Context (Hothers : OthersOk KVhost req objects broker willing (Vhost_call v) (Vhost_goal v) others).
Notation n := (Vhost_Name (Spec v)).
Notation faulty := (faulty KVhost h others).
Notation untouched := (untouched KVhost req objects broker willing (Vhost_call v) (Vhost_goal v)).

(** The object is there, and its virtual host. *)
Definition present (s : S) : Prop :=
  objects s KVhost req = Some v /\ broker s !! BVhost n = Some (Vhost_call v).
(** The managed limits that the object does not set. *)
Definition cleared (s : S) : Prop :=
  forall limit, limit ∈ vhostLimitKeys -> Vhost_limits v !! limit = None ->
    broker s !! BVhostLimit n limit = None.

Lemma vhost_in : BVhost n ∈ footprint (Vhost_goal v).
Proof. apply elem_of_union_l, elem_of_dom. eexists. apply lookup_insert_eq. Qed.
Lemma limit_in limit : limit ∈ vhostLimitKeys -> BVhostLimit n limit ∈ footprint (Vhost_goal v).
Proof. intros Hin. by apply elem_of_union_r, elem_of_list_to_set, list_elem_of_fmap_2. Qed.

Lemma present_untouched s s' : present s -> untouched s s' -> present s'.
Proof.
  intros [Ho Hb] (Hs & Hk & _). split; [unfold stored in Hs; congruence|].
  by rewrite Hk by apply vhost_in.
Qed.
Lemma cleared_untouched s s' : cleared s -> untouched s s' -> cleared s'.
Proof. intros Hc (_ & Hk & _) limit Hin Hn. rewrite Hk by by apply limit_in. by apply Hc. Qed.
Lemma present_willing s : present s -> willing (broker s) (Vhost_call v).
Proof. intros [_ Hb]. by eapply (server_again _ _ _ _ _ _ _ Hserver). Qed.

Lemma vhost_met s :
  present s -> cleared s ->
  (forall limit z, Vhost_limits v !! limit = Some z ->
     broker s !! BVhostLimit n limit = Some (limit_call n limit z)) ->
  met (Vhost_goal v) (broker s).
Proof.
  intros [_ Hv] Hc Hl. split.
  - apply map_subseteq_spec. intros key call. simpl. unfold Vhost_key.
    rewrite lookup_insert_Some, lookup_limit_entries. intros [[<- <-]|[_ E]]; [done|].
    destruct key; try done. case_decide as Ev; [subst|done].
    apply fmap_Some in E as (z & Hz & ->). by apply Hl.
  - intros key [limit [-> Hin]]%elem_of_list_to_set%list_elem_of_fmap.
    simpl. unfold Vhost_key. rewrite lookup_insert_ne, lookup_limit_entries, decide_True by done.
    intros E%fmap_None. by apply Hc.
Qed.

(** The limits as the broker lists them are the managed ones. *)
Lemma get_limits_faulty x s s' m :
  present s -> faulty [existT (Rmq c (GetVhostLimits n)) x] s s' m ->
  untouched s s' /\
  ((m <> 0 /\ exists e, currentLimits x = inl e) \/
   exists l : LimitsValues, currentLimits x = inr l /\ forall limit, limit ∈ vhostLimitKeys ->
     broker s !! BVhostLimit n limit = limit_call n limit <$> (l : gmap string Z) !! limit).
Proof.
  intros Hp Hf. eapply call_faulty in Hf as (s0 & s1 & Hu0 & Hu1 & Hc); [|exact Hothers].
  destruct (server_limits _ _ _ _ _ _ _ Hserver s0 c n) as (x0 & l & Hh & Hx0%currentLimits_lists & Hl).
  assert (s1 = s0) as ->.
  { destruct Hc as [[Hh2 _]|(_ & [->| ->] & _)]; [|done|by rewrite Hh]. rewrite Hh in Hh2. by injection Hh2. }
  split; [by etrans|]. destruct Hc as [[Hh2 _]|((e & -> & He) & _ & Hm)].
  - right. rewrite Hh in Hh2. injection Hh2 as <-. exists l. split; [done|]. intros limit Hin.
    rewrite <- Hl. symmetry. destruct Hu0 as (_ & Hk & _). by apply Hk, limit_in.
  - left. split; [done|]. unfold currentLimits. rewrite He. by eexists.
Qed.

(** A call on the limits that would be accepted: the virtual host stays, and if it
    is accepted it happened. *)
Lemma limits_call_faulty cl x s s' m (f : broker_state -> broker_state)
    (good : rmq_result cl -> Prop) :
  (forall s0, is_Some (broker s0 !! BVhost n) -> exists x0 s1, h (Rmq c cl) s0 = (x0, s1) /\
     good x0 /\ same_objects objects s0 s1 /\ broker s1 = f (broker s0)) ->
  (forall b, f b !! BVhost n = b !! BVhost n) ->
  present s -> faulty [existT (Rmq c cl) x] s s' m ->
  present s' /\
  ((good x /\ m = 0 /\ exists s0 s1, untouched s s0 /\ present s1 /\
      broker s1 = f (broker s0) /\ untouched s1 s') \/
   (broker_fault cl x /\ m <> 0)).
Proof.
  intros Hcall Hf Hp Hc.
  destruct (rmq_faulty KVhost req h objects broker willing _ _ others Hothers c cl x s s' m f good)
    as (s0 & Hu0 & Hcase); [|done|].
  { intros s0 Hu0. apply Hcall. apply (present_untouched _ _ Hp) in Hu0 as [_ Hb]. by eexists. }
  pose proof (present_untouched _ _ Hp Hu0) as [Ho0 Hb0].
  assert (Happ : forall s1, same_objects objects s0 s1 -> broker s1 = f (broker s0) -> present s1).
  { intros s1 Hobj Hb. split; [by rewrite Hobj|]. by rewrite Hb, Hf. }
  destruct Hcase as [(Hg & Hm & s1 & Hobj & Hb & Hu1)|(Hx & Hm & [(s1 & Hobj & Hb & Hu1)|Hu1])].
  - pose proof (Happ s1 Hobj Hb) as Hp1. split; [exact (present_untouched _ _ Hp1 Hu1)|]. left.
    split_and!; [done|done|]. by exists s0, s1.
  - pose proof (Happ s1 Hobj Hb) as Hp1. split; [exact (present_untouched _ _ Hp1 Hu1)|]. by right.
  - split; [exact (present_untouched _ _ (conj Ho0 Hb0) Hu1)|]. by right.
Qed.

Lemma drop_faulty limits x s s' m :
  present s -> faulty [existT (Rmq c (DeleteVhostLimits n limits)) x] s s' m ->
  present s' /\
  ((m <> 0 /\ exists e, validateResponseForDeletion x = Some e /\ errors_Is e ErrNotFound = false) \/
   (validateResponseForDeletion x = None /\ forall limit, limit ∈ vhostLimitKeys ->
      broker s' !! BVhostLimit n limit =
      if decide (limit ∈ limits) then None else broker s !! BVhostLimit n limit)).
Proof.
  intros Hp Hf. destruct (limits_call_faulty _ x s s' m (drop_limits_at n limits) accepted) as [Hp' Hcase];
    [|..|done|exact Hf|split; [done|]].
  - intros s0 Hv. destruct (server_delete_limits _ _ _ _ _ _ _ Hserver s0 c n limits Hv)
      as (res & s1 & Hh & Hrest). by exists res, s1.
  - intros b. rewrite lookup_drop_limits_at, decide_False; [done|]. by intros (? & [=] & _)%list_elem_of_fmap.
  - destruct Hcase as [(Hacc & _ & s0 & s1 & (_ & Hk0 & _) & _ & Hb & (_ & Hk1 & _))|((Hna & Hnf) & Hm)].
    + right. split; [by apply accepted_deletion|]. intros limit Hin%limit_in.
      rewrite Hk1, Hb, lookup_drop_limits_at by done. rewrite Hk0 by done.
      apply decide_ext. rewrite list_elem_of_fmap. naive_solver.
    + left. split; [done|]. pose proof (validateResponseForDeletion_ok x) as Hok.
      destruct (validateResponseForDeletion x) as [e|] eqn:Ee; [|naive_solver].
      exists e. split; [done|]. rewrite (validateResponseForDeletion_error _ _ _ Ee).
      apply bool_decide_eq_false_2. naive_solver.
Qed.

Lemma put_limits_faulty x s s' m :
  present s -> faulty [existT (Rmq c (PutVhostLimits n (Vhost_limits v))) x] s s' m ->
  present s' /\
  ((m <> 0 /\ validateResponse x <> None) \/
   (validateResponse x = None /\ (cleared s -> met (Vhost_goal v) (broker s')))).
Proof.
  intros Hp Hf. destruct (limits_call_faulty _ x s s' m (fun b => limit_entries n (Vhost_limits v) ∪ b)
    accepted) as [Hp' Hcase]; [|..|done|exact Hf|split; [done|]].
  - intros s0 Hv. destruct (server_put_limits _ _ _ _ _ _ _ Hserver s0 c n (Vhost_limits v) Hv)
      as (res & s1 & Hh & Hrest). by exists res, s1.
  - intros b. by rewrite lookup_union, lookup_limit_entries, (left_id_L None _).
  - destruct Hcase as [(Hacc & _ & s0 & s1 & Hu0 & Hp1 & Hb & Hu1)|(Hna & Hm)].
    + right. split; [by apply validateResponse_ok|]. intros Hc%(cleared_untouched _ s0); [|done].
      apply (met_agree _ (broker s1)); [by destruct Hu1 as (_ & ? & _)|].
      assert (Hset : forall limit, broker s1 !! BVhostLimit n limit =
        match Vhost_limits v !! limit with
        | Some z => Some (limit_call n limit z)
        | None => broker s0 !! BVhostLimit n limit
        end).
      { intros limit. rewrite Hb, lookup_union, lookup_limit_entries, decide_True by done.
        destruct (Vhost_limits v !! limit); simpl; [by rewrite union_Some_l|by rewrite (left_id_L None _)]. }
      apply vhost_met; [done| |].
      * intros limit Hin Hn. rewrite Hset, Hn. by apply Hc.
      * intros limit z Hz. by rewrite Hset, Hz.
    + left. split; [done|]. by rewrite validateResponse_ok.
Qed.

(** After the limits have been read: what is outdated goes, what is new comes. *)
Lemma change_limits_faulty (l : LimitsValues) tr out s s' m :
  present s ->
  (forall limit, limit ∈ vhostLimitKeys ->
     broker s !! BVhostLimit n limit = limit_call n limit <$> (l : gmap string Z) !! limit) ->
  exec (deleted <-
        (match vhostLimitsToDelete l (Vhost_limits v) with
         | [] => Ret None
         | _ :: _ => res <- act (Rmq c (DeleteVhostLimits n (vhostLimitsToDelete l (Vhost_limits v))));;
                     Ret (validateResponseForDeletion res)
         end : go (option error));;
        if match deleted with Some e => negb (errors_Is e ErrNotFound) | None => false end
        then Ret deleted
        else if bool_decide (GenerateVhostLimits (Vhost_VhostLimits (Spec v)) = ∅) then Ret None
        else res <- act (Rmq c (PutVhostLimits n (Vhost_limits v)));; Ret (validateResponse res)) tr out ->
  faulty tr s s' m ->
  exists err, out = Returned err /\ present s' /\
    (err = None -> met (Vhost_goal v) (broker s')) /\ (m = 0 -> err = None).
Proof.
  intros Hp Hl Hx Hf. set (limits := vhostLimitsToDelete l (Vhost_limits v)) in *.
  apply exec_bind in Hx as [(tr1 & deleted & tr2 & -> & Hx1 & Hx2)|(w & Hx1 & ->)].
  2:{ destruct limits; [by destruct Hx1|]. by destruct Hx1 as (? & ? & _ & _ & [=]). }
  pose proof (others_preorder _ _ _ _ _ _ _ _ Hothers) as Hpre.
  apply (faulty_app KVhost h others) in Hf as (s1 & n1 & n2 & Hf1 & Hf2 & ->).
  assert (Hdrop : present s1 /\
    ((n1 <> 0 /\ exists e, deleted = Some e /\ errors_Is e ErrNotFound = false) \/
     (deleted = None /\ cleared s1))).
  { assert (Hnone : forall limit, limit ∈ vhostLimitKeys -> Vhost_limits v !! limit = None ->
      limit ∉ limits -> broker s !! BVhostLimit n limit = None).
    { intros limit Hin Hn Hout. unfold LimitsValues in *. rewrite Hl by done. destruct (l !! limit) as [z|] eqn:Ez; [|done].
      destruct Hout. apply list_elem_of_filter. split; [split; [by exists z|done]|done]. }
    destruct limits as [|limit0 limits0] eqn:El.
    - destruct Hx1 as [-> [= ->]]. destruct Hf1 as [Hu%(others_untouched _ _ _ _ _ _ _ _ Hothers) _].
      split; [by eapply present_untouched|]. right. split; [done|].
      eapply cleared_untouched; [|exact Hu]. intros limit Hin Hn. by apply Hnone, not_elem_of_nil.
    - destruct Hx1 as (x & tr' & -> & -> & [= ->]).
      destruct (drop_faulty _ x s s1 n1 Hp Hf1) as [Hp1 [Hbad|[Hok Hkeys]]]; split; [done|by left|done|].
      right. split; [done|]. intros limit Hin Hn. rewrite Hkeys by done.
      destruct (decide (limit ∈ limit0 :: limits0)) as [Hd|Hd]; [done|by apply Hnone]. }
  destruct Hdrop as [Hp1 [[Hn1 (e & -> & He)]|[-> Hc1]]].
  - rewrite He in Hx2. destruct Hx2 as [-> ->].
    destruct Hf2 as [Hu%(others_untouched _ _ _ _ _ _ _ _ Hothers) ->]. exists (Some e).
    split_and!; [done|by eapply present_untouched|done|lia].
  - case_bool_decide as Hnew.
    + destruct Hx2 as [-> ->]. destruct Hf2 as [Hu%(others_untouched _ _ _ _ _ _ _ _ Hothers) ->].
      exists None. pose proof (present_untouched _ _ Hp1 Hu) as Hp2.
      split_and!; [done|done| |done]. intros _. apply vhost_met; [done|by eapply cleared_untouched|].
      intros limit z Hz. exfalso. unfold Vhost_limits in Hz. rewrite Hnew in Hz.
      revert Hz. apply lookup_empty_Some.
    + destruct Hx2 as (x & tr' & -> & -> & ->).
      destruct (put_limits_faulty x s1 s' n2 Hp1 Hf2) as [Hp2 [[Hn2 Hbad]|[Hok Hmet]]];
        exists (validateResponse x); split_and!; auto; [done|lia].
Qed.

Lemma vhost_limits_faulty tr out s s' m :
  present s -> exec (reconcileVhostLimits c v) tr out -> faulty tr s s' m ->
  exists err, out = Returned err /\ present s' /\
    (err = None -> met (Vhost_goal v) (broker s')) /\ (m = 0 -> err = None).
Proof.
  intros Hp Hx Hf. pose proof (others_preorder _ _ _ _ _ _ _ _ Hothers) as Hpre.
  destruct Hx as (x & tr' & -> & Hx).
  apply (faulty_app KVhost h others [existT (Rmq c (GetVhostLimits n)) x] tr') in Hf
    as (s1 & n1 & n2 & Hf1 & Hf2 & ->).
  destruct (get_limits_faulty x s s1 n1 Hp Hf1) as [Hu [[Hn1 [e He]]|(l & Hl & Hkeys)]];
    pose proof (present_untouched _ _ Hp Hu) as Hp1.
  - cbn [bind] in Hx. rewrite He in Hx. destruct Hx as [-> ->].
    destruct Hf2 as [Hu2%(others_untouched _ _ _ _ _ _ _ _ Hothers) ->]. exists (Some e).
    split_and!; [done|by eapply present_untouched|done|lia].
  - cbn [bind] in Hx. rewrite Hl in Hx.
    destruct (change_limits_faulty l tr' out s1 s' n2 Hp1) as (err & -> & Hp2 & Hmet & Hz); [|done|done|].
    + intros limit Hin. rewrite <- Hkeys by done. destruct Hu as (_ & Hk & _). by apply Hk, limit_in.
    + exists err. split_and!; auto. intros Hn. apply Hz. lia.
Qed.
End vhost.

#[export] Instance Vhost_under_faults : DeclaresUnderFaults KVhost.
Proof.
  split.
  intros S h reads objects broker willing req c others v call g s tr out s' m Hserver [= <- <-] Hothers
    Ho Hwill Hx Hf.
  pose proof (others_preorder _ _ _ _ _ _ _ _ Hothers) as Hpre.
  destruct Hx as (x & tr' & -> & Hx).
  apply (faulty_app KVhost h others [existT (Rmq c (Vhost_call v)) x] tr') in Hf
    as (s1 & n1 & n2 & Hf1 & Hf2 & ->).
  destruct (put_faulty KVhost req h reads objects broker willing _ _ Hserver others Hothers c
    (Vhost_key v) x s s1 n1 eq_refl (lookup_insert_eq _ _ _) Hwill Hf1)
    as (res & [= <-] & Hs1 & Hw1 & Hb1 & Hz1). unfold stored in Hs1.
  cbn [bind] in Hx. destruct (validateResponse x) as [e|] eqn:Ee.
  - destruct Hx as [-> ->]. destruct Hf2 as [Hu%(others_untouched _ _ _ _ _ _ _ _ Hothers) ->].
    destruct Hu as (Hs2 & _ & Hw2). unfold stored in Hs2. exists (Some e).
    split_and!; [done|congruence|auto|done|]. intros Hn.
    assert (validateResponse x = None) by (apply validateResponse_ok, Hz1; lia). congruence.
  - apply exec_bind in Hx as [(tr1 & err & tr2 & -> & Hx1 & [-> ->])|(w & Hx1 & ->)];
      rewrite ?app_nil_r in Hf2;
      (eapply (vhost_limits_faulty v req c h reads objects broker willing others Hserver Hothers) in Hf2
         as (err' & Herr & Hp & Hmet & Hz);
       [|split; [exact (eq_trans Hs1 Ho)|apply Hb1; by apply validateResponse_ok]|exact Hx1]); [|done].
    injection Herr as <-. exists err. split_and!; [done|apply Hp| |done|].
    + by apply (present_willing v req h reads objects broker willing Hserver).
    + intros Hn. apply Hz. lia.
Qed.
End kinds.
