(* ===== verification/Topology.v ===== *)
(** * A whole topology

    Many objects, of different kinds, in one API and on one broker.  What one of
    them asks for may need what another puts there: queues need their virtual host,
    bindings their exchange and their queue, permissions their user.  An object whose
    needs are not met is refused and reported as not ready; it is reconciled again.
    However the objects are ordered, as many rounds as the longest chain of needs
    declare them all, and then nothing changes any more. *)

From S2P Require Import Prelude.
From S2P Require Import Prog.
From S2P Require Import Api.
From S2P Require Import World.
From S2P Require Import Resources.
From S2P Require Import Utils.
From S2P Require Import TopologyReconciler.
From S2P Require Import Broker.
From S2P Require Import Lifecycle.

(** ** The objects of a topology *)

(** A kind that the operator manages on the broker. *)
Record managed `{Libs} `{BrokerLib} := Managed {
  m_kind : kind;
  m_resource : TopologyResource m_kind;
  m_resourceOk : TopologyResourceOk m_kind;
  m_stable : StatusStable m_kind;
  m_reconcile : ReconcileFunc m_kind;
  m_broker : OnBroker m_kind
}.
#[export] Existing Instances m_resource m_resourceOk m_stable m_reconcile m_broker.

(** An object, by its kind and its name. *)
Record item `{Libs} `{BrokerLib} := mkItem { i_managed : managed; i_req : NamespacedName }.
Notation i_kind i := (m_kind (i_managed i)).

Section topology.
Context `{LibsOk} `{BrokerLib} (r : ReconcilerConfig).
Context {S : Type} (h : handler result S) (reads : forall a, result a).
Context (objects : S -> forall k, NamespacedName -> option (object k)) (broker : S -> broker_state).
Context (willing : broker_state -> rmq_call -> Prop).

Definition i_id (i : item) : kind * NamespacedName := (i_kind i, i_req i).
Definition i_stored (s : S) (i : item) : option (object (i_kind i)) := objects s (i_kind i) (i_req i).

(** What each of the items asks for. *)
Context (items : list item) (call_of : item -> rmq_call) (goal_of : item -> Goal).

Definition asking (i : item) (o : object (i_kind i)) : Prop :=
  DeletionTimestamp (meta (i_kind i) o) = None /\ reachable (i_kind i) r reads o /\
  on_wanted reads o = Some (call_of i, goal_of i).

(** A topology that can be declared, from a state [s0]: its objects are stored and
    ask for names of their own, the broker accepts their calls once what these need
    is there, and what is needed is there already or put by an object of lower
    rank. *)
Record TopologyOk (rank : item -> nat) (s0 : S) : Prop := {
  t_server i : i ∈ items -> ServerOk (i_kind i) (i_req i) h reads objects broker willing;
  t_stored i : i ∈ items -> exists o, i_stored s0 i = Some o /\ asking i o;
  t_unique i j : i ∈ items -> j ∈ items -> i_id i = i_id j -> i = j;
  t_disjoint i j :
    i ∈ items -> j ∈ items -> i_id i <> i_id j -> footprint (goal_of i) ## footprint (goal_of j);
  t_agrees i : i ∈ items -> agrees (broker s0) (call_of i);
  t_willing i b :
    i ∈ items -> (forall key, key ∈ needs (call_of i) -> is_Some (b !! key)) ->
    agrees b (call_of i) -> willing b (call_of i);
  t_ranked i key :
    i ∈ items -> key ∈ needs (call_of i) ->
    (is_Some (broker s0 !! key) /\ forall j, j ∈ items -> key ∉ g_absent (goal_of j)) \/
    exists j, j ∈ items /\ rank j < rank i /\ is_Some (g_entries (goal_of j) !! key)
}.

(** Reconciliations one after the other. *)
Inductive visits : S -> list item -> S -> Prop :=
| visits_nil s : visits s [] s
| visits_cons s i x s1 l s2 :
    yields h (Reconcile (i_kind i) r (i_req i)) s x s1 -> visits s1 l s2 -> visits s (i :: l) s2.

(** The object is declared: what it asks for is on the broker, and its status and
    finalizer say so. *)
Definition settled (i : item) (s : S) : Prop :=
  met (goal_of i) (broker s) /\
  exists m t o, i_stored s i = Some (declared (i_kind i) m t o) /\ asking i o /\
    DeletionTimestamp m = None /\ set_Finalizers [] m = set_Finalizers [] (meta (i_kind i) o) /\
    finalizerOf (i_kind i) o ∈ Finalizers m.

Context (rank : item -> nat) (s0 : S) (Hok : TopologyOk rank s0).

(** What every sequence of reconciliations keeps. *)
Record inv (s : S) : Prop := {
  inv_asking i : i ∈ items -> exists o, i_stored s i = Some o /\ asking i o;
  inv_broker key :
    (forall i, i ∈ items -> key ∉ footprint (goal_of i)) -> broker s !! key = broker s0 !! key;
  inv_goal i :
    i ∈ items -> met (goal_of i) (broker s) \/
    forall key, key ∈ footprint (goal_of i) -> broker s !! key = broker s0 !! key;
  inv_objects k req :
    (forall i, i ∈ items -> i_id i <> (k, req)) -> objects s k req = objects s0 k req
}.

Lemma inv_start : inv s0.
Proof. split; [apply (t_stored _ _ Hok)|done|by right|done]. Qed.

(** A key of the footprint of an item, if of any. *)
Lemma footprint_cases key :
  (exists i, i ∈ items /\ key ∈ footprint (goal_of i)) \/
  forall i, i ∈ items -> key ∉ footprint (goal_of i).
Proof.
  destruct (decide (Exists (fun i => key ∈ footprint (goal_of i)) items)) as [He|Hn].
  - left. by apply Exists_exists in He.
  - right. intros i Hi Hk. apply Hn, Exists_exists. by exists i.
Qed.

(** Once the items of lower rank are settled, the broker is willing. *)
Lemma inv_willing i s :
  inv s -> i ∈ items -> (forall j, j ∈ items -> rank j < rank i -> settled j s) ->
  willing (broker s) (call_of i).
Proof.
  intros Hinv Hi Hlow. apply (t_willing _ _ Hok); [done|..].
  - intros key Hkey. destruct (t_ranked _ _ Hok i key Hi Hkey) as [[Hb Hab]|(j & Hj & Hr & [v Hv])].
    + destruct (footprint_cases key) as [(j & Hj & Hin)|Hout]; [|by rewrite (inv_broker _ Hinv)].
      destruct (inv_goal _ Hinv j Hj) as [[Hsub _]|Hsame]; [|by rewrite Hsame].
      apply elem_of_union in Hin as [[v Hv]%elem_of_dom|Hin]; [|by destruct (Hab j Hj)].
      exists v. by eapply lookup_weaken.
    + destruct (Hlow j Hj Hr) as [[Hsub _] _]. exists v. by eapply lookup_weaken.
  - pose proof (t_agrees _ _ Hok i Hi) as Hag. destruct (t_stored _ _ Hok i Hi) as (o & _ & _ & _ & Hw).
    apply on_wanted_key in Hw as [Hput Hent].
    assert (Hkey : broker s !! on_key o = Some (call_of i) \/ broker s !! on_key o = broker s0 !! on_key o).
    { destruct (inv_goal _ Hinv i Hi) as [[Hsub _]|Hsame]; [left; by eapply lookup_weaken|right].
      apply Hsame, elem_of_union_l, elem_of_dom. by eexists. }
    revert Hag. unfold agrees. destruct (call_of i); try done; simpl in Hput; injection Hput as Hput;
      rewrite <- Hput in Hkey; destruct Hkey as [Hkey|Hkey]; rewrite Hkey; auto.
Qed.

(** ** One reconciliation *)

Lemma asking_meta i m o :
  set_Finalizers [] m = set_Finalizers [] (meta (i_kind i) o) -> asking i o ->
  asking i (set_meta (i_kind i) m o).
Proof.
  intros Hm (Hlive & Hr & Hw). unfold asking, reachable in *.
  rewrite meta_set_meta, stable_ref_meta, on_meta by (by injection Hm).
  replace (Namespace m) with (Namespace (meta (i_kind i) o)) by (by injection Hm).
  replace (DeletionTimestamp m) with (DeletionTimestamp (meta (i_kind i) o)) by (by injection Hm). done.
Qed.

Lemma asking_variant i o o' : status_variant o o' -> asking i o -> asking i o'.
Proof.
  intros Hv (Hd & Hr & Hw). unfold asking, reachable in *.
  rewrite <- (variant_respects (meta (i_kind i)) o o'), <- (variant_respects RabbitReference o o'),
    <- (variant_respects (on_wanted reads) o o'); try done; intros;
    first [apply on_conditions|apply on_generation|apply stable_ref_conditions
          |apply stable_ref_generation|apply SetStatusConditions_meta|apply set_generation_meta].
Qed.

(** What a reconciliation of [i] that touches only [i] and its goal keeps. *)
Lemma inv_step i s s' o :
  inv s -> i ∈ items -> i_stored s' i = Some o -> asking i o ->
  elsewhere (i_kind i) (i_req i) objects s s' ->
  broker s' = broker s \/ broker s' = achieve (goal_of i) (broker s) ->
  inv s' /\ forall j, j ∈ items -> i_id j <> i_id i -> settled j s -> settled j s'.
Proof.
  intros Hinv Hi Ho Hask Helse Hb.
  assert (Hout : forall key, key ∉ footprint (goal_of i) -> broker s' !! key = broker s !! key).
  { intros key Hn. destruct Hb as [->| ->]; [done|]. by apply lookup_achieve_out. }
  assert (Hobj : forall j, i_id j <> i_id i -> i_stored s' j = i_stored s j).
  { intros j Hn. by apply Helse. }
  assert (Hfoot : forall j key, j ∈ items -> i_id j <> i_id i -> key ∈ footprint (goal_of j) ->
    broker s' !! key = broker s !! key).
  { intros j key Hj Hn Hin. apply Hout. intros Hin'. pose proof (t_disjoint _ _ Hok j i Hj Hi Hn).
    set_solver. }
  split; [split|].
  - intros j Hj. destruct (decide (i_id j = i_id i)) as [Heq|Hn].
    + apply (t_unique _ _ Hok) in Heq as ->; [|done..]. by exists o.
    + rewrite Hobj by done. by apply (inv_asking _ Hinv).
  - intros key Hn. rewrite Hout by by apply Hn. by apply (inv_broker _ Hinv).
  - intros j Hj. destruct (decide (i_id j = i_id i)) as [Heq|Hn].
    + apply (t_unique _ _ Hok) in Heq as ->; [|done..].
      destruct Hb as [->| ->]; [by apply (inv_goal _ Hinv)|left; apply met_achieve].
    + destruct (inv_goal _ Hinv j Hj) as [Hm|Hs]; [left|right].
      * by apply (met_agree _ (broker s)); eauto.
      * intros key Hin. rewrite (Hfoot j) by done. auto.
  - intros k req Hn. rewrite Helse by (apply not_eq_sym; by apply Hn). by apply (inv_objects _ Hinv).
  - intros j Hj Hn [Hm (m & t & o' & Ho' & Hrest)]. split; [by apply (met_agree _ (broker s)); eauto|].
    exists m, t, o'. by rewrite Hobj.
Qed.

(** A reconciliation of an item: it returns, keeps what was reached, and settles
    the item if the broker is willing. *)
Lemma visit i s :
  inv s -> i ∈ items ->
  exists res s', yields h (Reconcile (i_kind i) r (i_req i)) s res s' /\ inv s' /\
    (forall j, j ∈ items -> settled j s -> settled j s') /\
    (willing (broker s) (call_of i) -> settled i s').
Proof.
  intros Hinv Hi. pose proof (t_server _ _ Hok i Hi) as Hserver.
  destruct (inv_asking _ Hinv i Hi) as (o & Ho & Hask). pose proof Hask as (Hlive & Hreach & Hw).
  destruct (reconcile_live (i_kind i) r (i_req i) h reads objects broker willing Hserver
    s o (call_of i) (goal_of i) Ho Hlive Hreach Hw)
    as (m & t & err & s' & Hrun & Helse & Hin & Hrest & _ & Hwill & Hend).
  pose proof (asking_meta i m o Hrest Hask) as Hask1.
  assert (Hstep : forall o', i_stored s' i = Some o' -> asking i o' ->
    broker s' = broker s \/ broker s' = achieve (goal_of i) (broker s) ->
    (settled i s -> settled i s') ->
    inv s' /\ forall j, j ∈ items -> settled j s -> settled j s').
  { intros o' Ho' Hask' Hb Hself. destruct (inv_step i s s' o' Hinv Hi Ho' Hask' Helse Hb) as [Hinv' Hsett].
    split; [done|]. intros j Hj Hset. destruct (decide (i_id j = i_id i)) as [Heq|Hn]; [|by apply Hsett].
    apply (t_unique _ _ Hok) in Heq as ->; [|done..]. by apply Hself. }
  exists (emptyResult, err), s'. split; [done|]. destruct err as [e|].
  - destruct Hend as [Ho' Hb].
    destruct (Hstep _ Ho') as [Hinv' Hsett]; [|by left| |].
    + eapply asking_variant; [|exact Hask1]. apply variant_conditions.
    + intros [Hm _]. discriminate Hwill. eapply willing_met; eauto.
    + split_and!; [done|done|]. intros Hwl. by specialize (Hwill Hwl).
  - destruct Hend as (Ho' & Hb & _).
    assert (Hset : settled i s').
    { split; [rewrite Hb; apply met_achieve|]. exists m, t, o. split_and!; try done.
      rewrite <- Hlive. by injection Hrest. }
    destruct (Hstep _ Ho') as [Hinv' Hsett]; [|by right|done|].
    + eapply asking_variant; [|exact Hask1]. etrans; [apply variant_conditions|apply variant_generation].
    + by split_and!.
Qed.

(** ** Rounds *)

Lemma visits_app s l1 s1 l2 s2 : visits s l1 s1 -> visits s1 l2 s2 -> visits s (l1 ++ l2) s2.
Proof. induction 1; simpl; [done|]. intros Hv. econstructor; eauto. Qed.

Lemma visit_all l s :
  inv s -> l ⊆ items ->
  exists s', visits s l s' /\ inv s' /\ (forall j, j ∈ items -> settled j s -> settled j s') /\
    forall i, i ∈ l -> (forall j, j ∈ items -> rank j < rank i -> settled j s) -> settled i s'.
Proof.
  revert s. induction l as [|i l IH]; intros s Hinv Hl.
  { exists s. split_and!; [constructor|done|done|]. intros i Hi. by apply not_elem_of_nil in Hi. }
  assert (Hi : i ∈ items) by (apply Hl; left).
  destruct (visit i s Hinv Hi) as (res & s1 & Hrun & Hinv1 & Hkeep & Hset).
  destruct (IH s1 Hinv1) as (s2 & Hrest & Hinv2 & Hkeep2 & Hset2); [set_solver|].
  exists s2. split_and!; [by econstructor|done|eauto|].
  intros j [->|Hj]%elem_of_cons Hlow; [|apply Hset2; eauto].
  apply Hkeep2; [done|]. apply Hset. by apply inv_willing.
Qed.

(** Every item once at least, in some order. *)
Definition round (l : list item) : Prop := l ⊆ items /\ items ⊆ l.

Lemma visit_rounds rounds n s :
  inv s -> Forall round rounds -> (forall j, j ∈ items -> rank j < n -> settled j s) ->
  exists s', visits s (concat rounds) s' /\ inv s' /\
    forall j, j ∈ items -> rank j < n + length rounds -> settled j s'.
Proof.
  revert n s. induction rounds as [|l rounds IH]; intros n s Hinv Hrounds Hlow; simpl.
  { exists s. split_and!; [constructor|done|]. intros j Hj Hr. apply Hlow; [done|lia]. }
  apply Forall_cons in Hrounds as [[Hl Hall] Hrounds].
  destruct (visit_all l s Hinv Hl) as (s1 & Hv1 & Hinv1 & Hkeep & Hset).
  destruct (IH (Datatypes.S n) s1 Hinv1 Hrounds) as (s2 & Hv2 & Hinv2 & Hset2).
  { intros j Hj Hr. apply Hset; [by apply Hall|]. intros i Hi Hlt. apply Hlow; [done|lia]. }
  exists s2. split_and!; [by eapply visits_app|done|]. intros j Hj Hr. apply Hset2; [done|lia].
Qed.

(** A settled topology does not change. *)
Lemma visits_settled s l s' :
  (forall i, i ∈ items -> settled i s) -> l ⊆ items -> visits s l s' ->
  same_objects objects s s' /\ broker s' = broker s.
Proof.
  intros Hset Hl Hv. revert Hset Hl. induction Hv as [s|s i x s1 l s2 Hrun Hv IH]; intros Hset Hl; [done|].
  assert (Hi : i ∈ items) by (apply Hl; left).
  destruct (Hset i Hi) as (Hm & m & t & o & Ho & (Hlive & Hreach & Hw) & Hd & Hrest & Hfin).
  destruct (reconcile_again (i_kind i) r (i_req i) h reads objects broker willing (t_server _ _ Hok i Hi)
    m t o _ _ s Ho Hd Hrest Hfin Hreach Hw Hm) as (s1' & Hrun' & Hobj & Hb).
  assert (s1' = s1) as ->.
  { destruct Hrun as [tr1 Hrun], Hrun' as [tr2 Hrun']. rewrite Hrun in Hrun'. by injection Hrun'. }
  destruct IH as [Hobj2 Hb2]; [|set_solver|].
  - intros j Hj. destruct (Hset j Hj) as [Hmj (mj & tj & oj & Hoj & Hrestj)].
    split; [by rewrite Hb|]. exists mj, tj, oj. split; [|done]. unfold i_stored. by rewrite Hobj.
  - split; [by etrans|congruence].
Qed.
End topology.

Section theorem.
Context `{LibsOk} `{BrokerLib} (r : ReconcilerConfig).
Context {S : Type} (h : handler result S) (reads : forall a, result a).
Context (objects : S -> forall k, NamespacedName -> option (object k)) (broker : S -> broker_state).
Context (willing : broker_state -> rmq_call -> Prop).

(** C8: Against the server, broker and clock of C6: live objects of different
    names, whose clusters stay reachable and whose goals share no name on the
    broker and contradict nothing that is there, that need one another (queues and
    exchanges their virtual host, bindings what they connect, permissions their
    user) without cycles, and that the broker accepts once what they need is
    there, are declared by reconciling them in rounds, in any order within a
    round, as many rounds as the longest chain of needs: then the broker meets the
    goals of all, every object has its finalizer, the Ready condition and its
    observed generation, no other name and no other object has changed, and
    further reconciliations, whatever the time, change nothing. *)
Theorem topology_converges items call_of goal_of rank s rounds :
  TopologyOk r h reads objects broker willing items call_of goal_of rank s ->
  Forall (round items) rounds -> (forall i, i ∈ items -> rank i < length rounds) ->
  exists s', visits r h s (concat rounds) s' /\
    (forall i, i ∈ items -> met (goal_of i) (broker s') /\
       exists o, i_stored objects s' i = Some o /\
         finalizerOf (i_kind i) o ∈ Finalizers (meta (i_kind i) o) /\
         status_ObservedGeneration o = Generation (meta (i_kind i) o) /\
         exists t, ConditionOps.findCondition ready (status_Conditions o) = Some (declared_condition t)) /\
    (forall key, (forall i, i ∈ items -> key ∉ footprint (goal_of i)) ->
       broker s' !! key = broker s !! key) /\
    (forall k req, (forall i, i ∈ items -> i_id i <> (k, req)) -> objects s' k req = objects s k req) /\
    forall l s'', l ⊆ items -> visits r h s' l s'' ->
      same_objects objects s' s'' /\ broker s'' = broker s'.
Proof.
  intros Hok Hrounds Hrank.
  destruct (visit_rounds r h reads objects broker willing items call_of goal_of rank s Hok rounds 0 s)
    as (s' & Hv & Hinv & Hset); [by eapply inv_start|done|lia|].
  assert (Hall : forall i, i ∈ items -> settled r reads objects broker call_of goal_of i s')
    by (intros i Hi; apply Hset; [done|]; by apply Hrank).
  exists s'. split_and!; [done| |apply (inv_broker _ _ _ _ _ _ _ _ _ Hinv)
    |apply (inv_objects _ _ _ _ _ _ _ _ _ Hinv)|].
  - intros i Hi. destruct (Hall i Hi) as (Hm & m & t & o & Ho & _ & _ & _ & Hfin). split; [done|].
    exists (declared (i_kind i) m t o). split; [done|].
    destruct (declared_facts (i_kind i) m t o) as (-> & _ & -> & -> & Hready & _). eauto.
  - intros l s'' Hl Hv'. by eapply visits_settled.
Qed.
End theorem.
