(* ===== verification/Teardown.v ===== *)
(** * The end of a topology

    All objects of a topology are deleted at once, and their reconciliations come in
    any order: what an object put may be gone with what contained it.  One
    reconciliation of each takes them all away, on the broker too. *)

From S2P Require Import Prelude.
From S2P Require Import GoErrors.
From S2P Require Import Prog.
From S2P Require Import Api.
From S2P Require Import World.
From S2P Require Import Resources.
From S2P Require Import Utils.
From S2P Require Import TopologyReconciler.
From S2P Require Import Controllers.
From S2P Require Import Broker.
From S2P Require Import Lifecycle.
From S2P Require Import LifecycleKinds.
From S2P Require Import Topology.

Section teardown.
Context `{LibsOk} `{BrokerLib} (r : ReconcilerConfig).
Context {S : Type} (h : handler result S) (reads : forall a, result a).
Context (objects : S -> forall k, NamespacedName -> option (object k)) (broker : S -> broker_state).
Context (willing : broker_state -> rmq_call -> Prop).
Context (items : list item) (object_of : forall i : item, object (i_kind i)).
Notation i_stored := (i_stored objects).

(** The deletion of [i] clears [key]. *)
Definition clears (i : item) (key : bkey) : Prop :=
  on_retained (object_of i) = false /\ covers (on_key (object_of i)) key = true.

(** What a broker may hold after some of the deletions: what it held, but for names
    that they clear. *)
Definition cleared_from (b b' : broker_state) : Prop :=
  b' ⊆ b /\ forall key, (forall i, i ∈ items -> ~ clears i key) -> b' !! key = b !! key.

(** The objects are marked for deletion and carry only the operator's finalizer;
    whichever of them are gone, the others can be deleted. *)
Record TeardownOk (s0 : S) : Prop := {
  d_server i : i ∈ items -> ServerOk (i_kind i) (i_req i) h reads objects broker willing;
  d_stored i : i ∈ items -> i_stored s0 i = Some (object_of i);
  d_unique i j : i ∈ items -> j ∈ items -> i_id i = i_id j -> i = j;
  d_deleted i : i ∈ items -> is_Some (DeletionTimestamp (meta (i_kind i) (object_of i)));
  d_finalizer i :
    i ∈ items -> Finalizers (meta (i_kind i) (object_of i)) = [finalizerOf (i_kind i) (object_of i)];
  d_reachable i : i ∈ items -> reachable (i_kind i) r reads (object_of i);
  d_unguarded i b : i ∈ items -> cleared_from (broker s0) b -> on_unguarded b (object_of i)
}.

Definition gone (i : item) (s : S) : Prop :=
  i_stored s i = None /\ forall key, clears i key -> broker s !! key = None.

Context (s0 : S) (Hok : TeardownOk s0).

Record left_over (s : S) : Prop := {
  left_items i : i ∈ items -> i_stored s i = Some (object_of i) \/ gone i s;
  left_broker : cleared_from (broker s0) (broker s);
  left_objects k req : (forall i, i ∈ items -> i_id i <> (k, req)) -> objects s k req = objects s0 k req
}.

(** A reconciliation of an object that does not exist any more. *)
Lemma reconcile_gone k req `{!TopologyResource k} `{!ReconcileFunc k} s :
  ServerOk k req h reads objects broker willing -> objects s k req = None ->
  yields h (Reconcile k r req) s (emptyResult, None) s.
Proof.
  intros Hserver Hn. destruct (server_gone _ _ _ _ _ _ _ Hserver s Hn) as (e & Hget & He).
  eapply yields_bind; [exact (yields_act h _ _ _ _ Hget)|]. cbv iota. rewrite He. apply yields_ret.
Qed.

Lemma teardown_visit i s :
  left_over s -> i ∈ items ->
  exists s', yields h (Reconcile (i_kind i) r (i_req i)) s (emptyResult, None) s' /\ left_over s' /\
    gone i s' /\ forall j, j ∈ items -> gone j s -> gone j s'.
Proof.
  intros Hs Hi. pose proof (d_server _ Hok i Hi) as Hserver.
  destruct (left_items _ Hs i Hi) as [Ho|Hg].
  2:{ exists s. split_and!; [by apply reconcile_gone; [|apply Hg]|done|done|done]. }
  destruct (reconcile_deleted (i_kind i) r (i_req i) h reads objects broker willing Hserver s (object_of i)
    Ho (d_deleted _ Hok i Hi) (d_finalizer _ Hok i Hi) (d_reachable _ Hok i Hi)
    (d_unguarded _ Hok i _ Hi (left_broker _ Hs)))
    as (s' & Hrun & Hnone & Helse & Hb).
  assert (Hlookup : forall key, broker s' !! key = broker s !! key /\ ~ clears i key \/
    broker s' !! key = None /\ clears i key).
  { intros key. unfold clears. rewrite Hb. destruct (on_retained (object_of i)); [by left; naive_solver|].
    rewrite lookup_wipe. destruct (covers _ key); [by right|left; naive_solver]. }
  assert (Hsub : broker s' ⊆ broker s).
  { apply map_subseteq_spec. intros key x Hx. destruct (Hlookup key) as [[<- _]|[Hn _]]; congruence. }
  assert (Hgone : gone i s').
  { split; [done|]. intros key Hk. by destruct (Hlookup key) as [[_ ?]|[? _]]. }
  assert (Hkeep : forall j, j ∈ items -> gone j s -> gone j s').
  { intros j Hj [Hjo Hjk]. destruct (decide (i_id j = i_id i)) as [Heq|Hn].
    - by apply (d_unique _ Hok) in Heq as ->.
    - split; [unfold Topology.i_stored; by rewrite Helse|]. intros key Hk.
      destruct (Hlookup key) as [[-> _]|[-> _]]; auto. }
  exists s'. split_and!; [done| |done|done]. split.
  - intros j Hj. destruct (decide (i_id j = i_id i)) as [Heq|Hn].
    { right. by apply (d_unique _ Hok) in Heq as ->. }
    destruct (left_items _ Hs j Hj) as [Hjo|Hg]; [left|right; by apply Hkeep].
    unfold Topology.i_stored. by rewrite Helse.
  - split; [by etrans; [|apply (left_broker _ Hs)]|]. intros key Hn.
    destruct (Hlookup key) as [[-> _]|[_ Hc]]; [by apply (left_broker _ Hs)|by destruct (Hn i Hi)].
  - intros k req Hn. rewrite Helse by (apply not_eq_sym; by apply Hn). by apply (left_objects _ Hs).
Qed.

Lemma teardown_visits l s :
  left_over s -> l ⊆ items ->
  exists s', visits r h s l s' /\ left_over s' /\ (forall j, j ∈ items -> gone j s -> gone j s') /\
    forall i, i ∈ l -> gone i s'.
Proof.
  revert s. induction l as [|i l IH]; intros s Hs Hl.
  { exists s. split_and!; [constructor|done|done|]. intros i Hi. by apply not_elem_of_nil in Hi. }
  assert (Hi : i ∈ items) by (apply Hl; left).
  destruct (teardown_visit i s Hs Hi) as (s1 & Hrun & Hs1 & Hgone & Hkeep).
  destruct (IH s1 Hs1) as (s2 & Hv & Hs2 & Hkeep2 & Hgone2); [set_solver|].
  exists s2. split_and!; [by econstructor|done|eauto|].
  intros j [->|Hj]%elem_of_cons; eauto.
Qed.

(** Nothing happens to objects that are gone. *)
Lemma gone_stays l s s' :
  (forall i, i ∈ items -> i_stored s i = None) -> l ⊆ items -> visits r h s l s' -> s' = s.
Proof.
  intros Hgone Hl Hv. revert Hgone Hl. induction Hv as [s|s i x s1 l s2 Hrun Hv IH]; intros Hgone Hl; [done|].
  assert (Hi : i ∈ items) by (apply Hl; left).
  assert (s1 = s) as ->.
  { destruct (reconcile_gone (i_kind i) (i_req i) s (d_server _ Hok i Hi) (Hgone i Hi)) as [tr1 Hrun1].
    destruct Hrun as [tr2 Hrun2]. rewrite Hrun1 in Hrun2. by injection Hrun2. }
  apply IH; [done|set_solver].
Qed.
End teardown.

Section theorem.
Context `{LibsOk} `{BrokerLib} (r : ReconcilerConfig).
Context {S : Type} (h : handler result S) (reads : forall a, result a).
Context (objects : S -> forall k, NamespacedName -> option (object k)) (broker : S -> broker_state).
Context (willing : broker_state -> rmq_call -> Prop).

End theorem.

(** ** A binding whose virtual host went first

    A binding with arguments is looked up before it is deleted.  When its virtual
    host is gone the broker answers the lookup with an error (status 404), which
    DeleteFunc returns: the finalizer stays, and with it the object, in every
    reconciliation.  A binding without arguments is deleted. *)
Section orphan.
Context `{LibsOk} `{BrokerLib} (r : ReconcilerConfig) (req : NamespacedName).
Context {S : Type} (h : handler result S) (reads : forall a, result a).
Context (objects : S -> forall k, NamespacedName -> option (object k)) (broker : S -> broker_state).
Context (willing : broker_state -> rmq_call -> Prop).
Context (Hserver : ServerOk KBinding req h reads objects broker willing).

Lemma orphaned_binding_stays `{!BrokerLibOk} s (b : Binding) raw args e :
  objects s KBinding req = Some b -> is_Some (DeletionTimestamp (meta KBinding b)) ->
  reachable KBinding r reads b ->
  Binding_Arguments (Spec b) = Some raw -> json_Unmarshal (raw_bytes raw) = inr args ->
  (forall c v src dst, h (Rmq c (ListQueueBindingsBetween v src dst)) s = (inl e, s)) ->
  (forall c v src dst, h (Rmq c (ListExchangeBindingsBetween v src dst)) s = (inl e, s)) ->
  yields h (Reconcile KBinding r req) s (emptyResult, Some (ErrRmq e)) s.
Proof.
  intros Ho [t Ht] Hreach Hraw Hjson Hq Hx.
  destruct (reconcile_prefix KBinding r req h reads objects broker willing Hserver s b Ho Hreach) as [c Hpre].
  apply Hpre. rewrite Ht. unfold reconcileDelete.
  eapply (yields_bind _ _ _ s (Some (ErrRmq e), b) s).
  - simpl. unfold Binding_DeleteFunc. rewrite Hraw.
    eapply (yields_bind _ _ _ s (inl (ErrRmq e)) s); [|apply yields_ret].
    unfold findBindingInfo. rewrite Hraw, Hjson. cbv zeta.
    eapply (yields_bind _ _ _ s (inl e) s); [|apply yields_ret].
    case_bool_decide; [exact (yields_act h _ _ _ _ (Hq _ _ _ _))|exact (yields_act h _ _ _ _ (Hx _ _ _ _))].
  - cbv iota. eapply yields_bind; [by eapply event_yields|]. apply yields_ret.
Qed.
End orphan.
