(* ===== verification/Bounds.v ===== *)
(** * Every reconciliation ends after a bounded number of calls

    The bound is on the calls of one run: to the API server, the broker, the
    secret store, the event recorder, the clock and the random source. The only
    loops around calls are those over the builders of a super stream and the
    retries after conflicts. *)

From S2P Require Import Prelude.
From S2P Require Import GoStrings.
From S2P Require Import GoErrors.
From S2P Require Import Prog.
From S2P Require Import Api.
From S2P Require Import Values.
From S2P Require Import World.
From S2P Require Import Resources.
From S2P Require Import Settings.
From S2P Require Import Random.
From S2P Require Import ParseReference.
From S2P Require Import Utils.
From S2P Require Import TopologyReconciler.
From S2P Require Import Controllers.
From S2P Require Import PermissionControllers.
From S2P Require Import UserController.
From S2P Require Import SuperStreams.
From S2P Require Import SuperStreamProofs.

(** ** Programs with a budget *)

Definition calls_le {A} (n : nat) (p : go A) : Prop := wp p (fun tr _ => length tr <= n).

Lemma calls_ret {A} n (x : A) : calls_le n (Ret x).
Proof. apply Nat.le_0_l. Qed.

Lemma calls_panic {A} n w : calls_le n (Panic w : go A).
Proof. apply Nat.le_0_l. Qed.

Lemma calls_act n a : 1 <= n -> calls_le n (act a).
Proof. by intros Hn x. Qed.

Lemma calls_mono {A} m n (p : go A) : calls_le m p -> m <= n -> calls_le n p.
Proof. intros Hp Hle. eapply wp_mono; [exact Hp|]. simpl. lia. Qed.

(** What the first part spends is gone for the rest. *)
Lemma calls_bind {A B} m n (p : go A) (f : A -> go B) :
  calls_le m p -> m <= n -> (forall x, calls_le (n - m) (f x)) -> calls_le n (bind p f).
Proof.
  intros Hp Hle Hf. eapply wp_cut; [exact Hp|..].
  - simpl. intros tr x Htr. eapply wp_mono; [apply Hf|]. simpl. intros tr' _. rewrite length_app. lia.
  - simpl. lia.
Qed.

Lemma calls_then {A B} m n (p : go A) (f : A -> go B) :
  calls_le m p -> (forall x, calls_le n (f x)) -> calls_le (m + n) (bind p f).
Proof.
  intros Hp Hf. apply (calls_bind m); [done|lia|]. intros x. by replace (m + n - m) with n by lia.
Qed.

Lemma calls_assoc {A B C} n (p : go A) (f : A -> go B) (g : B -> go C) :
  calls_le n (bind p (fun x => bind (f x) g)) -> calls_le n (bind (bind p f) g).
Proof.
  unfold calls_le. rewrite !wp_bind. intros Hp. eapply wp_mono; [exact Hp|]. simpl.
  intros tr [x|w]; [|done]. rewrite wp_bind. intros Hf. eapply wp_mono; [exact Hf|]. simpl.
  intros tr' [y|w]; [|done]. intros Hg. eapply wp_mono; [exact Hg|]. simpl.
  intros tr2 _. by rewrite app_assoc.
Qed.

Lemma calls_retry `{LibsOk} {S} m (fn : S -> go (option error * S)) s :
  (forall s, calls_le m (fn s)) -> calls_le (DefaultRetry_Steps * m) (RetryOnConflict fn s).
Proof.
  intros Hfn. apply wp_exec. intros tr o Hx%RetryOnConflict_spec.
  induction Hx as [n s tr o Hx|n s tr e s1 tr' o Hx _ _ IH].
  - pose proof (proj1 (wp_exec _ _) (Hfn s) _ _ Hx). simpl in *. lia.
  - pose proof (proj1 (wp_exec _ _) (Hfn s) _ _ Hx). rewrite length_app. simpl in *. lia.
Qed.

Create HintDb calls discriminated.
#[export] Hint Resolve calls_ret calls_panic : calls.

(** Walks along a program and spends one call after the other; the budget is a
    numeral, tests are split, and calls of functions are looked up. *)
Ltac spend_step :=
  cbv zeta;
  lazymatch goal with
  | |- calls_le _ (Ret _) => apply calls_ret
  | |- calls_le _ (Panic _) => apply calls_panic
  | |- calls_le ?n (act ?a) => refine (calls_act n a _); lia
  | |- calls_le _ (bind (Ret _) _) => cbn [bind]
  | |- calls_le _ (bind (Panic _) _) => cbn [bind]
  | |- calls_le _ (bind (bind _ _) _) => apply calls_assoc
  | |- calls_le _ (bind (act ?a) _) =>
      apply (calls_bind 1); [exact (calls_act 1 a (le_n 1))|lia|];
      let x := fresh "x" in intros x; cbn [result rmq_result Nat.sub] in x |- *
  | |- calls_le _ (bind (RetryOnConflict _ _) _) =>
      apply (calls_bind 5); [apply (calls_retry 1); intros ?|lia|];
      [|let x := fresh "x" in intros x; cbn [Nat.sub] in x |- *]
  | |- calls_le _ (bind (match ?x with _ => _ end) _) => destruct x eqn:?
  | |- calls_le _ (bind _ _) =>
      eapply calls_bind; [solve [eauto with calls]|lia|];
      let x := fresh "x" in intros x; cbn [Nat.sub] in x |- *
  | |- calls_le _ (match ?x with _ => _ end) => destruct x eqn:?
  | |- calls_le _ _ => eapply calls_mono; [solve [eauto with calls]|lia]
  end.
Ltac spend := repeat spend_step.

Section functions.
Context `{LibsOk}.

Lemma ParseReference_calls rmq ns dom http : calls_le 4 (ParseReference rmq ns dom http).
Proof.
  unfold ParseReference, defaultUserCredentials, kubernetesSecretCredentials, clusterAddress.
  spend.
Qed.

Lemma generateRabbitholeClient_calls creds tls pool :
  calls_le 1 (generateRabbitholeClient creds tls pool).
Proof. unfold generateRabbitholeClient. spend. Qed.

Lemma lastTransitionTime_calls t status cs :
  calls_le 1 (ConditionOps.lastTransitionTime t status cs).
Proof. unfold ConditionOps.lastTransitionTime. spend. Qed.

Lemma retryStatusUpdate_calls k (o : object k) : calls_le 5 (retryStatusUpdate k o).
Proof. unfold retryStatusUpdate. apply (calls_retry 1). intros s. spend. Qed.

Lemma removeFinalizer_bound k (o : object k) : calls_le 1 (removeFinalizer k o).
Proof. unfold removeFinalizer. spend. Qed.

Lemma addFinalizerIfNeeded_calls k (o : object k) : calls_le 1 (addFinalizerIfNeeded k o).
Proof. unfold addFinalizerIfNeeded. spend. Qed.
End functions.

#[export] Hint Resolve ParseReference_calls generateRabbitholeClient_calls lastTransitionTime_calls
  addFinalizerIfNeeded_calls : calls.
#[export] Hint Extern 1 (calls_le _ (retryStatusUpdate ?k ?o)) =>
  exact (retryStatusUpdate_calls k o) : calls.
#[export] Hint Extern 1 (calls_le _ (removeFinalizer ?k ?o)) =>
  exact (removeFinalizer_bound k o) : calls.

(** ** The functions of the kinds *)

(** At most [n] calls declare or delete an object of kind [k]. *)
Class ReconcileFuncBounded `{Libs} (k : kind) `{!ReconcileFunc k} (n : nat) := {
  declare_calls c (o : object k) : calls_le n (DeclareFunc c o);
  delete_calls c (o : object k) : calls_le n (DeleteFunc c o)
}.

Section kinds.
Context `{LibsOk}.

Ltac bounded := unfold declareCall, deleteCall in *; spend.

#[export] Instance Exchange_bounded : ReconcileFuncBounded KExchange 1.
Proof. split; simpl; intros; [unfold Exchange_DeclareFunc|unfold Exchange_DeleteFunc]; bounded. Qed.

#[export] Instance Queue_bounded : ReconcileFuncBounded KQueue 2.
Proof.
  split; simpl; intros; [unfold Queue_DeclareFunc|unfold Queue_DeleteFunc, quorumGuard]; bounded.
Qed.

#[export] Instance Binding_bounded : ReconcileFuncBounded KBinding 2.
Proof.
  split; simpl; intros; [unfold Binding_DeclareFunc|unfold Binding_DeleteFunc, findBindingInfo];
    bounded.
Qed.

#[export] Instance Policy_bounded : ReconcileFuncBounded KPolicy 1.
Proof.
  split; simpl; intros; [unfold Policy_DeclareFunc, GeneratePolicy|unfold Policy_DeleteFunc]; bounded.
Qed.

#[export] Instance OperatorPolicy_bounded : ReconcileFuncBounded KOperatorPolicy 1.
Proof.
  split; simpl; intros;
    [unfold OperatorPolicy_DeclareFunc, GenerateOperatorPolicy|unfold OperatorPolicy_DeleteFunc];
    bounded.
Qed.

#[export] Instance Federation_bounded : ReconcileFuncBounded KFederation 2.
Proof.
  split; simpl; intros;
    [unfold Federation_DeclareFunc, Federation_getUri, uriSecretError|unfold Federation_DeleteFunc];
    bounded.
Qed.

#[export] Instance Shovel_bounded : ReconcileFuncBounded KShovel 2.
Proof.
  split; simpl; intros;
    [unfold Shovel_DeclareFunc, Shovel_getUris, uriSecretError|unfold Shovel_DeleteFunc]; bounded.
Qed.

#[export] Instance SchemaReplication_bounded : ReconcileFuncBounded KSchemaReplication 3.
Proof.
  split; simpl; intros;
    [unfold SchemaReplication_DeclareFunc, getUpstreamEndpoints, upstreamSecret
    |unfold SchemaReplication_DeleteFunc]; bounded.
Qed.

#[export] Instance Vhost_bounded : ReconcileFuncBounded KVhost 4.
Proof.
  split; simpl; intros;
    [unfold Vhost_DeclareFunc, reconcileVhostLimits, getVhostLimits|unfold Vhost_DeleteFunc]; bounded.
Qed.

#[export] Instance Permission_bounded : ReconcileFuncBounded KPermission 3.
Proof.
  split; simpl; intros c o.
  - unfold Permission_DeclareFunc, permissionUser, getUsernameFromUser, ownedBy. bounded.
  - unfold Permission_DeleteFunc, permissionUser, getUsernameFromUser, revokePermissions. bounded.
Qed.

#[export] Instance TopicPermission_bounded : ReconcileFuncBounded KTopicPermission 3.
Proof.
  split; simpl; intros c o.
  - unfold TopicPermission_DeclareFunc, permissionUser, getUsernameFromUser, ownedBy. bounded.
  - unfold TopicPermission_DeleteFunc, permissionUser, getUsernameFromUser, clearTopicPermission.
    bounded.
Qed.

#[export] Instance User_bounded : ReconcileFuncBounded KUser 16.
Proof.
  split; simpl; intros; [|unfold User_DeleteFunc; bounded].
  unfold User_DeclareFunc, declareWithImportedCredentials, declareWithGeneratedCredentials,
    importCredentials, declareCredentials, generateCredentials, getUserCredentials, setUserStatus,
    putUser, reconcileUserLimits, getUserLimits, GenerateUserSettings, ConditionOps.PasswordSynced,
    RandomEncodedString.
  bounded.
Qed.
End kinds.

(** ** The reconciler *)

Section reconciler.
Context `{LibsOk} (k : kind) `{!TopologyResource k} `{!ReconcileFunc k} (n : nat)
  `{!ReconcileFuncBounded k n} (r : ReconcilerConfig).

Lemma reportNotReady_calls msg (o : object k) : calls_le 6 (reportNotReady k msg o).
Proof. unfold reportNotReady, ConditionOps.NotReady, statusUpdate. spend. Qed.
#[local] Hint Resolve reportNotReady_calls : calls.

Lemma reference_error_bound (o : object k) e :
  calls_le 7 (Reconciler_handleRMQReferenceParseError k o e).
Proof. unfold Reconciler_handleRMQReferenceParseError. spend. Qed.

Lemma reconcileDelete_calls c (o : object k) : calls_le (n + 2) (reconcileDelete k c o).
Proof. unfold reconcileDelete. apply calls_then; [apply delete_calls|]. intros x. spend. Qed.

Lemma reconcileDeclare_calls c (o : object k) : calls_le (1 + (n + 7)) (reconcileDeclare k c o).
Proof.
  unfold reconcileDeclare. apply calls_then; [auto with calls|]. intros [[e|] o'].
  { apply calls_ret. }
  apply calls_then; [apply declare_calls|]. unfold statusUpdate, ConditionOps.Ready. intros x. spend.
Qed.

Lemma extractSystemCertPool_calls (o : object k) : calls_le 2 (extractSystemCertPool k o).
Proof.
  unfold extractSystemCertPool. spend.
Qed.

Lemma reconcileObject_calls (o : object k) :
  calls_le (2 + (4 + (1 + (1 + (n + 7))))) (reconcileObject k r o).
Proof.
  unfold reconcileObject. apply calls_then; [apply extractSystemCertPool_calls|].
  intros [e|pool]; [apply calls_ret|]. apply calls_then; [auto with calls|].
  intros [e|[creds tls]].
  { apply (calls_mono 7); [apply reference_error_bound|lia]. }
  apply calls_then; [auto with calls|]. intros [e|c]; [apply calls_ret|].
  destruct (DeletionTimestamp (meta k o)).
  - eapply calls_mono; [apply reconcileDelete_calls|lia].
  - apply reconcileDeclare_calls.
Qed.

Lemma Reconcile_calls req : calls_le (n + 16) (Reconcile k r req).
Proof.
  apply (calls_mono (1 + (2 + (4 + (1 + (1 + (n + 7))))))); [|lia]. unfold Reconcile.
  apply calls_then; [by apply (calls_act 1)|]. intros [e|o]; [apply calls_ret|].
  apply reconcileObject_calls.
Qed.
End reconciler.

(** ** Super streams *)

Section streams.
Context `{LibsOk}.

Lemma applyBuilders_calls builders names :
  calls_le (5 * length builders) (applyBuilders builders names).
Proof.
  revert names. induction builders as [|b builders IH]; intros names; [apply calls_ret|].
  cbn [applyBuilders]. replace (5 * length (b :: builders)) with (5 + 5 * length builders)
    by (simpl; lia).
  apply calls_then.
  - apply (calls_retry 1). intros o. spend.
  - intros [[e|] o]; [apply calls_ret|apply IH].
Qed.

Lemma reportStreamNotReady_calls (s : SuperStream) msg : calls_le 6 (reportStreamNotReady s msg).
Proof. unfold reportStreamNotReady, ConditionOps.NotReady, SetReconcileSuccess. spend. Qed.
#[local] Hint Resolve reportStreamNotReady_calls : calls.

(** The number of partitions bounds the number of builders. *)
Lemma builders_length (s : SuperStream) keys vhost ref :
  superStreamRoutingKeys s = inr keys ->
  length (superStreamBuilders s keys vhost ref) =
    1 + 2 * Z.to_nat (SuperStream_Partitions (Spec s)).
Proof. intros [<- _]%superStreamRoutingKeys_spec. apply superStreamBuilders_length. Qed.

Lemma reconcileStream_calls (s : SuperStream) :
  calls_le (1 + (5 * (1 + 2 * Z.to_nat (SuperStream_Partitions (Spec s))) + 11)) (reconcileStream s).
Proof.
  unfold reconcileStream. apply calls_then.
  { unfold getRabbitmqClusterReference. spend. }
  intros [e|ref].
  { eapply (calls_mono 6); [|lia].
    unfold handleRMQReferenceParseError, ConditionOps.NotReady. spend. }
  cbv zeta. destruct (Z.ltb _ _).
  { eapply (calls_mono 7); [spend|lia]. }
  destruct (superStreamRoutingKeys s) as [e|keys] eqn:Hkeys.
  { eapply (calls_mono 6); [spend|lia]. }
  apply calls_then.
  { rewrite <- (builders_length s keys (SuperStream_Vhost (Spec s)) ref Hkeys).
    apply applyBuilders_calls. }
  unfold ConditionOps.Ready, SetReconcileSuccess. intros [[type e]|names]; spend.
Qed.
End streams.

(** C13: Against any environment a reconciliation ends: it makes at most 16 calls
    more than DeclareFunc and DeleteFunc of its kind (at most 16 for a user), and
    that of a super stream at most 18 plus 10 for each partition. *)
Theorem reconciliations_end `{LibsOk} :
  (forall k `{!TopologyResource k} `{!ReconcileFunc k} n `{!ReconcileFuncBounded k n} r req
     (St : Type) (env : handler result St) s,
     let '(calls, _, _) := run env (Reconcile k r req) s in length calls <= n + 16) /\
  (forall req (St : Type) (env : handler result St) s partitions,
     (forall s' stream, (env (CGet KSuperStream req) s').1 = inr stream ->
        Z.to_nat (SuperStream_Partitions (Spec stream)) <= partitions) ->
     let '(calls, _, _) := run env (SuperStream_Reconcile req) s in
     length calls <= 10 * partitions + 18).
Proof.
  split.
  - intros. apply (wp_run env (Reconcile k r req) s), Reconcile_calls, _.
  - intros req St env s partitions Hp. unfold SuperStream_Reconcile. cbn [bind act run].
    cbn [result object] in *.
    destruct (env (CGet KSuperStream req) s) as [[e|stream] s1] eqn:E; [simpl; lia|].
    pose proof (wp_run env (reconcileStream stream) s1 _ (reconcileStream_calls stream)) as Hrun.
    specialize (Hp s stream (f_equal fst E)).
    destruct (run env (reconcileStream stream) s1) as [[calls out] s2]. cbn [length]. lia.
Qed.
