(* ===== verification/Memory.v ===== *)
(** * Values with pointers

    The generated deep copies are about sharing, so here a value of a Go struct
    keeps its pointers: a heap maps locations to cells, a pointer leads to a cell
    with one value and a slice to a cell with its elements.  [rep h v t L] says
    that in heap [h] the value [v] unfolds to the tree [t] and reaches exactly the
    locations [L]; a copy is a value with the same tree that reaches fresh
    locations only. *)

From S2P Require Import Prelude.

Notation loc := positive.

Inductive val :=
| VBasic (b : string)
| VStruct (fields : list (string * val))
| VRef (l : option loc).

Notation heap := (gmap loc (list val)).

(** A value without its locations. *)
Inductive tree :=
| LBasic (b : string)
| LStruct (fields : list (string * tree))
| LNil
| LCell (elems : list tree).

Inductive rep (h : heap) : val -> tree -> gset loc -> Prop :=
| rep_basic b : rep h (VBasic b) (LBasic b) ∅
| rep_struct vs ts L : rep_fields h vs ts L -> rep h (VStruct vs) (LStruct ts) L
| rep_nil : rep h (VRef None) LNil ∅
| rep_cell l vs ts L :
    h !! l = Some vs -> rep_all h vs ts L -> rep h (VRef (Some l)) (LCell ts) ({[l]} ∪ L)
with rep_all (h : heap) : list val -> list tree -> gset loc -> Prop :=
| rep_all_nil : rep_all h [] [] ∅
| rep_all_cons v t L vs ts L' :
    rep h v t L -> rep_all h vs ts L' -> rep_all h (v :: vs) (t :: ts) (L ∪ L')
with rep_fields (h : heap) : list (string * val) -> list (string * tree) -> gset loc -> Prop :=
| rep_fields_nil : rep_fields h [] [] ∅
| rep_fields_cons n v t L vs ts L' :
    rep h v t L -> rep_fields h vs ts L' -> rep_fields h ((n, v) :: vs) ((n, t) :: ts) (L ∪ L').

Scheme rep_mut := Minimality for rep Sort Prop
  with rep_all_mut := Minimality for rep_all Sort Prop
  with rep_fields_mut := Minimality for rep_fields Sort Prop.
Combined Scheme rep_mutind from rep_mut, rep_all_mut, rep_fields_mut.

(** The tree depends on the reached cells only. *)
Lemma rep_agree h h' :
  (forall v t L, rep h v t L -> (forall l, l ∈ L -> h' !! l = h !! l) -> rep h' v t L) /\
  (forall vs ts L, rep_all h vs ts L -> (forall l, l ∈ L -> h' !! l = h !! l) -> rep_all h' vs ts L) /\
  (forall vs ts L, rep_fields h vs ts L -> (forall l, l ∈ L -> h' !! l = h !! l) ->
     rep_fields h' vs ts L).
Proof.
  apply rep_mutind.
  - intros b _. apply rep_basic.
  - intros vs ts L _ IH Hl. apply rep_struct. auto.
  - intros _. apply rep_nil.
  - intros l vs ts L Hc _ IH Hl. apply (rep_cell h' l vs); [rewrite Hl; [done|set_solver]|].
    apply IH. set_solver.
  - intros _. apply rep_all_nil.
  - intros v t L vs ts L' _ IH1 _ IH2 Hl. apply rep_all_cons; [apply IH1|apply IH2]; set_solver.
  - intros _. apply rep_fields_nil.
  - intros n v t L vs ts L' _ IH1 _ IH2 Hl. apply rep_fields_cons; [apply IH1|apply IH2]; set_solver.
Qed.

Lemma rep_dom h :
  (forall v t L, rep h v t L -> L ⊆ dom h) /\
  (forall vs ts L, rep_all h vs ts L -> L ⊆ dom h) /\
  (forall vs ts L, rep_fields h vs ts L -> L ⊆ dom h).
Proof.
  apply rep_mutind; intros; try set_solver.
  apply union_subseteq. split; [|done]. apply singleton_subseteq_l, elem_of_dom. eauto.
Qed.

Lemma rep_mono h h' :
  h ⊆ h' ->
  (forall v t L, rep h v t L -> rep h' v t L) /\
  (forall vs ts L, rep_all h vs ts L -> rep_all h' vs ts L) /\
  (forall vs ts L, rep_fields h vs ts L -> rep_fields h' vs ts L).
Proof.
  intros Hsub.
  assert (Hag : forall l, l ∈ dom h -> h' !! l = h !! l).
  { intros l [x Hx]%elem_of_dom. rewrite Hx. by eapply lookup_weaken. }
  destruct (rep_agree h h') as (H1 & H2 & H3). destruct (rep_dom h) as (D1 & D2 & D3).
  split_and!; intros x t L Hr; [apply H1|apply H2|apply H3]; try done;
    intros l Hl; apply Hag; [apply D1 in Hr|apply D2 in Hr|apply D3 in Hr]; set_solver.
Qed.

(** Inversion, by the tree. *)
Lemma rep_basic_inv h v b L : rep h v (LBasic b) L -> v = VBasic b /\ L = ∅.
Proof. by inversion 1. Qed.

Lemma rep_nil_inv h v L : rep h v LNil L -> v = VRef None /\ L = ∅.
Proof. by inversion 1. Qed.

Lemma rep_cell_inv h v ts L :
  rep h v (LCell ts) L ->
  exists l vs L', v = VRef (Some l) /\ h !! l = Some vs /\ rep_all h vs ts L'.
Proof. inversion 1; eauto 6. Qed.

Lemma rep_struct_inv h v ts L :
  rep h v (LStruct ts) L -> exists vs, v = VStruct vs /\ rep_fields h vs ts L.
Proof. inversion 1; eauto. Qed.

Lemma rep_all_inv h vs ts L :
  rep_all h vs ts L ->
  match ts with
  | [] => vs = [] /\ L = ∅
  | t :: ts => exists v vs' L1 L2, vs = v :: vs' /\ L = L1 ∪ L2 /\ rep h v t L1 /\ rep_all h vs' ts L2
  end.
Proof. inversion 1; eauto 9. Qed.

Lemma rep_fields_inv h vs ts L :
  rep_fields h vs ts L ->
  match ts with
  | [] => vs = [] /\ L = ∅
  | (n, t) :: ts => exists v vs' L1 L2, vs = (n, v) :: vs' /\ L = L1 ∪ L2 /\
      rep h v t L1 /\ rep_fields h vs' ts L2
  end.
Proof. inversion 1; eauto 9. Qed.

(** ** Types *)

(** The types of apimachinery that the resources embed. *)
Inductive ext := EObjectMeta | EListMeta | ERawExtension.

(** [metav1.Time] is a basic value: it is immutable and copied by assignment. *)
Inductive ty :=
| TBasic
| TExt (e : ext)
| TPtr (t : ty)
| TSlice (t : ty)
| TStruct (fields : list (string * ty)).

Section types.
Context (ext_ty : ext -> tree -> Prop).

Fixpoint has_ty (T : ty) (t : tree) {struct T} : Prop :=
  match T with
  | TBasic => exists b, t = LBasic b
  | TExt e => ext_ty e t
  | TPtr T => t = LNil \/ exists x, t = LCell [x] /\ has_ty T x
  | TSlice T => t = LNil \/ exists xs, t = LCell xs /\ Forall (has_ty T) xs
  | TStruct fs => exists ts, t = LStruct ts /\
      (fix has_fields fs ts {struct fs} :=
         match fs, ts with
         | [], [] => True
         | (n, T) :: fs, (m, t) :: ts => n = m /\ has_ty T t /\ has_fields fs ts
         | _, _ => False
         end) fs ts
  end.

Definition has_fields : list (string * ty) -> list (string * tree) -> Prop :=
  fix has_fields fs ts {struct fs} :=
    match fs, ts with
    | [], [] => True
    | (n, T) :: fs, (m, t) :: ts => n = m /\ has_ty T t /\ has_fields fs ts
    | _, _ => False
    end.

(** ** Copying

    A copier is [DeepCopyInto] seen from its result: it takes the value and gives
    the value that was written. *)

Definition copier : Type := val -> heap -> val * heap.

(** [*out = *in] *)
Definition shallow : copier := fun v h => (v, h).

Definition alloc (cell : list val) (h : heap) : val * heap :=
  let l := fresh (dom h) in (VRef (Some l), <[l := cell]> h).

(** [if in.F != nil { *out = new(T); (star in).DeepCopyInto( *out) }], or
    [**out = **in] with [shallow]. *)
Definition pointer (c : copier) : copier := fun v h =>
  match v with
  | VRef (Some l) =>
      match h !! l with
      | Some [x] => let '(x', h) := c x h in alloc [x'] h
      | _ => (v, h)
      end
  | _ => (v, h)
  end.

Fixpoint copy_all (c : copier) (vs : list val) (h : heap) : list val * heap :=
  match vs with
  | [] => ([], h)
  | v :: vs =>
      let '(v', h) := c v h in
      let '(vs', h) := copy_all c vs h in (v' :: vs', h)
  end.

(** [if in.F != nil { *out = make([]T, len( *in)); for i := range *in { ... } }],
    or [copy( *out, *in)] with [shallow]. *)
Definition slice (c : copier) : copier := fun v h =>
  match v with
  | VRef (Some l) =>
      match h !! l with
      | Some vs => let '(vs', h) := copy_all c vs h in alloc vs' h
      | None => (v, h)
      end
  | _ => (v, h)
  end.

(** The statements of a [DeepCopyInto], by field; a field without one keeps what
    [*out = *in] has written. *)
Fixpoint copierFor (cs : list (string * copier)) (n : string) : copier :=
  match cs with
  | [] => shallow
  | (m, c) :: cs => if String.eqb n m then c else copierFor cs n
  end.

Fixpoint copy_fields (cs : list (string * copier)) (vs : list (string * val)) (h : heap) :
    list (string * val) * heap :=
  match vs with
  | [] => ([], h)
  | (n, v) :: vs =>
      let '(v', h) := copierFor cs n v h in
      let '(vs', h) := copy_fields cs vs h in ((n, v') :: vs', h)
  end.

Definition into (cs : list (string * copier)) : copier := fun v h =>
  match v with
  | VStruct vs => let '(vs', h) := copy_fields cs vs h in (VStruct vs', h)
  | _ => (v, h)
  end.

(** ** What a deep copy is *)

(** The result has the tree of the value, it reaches no location that existed, and
    no cell that existed has changed. *)
Definition copies (T : ty) (c : copier) : Prop :=
  forall h v t L, rep h v t L -> has_ty T t ->
  let '(v', h') := c v h in h ⊆ h' /\ exists L', rep h' v' t L' /\ L' ## dom h.

(** A value without pointers may be assigned. *)
Fixpoint plain_ty (T : ty) : bool :=
  match T with
  | TBasic => true
  | TStruct fs => forallb (fun '(_, T) => plain_ty T) fs
  | _ => false
  end.

Lemma plain_reaches T :
  plain_ty T = true -> forall h v t L, rep h v t L -> has_ty T t -> L = ∅.
Proof.
  revert T. fix IH 1. intros [|e|T|T|fs] Hp h v t L Hr Ht; try done.
  - destruct Ht as [b ->]. by apply rep_basic_inv in Hr as [_ ->].
  - destruct Ht as (ts & -> & Ht). apply rep_struct_inv in Hr as (vs & -> & Hr).
    fold has_fields in Ht. simpl in Hp. revert vs ts L Hr Ht Hp.
    induction fs as [|[n T] fs IHf]; intros vs ts L Hr%rep_fields_inv Ht Hp.
    + destruct ts; [|done]. by destruct Hr as [_ ->].
    + destruct ts as [|[m t] ts]; [done|]. destruct Ht as (-> & Ht & Hts).
      simpl in Hp. apply andb_true_iff in Hp as [HpT Hpf].
      destruct Hr as (v & vs' & L1 & L2 & -> & -> & Hv & Hvs).
      rewrite (IH T HpT _ _ _ _ Hv Ht), (IHf _ _ _ Hvs Hts Hpf). set_solver.
Qed.

Lemma copies_shallow T : plain_ty T = true -> copies T shallow.
Proof.
  intros Hp h v t L Hr Ht. split; [done|]. exists L. split; [done|].
  rewrite (plain_reaches T Hp h v t L Hr Ht). set_solver.
Qed.

(** The new cell is reached together with what its elements reach. *)
Lemma alloc_spec h h1 vs ts L :
  h ⊆ h1 -> rep_all h1 vs ts L -> L ## dom h ->
  let '(v', h') := alloc vs h1 in h ⊆ h' /\ exists L', rep h' v' (LCell ts) L' /\ L' ## dom h.
Proof.
  intros Hsub Hr Hd. unfold alloc. set (l := fresh (dom h1)).
  assert (Hl : l ∉ dom h1) by apply is_fresh.
  assert (Hup : h1 ⊆ <[l := vs]> h1) by by apply insert_subseteq, not_elem_of_dom.
  split; [by etrans|]. exists ({[l]} ∪ L). split.
  - apply (rep_cell _ l vs); [by rewrite lookup_insert_eq|].
    by apply (proj1 (proj2 (rep_mono _ _ Hup))).
  - apply subseteq_dom in Hsub. set_solver.
Qed.

Lemma copies_nil (h : heap) : h ⊆ h /\ exists L', rep h (VRef None) LNil L' /\ L' ## dom h.
Proof. split; [done|]. exists ∅. split; [constructor|set_solver]. Qed.

Lemma copies_pointer T c : copies T c -> copies (TPtr T) (pointer c).
Proof.
  intros Hc h v t L Hr [->|(x & -> & Ht)].
  { apply rep_nil_inv in Hr as [-> _]. apply copies_nil. }
  apply rep_cell_inv in Hr as (l & vs & L0 & -> & Hl & Hr%rep_all_inv).
  destruct Hr as (w & ws & L1 & L2 & -> & _ & Hw & Hws%rep_all_inv). destruct Hws as [-> _].
  simpl. rewrite Hl. specialize (Hc _ _ _ _ Hw Ht). destruct (c w h) as [w' h1].
  destruct Hc as (Hsub & L' & Hr' & Hd). apply (alloc_spec h h1 _ _ (L' ∪ ∅)); [done| |set_solver].
  constructor; [done|constructor].
Qed.

(** One copy after the other. *)
Lemma copies_next (h h1 h2 : heap) (L1 L2 : gset loc) :
  h ⊆ h1 -> h1 ⊆ h2 -> L1 ## dom h -> L2 ## dom h1 -> h ⊆ h2 /\ L1 ∪ L2 ## dom h.
Proof. intros Hs1 Hs2 Hd1 Hd2. split; [by etrans|]. apply subseteq_dom in Hs1. set_solver. Qed.

Lemma copies_all T c :
  copies T c -> forall vs h ts L, rep_all h vs ts L -> Forall (has_ty T) ts ->
  let '(vs', h') := copy_all c vs h in h ⊆ h' /\ exists L', rep_all h' vs' ts L' /\ L' ## dom h.
Proof.
  intros Hc. induction vs as [|w vs IH]; intros h ts L Hr%rep_all_inv Ht.
  { destruct ts as [|t ts]; [|by destruct Hr as (? & ? & ? & ? & [=] & _)].
    split; [done|]. exists ∅. split; [constructor|set_solver]. }
  destruct ts as [|t ts]; [by destruct Hr|].
  destruct Hr as (v & vs' & L1 & L2 & [= <- <-] & -> & Hv & Hvs). apply Forall_cons in Ht as [Ht Hts].
  simpl. specialize (Hc _ _ _ _ Hv Ht). destruct (c w h) as [w' h1].
  destruct Hc as (Hsub & L1' & Hr1 & Hd1). apply (proj1 (proj2 (rep_mono _ _ Hsub))) in Hvs.
  specialize (IH _ _ _ Hvs Hts). destruct (copy_all c vs h1) as [vs2 h2].
  destruct IH as (Hsub2 & L2' & Hr2 & Hd2).
  destruct (copies_next _ _ _ _ _ Hsub Hsub2 Hd1 Hd2) as [Hs Hd].
  split; [done|]. exists (L1' ∪ L2'). split; [|done].
  constructor; [by apply (proj1 (rep_mono _ _ Hsub2))|done].
Qed.

Lemma copies_slice T c : copies T c -> copies (TSlice T) (slice c).
Proof.
  intros Hc h v t L Hr [->|(xs & -> & Ht)].
  { apply rep_nil_inv in Hr as [-> _]. apply copies_nil. }
  apply rep_cell_inv in Hr as (l & vs & L0 & -> & Hl & Hr). simpl. rewrite Hl.
  pose proof (copies_all T c Hc vs h xs L0 Hr Ht) as Hall. destruct (copy_all c vs h) as [vs' h1].
  destruct Hall as (Hsub & L' & Hr' & Hd). by apply (alloc_spec h h1 _ _ L').
Qed.

Lemma copies_fields cs fs :
  Forall (fun '(n, T) => copies T (copierFor cs n)) fs ->
  forall h vs ts L, rep_fields h vs ts L -> has_fields fs ts ->
  let '(vs', h') := copy_fields cs vs h in h ⊆ h' /\ exists L', rep_fields h' vs' ts L' /\ L' ## dom h.
Proof.
  induction 1 as [|[n T] fs Hc Hcs IH]; intros h vs ts L Hr%rep_fields_inv Ht.
  { destruct ts; [|done]. destruct Hr as [-> _]. split; [done|]. exists ∅.
    split; [constructor|set_solver]. }
  destruct ts as [|[m t] ts]; [done|]. destruct Ht as (<- & Ht & Hts).
  destruct Hr as (v & vs' & L1 & L2 & -> & -> & Hv & Hvs). simpl.
  specialize (Hc _ _ _ _ Hv Ht). destruct (copierFor cs n v h) as [v' h1].
  destruct Hc as (Hsub & L1' & Hr1 & Hd1). apply (proj2 (proj2 (rep_mono _ _ Hsub))) in Hvs.
  specialize (IH _ _ _ _ Hvs Hts). destruct (copy_fields cs vs' h1) as [vs2 h2].
  destruct IH as (Hsub2 & L2' & Hr2 & Hd2).
  destruct (copies_next _ _ _ _ _ Hsub Hsub2 Hd1 Hd2) as [Hs Hd].
  split; [done|]. exists (L1' ∪ L2'). split; [|done].
  constructor; [by apply (proj1 (rep_mono _ _ Hsub2))|done].
Qed.

Lemma copies_into cs fs :
  Forall (fun '(n, T) => copies T (copierFor cs n)) fs -> copies (TStruct fs) (into cs).
Proof.
  intros Hcs h v t L Hr (ts & -> & Ht). apply rep_struct_inv in Hr as (vs & -> & Hr). simpl.
  pose proof (copies_fields cs fs Hcs h vs ts L Hr Ht) as Hf.
  destruct (copy_fields cs vs h) as [vs' h']. destruct Hf as (Hsub & L' & Hr' & Hd).
  split; [done|]. exists L'. split; [by constructor|done].
Qed.
End types.
