(* ===== verification/DeepCopy.v ===== *)
(** * The generated deep copies (api/v1beta1 and api/v1alpha1, zz_generated.deepcopy.go)

    The types of the resources with their pointers, and for each of them
    [DeepCopyInto], [DeepCopy] and [DeepCopyObject].  [Reconcile] starts from
    [r.Type.DeepCopyObject()] and the cache of the manager hands out such copies, so
    that concurrent reconciliations do not share an object.  The copies of the
    types of apimachinery are a parameter. *)

From S2P Require Import Prelude.
From S2P Require Import Memory.

(** ** The types *)

(** [corev1.LocalObjectReference] and [metav1.TypeMeta] *)
Definition LocalObjectReference_ty : ty := TStruct [("Name", TBasic)].
Definition TypeMeta_ty : ty := TStruct [("Kind", TBasic); ("APIVersion", TBasic)].

Definition RabbitmqClusterReference_ty : ty :=
  TStruct [("Name", TBasic); ("Namespace", TBasic);
   ("ConnectionSecret", TPtr LocalObjectReference_ty)].

Definition Condition_ty : ty :=
  TStruct [("Type", TBasic); ("Status", TBasic); ("LastTransitionTime", TBasic);
   ("Reason", TBasic); ("Message", TBasic)].

Definition VaultSpec_ty : ty :=
  TStruct [("SecretPath", TBasic)].

Definition SecretBackend_ty : ty :=
  TStruct [("Vault", TPtr VaultSpec_ty)].

Definition UserLimits_ty : ty :=
  TStruct [("Connections", TPtr TBasic); ("Channels", TPtr TBasic)].

Definition VhostLimits_ty : ty :=
  TStruct [("Connections", TPtr TBasic); ("Queues", TPtr TBasic)].

Definition VhostPermissions_ty : ty :=
  TStruct [("Configure", TBasic); ("Write", TBasic); ("Read", TBasic)].

Definition TopicPermissionConfig_ty : ty :=
  TStruct [("Exchange", TBasic); ("Read", TBasic); ("Write", TBasic)].

Definition BindingSpec_ty : ty :=
  TStruct [("Vhost", TBasic); ("Source", TBasic); ("Destination", TBasic);
   ("DestinationType", TBasic); ("RoutingKey", TBasic);
   ("Arguments", TPtr (TExt ERawExtension));
   ("RabbitmqClusterReference", RabbitmqClusterReference_ty)].

Definition BindingStatus_ty : ty :=
  TStruct [("ObservedGeneration", TBasic); ("Conditions", TSlice Condition_ty)].

Definition Binding_ty : ty :=
  TStruct [("TypeMeta", TypeMeta_ty); ("ObjectMeta", TExt EObjectMeta);
   ("Spec", BindingSpec_ty); ("Status", BindingStatus_ty)].

Definition BindingList_ty : ty :=
  TStruct [("TypeMeta", TypeMeta_ty); ("ListMeta", TExt EListMeta); ("Items", TSlice Binding_ty)].

Definition ExchangeSpec_ty : ty :=
  TStruct [("Name", TBasic); ("Vhost", TBasic); ("Type", TBasic); ("Durable", TBasic);
   ("AutoDelete", TBasic); ("Arguments", TPtr (TExt ERawExtension));
   ("RabbitmqClusterReference", RabbitmqClusterReference_ty)].

Definition ExchangeStatus_ty : ty :=
  TStruct [("ObservedGeneration", TBasic); ("Conditions", TSlice Condition_ty)].

Definition Exchange_ty : ty :=
  TStruct [("TypeMeta", TypeMeta_ty); ("ObjectMeta", TExt EObjectMeta);
   ("Spec", ExchangeSpec_ty); ("Status", ExchangeStatus_ty)].

Definition ExchangeList_ty : ty :=
  TStruct [("TypeMeta", TypeMeta_ty); ("ListMeta", TExt EListMeta);
   ("Items", TSlice Exchange_ty)].

Definition FederationSpec_ty : ty :=
  TStruct [("Name", TBasic); ("Vhost", TBasic);
   ("RabbitmqClusterReference", RabbitmqClusterReference_ty);
   ("UriSecret", TPtr LocalObjectReference_ty); ("PrefetchCount", TBasic); ("AckMode", TBasic);
   ("Expires", TBasic); ("MessageTTL", TBasic); ("MaxHops", TBasic);
   ("ReconnectDelay", TPtr TBasic); ("TrustUserId", TBasic); ("Exchange", TBasic);
   ("Queue", TBasic); ("DeletionPolicy", TBasic); ("QueueType", TBasic);
   ("ResourceCleanupMode", TBasic)].

Definition FederationStatus_ty : ty :=
  TStruct [("ObservedGeneration", TBasic); ("Conditions", TSlice Condition_ty)].

Definition Federation_ty : ty :=
  TStruct [("TypeMeta", TypeMeta_ty); ("ObjectMeta", TExt EObjectMeta);
   ("Spec", FederationSpec_ty); ("Status", FederationStatus_ty)].

Definition FederationList_ty : ty :=
  TStruct [("TypeMeta", TypeMeta_ty); ("ListMeta", TExt EListMeta);
   ("Items", TSlice Federation_ty)].

Definition OperatorPolicySpec_ty : ty :=
  TStruct [("Name", TBasic); ("Vhost", TBasic); ("Pattern", TBasic); ("ApplyTo", TBasic);
   ("Priority", TBasic); ("Definition", TPtr (TExt ERawExtension));
   ("RabbitmqClusterReference", RabbitmqClusterReference_ty)].

Definition OperatorPolicyStatus_ty : ty :=
  TStruct [("ObservedGeneration", TBasic); ("Conditions", TSlice Condition_ty)].

Definition OperatorPolicy_ty : ty :=
  TStruct [("TypeMeta", TypeMeta_ty); ("ObjectMeta", TExt EObjectMeta);
   ("Spec", OperatorPolicySpec_ty); ("Status", OperatorPolicyStatus_ty)].

Definition OperatorPolicyList_ty : ty :=
  TStruct [("TypeMeta", TypeMeta_ty); ("ListMeta", TExt EListMeta);
   ("Items", TSlice OperatorPolicy_ty)].

Definition PermissionSpec_ty : ty :=
  TStruct [("User", TBasic); ("UserReference", TPtr LocalObjectReference_ty); ("Vhost", TBasic);
   ("Permissions", VhostPermissions_ty);
   ("RabbitmqClusterReference", RabbitmqClusterReference_ty)].

Definition PermissionStatus_ty : ty :=
  TStruct [("ObservedGeneration", TBasic); ("Conditions", TSlice Condition_ty)].

Definition Permission_ty : ty :=
  TStruct [("TypeMeta", TypeMeta_ty); ("ObjectMeta", TExt EObjectMeta);
   ("Spec", PermissionSpec_ty); ("Status", PermissionStatus_ty)].

Definition PermissionList_ty : ty :=
  TStruct [("TypeMeta", TypeMeta_ty); ("ListMeta", TExt EListMeta);
   ("Items", TSlice Permission_ty)].

Definition PolicySpec_ty : ty :=
  TStruct [("Name", TBasic); ("Vhost", TBasic); ("Pattern", TBasic); ("ApplyTo", TBasic);
   ("Priority", TBasic); ("Definition", TPtr (TExt ERawExtension));
   ("RabbitmqClusterReference", RabbitmqClusterReference_ty)].

Definition PolicyStatus_ty : ty :=
  TStruct [("ObservedGeneration", TBasic); ("Conditions", TSlice Condition_ty)].

Definition Policy_ty : ty :=
  TStruct [("TypeMeta", TypeMeta_ty); ("ObjectMeta", TExt EObjectMeta); ("Spec", PolicySpec_ty);
   ("Status", PolicyStatus_ty)].

Definition PolicyList_ty : ty :=
  TStruct [("TypeMeta", TypeMeta_ty); ("ListMeta", TExt EListMeta); ("Items", TSlice Policy_ty)].

Definition QueueSpec_ty : ty :=
  TStruct [("Name", TBasic); ("Vhost", TBasic); ("Type", TBasic); ("Durable", TPtr TBasic);
   ("AutoDelete", TBasic); ("DeleteIfEmpty", TBasic); ("DeleteIfUnused", TBasic);
   ("Arguments", TPtr (TExt ERawExtension));
   ("RabbitmqClusterReference", RabbitmqClusterReference_ty); ("DeletionPolicy", TBasic)].

Definition QueueStatus_ty : ty :=
  TStruct [("ObservedGeneration", TBasic); ("Conditions", TSlice Condition_ty)].

Definition Queue_ty : ty :=
  TStruct [("TypeMeta", TypeMeta_ty); ("ObjectMeta", TExt EObjectMeta); ("Spec", QueueSpec_ty);
   ("Status", QueueStatus_ty)].

Definition QueueList_ty : ty :=
  TStruct [("TypeMeta", TypeMeta_ty); ("ListMeta", TExt EListMeta); ("Items", TSlice Queue_ty)].

Definition SchemaReplicationSpec_ty : ty :=
  TStruct [("RabbitmqClusterReference", RabbitmqClusterReference_ty);
   ("UpstreamSecret", TPtr LocalObjectReference_ty); ("Endpoints", TBasic);
   ("SecretBackend", SecretBackend_ty)].

Definition SchemaReplicationStatus_ty : ty :=
  TStruct [("ObservedGeneration", TBasic); ("Conditions", TSlice Condition_ty)].

Definition SchemaReplication_ty : ty :=
  TStruct [("TypeMeta", TypeMeta_ty); ("ObjectMeta", TExt EObjectMeta);
   ("Spec", SchemaReplicationSpec_ty); ("Status", SchemaReplicationStatus_ty)].

Definition SchemaReplicationList_ty : ty :=
  TStruct [("TypeMeta", TypeMeta_ty); ("ListMeta", TExt EListMeta);
   ("Items", TSlice SchemaReplication_ty)].

Definition ShovelSpec_ty : ty :=
  TStruct [("Name", TBasic); ("Vhost", TBasic);
   ("RabbitmqClusterReference", RabbitmqClusterReference_ty);
   ("UriSecret", TPtr LocalObjectReference_ty); ("AckMode", TBasic); ("PrefetchCount", TBasic);
   ("ReconnectDelay", TBasic); ("AddForwardHeaders", TBasic); ("DeleteAfter", TBasic);
   ("SourceDeleteAfter", TBasic); ("SourcePrefetchCount", TBasic);
   ("DestinationAddForwardHeaders", TBasic); ("DestinationAddTimestampHeader", TBasic);
   ("SourceQueueArgs", TPtr (TExt ERawExtension));
   ("DestinationQueueArgs", TPtr (TExt ERawExtension)); ("DestinationProtocol", TBasic);
   ("DestinationQueue", TBasic); ("DestinationExchange", TBasic);
   ("DestinationExchangeKey", TBasic);
   ("DestinationPublishProperties", TPtr (TExt ERawExtension)); ("DestinationAddress", TBasic);
   ("DestinationApplicationProperties", TPtr (TExt ERawExtension));
   ("DestinationProperties", TPtr (TExt ERawExtension));
   ("DestinationMessageAnnotations", TPtr (TExt ERawExtension)); ("SourceProtocol", TBasic);
   ("SourceQueue", TBasic); ("SourceExchange", TBasic); ("SourceExchangeKey", TBasic);
   ("SourceConsumerArgs", TPtr (TExt ERawExtension)); ("SourceAddress", TBasic);
   ("DeletionPolicy", TBasic)].

Definition ShovelStatus_ty : ty :=
  TStruct [("ObservedGeneration", TBasic); ("Conditions", TSlice Condition_ty)].

Definition Shovel_ty : ty :=
  TStruct [("TypeMeta", TypeMeta_ty); ("ObjectMeta", TExt EObjectMeta); ("Spec", ShovelSpec_ty);
   ("Status", ShovelStatus_ty)].

Definition ShovelList_ty : ty :=
  TStruct [("TypeMeta", TypeMeta_ty); ("ListMeta", TExt EListMeta); ("Items", TSlice Shovel_ty)].

Definition TopicPermissionSpec_ty : ty :=
  TStruct [("User", TBasic); ("UserReference", TPtr LocalObjectReference_ty); ("Vhost", TBasic);
   ("Permissions", TopicPermissionConfig_ty);
   ("RabbitmqClusterReference", RabbitmqClusterReference_ty)].

Definition TopicPermissionStatus_ty : ty :=
  TStruct [("ObservedGeneration", TBasic); ("Conditions", TSlice Condition_ty)].

Definition TopicPermission_ty : ty :=
  TStruct [("TypeMeta", TypeMeta_ty); ("ObjectMeta", TExt EObjectMeta);
   ("Spec", TopicPermissionSpec_ty); ("Status", TopicPermissionStatus_ty)].

Definition TopicPermissionList_ty : ty :=
  TStruct [("TypeMeta", TypeMeta_ty); ("ListMeta", TExt EListMeta);
   ("Items", TSlice TopicPermission_ty)].

Definition UserSpec_ty : ty :=
  TStruct [("Tags", TSlice TBasic); ("RabbitmqClusterReference", RabbitmqClusterReference_ty);
   ("ImportCredentialsSecret", TPtr LocalObjectReference_ty); ("UsernameFromMeta", TBasic);
   ("UserLimits", TPtr UserLimits_ty)].

Definition UserStatus_ty : ty :=
  TStruct [("ObservedGeneration", TBasic); ("Conditions", TSlice Condition_ty);
   ("Credentials", TPtr LocalObjectReference_ty); ("Username", TBasic)].

Definition User_ty : ty :=
  TStruct [("TypeMeta", TypeMeta_ty); ("ObjectMeta", TExt EObjectMeta); ("Spec", UserSpec_ty);
   ("Status", UserStatus_ty)].

Definition UserList_ty : ty :=
  TStruct [("TypeMeta", TypeMeta_ty); ("ListMeta", TExt EListMeta); ("Items", TSlice User_ty)].

Definition VhostSpec_ty : ty :=
  TStruct [("Name", TBasic); ("Tracing", TBasic); ("Tags", TSlice TBasic);
   ("DefaultQueueType", TBasic); ("RabbitmqClusterReference", RabbitmqClusterReference_ty);
   ("DeletionPolicy", TBasic); ("VhostLimits", TPtr VhostLimits_ty)].

Definition VhostStatus_ty : ty :=
  TStruct [("ObservedGeneration", TBasic); ("Conditions", TSlice Condition_ty)].

Definition Vhost_ty : ty :=
  TStruct [("TypeMeta", TypeMeta_ty); ("ObjectMeta", TExt EObjectMeta); ("Spec", VhostSpec_ty);
   ("Status", VhostStatus_ty)].

Definition VhostList_ty : ty :=
  TStruct [("TypeMeta", TypeMeta_ty); ("ListMeta", TExt EListMeta); ("Items", TSlice Vhost_ty)].

Definition SuperStreamSpec_ty : ty :=
  TStruct [("Name", TBasic); ("Vhost", TBasic); ("Partitions", TBasic);
   ("RoutingKeys", TSlice TBasic); ("RabbitmqClusterReference", RabbitmqClusterReference_ty)].

Definition SuperStreamStatus_ty : ty :=
  TStruct [("ObservedGeneration", TBasic); ("Conditions", TSlice Condition_ty);
   ("Partitions", TSlice TBasic)].

Definition SuperStream_ty : ty :=
  TStruct [("TypeMeta", TypeMeta_ty); ("ObjectMeta", TExt EObjectMeta);
   ("Spec", SuperStreamSpec_ty); ("Status", SuperStreamStatus_ty)].

Definition SuperStreamList_ty : ty :=
  TStruct [("TypeMeta", TypeMeta_ty); ("ListMeta", TExt EListMeta);
   ("Items", TSlice SuperStream_ty)].

(** ** The functions *)

Section functions.
Context (ext_DeepCopyInto : ext -> copier).

(** [DeepCopy] of every type: nil stays nil, otherwise a new value is filled in. *)
Definition DeepCopy (DeepCopyInto : copier) : copier := pointer DeepCopyInto.

(** [DeepCopyObject]: the nil interface for a nil copy. *)
Definition DeepCopyObject (DeepCopy : copier) : copier := fun v h =>
  let '(c, h) := DeepCopy v h in
  match c with VRef None => (VRef None, h) | c => (c, h) end.

Definition RabbitmqClusterReference_DeepCopyInto : copier :=
  into [("ConnectionSecret", pointer shallow)].
Definition RabbitmqClusterReference_DeepCopy : copier := DeepCopy RabbitmqClusterReference_DeepCopyInto.

Definition Condition_DeepCopyInto : copier :=
  into [("LastTransitionTime", shallow)].
Definition Condition_DeepCopy : copier := DeepCopy Condition_DeepCopyInto.

Definition VaultSpec_DeepCopyInto : copier :=
  into [].
Definition VaultSpec_DeepCopy : copier := DeepCopy VaultSpec_DeepCopyInto.

Definition SecretBackend_DeepCopyInto : copier :=
  into [("Vault", pointer shallow)].
Definition SecretBackend_DeepCopy : copier := DeepCopy SecretBackend_DeepCopyInto.

Definition UserLimits_DeepCopyInto : copier :=
  into [("Connections", pointer shallow); ("Channels", pointer shallow)].
Definition UserLimits_DeepCopy : copier := DeepCopy UserLimits_DeepCopyInto.

Definition VhostLimits_DeepCopyInto : copier :=
  into [("Connections", pointer shallow); ("Queues", pointer shallow)].
Definition VhostLimits_DeepCopy : copier := DeepCopy VhostLimits_DeepCopyInto.

Definition VhostPermissions_DeepCopyInto : copier :=
  into [].
Definition VhostPermissions_DeepCopy : copier := DeepCopy VhostPermissions_DeepCopyInto.

Definition TopicPermissionConfig_DeepCopyInto : copier :=
  into [].
Definition TopicPermissionConfig_DeepCopy : copier := DeepCopy TopicPermissionConfig_DeepCopyInto.

Definition BindingSpec_DeepCopyInto : copier :=
  into [("Arguments", pointer (ext_DeepCopyInto ERawExtension));
   ("RabbitmqClusterReference", RabbitmqClusterReference_DeepCopyInto)].
Definition BindingSpec_DeepCopy : copier := DeepCopy BindingSpec_DeepCopyInto.

Definition BindingStatus_DeepCopyInto : copier :=
  into [("Conditions", slice Condition_DeepCopyInto)].
Definition BindingStatus_DeepCopy : copier := DeepCopy BindingStatus_DeepCopyInto.

Definition Binding_DeepCopyInto : copier :=
  into [("TypeMeta", shallow); ("ObjectMeta", ext_DeepCopyInto EObjectMeta);
   ("Spec", BindingSpec_DeepCopyInto); ("Status", BindingStatus_DeepCopyInto)].
Definition Binding_DeepCopy : copier := DeepCopy Binding_DeepCopyInto.
Definition Binding_DeepCopyObject : copier := DeepCopyObject Binding_DeepCopy.

Definition BindingList_DeepCopyInto : copier :=
  into [("TypeMeta", shallow); ("ListMeta", ext_DeepCopyInto EListMeta);
   ("Items", slice Binding_DeepCopyInto)].
Definition BindingList_DeepCopy : copier := DeepCopy BindingList_DeepCopyInto.
Definition BindingList_DeepCopyObject : copier := DeepCopyObject BindingList_DeepCopy.

Definition ExchangeSpec_DeepCopyInto : copier :=
  into [("Arguments", pointer (ext_DeepCopyInto ERawExtension));
   ("RabbitmqClusterReference", RabbitmqClusterReference_DeepCopyInto)].
Definition ExchangeSpec_DeepCopy : copier := DeepCopy ExchangeSpec_DeepCopyInto.

Definition ExchangeStatus_DeepCopyInto : copier :=
  into [("Conditions", slice Condition_DeepCopyInto)].
Definition ExchangeStatus_DeepCopy : copier := DeepCopy ExchangeStatus_DeepCopyInto.

Definition Exchange_DeepCopyInto : copier :=
  into [("TypeMeta", shallow); ("ObjectMeta", ext_DeepCopyInto EObjectMeta);
   ("Spec", ExchangeSpec_DeepCopyInto); ("Status", ExchangeStatus_DeepCopyInto)].
Definition Exchange_DeepCopy : copier := DeepCopy Exchange_DeepCopyInto.
Definition Exchange_DeepCopyObject : copier := DeepCopyObject Exchange_DeepCopy.

Definition ExchangeList_DeepCopyInto : copier :=
  into [("TypeMeta", shallow); ("ListMeta", ext_DeepCopyInto EListMeta);
   ("Items", slice Exchange_DeepCopyInto)].
Definition ExchangeList_DeepCopy : copier := DeepCopy ExchangeList_DeepCopyInto.
Definition ExchangeList_DeepCopyObject : copier := DeepCopyObject ExchangeList_DeepCopy.

Definition FederationSpec_DeepCopyInto : copier :=
  into [("RabbitmqClusterReference", RabbitmqClusterReference_DeepCopyInto);
   ("UriSecret", pointer shallow); ("ReconnectDelay", pointer shallow)].
Definition FederationSpec_DeepCopy : copier := DeepCopy FederationSpec_DeepCopyInto.

Definition FederationStatus_DeepCopyInto : copier :=
  into [("Conditions", slice Condition_DeepCopyInto)].
Definition FederationStatus_DeepCopy : copier := DeepCopy FederationStatus_DeepCopyInto.

Definition Federation_DeepCopyInto : copier :=
  into [("TypeMeta", shallow); ("ObjectMeta", ext_DeepCopyInto EObjectMeta);
   ("Spec", FederationSpec_DeepCopyInto); ("Status", FederationStatus_DeepCopyInto)].
Definition Federation_DeepCopy : copier := DeepCopy Federation_DeepCopyInto.
Definition Federation_DeepCopyObject : copier := DeepCopyObject Federation_DeepCopy.

Definition FederationList_DeepCopyInto : copier :=
  into [("TypeMeta", shallow); ("ListMeta", ext_DeepCopyInto EListMeta);
   ("Items", slice Federation_DeepCopyInto)].
Definition FederationList_DeepCopy : copier := DeepCopy FederationList_DeepCopyInto.
Definition FederationList_DeepCopyObject : copier := DeepCopyObject FederationList_DeepCopy.

Definition OperatorPolicySpec_DeepCopyInto : copier :=
  into [("Definition", pointer (ext_DeepCopyInto ERawExtension));
   ("RabbitmqClusterReference", RabbitmqClusterReference_DeepCopyInto)].
Definition OperatorPolicySpec_DeepCopy : copier := DeepCopy OperatorPolicySpec_DeepCopyInto.

Definition OperatorPolicyStatus_DeepCopyInto : copier :=
  into [("Conditions", slice Condition_DeepCopyInto)].
Definition OperatorPolicyStatus_DeepCopy : copier := DeepCopy OperatorPolicyStatus_DeepCopyInto.

Definition OperatorPolicy_DeepCopyInto : copier :=
  into [("TypeMeta", shallow); ("ObjectMeta", ext_DeepCopyInto EObjectMeta);
   ("Spec", OperatorPolicySpec_DeepCopyInto); ("Status", OperatorPolicyStatus_DeepCopyInto)].
Definition OperatorPolicy_DeepCopy : copier := DeepCopy OperatorPolicy_DeepCopyInto.
Definition OperatorPolicy_DeepCopyObject : copier := DeepCopyObject OperatorPolicy_DeepCopy.

Definition OperatorPolicyList_DeepCopyInto : copier :=
  into [("TypeMeta", shallow); ("ListMeta", ext_DeepCopyInto EListMeta);
   ("Items", slice OperatorPolicy_DeepCopyInto)].
Definition OperatorPolicyList_DeepCopy : copier := DeepCopy OperatorPolicyList_DeepCopyInto.
Definition OperatorPolicyList_DeepCopyObject : copier := DeepCopyObject OperatorPolicyList_DeepCopy.

Definition PermissionSpec_DeepCopyInto : copier :=
  into [("UserReference", pointer shallow); ("Permissions", shallow);
   ("RabbitmqClusterReference", RabbitmqClusterReference_DeepCopyInto)].
Definition PermissionSpec_DeepCopy : copier := DeepCopy PermissionSpec_DeepCopyInto.

Definition PermissionStatus_DeepCopyInto : copier :=
  into [("Conditions", slice Condition_DeepCopyInto)].
Definition PermissionStatus_DeepCopy : copier := DeepCopy PermissionStatus_DeepCopyInto.

Definition Permission_DeepCopyInto : copier :=
  into [("TypeMeta", shallow); ("ObjectMeta", ext_DeepCopyInto EObjectMeta);
   ("Spec", PermissionSpec_DeepCopyInto); ("Status", PermissionStatus_DeepCopyInto)].
Definition Permission_DeepCopy : copier := DeepCopy Permission_DeepCopyInto.
Definition Permission_DeepCopyObject : copier := DeepCopyObject Permission_DeepCopy.

Definition PermissionList_DeepCopyInto : copier :=
  into [("TypeMeta", shallow); ("ListMeta", ext_DeepCopyInto EListMeta);
   ("Items", slice Permission_DeepCopyInto)].
Definition PermissionList_DeepCopy : copier := DeepCopy PermissionList_DeepCopyInto.
Definition PermissionList_DeepCopyObject : copier := DeepCopyObject PermissionList_DeepCopy.

Definition PolicySpec_DeepCopyInto : copier :=
  into [("Definition", pointer (ext_DeepCopyInto ERawExtension));
   ("RabbitmqClusterReference", RabbitmqClusterReference_DeepCopyInto)].
Definition PolicySpec_DeepCopy : copier := DeepCopy PolicySpec_DeepCopyInto.

Definition PolicyStatus_DeepCopyInto : copier :=
  into [("Conditions", slice Condition_DeepCopyInto)].
Definition PolicyStatus_DeepCopy : copier := DeepCopy PolicyStatus_DeepCopyInto.

Definition Policy_DeepCopyInto : copier :=
  into [("TypeMeta", shallow); ("ObjectMeta", ext_DeepCopyInto EObjectMeta);
   ("Spec", PolicySpec_DeepCopyInto); ("Status", PolicyStatus_DeepCopyInto)].
Definition Policy_DeepCopy : copier := DeepCopy Policy_DeepCopyInto.
Definition Policy_DeepCopyObject : copier := DeepCopyObject Policy_DeepCopy.

Definition PolicyList_DeepCopyInto : copier :=
  into [("TypeMeta", shallow); ("ListMeta", ext_DeepCopyInto EListMeta);
   ("Items", slice Policy_DeepCopyInto)].
Definition PolicyList_DeepCopy : copier := DeepCopy PolicyList_DeepCopyInto.
Definition PolicyList_DeepCopyObject : copier := DeepCopyObject PolicyList_DeepCopy.

Definition QueueSpec_DeepCopyInto : copier :=
  into [("Durable", pointer shallow); ("Arguments", pointer (ext_DeepCopyInto ERawExtension));
   ("RabbitmqClusterReference", RabbitmqClusterReference_DeepCopyInto)].
Definition QueueSpec_DeepCopy : copier := DeepCopy QueueSpec_DeepCopyInto.

Definition QueueStatus_DeepCopyInto : copier :=
  into [("Conditions", slice Condition_DeepCopyInto)].
Definition QueueStatus_DeepCopy : copier := DeepCopy QueueStatus_DeepCopyInto.

Definition Queue_DeepCopyInto : copier :=
  into [("TypeMeta", shallow); ("ObjectMeta", ext_DeepCopyInto EObjectMeta);
   ("Spec", QueueSpec_DeepCopyInto); ("Status", QueueStatus_DeepCopyInto)].
Definition Queue_DeepCopy : copier := DeepCopy Queue_DeepCopyInto.
Definition Queue_DeepCopyObject : copier := DeepCopyObject Queue_DeepCopy.

Definition QueueList_DeepCopyInto : copier :=
  into [("TypeMeta", shallow); ("ListMeta", ext_DeepCopyInto EListMeta);
   ("Items", slice Queue_DeepCopyInto)].
Definition QueueList_DeepCopy : copier := DeepCopy QueueList_DeepCopyInto.
Definition QueueList_DeepCopyObject : copier := DeepCopyObject QueueList_DeepCopy.

Definition SchemaReplicationSpec_DeepCopyInto : copier :=
  into [("RabbitmqClusterReference", RabbitmqClusterReference_DeepCopyInto);
   ("UpstreamSecret", pointer shallow); ("SecretBackend", SecretBackend_DeepCopyInto)].
Definition SchemaReplicationSpec_DeepCopy : copier := DeepCopy SchemaReplicationSpec_DeepCopyInto.

Definition SchemaReplicationStatus_DeepCopyInto : copier :=
  into [("Conditions", slice Condition_DeepCopyInto)].
Definition SchemaReplicationStatus_DeepCopy : copier := DeepCopy SchemaReplicationStatus_DeepCopyInto.

Definition SchemaReplication_DeepCopyInto : copier :=
  into [("TypeMeta", shallow); ("ObjectMeta", ext_DeepCopyInto EObjectMeta);
   ("Spec", SchemaReplicationSpec_DeepCopyInto);
   ("Status", SchemaReplicationStatus_DeepCopyInto)].
Definition SchemaReplication_DeepCopy : copier := DeepCopy SchemaReplication_DeepCopyInto.
Definition SchemaReplication_DeepCopyObject : copier := DeepCopyObject SchemaReplication_DeepCopy.

Definition SchemaReplicationList_DeepCopyInto : copier :=
  into [("TypeMeta", shallow); ("ListMeta", ext_DeepCopyInto EListMeta);
   ("Items", slice SchemaReplication_DeepCopyInto)].
Definition SchemaReplicationList_DeepCopy : copier := DeepCopy SchemaReplicationList_DeepCopyInto.
Definition SchemaReplicationList_DeepCopyObject : copier := DeepCopyObject SchemaReplicationList_DeepCopy.

Definition ShovelSpec_DeepCopyInto : copier :=
  into [("RabbitmqClusterReference", RabbitmqClusterReference_DeepCopyInto);
   ("UriSecret", pointer shallow);
   ("SourceQueueArgs", pointer (ext_DeepCopyInto ERawExtension));
   ("DestinationQueueArgs", pointer (ext_DeepCopyInto ERawExtension));
   ("DestinationPublishProperties", pointer (ext_DeepCopyInto ERawExtension));
   ("DestinationApplicationProperties", pointer (ext_DeepCopyInto ERawExtension));
   ("DestinationProperties", pointer (ext_DeepCopyInto ERawExtension));
   ("DestinationMessageAnnotations", pointer (ext_DeepCopyInto ERawExtension));
   ("SourceConsumerArgs", pointer (ext_DeepCopyInto ERawExtension))].
Definition ShovelSpec_DeepCopy : copier := DeepCopy ShovelSpec_DeepCopyInto.

Definition ShovelStatus_DeepCopyInto : copier :=
  into [("Conditions", slice Condition_DeepCopyInto)].
Definition ShovelStatus_DeepCopy : copier := DeepCopy ShovelStatus_DeepCopyInto.

Definition Shovel_DeepCopyInto : copier :=
  into [("TypeMeta", shallow); ("ObjectMeta", ext_DeepCopyInto EObjectMeta);
   ("Spec", ShovelSpec_DeepCopyInto); ("Status", ShovelStatus_DeepCopyInto)].
Definition Shovel_DeepCopy : copier := DeepCopy Shovel_DeepCopyInto.
Definition Shovel_DeepCopyObject : copier := DeepCopyObject Shovel_DeepCopy.

Definition ShovelList_DeepCopyInto : copier :=
  into [("TypeMeta", shallow); ("ListMeta", ext_DeepCopyInto EListMeta);
   ("Items", slice Shovel_DeepCopyInto)].
Definition ShovelList_DeepCopy : copier := DeepCopy ShovelList_DeepCopyInto.
Definition ShovelList_DeepCopyObject : copier := DeepCopyObject ShovelList_DeepCopy.

Definition TopicPermissionSpec_DeepCopyInto : copier :=
  into [("UserReference", pointer shallow); ("Permissions", shallow);
   ("RabbitmqClusterReference", RabbitmqClusterReference_DeepCopyInto)].
Definition TopicPermissionSpec_DeepCopy : copier := DeepCopy TopicPermissionSpec_DeepCopyInto.

Definition TopicPermissionStatus_DeepCopyInto : copier :=
  into [("Conditions", slice Condition_DeepCopyInto)].
Definition TopicPermissionStatus_DeepCopy : copier := DeepCopy TopicPermissionStatus_DeepCopyInto.

Definition TopicPermission_DeepCopyInto : copier :=
  into [("TypeMeta", shallow); ("ObjectMeta", ext_DeepCopyInto EObjectMeta);
   ("Spec", TopicPermissionSpec_DeepCopyInto); ("Status", TopicPermissionStatus_DeepCopyInto)].
Definition TopicPermission_DeepCopy : copier := DeepCopy TopicPermission_DeepCopyInto.
Definition TopicPermission_DeepCopyObject : copier := DeepCopyObject TopicPermission_DeepCopy.

Definition TopicPermissionList_DeepCopyInto : copier :=
  into [("TypeMeta", shallow); ("ListMeta", ext_DeepCopyInto EListMeta);
   ("Items", slice TopicPermission_DeepCopyInto)].
Definition TopicPermissionList_DeepCopy : copier := DeepCopy TopicPermissionList_DeepCopyInto.
Definition TopicPermissionList_DeepCopyObject : copier := DeepCopyObject TopicPermissionList_DeepCopy.

Definition UserSpec_DeepCopyInto : copier :=
  into [("Tags", slice shallow);
   ("RabbitmqClusterReference", RabbitmqClusterReference_DeepCopyInto);
   ("ImportCredentialsSecret", pointer shallow); ("UserLimits", pointer UserLimits_DeepCopyInto)].
Definition UserSpec_DeepCopy : copier := DeepCopy UserSpec_DeepCopyInto.

Definition UserStatus_DeepCopyInto : copier :=
  into [("Conditions", slice Condition_DeepCopyInto); ("Credentials", pointer shallow)].
Definition UserStatus_DeepCopy : copier := DeepCopy UserStatus_DeepCopyInto.

Definition User_DeepCopyInto : copier :=
  into [("TypeMeta", shallow); ("ObjectMeta", ext_DeepCopyInto EObjectMeta);
   ("Spec", UserSpec_DeepCopyInto); ("Status", UserStatus_DeepCopyInto)].
Definition User_DeepCopy : copier := DeepCopy User_DeepCopyInto.
Definition User_DeepCopyObject : copier := DeepCopyObject User_DeepCopy.

Definition UserList_DeepCopyInto : copier :=
  into [("TypeMeta", shallow); ("ListMeta", ext_DeepCopyInto EListMeta);
   ("Items", slice User_DeepCopyInto)].
Definition UserList_DeepCopy : copier := DeepCopy UserList_DeepCopyInto.
Definition UserList_DeepCopyObject : copier := DeepCopyObject UserList_DeepCopy.

Definition VhostSpec_DeepCopyInto : copier :=
  into [("Tags", slice shallow);
   ("RabbitmqClusterReference", RabbitmqClusterReference_DeepCopyInto);
   ("VhostLimits", pointer VhostLimits_DeepCopyInto)].
Definition VhostSpec_DeepCopy : copier := DeepCopy VhostSpec_DeepCopyInto.

Definition VhostStatus_DeepCopyInto : copier :=
  into [("Conditions", slice Condition_DeepCopyInto)].
Definition VhostStatus_DeepCopy : copier := DeepCopy VhostStatus_DeepCopyInto.

Definition Vhost_DeepCopyInto : copier :=
  into [("TypeMeta", shallow); ("ObjectMeta", ext_DeepCopyInto EObjectMeta);
   ("Spec", VhostSpec_DeepCopyInto); ("Status", VhostStatus_DeepCopyInto)].
Definition Vhost_DeepCopy : copier := DeepCopy Vhost_DeepCopyInto.
Definition Vhost_DeepCopyObject : copier := DeepCopyObject Vhost_DeepCopy.

Definition VhostList_DeepCopyInto : copier :=
  into [("TypeMeta", shallow); ("ListMeta", ext_DeepCopyInto EListMeta);
   ("Items", slice Vhost_DeepCopyInto)].
Definition VhostList_DeepCopy : copier := DeepCopy VhostList_DeepCopyInto.
Definition VhostList_DeepCopyObject : copier := DeepCopyObject VhostList_DeepCopy.

Definition SuperStreamSpec_DeepCopyInto : copier :=
  into [("RoutingKeys", slice shallow);
   ("RabbitmqClusterReference", RabbitmqClusterReference_DeepCopyInto)].
Definition SuperStreamSpec_DeepCopy : copier := DeepCopy SuperStreamSpec_DeepCopyInto.

Definition SuperStreamStatus_DeepCopyInto : copier :=
  into [("Conditions", slice Condition_DeepCopyInto); ("Partitions", slice shallow)].
Definition SuperStreamStatus_DeepCopy : copier := DeepCopy SuperStreamStatus_DeepCopyInto.

Definition SuperStream_DeepCopyInto : copier :=
  into [("TypeMeta", shallow); ("ObjectMeta", ext_DeepCopyInto EObjectMeta);
   ("Spec", SuperStreamSpec_DeepCopyInto); ("Status", SuperStreamStatus_DeepCopyInto)].
Definition SuperStream_DeepCopy : copier := DeepCopy SuperStream_DeepCopyInto.
Definition SuperStream_DeepCopyObject : copier := DeepCopyObject SuperStream_DeepCopy.

Definition SuperStreamList_DeepCopyInto : copier :=
  into [("TypeMeta", shallow); ("ListMeta", ext_DeepCopyInto EListMeta);
   ("Items", slice SuperStream_DeepCopyInto)].
Definition SuperStreamList_DeepCopy : copier := DeepCopy SuperStreamList_DeepCopyInto.
Definition SuperStreamList_DeepCopyObject : copier := DeepCopyObject SuperStreamList_DeepCopy.

(** All of them. *)
Record generated_copy := mkGenerated {
  gen_ty : ty;
  gen_DeepCopyInto : copier;
  gen_DeepCopy : copier;
  gen_DeepCopyObject : option copier
}.

Definition generated : list generated_copy :=
  [mkGenerated RabbitmqClusterReference_ty RabbitmqClusterReference_DeepCopyInto RabbitmqClusterReference_DeepCopy None;
   mkGenerated Condition_ty Condition_DeepCopyInto Condition_DeepCopy None;
   mkGenerated VaultSpec_ty VaultSpec_DeepCopyInto VaultSpec_DeepCopy None;
   mkGenerated SecretBackend_ty SecretBackend_DeepCopyInto SecretBackend_DeepCopy None;
   mkGenerated UserLimits_ty UserLimits_DeepCopyInto UserLimits_DeepCopy None;
   mkGenerated VhostLimits_ty VhostLimits_DeepCopyInto VhostLimits_DeepCopy None;
   mkGenerated VhostPermissions_ty VhostPermissions_DeepCopyInto VhostPermissions_DeepCopy None;
   mkGenerated TopicPermissionConfig_ty TopicPermissionConfig_DeepCopyInto TopicPermissionConfig_DeepCopy None;
   mkGenerated BindingSpec_ty BindingSpec_DeepCopyInto BindingSpec_DeepCopy None;
   mkGenerated BindingStatus_ty BindingStatus_DeepCopyInto BindingStatus_DeepCopy None;
   mkGenerated Binding_ty Binding_DeepCopyInto Binding_DeepCopy (Some Binding_DeepCopyObject);
   mkGenerated BindingList_ty BindingList_DeepCopyInto BindingList_DeepCopy (Some BindingList_DeepCopyObject);
   mkGenerated ExchangeSpec_ty ExchangeSpec_DeepCopyInto ExchangeSpec_DeepCopy None;
   mkGenerated ExchangeStatus_ty ExchangeStatus_DeepCopyInto ExchangeStatus_DeepCopy None;
   mkGenerated Exchange_ty Exchange_DeepCopyInto Exchange_DeepCopy (Some Exchange_DeepCopyObject);
   mkGenerated ExchangeList_ty ExchangeList_DeepCopyInto ExchangeList_DeepCopy (Some ExchangeList_DeepCopyObject);
   mkGenerated FederationSpec_ty FederationSpec_DeepCopyInto FederationSpec_DeepCopy None;
   mkGenerated FederationStatus_ty FederationStatus_DeepCopyInto FederationStatus_DeepCopy None;
   mkGenerated Federation_ty Federation_DeepCopyInto Federation_DeepCopy (Some Federation_DeepCopyObject);
   mkGenerated FederationList_ty FederationList_DeepCopyInto FederationList_DeepCopy (Some FederationList_DeepCopyObject);
   mkGenerated OperatorPolicySpec_ty OperatorPolicySpec_DeepCopyInto OperatorPolicySpec_DeepCopy None;
   mkGenerated OperatorPolicyStatus_ty OperatorPolicyStatus_DeepCopyInto OperatorPolicyStatus_DeepCopy None;
   mkGenerated OperatorPolicy_ty OperatorPolicy_DeepCopyInto OperatorPolicy_DeepCopy (Some OperatorPolicy_DeepCopyObject);
   mkGenerated OperatorPolicyList_ty OperatorPolicyList_DeepCopyInto OperatorPolicyList_DeepCopy (Some OperatorPolicyList_DeepCopyObject);
   mkGenerated PermissionSpec_ty PermissionSpec_DeepCopyInto PermissionSpec_DeepCopy None;
   mkGenerated PermissionStatus_ty PermissionStatus_DeepCopyInto PermissionStatus_DeepCopy None;
   mkGenerated Permission_ty Permission_DeepCopyInto Permission_DeepCopy (Some Permission_DeepCopyObject);
   mkGenerated PermissionList_ty PermissionList_DeepCopyInto PermissionList_DeepCopy (Some PermissionList_DeepCopyObject);
   mkGenerated PolicySpec_ty PolicySpec_DeepCopyInto PolicySpec_DeepCopy None;
   mkGenerated PolicyStatus_ty PolicyStatus_DeepCopyInto PolicyStatus_DeepCopy None;
   mkGenerated Policy_ty Policy_DeepCopyInto Policy_DeepCopy (Some Policy_DeepCopyObject);
   mkGenerated PolicyList_ty PolicyList_DeepCopyInto PolicyList_DeepCopy (Some PolicyList_DeepCopyObject);
   mkGenerated QueueSpec_ty QueueSpec_DeepCopyInto QueueSpec_DeepCopy None;
   mkGenerated QueueStatus_ty QueueStatus_DeepCopyInto QueueStatus_DeepCopy None;
   mkGenerated Queue_ty Queue_DeepCopyInto Queue_DeepCopy (Some Queue_DeepCopyObject);
   mkGenerated QueueList_ty QueueList_DeepCopyInto QueueList_DeepCopy (Some QueueList_DeepCopyObject);
   mkGenerated SchemaReplicationSpec_ty SchemaReplicationSpec_DeepCopyInto SchemaReplicationSpec_DeepCopy None;
   mkGenerated SchemaReplicationStatus_ty SchemaReplicationStatus_DeepCopyInto SchemaReplicationStatus_DeepCopy None;
   mkGenerated SchemaReplication_ty SchemaReplication_DeepCopyInto SchemaReplication_DeepCopy (Some SchemaReplication_DeepCopyObject);
   mkGenerated SchemaReplicationList_ty SchemaReplicationList_DeepCopyInto SchemaReplicationList_DeepCopy (Some SchemaReplicationList_DeepCopyObject);
   mkGenerated ShovelSpec_ty ShovelSpec_DeepCopyInto ShovelSpec_DeepCopy None;
   mkGenerated ShovelStatus_ty ShovelStatus_DeepCopyInto ShovelStatus_DeepCopy None;
   mkGenerated Shovel_ty Shovel_DeepCopyInto Shovel_DeepCopy (Some Shovel_DeepCopyObject);
   mkGenerated ShovelList_ty ShovelList_DeepCopyInto ShovelList_DeepCopy (Some ShovelList_DeepCopyObject);
   mkGenerated TopicPermissionSpec_ty TopicPermissionSpec_DeepCopyInto TopicPermissionSpec_DeepCopy None;
   mkGenerated TopicPermissionStatus_ty TopicPermissionStatus_DeepCopyInto TopicPermissionStatus_DeepCopy None;
   mkGenerated TopicPermission_ty TopicPermission_DeepCopyInto TopicPermission_DeepCopy (Some TopicPermission_DeepCopyObject);
   mkGenerated TopicPermissionList_ty TopicPermissionList_DeepCopyInto TopicPermissionList_DeepCopy (Some TopicPermissionList_DeepCopyObject);
   mkGenerated UserSpec_ty UserSpec_DeepCopyInto UserSpec_DeepCopy None;
   mkGenerated UserStatus_ty UserStatus_DeepCopyInto UserStatus_DeepCopy None;
   mkGenerated User_ty User_DeepCopyInto User_DeepCopy (Some User_DeepCopyObject);
   mkGenerated UserList_ty UserList_DeepCopyInto UserList_DeepCopy (Some UserList_DeepCopyObject);
   mkGenerated VhostSpec_ty VhostSpec_DeepCopyInto VhostSpec_DeepCopy None;
   mkGenerated VhostStatus_ty VhostStatus_DeepCopyInto VhostStatus_DeepCopy None;
   mkGenerated Vhost_ty Vhost_DeepCopyInto Vhost_DeepCopy (Some Vhost_DeepCopyObject);
   mkGenerated VhostList_ty VhostList_DeepCopyInto VhostList_DeepCopy (Some VhostList_DeepCopyObject);
   mkGenerated SuperStreamSpec_ty SuperStreamSpec_DeepCopyInto SuperStreamSpec_DeepCopy None;
   mkGenerated SuperStreamStatus_ty SuperStreamStatus_DeepCopyInto SuperStreamStatus_DeepCopy None;
   mkGenerated SuperStream_ty SuperStream_DeepCopyInto SuperStream_DeepCopy (Some SuperStream_DeepCopyObject);
   mkGenerated SuperStreamList_ty SuperStreamList_DeepCopyInto SuperStreamList_DeepCopy (Some SuperStreamList_DeepCopyObject)].
End functions.
