(* ===== verification/DeepCopyProofs.v ===== *)
(** * The generated deep copies are deep

    Every function of zz_generated.deepcopy.go follows every pointer and slice of
    its type: the copy has the same content, and neither sees what is written
    through the other afterwards. *)

From S2P Require Import Prelude.
From S2P Require Import Memory.
From S2P Require Import DeepCopy.

(** What apimachinery promises of the [DeepCopyInto] of its own types. *)
Class ExtCopies (ext_ty : ext -> tree -> Prop) (ext_DeepCopyInto : ext -> copier) : Prop :=
  ext_copies e : copies ext_ty (TExt e) (ext_DeepCopyInto e).

(** Follows a type and its copier; what is assigned must be free of pointers. *)
Ltac deep_copy :=
  lazymatch goal with
  | |- copies _ _ (copierFor _ _) =>
      cbn [copierFor String.eqb Ascii.eqb Bool.eqb]; deep_copy
  | |- copies _ _ shallow => apply copies_shallow; reflexivity
  | |- copies _ (TExt _) _ => apply ext_copies
  | |- copies _ (TPtr _) (pointer _) => apply copies_pointer; deep_copy
  | |- copies _ (TSlice _) (slice _) => apply copies_slice; deep_copy
  | |- copies _ _ _ =>
      refine (copies_into _ _ _ _); repeat (constructor; [cbv beta iota; deep_copy|]); constructor
  end.

Section copies.
Context `{ExtCopies ext_ty ext_DeepCopyInto}.

(** The copier of a receiver: nil or a pointer to a value of type [T]. *)
Lemma copies_object T c : copies ext_ty (TPtr T) c -> copies ext_ty (TPtr T) (DeepCopyObject c).
Proof.
  intros Hc h v t L Hr Ht. specialize (Hc h v t L Hr Ht). unfold DeepCopyObject.
  destruct (c v h) as [[b|fs|[l|]] h']; done.
Qed.

Definition receiver_copiers (g : generated_copy) : list copier :=
  gen_DeepCopy g :: match gen_DeepCopyObject g with Some c => [c] | None => [] end.

Lemma generated_into :
  Forall (fun g => copies ext_ty (gen_ty g) (gen_DeepCopyInto g)) (generated ext_DeepCopyInto).
Proof.
  unfold generated. repeat (constructor; [cbn [gen_ty gen_DeepCopyInto]; deep_copy|]). constructor.
Qed.

Lemma generated_receivers g c :
  g ∈ generated ext_DeepCopyInto -> c ∈ receiver_copiers g -> copies ext_ty (TPtr (gen_ty g)) c.
Proof.
  assert (Hd : Forall (fun g => gen_DeepCopy g = DeepCopy (gen_DeepCopyInto g) /\
    (gen_DeepCopyObject g = None \/ gen_DeepCopyObject g = Some (DeepCopyObject (gen_DeepCopy g))))
    (generated ext_DeepCopyInto)).
  { unfold generated. repeat (constructor; [split; [reflexivity|first [left; reflexivity|right; reflexivity]]|]). constructor. }
  intros Hg Hc. rewrite Forall_forall in Hd. destruct (Hd g Hg) as [Hcopy Hobj].
  pose proof generated_into as Hi. rewrite Forall_forall in Hi. specialize (Hi g Hg).
  apply copies_pointer in Hi. unfold receiver_copiers in Hc. rewrite Hcopy in *.
  apply elem_of_cons in Hc as [->|Hc]; [exact Hi|].
  destruct Hobj as [E|E]; rewrite E in Hc; [by apply not_elem_of_nil in Hc|].
  apply list_elem_of_singleton in Hc as ->. by apply copies_object.
Qed.

(** C26: DeepCopy and DeepCopyObject of every API type give a value with the
    content of the receiver, change no existing memory, and afterwards a write to
    memory that existed before does not change the copy, nor a write to new memory
    the receiver. *)
Theorem deep_copies_independent g c h v t L :
  g ∈ generated ext_DeepCopyInto -> c ∈ receiver_copiers g ->
  rep h v t L -> has_ty ext_ty (TPtr (gen_ty g)) t ->
  let '(v', h') := c v h in
  rep h' v t L /\
  exists L', rep h' v' t L' /\
    (forall later, (forall l, l ∉ dom h -> later !! l = h' !! l) -> rep later v' t L') /\
    (forall later, (forall l, l ∈ dom h -> later !! l = h' !! l) -> rep later v t L).
Proof.
  intros Hg Hc Hr Ht. pose proof (generated_receivers g c Hg Hc h v t L Hr Ht) as Hcopy. clear Hg Hc.
  destruct (c v h) as [v' h']. destruct Hcopy as (Hsub & L' & Hr' & Hd).
  pose proof (proj1 (rep_mono h h' Hsub) _ _ _ Hr) as Hv.
  pose proof (proj1 (rep_dom h) _ _ _ Hr) as HL.
  split; [done|]. exists L'. split_and!; [done|..]; intros later Hlater.
  - apply (proj1 (rep_agree h' later)); [done|]. intros l Hl. apply Hlater. set_solver.
  - apply (proj1 (rep_agree h' later)); [done|]. intros l Hl. apply Hlater. set_solver.
Qed.
End copies.
