(* ===== verification/StreamAdmission.v ===== *)
(** * Super streams and the webhooks of their children

    The super stream controller writes queues, exchanges and bindings, and every
    such write passes the validating webhooks of these kinds. Here the builders of
    internal/managedresource, the webhook of super streams and the webhooks of the
    children are put together. *)

From S2P Require Import Prelude.
From S2P Require Import GoStrings.
From S2P Require Import GoErrors.
From S2P Require Import Prog.
From S2P Require Import Api.
From S2P Require Import Values.
From S2P Require Import World.
From S2P Require Import Resources.
From S2P Require Import ParseReference.
From S2P Require Import Webhooks.
From S2P Require Import WebhookProofs.
From S2P Require Import SuperStreams.
From S2P Require Import SuperStreamProofs.

Section admission.
Context `{LibsOk}.

(** The [ValidateCreate] of the kinds of children. *)
Definition childValidateCreate (k : kind) : object k -> go (option rejection) :=
  match k with
  | KQueue => Queue_ValidateCreate
  | KExchange => Exchange_ValidateCreate
  | KBinding => Binding_ValidateCreate
  | _ => fun _ => Ret None
  end.

(** The two objects have the same spec. *)
Definition same_spec (k : kind) : object k -> object k -> Prop :=
  match k with
  | KQueue => fun o o' : Queue => Spec o = Spec o'
  | KExchange => fun o o' : Exchange => Spec o = Spec o'
  | KBinding => fun o o' : Binding => Spec o = Spec o'
  | _ => fun _ _ => False
  end.

(** No builder gives a partition queue arguments. *)
Definition no_arguments (k : kind) : object k -> Prop :=
  match k with
  | KQueue => fun o => Queue_Arguments (Spec o) = None
  | _ => fun _ => True
  end.

(** Builder [b'] takes over the child of builder [b]: the same kind and object,
    and an object with the spec that [b] has given it, whatever it started
    from, keeps that spec; the webhook of the kind admits the update. *)
Inductive takes_over : ResourceBuilder -> ResourceBuilder -> Prop :=
| takes_over_intro k build update update' type :
    (forall base made stored stored',
       no_arguments k base -> update base = inr made -> same_spec k stored made ->
       update' stored = inr stored' ->
       same_spec k stored' stored /\ ValidateUpdate k stored stored' = Ret None) ->
    takes_over (mkResourceBuilder k build update type) (mkResourceBuilder k build update' type).

(** What the builder makes from nothing passes the webhook of its kind. *)
Definition creation_admitted (b : ResourceBuilder) : Prop :=
  forall o, Update b (Build b) = inr o -> childValidateCreate (builder_kind b) o = Ret None.

(** ** Creation *)

Lemma reference_admitted name ns ns' :
  name <> "" ->
  validateReferenceOnCreate (mkRabbitmqClusterReference name ns None) ns' = Ret None.
Proof.
  intros Hn. unfold validateReferenceOnCreate, validateOnCreate. simpl.
  by rewrite (proj2 (ClusterReference.validate_ok _)) by by left.
Qed.

Lemma partitions_created (o : SuperStream) i keys vhost name ns :
  name <> "" ->
  Forall creation_admitted
    (partitionBuilders o i keys vhost (mkRabbitmqClusterReference name ns None)).
Proof.
  intros Hn. revert i. induction keys as [|key keys IH]; intros i; [constructor|].
  constructor; [|constructor; [|apply IH]].
  - intros x Hx%setOwner_spec. change (Queue_ValidateCreate x = Ret None).
    unfold Queue_ValidateCreate, andThen. rewrite Hx. simpl. by apply reference_admitted.
  - intros x Hx%setOwner_spec. change (Binding_ValidateCreate x = Ret None).
    unfold Binding_ValidateCreate. rewrite Hx. by apply reference_admitted.
Qed.

Lemma builders_created (o : SuperStream) keys vhost name ns :
  name <> "" ->
  Forall creation_admitted
    (superStreamBuilders o keys vhost (mkRabbitmqClusterReference name ns None)).
Proof.
  intros Hn. constructor; [|by apply partitions_created].
  intros x Hx%setOwner_spec. change (Exchange_ValidateCreate x = Ret None).
  unfold Exchange_ValidateCreate. rewrite Hx. by apply reference_admitted.
Qed.

(** ** Updates *)

Lemma queue_same_admitted (o n : Queue) :
  Queue_Arguments (Spec o) = None -> Spec n = Spec o -> Queue_ValidateUpdate o n = Ret None.
Proof.
  intros Ha Hs. unfold Queue_ValidateUpdate, andThen. rewrite Hs, Ha. simpl.
  rewrite (proj2 (identityGuards_None _ _ _ _ _ _ _ _)) by done.
  by rewrite !(proj2 (differ_false _ _) eq_refl).
Qed.

Lemma exchange_same_admitted (o n : Exchange) :
  Spec n = Spec o -> Exchange_ValidateUpdate o n = None.
Proof.
  intros Hs. unfold Exchange_ValidateUpdate. rewrite Hs. cbv zeta.
  autorewrite with gort. rewrite !app_nil. by autorewrite with gort.
Qed.

Lemma binding_same_admitted (o n : Binding) :
  Spec n = Spec o -> Binding_ValidateUpdate o n = None.
Proof.
  intros Hs. unfold Binding_ValidateUpdate. rewrite Hs. cbv zeta.
  autorewrite with gort. rewrite !app_nil. by autorewrite with gort.
Qed.

(** The children depend on the name and the namespace of the super stream only. *)
Section successors.
Context (old new : SuperStream).
Hypothesis same_name : owner_name new = owner_name old.
Hypothesis same_namespace :
  Namespace (resource_ObjectMeta new) = Namespace (resource_ObjectMeta old).

Lemma childMeta_same suffix labels : childMeta new suffix labels = childMeta old suffix labels.
Proof. unfold childMeta, GenerateChildResourceName. by rewrite same_name, same_namespace. Qed.

Lemma exchange_taken_over vhost ref :
  takes_over (SuperStreamExchange old vhost ref) (SuperStreamExchange new vhost ref).
Proof.
  unfold SuperStreamExchange, SuperStreamExchange_Build. rewrite childMeta_same, same_name.
  constructor. simpl. intros base made stored stored' _ Hm%setOwner_spec Hs Hu%setOwner_spec.
  assert (Spec stored' = Spec stored) as Heq by by rewrite Hu, Hs, Hm, same_name.
  split; [done|]. by rewrite exchange_same_admitted.
Qed.

Lemma partition_taken_over i key vhost ref :
  takes_over (SuperStreamPartition old i key vhost ref) (SuperStreamPartition new i key vhost ref).
Proof.
  unfold SuperStreamPartition, SuperStreamPartition_Build, routingKeyLabels.
  rewrite childMeta_same, same_name.
  constructor. simpl. intros base made stored stored' Ha Hm%setOwner_spec Hs Hu%setOwner_spec.
  assert (Spec stored' = Spec stored) as Heq by by rewrite Hu, Hs, Hm, same_name.
  split; [done|]. apply queue_same_admitted; [|done]. by rewrite Hs, Hm.
Qed.

Lemma binding_taken_over i key vhost ref :
  takes_over (SuperStreamBinding old i key vhost ref) (SuperStreamBinding new i key vhost ref).
Proof.
  unfold SuperStreamBinding, SuperStreamBinding_Build, routingKeyLabels.
  rewrite childMeta_same, same_name.
  constructor. simpl. intros base made stored stored' _ Hm%setOwner_spec Hs Hu%setOwner_spec.
  assert (Spec stored' = Spec stored) as Heq by by rewrite Hu, Hs, Hm, same_name.
  split; [done|]. by rewrite binding_same_admitted.
Qed.

Lemma partitions_taken_over i keys vhost ref :
  Forall2 takes_over (partitionBuilders old i keys vhost ref) (partitionBuilders new i keys vhost ref).
Proof.
  revert i. induction keys as [|key keys IH]; intros i; [constructor|].
  constructor; [apply partition_taken_over|]. constructor; [apply binding_taken_over|apply IH].
Qed.

Lemma builders_taken_over keys vhost ref :
  Forall2 takes_over (superStreamBuilders old keys vhost ref) (superStreamBuilders new keys vhost ref).
Proof. constructor; [apply exchange_taken_over|apply partitions_taken_over]. Qed.
End successors.

Lemma partitionBuilders_app (o : SuperStream) i keys more vhost ref :
  partitionBuilders o i (keys ++ more) vhost ref =
  partitionBuilders o i keys vhost ref ++ partitionBuilders o (i + length keys) more vhost ref.
Proof.
  revert i. induction keys as [|key keys IH]; intros i; simpl; [by rewrite Nat.add_0_r|].
  by rewrite IH, Nat.add_succ_r.
Qed.

(** ** Routing keys of an admitted update *)

Lemma generated_prefix (old new : SuperStream) :
  (SuperStream_Partitions (Spec old) <= SuperStream_Partitions (Spec new))%Z ->
  generateRoutingKeys old `prefix_of` generateRoutingKeys new.
Proof.
  unfold generateRoutingKeys. intros Hle.
  destruct (decide (SuperStream_Partitions (Spec old) <= 0)%Z) as [Hneg|Hpos].
  { rewrite seqZ_nil by lia. apply prefix_nil. }
  replace (SuperStream_Partitions (Spec new)) with (SuperStream_Partitions (Spec old) +
    (SuperStream_Partitions (Spec new) - SuperStream_Partitions (Spec old)))%Z by lia.
  rewrite seqZ_app, fmap_app by lia. apply prefix_app_r. done.
Qed.

Lemma admitted_keys (old new : SuperStream) keys keys' tr :
  exec (SuperStream_ValidateUpdate old new) tr (Returned None) ->
  superStreamRoutingKeys old = inr keys -> superStreamRoutingKeys new = inr keys' ->
  keys `prefix_of` keys' /\ SuperStream_Vhost (Spec new) = SuperStream_Vhost (Spec old) /\
  SuperStream_RabbitmqClusterReference (Spec old) = SuperStream_RabbitmqClusterReference (Spec new).
Proof.
  unfold SuperStream_ValidateUpdate. intros Hx Ho Hn.
  destruct (routingKeyUpdatePermitted _ _) as [[]|] eqn:Hp; admission; simpl in *; try naive_solver.
  split; [|done]. apply routingKeyUpdatePermitted_true in Hp as [Hpre Hempty].
  unfold superStreamRoutingKeys in Ho, Hn.
  destruct (decide (SuperStream_RoutingKeys (Spec old) = [])) as [Eo|Eo].
  - rewrite bool_decide_eq_true_2 in Ho, Hn by auto. simplify_eq. apply generated_prefix. lia.
  - assert (SuperStream_RoutingKeys (Spec new) <> []) as En.
    { intros En. rewrite En in Hpre. by apply prefix_nil_inv in Hpre. }
    rewrite bool_decide_eq_false_2 in Ho, Hn by done. by repeat case_match; simplify_eq.
Qed.

(** The reference that [getRabbitmqClusterReference] answers with, which the
    children carry. *)
Definition childReference (s : SuperStream) : RabbitmqClusterReference :=
  let ref := SuperStream_RabbitmqClusterReference (Spec s) in
  mkRabbitmqClusterReference (Ref_Name ref)
    (if bool_decide (Ref_Namespace ref = "") then Namespace (resource_ObjectMeta s)
     else Ref_Namespace ref) None.

Lemma getRabbitmqClusterReference_child (s : SuperStream) tr ref :
  exec (getRabbitmqClusterReference (SuperStream_RabbitmqClusterReference (Spec s))
          (Namespace (resource_ObjectMeta s))) tr (Returned (inr ref)) ->
  ref = childReference s.
Proof.
  unfold getRabbitmqClusterReference. simpl. intros (x & tr' & -> & Hx).
  destruct x as [e|c]; simpl in Hx; [by destruct Hx|].
  destruct (AllowedNamespace _ _ _); simpl in Hx; destruct Hx as [_ Hx]; by simplify_eq.
Qed.

(** The builders of the reconciliation of super stream [s]. *)
Definition streamBuilders (s : SuperStream) (keys : list string) : list ResourceBuilder :=
  superStreamBuilders s keys (SuperStream_Vhost (Spec s)) (childReference s).

Lemma streamBuilders_app (s : SuperStream) keys more :
  streamBuilders s (keys ++ more) = streamBuilders s keys ++
    partitionBuilders s (length keys) more (SuperStream_Vhost (Spec s)) (childReference s).
Proof. unfold streamBuilders, superStreamBuilders. by rewrite partitionBuilders_app. Qed.

(** C22: Let the webhook admit an update of a super stream that names its cluster
    and that had a routing key for each partition. If it still has, its controller
    manages every child it managed, leaves their specs as they are so that the
    webhooks of queues, exchanges and bindings admit its writes, and the children
    it adds pass ValidateCreate. If it has not, which the webhook does not
    prevent, its controller writes no child. *)
Theorem stream_update_admitted (old new : SuperStream) keys tr :
  exec (SuperStream_ValidateUpdate old new) tr (Returned None) ->
  owner_name new = owner_name old ->
  Namespace (resource_ObjectMeta new) = Namespace (resource_ObjectMeta old) ->
  superStreamRoutingKeys old = inr keys ->
  Ref_Name (SuperStream_RabbitmqClusterReference (Spec new)) <> "" ->
  match superStreamRoutingKeys new with
  | inr keys' =>
      exists kept added, streamBuilders new keys' = kept ++ added /\
        Forall2 takes_over (streamBuilders old keys) kept /\ Forall creation_admitted (kept ++ added)
  | inl _ =>
      forall req calls out,
        exec (SuperStream_Reconcile req) (existT (P:=result) (CGet KSuperStream req) (inr new) :: calls) out ->
        Forall writes_no_child calls
  end.
Proof.
  intros Hx Hname Hns Ho Hne. destruct (superStreamRoutingKeys new) as [e|keys'] eqn:Hn.
  { intros req calls out Hrun%Stream_inv.
    exact (proj1 (wp_exec _ _) (unmatched_keys_no_child new e Hn) _ _ Hrun). }
  destruct (admitted_keys _ _ _ _ _ Hx Ho Hn) as ([more ->] & Hv & Href).
  do 2 eexists. split; [apply streamBuilders_app|]. split.
  - unfold streamBuilders, childReference. rewrite Hv, <- Href, Hns. by apply builders_taken_over.
  - rewrite <- streamBuilders_app. by apply builders_created.
Qed.
End admission.
