(* ===== verification/Instances.v ===== *)
(** * The libraries, concretely

    One implementation of [Libs] that satisfies [LibsOk], which shows that the
    assumptions of the development can hold, and an environment whose answers
    are given by functions, against which the definitions are run. *)

From S2P Require Import Prelude.
From S2P Require Import GoStrings.
From S2P Require Import GoErrors.
From S2P Require Import Prog.
From S2P Require Import Api.
From S2P Require Import Values.
From S2P Require Import World.
From S2P Require Import Resources.
From S2P Require Import Utils.
From Stdlib Require Import Ascii.

(** ** Retries: [DefaultRetry] makes at most five attempts *)

Fixpoint retry {S} (again : nat) (fn : S -> go (option error * S)) (s : S) :
    go (option error * S) :=
  match again with
  | O => fn s
  | Datatypes.S again =>
      bind (fn s) (fun x =>
        match x with
        | (Some e, s1) => if is_conflict e then retry again fn s1 else Ret (Some e, s1)
        | (None, s1) => Ret (None, s1)
        end)
  end.

Lemma retry_retried {S} n (fn : S -> go (option error * S)) s : wp (retry n fn s) (retried fn (Datatypes.S n) s).
Proof.
  revert s. induction n as [|n IH]; intros s; cbn [retry].
  - eapply wp_mono; [apply wp_self|]. apply retried_last.
  - eapply wp_cut; [apply wp_self|..].
    + intros tr [[e|] s1] Hx.
      * destruct (is_conflict e) eqn:E.
        { eapply wp_mono; [apply IH|]. intros tr' o Hr. by eapply retried_again. }
        { simpl. rewrite app_nil_r. by apply retried_last. }
      * simpl. rewrite app_nil_r. by apply retried_last.
    + intros tr w Hx. by apply retried_last.
Qed.

(** ** Metadata *)

Definition std_SetControllerReference (t : TypeMeta) (owner m : ObjectMeta) : error + ObjectMeta :=
  if existsb (fun r => deref (OwnerReference_Controller r) false &&
                       negb (bool_decide (OwnerReference_Name r = Name owner)))
       (OwnerReferences m)
  then inl (ErrText "already owned by another controller")
  else inr (set_OwnerReferences
         (base.filter (fun r => OwnerReference_Name r <> Name owner) (OwnerReferences m) ++
          [mkOwnerReference (apiVersion t) (Kind t) (Name owner) (Some true) (Some true)]) m).

Lemma std_SetControllerReference_owner t owner m m' :
  std_SetControllerReference t owner m = inr m' ->
  exists ref, List.find (fun r => deref (OwnerReference_Controller r) false) (OwnerReferences m') =
      Some ref /\ OwnerReference_APIVersion ref = apiVersion t /\
      OwnerReference_Kind ref = Kind t /\ OwnerReference_Name ref = Name owner.
Proof.
  unfold std_SetControllerReference. destruct (existsb _ _) eqn:E; [done|]. intros [= <-]. simpl.
  induction (OwnerReferences m) as [|ref refs IH]; [by eexists|]. simpl in E.
  apply orb_false_iff in E as [E1 E2].
  destruct (decide (OwnerReference_Name ref <> Name owner)) as [Hn|Hn].
  - rewrite filter_cons_True by done. rewrite bool_decide_eq_false_2 in E1 by done. simpl in E1 |- *.
    rewrite andb_true_r in E1. rewrite E1. by apply IH.
  - rewrite filter_cons_False by done. by apply IH.
Qed.

#[export] Instance stdLibs : Libs := {
  errtext r := "Error " +:+ Itoa (StatusCode r) +:+ " (" +:+ Message r +:+ "): " +:+ Reason r;
  ContainsFinalizer m f := bool_decide (f ∈ Finalizers m);
  AddFinalizer m f :=
    if bool_decide (f ∈ Finalizers m) then m else set_Finalizers (Finalizers m ++ [f]) m;
  RemoveFinalizer m f := set_Finalizers (base.filter (fun g => g <> f) (Finalizers m)) m;
  SetControllerReference := std_SetControllerReference;
  GetControllerOf m :=
    List.find (fun r => deref (OwnerReference_Controller r) false) (OwnerReferences m);
  RetryOnConflict _ fn s := retry 4 fn s;
  json_errtext _ := "unexpected end of JSON input";
  url_ParseError _ := None;
  ini_Load _ := inr ∅
}.

#[export] Instance stdLibsOk : LibsOk.
Proof.
  split; simpl.
  - intros m f. by rewrite bool_decide_eq_true.
  - intros m f g. case_bool_decide; simpl; set_solver.
  - intros m f. by case_bool_decide.
  - intros m f g. simpl. by rewrite list_elem_of_filter.
  - done.
  - intros t owner m m'. unfold std_SetControllerReference. destruct (existsb _ _); [done|].
    by intros [= <-].
  - apply std_SetControllerReference_owner.
  - done.
  - intros S fn s tr o. apply (proj1 (wp_exec _ _) (retry_retried 4 fn s)).
Qed.

(** ** An environment *)

Record Env := mkEnv {
  env_get : forall k, NamespacedName -> api_error + object k;
  env_list : forall k, list (object k);
  env_rmq : forall call, rmq_result call
}.

Definition ok204_response : http_result := (Some (mkHTTPResponse 204 ""), None).

(** A broker that accepts everything and holds nothing. *)
Definition empty_broker (call : rmq_call) : rmq_result call :=
  match call with
  | GetUserLimits _ | GetVhostLimits _ => inr []
  | ListQueueBindingsBetween _ _ _ | ListExchangeBindingsBetween _ _ _ => inr []
  | GetQueue _ _ => inr (mkDetailedQueueInfo 0 0)
  | _ => ok204_response
  end.

(** An API server that accepts every update. *)
Definition env_answer (v : Env) (a : action) : result a :=
  match a with
  | CGet k key | AGet k key => env_get v k key
  | CUpdate _ o | CStatusUpdate _ o => inr o
  | CList k => inr (env_list v k)
  | CListUsersByImportSecret _ _ => inr (env_list v KUser)
  | CCreateOrUpdate k o mutate =>
      match mutate o with
      | inl e => (OperationResultNone, Some e, o)
      | inr o => (OperationResultCreated, None, o)
      end
  | Eventf _ _ _ => tt
  | Now => 1000%Z
  | RandRead n => inr "abc"
  | SystemCertPool => inr (mkCertPool 1)
  | NewTLSClient _ _ _ _ | NewClient _ _ _ => None
  | Rmq _ call => env_rmq v call
  | Base64EncodedSaltedPasswordHashSHA512 p => p
  | SecretStoreClientProvider => None
  | ReadCredentials _ => inr ("guest", "guest")
  end.

Definition env_handler (v : Env) : handler result unit := fun a s => (env_answer v a, s).

Definition trace_of {A} (v : Env) (p : go A) : go_trace := (run (env_handler v) p tt).1.1.
Definition outcome_of {A} (v : Env) (p : go A) : outcome A := (run (env_handler v) p tt).1.2.

(** The run of a program is one of its executions. *)
Lemma trace_exec {A} v (p : go A) : exec p (trace_of v p) (outcome_of v p).
Proof.
  unfold trace_of, outcome_of. destruct (run (env_handler v) p tt) as [[tr o] s] eqn:E.
  by eapply run_exec.
Qed.

(** ** Example objects *)

Definition notFound : api_error := mkApiError StatusReasonNotFound "not found".

Definition exampleMeta (name : string) (deletion : option Z) (finalizers : list string) : ObjectMeta :=
  mkObjectMeta name "default" ∅ ∅ 2 deletion finalizers [].

Definition exampleRef : RabbitmqClusterReference := mkRabbitmqClusterReference "rmq" "" None.

Definition exampleCluster : RabbitmqCluster :=
  mkRabbitmqCluster (mkTypeMeta "rabbitmq.com" "v1beta1" "RabbitmqCluster")
    (exampleMeta "rmq" None []) (Some 3%Z) None "" (Some (Some "rmq")) (Some "rmq-default-user")
    false false.

Definition exampleSecret : Secret :=
  mkSecret (mkTypeMeta "" "v1" "Secret") (exampleMeta "rmq-default-user" None [])
    (<["username" := "guest"]> (<["password" := "guest"]> ∅)) "Opaque".

Definition exampleService : Service :=
  mkService (mkTypeMeta "" "v1" "Service") (exampleMeta "rmq" None [])
    [mkServicePort "amqp" 5672; mkServicePort "management" 15672].

Definition exampleExchange (deletion : option Z) (finalizers : list string) : Exchange :=
  mkResource (mkTypeMeta "rabbitmq.com" "v1beta1" "Exchange")
    (exampleMeta "ex" deletion finalizers)
    (mkExchangeSpec "ex" "/" "direct" true false None exampleRef)
    (mkCommonStatus 1 []).

(** The cluster, its secret and its service, and one exchange. *)
Definition exampleGet (ex : Exchange) (k : kind) (key : NamespacedName) : api_error + object k :=
  match k with
  | KRabbitmqCluster => inr exampleCluster
  | KSecret => inr exampleSecret
  | KService => inr exampleService
  | KExchange => inr ex
  | _ => inl notFound
  end.

Definition exampleEnv (ex : Exchange) : Env := mkEnv (exampleGet ex) (fun _ => []) empty_broker.

(** ** The traces of an environment *)

Lemma run_answers {A} v (p : go A) s tr o s' :
  run (env_handler v) p s = (tr, o, s') ->
  Forall (fun e => projT2 e = env_answer v (projT1 e)) tr.
Proof.
  revert s tr. induction p as [x|a k IH|w]; intros s tr; simpl.
  - intros [= <- _ _]. constructor.
  - destruct (run (env_handler v) (k (env_answer v a)) s) as [[tr1 o1] s2] eqn:E.
    intros [= <- <- <-]. constructor; [done|]. by eapply IH.
  - intros [= <- _ _]. constructor.
Qed.

Lemma trace_answers {A} v (p : go A) :
  Forall (fun e => projT2 e = env_answer v (projT1 e)) (trace_of v p).
Proof.
  unfold trace_of. destruct (run (env_handler v) p tt) as [[tr o] s] eqn:E.
  by eapply run_answers.
Qed.

(** The event at a place of a trace, with the trace split around it. *)
Definition pick (tr : go_trace) (n : nat) : event result :=
  match tr !! n with Some e => e | None => existT (P:=result) Now 0%Z end.
