(* ===== verification/Servers.v ===== *)
(** * A server, concretely

    A Kubernetes API that stores objects of all kinds, a broker that is a finite map
    and a clock that never shows the same time twice: a model of the laws [ServerOk] of Lifecycle.v and of the laws of Broker.v. *)

From S2P Require Import Prelude.
From S2P Require Import GoStrings.
From S2P Require Import GoErrors.
From S2P Require Import Prog.
From S2P Require Import Api.
From S2P Require Import Values.
From S2P Require Import World.
From S2P Require Import Resources.
From S2P Require Import Utils.
From S2P Require Import TopologyReconciler.
From S2P Require Import Controllers.
From S2P Require Import ControllerProofs.
From S2P Require Import Broker.
From S2P Require Import Lifecycle.
From S2P Require Import LifecycleKinds.
From S2P Require Import Instances.

(** ** Names of bindings *)

(** A binding is known by its properties key; all arguments have one hash. *)
#[export] Instance stdBroker : BrokerLib := {
  binding_id key args :=
    match entries args with
    | [] => if bool_decide (key = "") then "~" else tilde_escaped key
    | _ :: _ => tilde_escaped key +:+ "~hash"
    end;
  named_by p := p
}.

#[export] Instance stdBrokerOk : BrokerLibOk.
Proof.
  split; [|done|].
  - intros key args args'. simpl. destruct args as [m|], args' as [m'|]; simpl; try done.
    destruct m, m'; done.
  - intros key Hne _. simpl. by rewrite bool_decide_eq_false_2.
Qed.

(** ** Objects *)

Definition store := forall k, NamespacedName -> option (object k).

Definition put_object (k : kind) (key : NamespacedName) (o : option (object k)) (f : store) : store :=
  fun k' key' =>
    match decide (k = k') with
    | left E => if decide (key = key') then eq_rect k (fun k => option (object k)) o k' E else f k' key'
    | right _ => f k' key'
    end.

Lemma put_object_same k key o f : put_object k key o f k key = o.
Proof.
  unfold put_object. destruct (decide (k = k)) as [E|]; [|done].
  by rewrite decide_True, (proof_irrel E eq_refl).
Qed.
Lemma put_object_other k key o f k' key' :
  (k', key') <> (k, key) -> put_object k key o f k' key' = f k' key'.
Proof.
  unfold put_object. intros Hne. destruct (decide (k = k')) as [<-|]; [|done].
  rewrite decide_False; [done|congruence].
Qed.

Definition name_of (k : kind) (o : object k) : NamespacedName :=
  mkNamespacedName (Namespace (meta k o)) (Name (meta k o)).

(** The objects, the broker and the time. *)
Record Store := mkStore { store_objects : store; store_entries : broker_state; store_time : Z }.

(** Objects are found under their own name. *)
Definition stored_objects (s : Store) (k : kind) (key : NamespacedName) : option (object k) :=
  match store_objects s k key with
  | Some o => if decide (name_of k o = key) then Some o else None
  | None => None
  end.

Lemma stored_named s k key o : stored_objects s k key = Some o -> name_of k o = key.
Proof. unfold stored_objects. destruct (store_objects s k key); [|done]. case_decide; naive_solver. Qed.

(** ** Entries of the broker *)

(** A limit is kept as the call that sets it alone. *)
Definition consistent (key : bkey) (call : rmq_call) : bool :=
  match key, call with
  | BVhostLimit v limit, PutVhostLimits v' l =>
      bool_decide (v = v') &&
      match (l : gmap string Z) !! limit with
      | Some z => bool_decide ((l : gmap string Z) = <[limit := z]> ∅)
      | None => false
      end
  | BVhostLimit _ _, _ => false
  | _, _ => true
  end.

Definition store_broker (s : Store) : broker_state :=
  base.filter (fun kv => consistent kv.1 kv.2 = true) (store_entries s).

Lemma lookup_filter_consistent (b : broker_state) key :
  (base.filter (fun kv => consistent kv.1 kv.2 = true) b : broker_state) !! key =
  match b !! key with
  | Some call => if consistent key call then Some call else None
  | None => None
  end.
Proof.
  destruct (b !! key) as [call|] eqn:E.
  - destruct (consistent key call) eqn:Ec.
    + by apply map_lookup_filter_Some.
    + apply map_lookup_filter_None. right. intros call' Hc. simpl. rewrite E in Hc.
      injection Hc as <-. by rewrite Ec.
  - apply map_lookup_filter_None. by left.
Qed.

Lemma store_broker_limit s vhost limit call :
  store_broker s !! BVhostLimit vhost limit = Some call -> exists z, call = limit_call vhost limit z.
Proof.
  unfold store_broker. rewrite lookup_filter_consistent.
  destruct (store_entries s !! BVhostLimit vhost limit) as [c|]; [|done].
  destruct (consistent _ c) eqn:E; [|done]. intros [= <-]. destruct c; simpl in E; try done.
  apply andb_true_iff in E as [->%bool_decide_eq_true E].
  unfold LimitsValues in *. destruct (l !! limit) as [z|]; [|done].
  apply bool_decide_eq_true in E as ->. by exists z.
Qed.

(** The limits of a virtual host, read off the entries. *)
Definition limit_of_entry (vhost : string) (kv : bkey * rmq_call) : option (string * Z) :=
  match kv with
  | (BVhostLimit v limit, PutVhostLimits _ l) =>
      if bool_decide (v = vhost) then pair limit <$> (l : gmap string Z) !! limit else None
  | _ => None
  end.
Definition limits_of_broker (vhost : string) (b : broker_state) : gmap string Z :=
  list_to_map (omap (limit_of_entry vhost) (map_to_list b)).

Lemma limit_of_entry_spec vhost s limit z :
  (limit, z) ∈ omap (limit_of_entry vhost) (map_to_list (store_broker s)) <->
  store_broker s !! BVhostLimit vhost limit = Some (limit_call vhost limit z).
Proof.
  rewrite list_elem_of_omap. split.
  - intros ([key call] & Hin%elem_of_map_to_list & Hl). destruct key as [| v limit'| | | | | | | | | | |]; try done.
    destruct (store_broker_limit _ _ _ _ Hin) as [z' ->]. simpl in Hl. case_bool_decide; [|done]. subst.
    rewrite lookup_insert_eq in Hl. by injection Hl as -> ->.
  - intros Hin. exists (BVhostLimit vhost limit, limit_call vhost limit z).
    split; [by apply elem_of_map_to_list|]. simpl. by rewrite bool_decide_eq_true_2, lookup_insert_eq.
Qed.

Lemma limits_of_broker_spec vhost s : limits_in vhost (store_broker s) (limits_of_broker vhost (store_broker s)).
Proof.
  intros limit. unfold limits_of_broker.
  destruct (store_broker s !! BVhostLimit vhost limit) as [call|] eqn:E.
  - destruct (store_broker_limit _ _ _ _ E) as [z ->]. symmetry. apply fmap_Some. exists z. split; [|done].
    apply elem_of_list_to_map_1'; [|by apply limit_of_entry_spec].
    intros z' Hin%limit_of_entry_spec. rewrite E in Hin.
    apply (f_equal (fun c => match c with
      | Some (PutVhostLimits _ l) => (l : gmap string Z) !! limit | _ => None end)) in Hin.
    cbn in Hin. rewrite !lookup_insert_eq in Hin. by injection Hin.
  - symmetry. apply fmap_None, not_elem_of_list_to_map_1.
    intros ([limit' z] & Hl & Hin)%list_elem_of_fmap. simpl in Hl. subst limit'.
    apply limit_of_entry_spec in Hin. congruence.
Qed.

(** The bindings between a source and a destination. *)
Definition binding_of_entry (vhost source dest destType : string) (kv : bkey * rmq_call) : option BindingInfo :=
  match kv with
  | (key, DeclareBinding v info) =>
      if bool_decide (v = vhost) && bool_decide (key = declared_at vhost info) &&
         bool_decide (BindingInfo_Source info = source) &&
         bool_decide (BindingInfo_Destination info = dest) &&
         bool_decide (BindingInfo_DestinationType info = destType)
      then Some (set_PropertiesKey
             (binding_id (BindingInfo_RoutingKey info) (BindingInfo_Arguments info)) info)
      else None
  | _ => None
  end.
Definition bindings_of_broker (vhost source dest destType : string) (b : broker_state) : list BindingInfo :=
  omap (binding_of_entry vhost source dest destType) (map_to_list b).

Lemma bindings_of_broker_spec vhost source dest destType b :
  lists_bindings b vhost source dest destType (bindings_of_broker vhost source dest destType b).
Proof.
  split.
  - intros i ([key call] & _ & Hi)%list_elem_of_omap. destruct call; try done. cbn [binding_of_entry] in Hi.
    destruct (_ && _) eqn:E; [|done]. apply (inj Some) in Hi as <-. bool_hyps. subst.
    done.
  - intros i <- <- <- Hb Hself.
    exists (set_PropertiesKey (binding_id (BindingInfo_RoutingKey i) (BindingInfo_Arguments i)) i).
    split; [|by split]. apply list_elem_of_omap. exists (declared_at vhost i, DeclareBinding vhost i).
    split; [by apply elem_of_map_to_list|]. unfold binding_of_entry. by rewrite !bool_decide_eq_true_2.
Qed.

(** ** Calls *)

(** The broker accepts what has all it needs, and what it has already. *)
Definition admits (b : broker_state) (call : rmq_call) : bool :=
  forallb (fun key => bool_decide (is_Some (b !! key))) (needs call) ||
  match puts call with Some key => bool_decide (is_Some (b !! key)) | None => false end.
Definition willingly (b : broker_state) (call : rmq_call) : Prop := admits b call = true.

Definition response (code : Z) : http_result := (Some (mkHTTPResponse code ""), None).

(** The answer [r] to a call that is answered by a response. *)
Definition respond (r : http_result) (call : rmq_call) : rmq_result call :=
  match call with
  | GetUserLimits _ | GetVhostLimits _ => inr []
  | ListQueueBindingsBetween _ _ _ | ListExchangeBindingsBetween _ _ _ => inr []
  | GetQueue _ _ => inr (mkDetailedQueueInfo 0 0)
  | _ => r
  end.

Definition set_entries (b : broker_state) (s : Store) : Store := mkStore (store_objects s) b (store_time s).

Definition storePut (call : rmq_call) (key : bkey) (s : Store) : rmq_result call * Store :=
  if admits (store_broker s) call
  then (respond (response 201) call, set_entries (<[key := call]> (store_entries s)) s)
  else (respond (response 400) call, s).

Definition storeDelete (call : rmq_call) (key : bkey) (s : Store) : rmq_result call * Store :=
  (respond (response (if decide (store_broker s !! key = None) then 404 else 204)) call,
   set_entries (wipe key (store_entries s)) s).

Definition storeRmq (call : rmq_call) (s : Store) : rmq_result call * Store :=
  match call return rmq_result call * Store with
  | GetVhostLimits v => (inr [limits_of_broker v (store_broker s)], s)
  | PutVhostLimits v l =>
      if decide (is_Some (store_broker s !! BVhost v))
      then (response 204, set_entries (limit_entries v l ∪ store_entries s) s)
      else (response 404, s)
  | DeleteVhostLimits v ls =>
      if decide (is_Some (store_broker s !! BVhost v))
      then (response 204, set_entries (drop_limits_at v ls (store_entries s)) s)
      else (response 404, s)
  | ListQueueBindingsBetween v src dst => (inr (bindings_of_broker v src dst "queue" (store_broker s)), s)
  | ListExchangeBindingsBetween v src dst => (inr (bindings_of_broker v src dst "exchange" (store_broker s)), s)
  | call =>
      match puts call, deletes call with
      | Some key, _ => storePut call key s
      | None, Some key => storeDelete call key s
      | None, None => (respond (response 204) call, s)
      end
  end.

Definition storeReads (a : action) : result a := env_answer (exampleEnv (exampleExchange None [])) a.

Definition storeGet (s : Store) (k : kind) (key : NamespacedName) : api_error + object k :=
  match k return api_error + object k with
  | KSecret => storeReads (CGet KSecret key)
  | KService => storeReads (CGet KService key)
  | KRabbitmqCluster => storeReads (CGet KRabbitmqCluster key)
  | k => match stored_objects s k key with Some o => inr o | None => inl notFound end
  end.

Definition storeHandler : handler result Store :=
  fun a s =>
    match a with
    | CGet k key => (storeGet s k key, s)
    | CUpdate k o =>
        (inr o, mkStore (put_object k (name_of k o)
           (if decide (is_Some (DeletionTimestamp (meta k o)) /\ Finalizers (meta k o) = [])
            then None else Some o) (store_objects s)) (store_entries s) (store_time s))
    | CStatusUpdate k o =>
        (inr o, mkStore (put_object k (name_of k o) (Some o) (store_objects s)) (store_entries s) (store_time s))
    | Now => (store_time s, mkStore (store_objects s) (store_entries s) (store_time s + 1)%Z)
    | Rmq c call => storeRmq call s
    | a => (storeReads a, s)
    end.

(** ** The laws *)

Lemma puts_consistent call key : puts call = Some key -> consistent key call = true.
Proof. by destruct call; intros [= <-]. Qed.

Ltac by_entry :=
  apply map_eq; intros key'; unfold store_broker; simpl store_entries;
  rewrite ?lookup_filter_consistent.

Lemma store_broker_insert s call key :
  puts call = Some key ->
  store_broker (set_entries (<[key := call]> (store_entries s)) s) = <[key := call]> (store_broker s).
Proof.
  intros Hc%puts_consistent. by_entry. destruct (decide (key = key')) as [<-|Hne].
  - by rewrite !lookup_insert_eq, Hc.
  - by rewrite !lookup_insert_ne, lookup_filter_consistent.
Qed.

Lemma store_broker_wipe s key :
  store_broker (set_entries (wipe key (store_entries s)) s) = wipe key (store_broker s).
Proof. by_entry. rewrite !lookup_wipe, lookup_filter_consistent. by destruct (covers key key'). Qed.

Lemma store_broker_limits s vhost l :
  store_broker (set_entries (limit_entries vhost l ∪ store_entries s) s) =
  limit_entries vhost l ∪ store_broker s.
Proof.
  by_entry. rewrite !lookup_union, lookup_filter_consistent.
  destruct (limit_entries vhost l !! key') as [call|] eqn:E; [|by rewrite !(left_id_L None _)].
  rewrite !union_Some_l. replace (consistent key' call) with true; [done|].
  rewrite lookup_limit_entries in E. destruct key'; try done. case_decide; [subst|done].
  apply fmap_Some in E as (z & _ & ->). simpl. by rewrite lookup_insert_eq, !bool_decide_eq_true_2.
Qed.

Lemma store_broker_drop s vhost ls :
  store_broker (set_entries (drop_limits_at vhost ls (store_entries s)) s) =
  drop_limits_at vhost ls (store_broker s).
Proof. by_entry. rewrite !lookup_drop_limits_at, lookup_filter_consistent. by case_decide. Qed.

(** The answers. *)
Lemma accepted_204 : accepted (response 204).
Proof. by eexists. Qed.

Lemma storePut_spec call key s :
  puts call = Some key ->
  exists x res s', storeRmq call s = (x, s') /\ http_answer call x = Some res /\
    store_objects s' = store_objects s /\ (willingly (store_broker s) call -> accepted res) /\
    (accepted res /\ store_broker s' = <[key := call]> (store_broker s) \/
     ~ accepted res /\ store_broker s' = store_broker s).
Proof.
  intros Hp.
  assert (Heq : storeRmq call s = storePut call key s) by (destruct call; try done; by injection Hp as <-).
  assert (Hans : forall r, http_answer call (respond r call) = Some r) by (by destruct call).
  rewrite Heq. unfold storePut, willingly. destruct (admits (store_broker s) call).
  - exists (respond (response 201) call), (response 201). eexists. split; [done|].
    split_and!; [done|done|by eexists|]. left. split; [by eexists|by apply store_broker_insert].
  - exists (respond (response 400) call), (response 400), s. split_and!; [done|done|done|done|].
    right. split; [|done]. by intros (? & [= <-] & ?).
Qed.

Lemma storeDelete_spec call key s :
  deletes call = Some key ->
  exists x res s', storeRmq call s = (x, s') /\ http_answer call x = Some res /\
    (if decide (store_broker s !! key = None) then says_not_found res else accepted res) /\
    store_objects s' = store_objects s /\ store_broker s' = wipe key (store_broker s).
Proof.
  intros Hd.
  assert (Heq : storeRmq call s = storeDelete call key s).
  { destruct call; try done; simpl in Hd |- *; rewrite ?Hd; try by injection Hd as <-.
    all: by destruct (IfEmpty o || IfUnused o); [|injection Hd as <-]. }
  assert (Hans : forall r, http_answer call (respond r call) = Some r) by (by destruct call).
  rewrite Heq. unfold storeDelete. eexists _, _, _. split; [reflexivity|].
  split; [apply Hans|]. split; [by case_decide; eexists|]. split; [done|apply store_broker_wipe].
Qed.

Lemma stored_put k req (o : object k) v f b z :
  name_of k o = req -> v = None \/ v = Some o ->
  stored k req stored_objects (mkStore (put_object k (name_of k o) v f) b z) = v.
Proof.
  unfold stored, stored_objects. simpl. intros <-. rewrite put_object_same.
  intros [->| ->]; [done|]. by rewrite decide_True.
Qed.

(** The objects of another name are left alone. *)
Lemma put_elsewhere s k req (o : object k) v b z :
  name_of k o = req ->
  elsewhere k req stored_objects s (mkStore (put_object k (name_of k o) v (store_objects s)) b z).
Proof.
  intros <- k' req' Hne. unfold stored_objects. simpl. by rewrite put_object_other.
Qed.

Lemma variant_name k `{!TopologyResource k} `{!TopologyResourceOk k} (o o' : object k) :
  status_variant o o' -> name_of k o = name_of k o'.
Proof.
  intros Hv. unfold name_of. by rewrite (variant_respects (meta k) o o' SetStatusConditions_meta
    set_generation_meta Hv).
Qed.

Lemma store_ok k `{!TopologyResource k} `{!TopologyResourceOk k} req :
  ~ unmanaged k ->
  ServerOk k req storeHandler storeReads stored_objects store_broker willingly.
Proof.
  intros Hk. split.
  - intros a s Ha. destruct a; try done. by destruct k0.
  - intros s o Ho. unfold stored in Ho. simpl. unfold storeGet. destruct k; try done; by rewrite Ho.
  - intros s Ho. exists notFound. split; [|done]. unfold stored in Ho. simpl. unfold storeGet.
    destruct k; try done; by rewrite Ho.
  - intros s a Ha. by destruct a.
  - intros s o m Ho Hm. pose proof (stored_named _ _ _ _ Ho) as Hname.
    assert (Hname' : name_of k (set_meta k m o) = req).
    { rewrite <- Hname. unfold name_of. rewrite meta_set_meta. f_equal; by injection Hm. }
    eexists. split; [reflexivity|]. rewrite meta_set_meta. split; [|split; [by apply put_elsewhere|done]].
    apply stored_put; [done|]. case_decide; auto.
  - intros s o o' Ho Hv. pose proof (stored_named _ _ _ _ Ho) as Hname.
    rewrite (variant_name k o o' Hv) in Hname. eexists. split; [reflexivity|].
    split; [apply stored_put; auto|]. split; [by apply put_elsewhere|done].
  - intros b call key Hp Hb. unfold willingly, admits. rewrite Hp.
    apply orb_true_iff. right. apply bool_decide_eq_true. by eexists.
  - intros s c call key Hp. destruct (storePut_spec call key s Hp) as (x & res & s' & Hh & Hx & Hobj & Hrest).
    exists x, res, s'. split_and!; [done|done| |by apply Hrest..].
    intros k' req'. unfold stored_objects. by rewrite Hobj.
  - intros s c call key Hd. destruct (storeDelete_spec call key s Hd) as (x & res & s' & Hh & Hx & Hr & Hobj & Hb).
    exists x, res, s'. split_and!; [done|done|done| |done].
    intros k' req'. unfold stored_objects. by rewrite Hobj.
  - intros s c vhost. do 2 eexists. split; [reflexivity|]. split; [by left|apply limits_of_broker_spec].
  - intros s c vhost l Hv. eexists _, _. split; [simpl; by rewrite decide_True|].
    split; [apply accepted_204|]. split; [done|apply store_broker_limits].
  - intros s c vhost ls Hv. eexists _, _. split; [simpl; by rewrite decide_True|].
    split; [apply accepted_204|]. split; [done|apply store_broker_drop].
  - intros s c vhost src dst _. eexists. split; [reflexivity|apply bindings_of_broker_spec].
  - intros s c vhost src dst _. eexists. split; [reflexivity|apply bindings_of_broker_spec].
Qed.

(** ** The cluster of the examples *)

Definition config : ReconcilerConfig := mkReconcilerConfig "" false true 1.

Lemma reachable_all k `{!TopologyResource k} (o : object k) :
  RabbitReference o = exampleRef -> Namespace (meta k o) = "default" -> reachable k config storeReads o.
Proof. intros Hr Hn. unfold reachable. rewrite Hr, Hn. do 4 eexists. split_and!; vm_compute; reflexivity. Qed.

