(* ===== verification/SecretWatch.v ===== *)
(** * The watch on secrets (internal/controller/user_controller.go)

    A change of a secret reconciles the users that depend on it. *)

From S2P Require Import Prelude.
From S2P Require Import GoStrings.
From S2P Require Import GoErrors.
From S2P Require Import Prog.
From S2P Require Import Api.
From S2P Require Import Values.
From S2P Require Import World.
From S2P Require Import Resources.
From S2P Require Import ParseReferenceProofs.
From S2P Require Import Lifecycle.
From S2P Require Import UserController.

Section watch.
Context `{LibsOk}.

Definition user_request (u : User) : NamespacedName :=
  mkNamespacedName (Namespace (resource_ObjectMeta u)) (Name (resource_ObjectMeta u)).

(** The index answers with the users of the namespace that have the secret's name
    among the values of the index function. *)
Definition indexed (users : list User) (reads : forall a, result a) : Prop :=
  forall ns name, exists items,
    reads (CListUsersByImportSecret ns name) = inr items /\
    forall u, u ∈ items <->
      u ∈ users /\ Namespace (resource_ObjectMeta u) = ns /\ name ∈ importSecretIndex u.

(** The generated secret is handed to its user, also after its owner references
    have been changed not to block deletion. *)
Lemma find_unblock kind refs :
  List.find (fun ref => deref (OwnerReference_Controller ref) false) (unblock kind <$> refs) =
  unblock kind <$> List.find (fun ref => deref (OwnerReference_Controller ref) false) refs.
Proof.
  induction refs as [|ref refs IH]; [done|]. csimpl.
  replace (OwnerReference_Controller (unblock kind ref)) with (OwnerReference_Controller ref)
    by (unfold unblock; by case_bool_decide).
  by destruct (deref (OwnerReference_Controller ref) false).
Qed.

Lemma labelAndOwn_controller (user : User) secret secret' :
  labelAndOwn user secret = inr secret' ->
  Namespace (Secret_ObjectMeta secret') = Namespace (Secret_ObjectMeta secret) /\
  exists ref, GetControllerOf (Secret_ObjectMeta secret') = Some ref /\
    OwnerReference_Kind ref = ownerKind /\
    OwnerReference_Name ref = Name (resource_ObjectMeta user).
Proof.
  unfold labelAndOwn. destruct (SetControllerReference _ _ _) as [e|m] eqn:E; [done|].
  intros [= <-]. simpl. pose proof (SetControllerReference_rest _ _ _ _ E) as Hrest.
  apply SetControllerReference_owner in E as (ref & Hc & _ & Hk & Hn). split.
  - by injection Hrest.
  - exists (unblock (Kind (resource_TypeMeta user)) ref).
    rewrite GetControllerOf_spec in Hc |- *. simpl. rewrite find_unblock, Hc. split; [done|].
    unfold unblock. by case_bool_decide.
Qed.

Lemma importSecretIndex_spec (u : User) name :
  name ∈ importSecretIndex u <->
  LocalObjectReference_Name <$> User_ImportCredentialsSecret (Spec u) = Some name.
Proof.
  unfold importSecretIndex. destruct (User_ImportCredentialsSecret (Spec u)) as [ref|]; simpl.
  - rewrite list_elem_of_singleton. split; [by intros -> | by intros [= ->]].
  - split; [by intros ?%not_elem_of_nil | done].
Qed.

(** C24: A change of the secret that the operator generated for a user enqueues
    that user; a change of any other secret enqueues exactly the users of its
    namespace that import it. *)
Theorem secret_watch users reads secret :
  indexed users reads ->
  (forall user base,
     labelAndOwn user base = inr secret ->
     outcome_with reads (secretToUserRequests secret) =
       Returned [mkNamespacedName (Namespace (Secret_ObjectMeta base)) (Name (resource_ObjectMeta user))]) /\
  ((forall ref, GetControllerOf (Secret_ObjectMeta secret) = Some ref ->
      OwnerReference_Kind ref <> ownerKind) ->
   exists reqs, outcome_with reads (secretToUserRequests secret) = Returned reqs /\
     forall q, q ∈ reqs <-> exists u, u ∈ users /\ q = user_request u /\
       Namespace (resource_ObjectMeta u) = Namespace (Secret_ObjectMeta secret) /\
       LocalObjectReference_Name <$> User_ImportCredentialsSecret (Spec u) =
         Some (Name (Secret_ObjectMeta secret))).
Proof.
  intros Hidx. split.
  - intros user base (Hns & ref & Hc & Hk & Hn)%labelAndOwn_controller.
    unfold secretToUserRequests. rewrite Hc, Hk, bool_decide_eq_true_2 by done.
    unfold outcome_with. simpl. by rewrite Hn, Hns.
  - intros Hother.
    destruct (Hidx (Namespace (Secret_ObjectMeta secret)) (Name (Secret_ObjectMeta secret)))
      as (items & Hitems & Hin).
    assert (Heq : outcome_with reads (secretToUserRequests secret) = Returned (user_request <$> items)).
    { unfold secretToUserRequests, outcome_with. destruct (GetControllerOf _) as [ref|].
      - rewrite bool_decide_eq_false_2 by auto. simpl. by rewrite Hitems.
      - simpl. by rewrite Hitems. }
    eexists. split; [exact Heq|]. intros q. rewrite list_elem_of_fmap. split.
    + intros (u & -> & (Hu & Hns & Hix%importSecretIndex_spec)%Hin). by exists u.
    + intros (u & Hu & -> & Hns & Hix%importSecretIndex_spec). exists u. split; [done|]. by apply Hin.
Qed.
End watch.
