(* ===== verification/PermissionDeletion.v ===== *)
(** * The deletion of permissions

    DeleteFunc of permissions and topic permissions removes the finalizer itself,
    and the reconciler removes it again.  When it was the last one the object is
    gone by then. *)

From S2P Require Import Prelude.
From S2P Require Import GoStrings.
From S2P Require Import GoErrors.
From S2P Require Import Prog.
From S2P Require Import Api.
From S2P Require Import Values.
From S2P Require Import World.
From S2P Require Import Resources.
From S2P Require Import Settings.
From S2P Require Import ParseReference.
From S2P Require Import Utils.
From S2P Require Import TopologyReconciler.
From S2P Require Import Controllers.
From S2P Require Import PermissionControllers.
From S2P Require Import NoPanic.
From S2P Require Import Faults.

(** Kubernetes lets an object go with its last finalizer once it is marked for
    deletion: no later update finds it. *)
Definition goes_with_last_finalizer (k : kind) (tr : go_trace) : Prop :=
  forall tr1 sent stored tr2,
    tr = tr1 ++ existT (P:=result) (CUpdate k sent) (inr stored) :: tr2 ->
    is_Some (DeletionTimestamp (meta k sent)) -> Finalizers (meta k sent) = [] ->
    forall sent' x, existT (P:=result) (CUpdate k sent') x ∈ tr2 -> exists e, x = inl e.

Section deletion.
Context `{LibsOk}.

(** A program that succeeds only after it has removed the finalizer of [o]. *)
Definition releases {k} (o : object k) (tr : go_trace) (out : outcome (option error * object k)) : Prop :=
  forall o', out = Returned (None, o') ->
  exists tr1 sent stored, tr = tr1 ++ [existT (P:=result) (CUpdate k sent) (inr stored)] /\
    (forall f, f ∈ Finalizers (meta k sent) <-> f <> finalizerOf k o /\ f ∈ Finalizers (meta k o)) /\
    set_Finalizers [] (meta k sent) = set_Finalizers [] (meta k o).

Lemma releases_app {k} (o : object k) tr1 tr2 out :
  releases o tr2 out -> releases o (tr1 ++ tr2) out.
Proof.
  intros Hr o' Hout. destruct (Hr o' Hout) as (tr & sent & stored & -> & Hs).
  exists (tr1 ++ tr), sent, stored. by rewrite app_assoc.
Qed.

Lemma removeFinalizer_releases k (o : object k) : wp (removeFinalizer k o) (releases o).
Proof.
  eapply wp_mono; [apply removeFinalizer_spec|].
  intros tr out (sent & r & err & o' & -> & -> & Hf & Hm & Herr) o2 [= -> ->].
  destruct (proj1 Herr eq_refl) as [stored ->]. by exists [], sent, stored.
Qed.

(** The common end of both functions, after the user has been found. *)
Lemma revoke_releases {k} (o : object k) (p : go (option error)) :
  wp (bind p (fun err => match err with
                         | Some e => Ret (Some e, o)
                         | None => removeFinalizer k o
                         end)) (releases o).
Proof.
  eapply (wp_cut _ _ (fun _ _ => True)); [by apply wp_exec|..]; [|done].
  intros tr [e|] _; [done|]. eapply wp_mono; [apply removeFinalizer_releases|].
  intros tr' out. apply releases_app.
Qed.

Lemma found_releases {k} (o : object k) (p : go (error + (option User * string)))
    (revoke : string -> go (option error)) :
  wp (bind p (fun found => match found with
       | inl e => Ret (Some e, o)
       | inr (_, username) =>
           bind (if bool_decide (username = "") then Ret None else revoke username) (fun err =>
             match err with Some e => Ret (Some e, o) | None => removeFinalizer k o end)
       end)) (releases o).
Proof.
  eapply (wp_cut _ _ (fun _ _ => True)); [by apply wp_exec|..]; [|done].
  intros tr [e|[u name]] _; [done|]. eapply wp_mono; [apply revoke_releases|].
  intros tr' out. apply releases_app.
Qed.

(** A kind whose [DeleteFunc] releases the object is not deleted without an
    error. *)
Lemma second_removal_fails (k : kind) `{!TopologyResource k} `{!ReconcileFunc k}
    `{!ReconcileFuncSafe k} c (o : object k) tr out :
  wp (DeleteFunc c o) (releases o) ->
  exec (reconcileDelete k c o) tr out -> goes_with_last_finalizer k tr ->
  is_Some (DeletionTimestamp (meta k o)) -> Finalizers (meta k o) = [finalizerOf k o] ->
  exists res e, out = Returned (res, Some e).
Proof.
  intros Hrel Hx Hgone Hdel Hfin.
  pose proof (proj1 (wp_exec _ _) (reconcileDelete_safe k c o) _ _ Hx) as Hret.
  destruct out as [[res [e|]]|w]; [by exists res, e|exfalso|done].
  unfold reconcileDelete in Hx. apply exec_bind in Hx as [(tr1 & [err o1] & tr2 & -> & Hd & Hx)|(w & _ & [=])].
  destruct err as [e|]; [by destruct Hx as (x & tr' & _ & _ & [=])|].
  destruct (proj1 (wp_exec _ _) Hrel _ _ Hd o1 eq_refl) as (tr0 & sent & stored & -> & Hf & Hm).
  cbn [bind act exec] in Hx. destruct Hx as (u & tr3 & -> & Hx).
  apply exec_bind in Hx as [(tr4 & [err o2] & tr5 & -> & Hr & [-> Hx])|(w & _ & [=])].
  injection Hx as _ <-. apply (proj1 (wp_exec _ _) (removeFinalizer_releases k o1)) in Hr.
  destruct (Hr o2 eq_refl) as (tr6 & sent' & stored' & -> & _).
  destruct (Hgone tr0 sent stored ([existT (P:=result) _ u] ++ (tr6 ++
    [existT (P:=result) (CUpdate k sent') (inr stored')]) ++ [])) with sent' (inr stored' : result (CUpdate k sent'))
    as [e [=]].
  - by rewrite <- app_assoc.
  - apply (f_equal DeletionTimestamp) in Hm. simpl in Hm. by rewrite Hm.
  - apply elem_of_nil_inv. intros f Hin. apply Hf in Hin as [Hne Hin]. rewrite Hfin in Hin.
    by apply list_elem_of_singleton in Hin.
  - set_solver.
Qed.

(** C32: A permission or topic permission that is being deleted with only the
    operator's finalizer is never deleted without an error: DeleteFunc removes the
    finalizer and with it the object, and the reconciler then fails to remove it
    again. *)
Theorem permission_deletion_error c :
  (forall p tr out, exec (reconcileDelete KPermission c p) tr out ->
     goes_with_last_finalizer KPermission tr -> is_Some (DeletionTimestamp (meta KPermission p)) ->
     Finalizers (meta KPermission p) = [finalizerOf KPermission p] ->
     exists res e, out = Returned (res, Some e)) /\
  (forall p tr out, exec (reconcileDelete KTopicPermission c p) tr out ->
     goes_with_last_finalizer KTopicPermission tr ->
     is_Some (DeletionTimestamp (meta KTopicPermission p)) ->
     Finalizers (meta KTopicPermission p) = [finalizerOf KTopicPermission p] ->
     exists res e, out = Returned (res, Some e)).
Proof.
  split; intros p tr out.
  - apply (second_removal_fails KPermission c p tr out).
    exact (found_releases (k:=KPermission) p _ (revokePermissions c p)).
  - apply (second_removal_fails KTopicPermission c p tr out).
    exact (found_releases (k:=KTopicPermission) p _ (clearTopicPermission c p)).
Qed.
End deletion.
