(* ===== verification/Rest.v ===== *)
(** * The REST client as the generated clients see it (k8s.io/client-go/rest)

    A generated client builds a request call by call ([Get().Namespace(ns).
    Resource("queues")...]) and ends it with [Do(ctx).Into(result)], [Do(ctx).
    Error()] or [Watch(ctx)].  client-go is not code of this repository, so a
    request is the log of the calls that built it and the end of the chain is an
    action with an arbitrary answer.  The configuration of a client has the fields
    that the generated code reads or writes. *)

From S2P Require Import Prelude.
From S2P Require Import GoStrings.
From S2P Require Import GoErrors.
From S2P Require Import Prog.
From S2P Require Import Api.
From S2P Require Import Scheme.
From Stdlib Require Import SpecFloat.
Import ProgNotations.

(** ** Options of the calls (metav1) *)

Record GetOptions := mkGetOptions { GetOptions_ResourceVersion : string }.

Record ListOptions := mkListOptions {
  LabelSelector : string;
  FieldSelector : string;
  Watch : bool;
  AllowWatchBookmarks : bool;
  ListOptions_ResourceVersion : string;
  ResourceVersionMatch : string;
  TimeoutSeconds : option Z;
  Limit : Z;
  Continue : string;
  SendInitialEvents : option bool
}.

Definition set_Watch (b : bool) (o : ListOptions) : ListOptions :=
  mkListOptions (LabelSelector o) (FieldSelector o) b (AllowWatchBookmarks o)
    (ListOptions_ResourceVersion o) (ResourceVersionMatch o) (TimeoutSeconds o) (Limit o)
    (Continue o) (SendInitialEvents o).

Record WriteOptions := mkWriteOptions {
  DryRun : list string;
  FieldManager : string;
  FieldValidation : string;
  Force : option bool
}.
(** [CreateOptions], [UpdateOptions] and [PatchOptions]; only the last has [Force]. *)
Definition CreateOptions := WriteOptions.
Definition UpdateOptions := WriteOptions.
Definition PatchOptions := WriteOptions.

Record DeleteOptions := mkDeleteOptions {
  GracePeriodSeconds : option Z;
  PropagationPolicy : option string;
  DeleteOptions_DryRun : list string
}.

(** ** Requests *)

Inductive Verb := GET | POST | PUT | DELETE | PATCH (pt : string).

Inductive request_params :=
| ParamsGet (o : GetOptions) | ParamsList (o : ListOptions) | ParamsCreate (o : CreateOptions)
| ParamsUpdate (o : UpdateOptions) | ParamsPatch (o : PatchOptions).

Inductive request_body :=
| BodyObject (k : kind) (o : object k) | BodyDeleteOptions (o : DeleteOptions)
| BodyBytes (data : string).

(** The calls on a request that is being built. *)
Inductive building :=
| CallNamespace (ns : string)
| CallResource (r : string)
| CallName (n : string)
| CallSubResource (subs : list string)
| CallVersionedParams (p : request_params)
| CallTimeout (d : Z)
| CallBody (b : request_body).

(** ** Configurations *)

(** [flowcontrol.RateLimiter]: what it was made from. *)
Inductive RateLimiter := NewTokenBucketRateLimiter (qps : spec_float) (burst : Z) | OtherLimiter (id : Z).

(** [runtime.NegotiatedSerializer] *)
Inductive Serializer := CodecsWithoutConversion | OtherSerializer (id : Z).

Record Config := mkConfig {
  Host : string;
  APIPath : string;
  Config_GroupVersion : option GroupVersion;
  NegotiatedSerializer : option Serializer;
  UserAgent : string;
  QPS : spec_float;
  Burst : Z;
  Config_RateLimiter : option RateLimiter
}.

Definition set_UserAgent (s : string) (c : Config) : Config :=
  mkConfig (Host c) (APIPath c) (Config_GroupVersion c) (NegotiatedSerializer c) s (QPS c)
    (Burst c) (Config_RateLimiter c).
Definition set_RateLimiter (l : option RateLimiter) (c : Config) : Config :=
  mkConfig (Host c) (APIPath c) (Config_GroupVersion c) (NegotiatedSerializer c) (UserAgent c)
    (QPS c) (Burst c) l.

(** The functions of client-go that make clients. *)
Class RestLib := {
  RESTClient : Type;
  HTTPClient : Type;
  DiscoveryClient : Type;
  HTTPClientFor : Config -> error + HTTPClient;
  RESTClientForConfigAndClient : Config -> HTTPClient -> error + RESTClient;
  NewDiscoveryClientForConfigAndClient : Config -> HTTPClient -> error + DiscoveryClient;
  NewDiscoveryClient : RESTClient -> DiscoveryClient;
  DefaultKubernetesUserAgent : string
}.

(** ** Actions: a complete request *)

Record Request `{RestLib} := mkRequest {
  Request_client : RESTClient;
  Request_verb : Verb;
  Request_calls : list building
}.
Arguments mkRequest {_}.

(** One more call on the request. *)
Definition call `{RestLib} (b : building) (r : Request) : Request :=
  mkRequest (Request_client r) (Request_verb r) (Request_calls r ++ [b]).

Record ObjectList (k : kind) := mkObjectList { ListMeta : string; Items : list (object k) }.
Arguments mkObjectList {k}.
Arguments ListMeta {k}.
Arguments Items {k}.

(** [watch.Interface] *)
Record Watcher := mkWatcher { watcher_id : Z }.

Inductive rest_action `{RestLib} :=
| DoInto (k : kind) (r : Request)
| DoIntoList (k : kind) (r : Request)
| DoError (r : Request)
| DoWatch (r : Request).
Arguments DoInto {_}.
Arguments DoIntoList {_}.
Arguments DoError {_}.
Arguments DoWatch {_}.

(** [Into] fills the object it is given as far as it comes, so the answer has it
    next to the error. *)
Definition rest_result `{RestLib} (a : rest_action) : Type :=
  match a with
  | DoInto k _ => object k * option error
  | DoIntoList k _ => ObjectList k * option error
  | DoError _ => option error
  | DoWatch _ => error + Watcher
  end.

Notation rest := (prog rest_result).

(** A chain starts with a verb on the client; a nil interface panics. *)
Definition verb `{RestLib} {A} (v : Verb) (c : option RESTClient) (k : Request -> rest A) : rest A :=
  match c with
  | Some c => k (mkRequest c v [])
  | None => Panic "invalid memory address or nil pointer dereference"
  end.

(** [x |> f]: the calls of a chain in the order of the source. *)
Notation "x |> f" := (f x) (at level 50, left associativity, only parsing) : go_scope.
