(* ===== verification/Clientset.v ===== *)
(** * The generated clients (pkg/generated/clientset/versioned)

    client-gen writes one file per kind (typed/rabbitmq.com/<version>/<kind>.go),
    which differ in the type and the name of the resource only: section
    [typed_client] is that template, and one definition per file instantiates it.
    [GroupClient] is the client of a group version (rabbitmq.com_client.go) and
    [Clientset] the pair of both with the discovery client (clientset.go).

    The interfaces of the source ([QueueInterface], [RabbitmqV1beta1Interface],
    [versioned.Interface]) are records of operations over a type of computations
    [M], so that the real clients, the fakes and the informers meet there. *)

From S2P Require Import Prelude.
From S2P Require Import GoStrings.
From S2P Require Import GoErrors.
From S2P Require Import GoConv.
From S2P Require Import Prog.
From S2P Require Import Api.
From S2P Require Import Scheme.
From S2P Require Import Rest.
From Stdlib Require Import SpecFloat.
Import ProgNotations.
Local Open Scope go_scope.

(** ** Interfaces *)

(** [BindingInterface] ... [VhostInterface], [SuperStreamInterface] *)
Record TypedInterface (M : Type -> Type) (k : kind) := mkTypedInterface {
  Create : object k -> CreateOptions -> M (option (object k) * option error)%type;
  Update : object k -> UpdateOptions -> M (option (object k) * option error)%type;
  UpdateStatus : object k -> UpdateOptions -> M (option (object k) * option error)%type;
  Delete : string -> DeleteOptions -> M (option error);
  DeleteCollection : DeleteOptions -> ListOptions -> M (option error);
  Get : string -> GetOptions -> M (option (object k) * option error)%type;
  List : ListOptions -> M (option (ObjectList k) * option error)%type;
  WatchChanges : ListOptions -> M (error + Watcher)%type;
  Patch : string -> string -> string -> PatchOptions -> list string ->
          M (option (object k) * option error)%type
}.
Arguments mkTypedInterface {M k}.
Arguments Create {M k}.
Arguments Update {M k}.
Arguments UpdateStatus {M k}.
Arguments Delete {M k}.
Arguments DeleteCollection {M k}.
Arguments Get {M k}.
Arguments List {M k}.
Arguments WatchChanges {M k}.
Arguments Patch {M k}.

Record RabbitmqV1beta1Interface (R : Type) (M : Type -> Type) := mkRabbitmqV1beta1Interface {
  v1beta1_RESTClient : option R;
  Bindings : string -> TypedInterface M KBinding;
  Exchanges : string -> TypedInterface M KExchange;
  Federations : string -> TypedInterface M KFederation;
  Permissions : string -> TypedInterface M KPermission;
  Policies : string -> TypedInterface M KPolicy;
  OperatorPolicies : string -> TypedInterface M KOperatorPolicy;
  Queues : string -> TypedInterface M KQueue;
  SchemaReplications : string -> TypedInterface M KSchemaReplication;
  Shovels : string -> TypedInterface M KShovel;
  Users : string -> TypedInterface M KUser;
  Vhosts : string -> TypedInterface M KVhost
}.
Arguments mkRabbitmqV1beta1Interface {R M}.
Arguments v1beta1_RESTClient {R M}.
Arguments Bindings {R M}.
Arguments Exchanges {R M}.
Arguments Federations {R M}.
Arguments Permissions {R M}.
Arguments Policies {R M}.
Arguments OperatorPolicies {R M}.
Arguments Queues {R M}.
Arguments SchemaReplications {R M}.
Arguments Shovels {R M}.
Arguments Users {R M}.
Arguments Vhosts {R M}.

Record RabbitmqV1alpha1Interface (R : Type) (M : Type -> Type) := mkRabbitmqV1alpha1Interface {
  v1alpha1_RESTClient : option R;
  SuperStreams : string -> TypedInterface M KSuperStream
}.
Arguments mkRabbitmqV1alpha1Interface {R M}.
Arguments v1alpha1_RESTClient {R M}.
Arguments SuperStreams {R M}.

(** [versioned.Interface] *)
Record Interface (R D : Type) (M : Type -> Type) := mkInterface {
  Discovery : option D;
  RabbitmqV1alpha1 : RabbitmqV1alpha1Interface R M;
  RabbitmqV1beta1 : RabbitmqV1beta1Interface R M
}.
Arguments mkInterface {R D M}.
Arguments Discovery {R D M}.
Arguments RabbitmqV1alpha1 {R D M}.
Arguments RabbitmqV1beta1 {R D M}.

(** ** The client of one kind *)

(** The seconds as a [time.Duration]: a product of two [int64]. *)
Definition timeout (o : ListOptions) : Z :=
  match TimeoutSeconds o with
  | Some s => int64_of (s * 1000000000)
  | None => 0
  end.

Section typed_client.
Context `{RestLib}.

(** [type queues struct]: the REST client, nil if there is none, and the namespace *)
Record typed := mkTyped { client : option RESTClient; ns : string }.

Context (k : kind) (resource : string) (c : typed).

(** [result] is allocated before the request, so it is never nil. *)
Definition into (r : Request) : rest (option (object k) * option error) :=
  '(o, err) <- act (DoInto k r) ;; Ret (Some o, err).
Definition intoList (r : Request) : rest (option (ObjectList k) * option error) :=
  '(l, err) <- act (DoIntoList k r) ;; Ret (Some l, err).

Definition typed_Get (name : string) (options : GetOptions) : rest (option (object k) * option error) :=
  verb GET (client c) (fun r => into (r
    |> call (CallNamespace (ns c))
    |> call (CallResource resource)
    |> call (CallName name)
    |> call (CallVersionedParams (ParamsGet options)))).

Definition typed_List (opts : ListOptions) : rest (option (ObjectList k) * option error) :=
  verb GET (client c) (fun r => intoList (r
    |> call (CallNamespace (ns c))
    |> call (CallResource resource)
    |> call (CallVersionedParams (ParamsList opts))
    |> call (CallTimeout (timeout opts)))).

Definition typed_Watch (opts : ListOptions) : rest (error + Watcher) :=
  verb GET (client c) (fun r => act (DoWatch (r
    |> call (CallNamespace (ns c))
    |> call (CallResource resource)
    |> call (CallVersionedParams (ParamsList (set_Watch true opts)))
    |> call (CallTimeout (timeout opts))))).

Definition typed_Create (obj : object k) (opts : CreateOptions) :
    rest (option (object k) * option error) :=
  verb POST (client c) (fun r => into (r
    |> call (CallNamespace (ns c))
    |> call (CallResource resource)
    |> call (CallVersionedParams (ParamsCreate opts))
    |> call (CallBody (BodyObject k obj)))).

Definition typed_Update (obj : object k) (opts : UpdateOptions) :
    rest (option (object k) * option error) :=
  verb PUT (client c) (fun r => into (r
    |> call (CallNamespace (ns c))
    |> call (CallResource resource)
    |> call (CallName (Name (meta k obj)))
    |> call (CallVersionedParams (ParamsUpdate opts))
    |> call (CallBody (BodyObject k obj)))).

Definition typed_UpdateStatus (obj : object k) (opts : UpdateOptions) :
    rest (option (object k) * option error) :=
  verb PUT (client c) (fun r => into (r
    |> call (CallNamespace (ns c))
    |> call (CallResource resource)
    |> call (CallName (Name (meta k obj)))
    |> call (CallSubResource ["status"])
    |> call (CallVersionedParams (ParamsUpdate opts))
    |> call (CallBody (BodyObject k obj)))).

Definition typed_Delete (name : string) (opts : DeleteOptions) : rest (option error) :=
  verb DELETE (client c) (fun r => act (DoError (r
    |> call (CallNamespace (ns c))
    |> call (CallResource resource)
    |> call (CallName name)
    |> call (CallBody (BodyDeleteOptions opts))))).

Definition typed_DeleteCollection (opts : DeleteOptions) (listOpts : ListOptions) :
    rest (option error) :=
  verb DELETE (client c) (fun r => act (DoError (r
    |> call (CallNamespace (ns c))
    |> call (CallResource resource)
    |> call (CallVersionedParams (ParamsList listOpts))
    |> call (CallTimeout (timeout listOpts))
    |> call (CallBody (BodyDeleteOptions opts))))).

Definition typed_Patch (name pt data : string) (opts : PatchOptions) (subresources : list string) :
    rest (option (object k) * option error) :=
  verb (PATCH pt) (client c) (fun r => into (r
    |> call (CallNamespace (ns c))
    |> call (CallResource resource)
    |> call (CallName name)
    |> call (CallSubResource subresources)
    |> call (CallVersionedParams (ParamsPatch opts))
    |> call (CallBody (BodyBytes data)))).

Definition typedClient : TypedInterface rest k :=
  mkTypedInterface typed_Create typed_Update typed_UpdateStatus typed_Delete
    typed_DeleteCollection typed_Get typed_List typed_Watch typed_Patch.
End typed_client.

(** ** One client per generated file *)

Definition bindings `{RestLib} : typed -> TypedInterface rest KBinding :=
  typedClient KBinding "bindings".
Definition exchanges `{RestLib} : typed -> TypedInterface rest KExchange :=
  typedClient KExchange "exchanges".
Definition federations `{RestLib} : typed -> TypedInterface rest KFederation :=
  typedClient KFederation "federations".
Definition operatorPolicies `{RestLib} : typed -> TypedInterface rest KOperatorPolicy :=
  typedClient KOperatorPolicy "operatorpolicies".
Definition permissions `{RestLib} : typed -> TypedInterface rest KPermission :=
  typedClient KPermission "permissions".
Definition policies `{RestLib} : typed -> TypedInterface rest KPolicy :=
  typedClient KPolicy "policies".
Definition queues `{RestLib} : typed -> TypedInterface rest KQueue :=
  typedClient KQueue "queues".
Definition schemaReplications `{RestLib} : typed -> TypedInterface rest KSchemaReplication :=
  typedClient KSchemaReplication "schemareplications".
Definition shovels `{RestLib} : typed -> TypedInterface rest KShovel :=
  typedClient KShovel "shovels".
Definition users `{RestLib} : typed -> TypedInterface rest KUser :=
  typedClient KUser "users".
Definition vhosts `{RestLib} : typed -> TypedInterface rest KVhost :=
  typedClient KVhost "vhosts".
Definition superStreams `{RestLib} : typed -> TypedInterface rest KSuperStream :=
  typedClient KSuperStream "superstreams".

(** ** The clients of a group version (rabbitmq.com_client.go) *)

(** [if err != nil { panic(err) }] *)
Definition orPanic {A} (r : error + A) : outcome A :=
  match r with inl _ => Panicked "panic(err)" | inr x => Returned x end.

Module V1beta1.
Section client.
Context `{RestLib}.

Record RabbitmqV1beta1Client := mkRabbitmqV1beta1Client { restClient : option RESTClient }.

(** A method on a nil client; a Go pointer that may be nil is an [option]. *)
Definition RESTClientOf (c : option RabbitmqV1beta1Client) : option RESTClient :=
  match c with None => None | Some c => restClient c end.

(** [newQueues] and its like *)
Definition newTyped (c : option RabbitmqV1beta1Client) (namespace : string) : typed :=
  mkTyped (RESTClientOf c) namespace.

Definition asInterface (c : option RabbitmqV1beta1Client) : RabbitmqV1beta1Interface RESTClient rest :=
  {| v1beta1_RESTClient := RESTClientOf c;
     Bindings := fun namespace => bindings (newTyped c namespace);
     Exchanges := fun namespace => exchanges (newTyped c namespace);
     Federations := fun namespace => federations (newTyped c namespace);
     Permissions := fun namespace => permissions (newTyped c namespace);
     Policies := fun namespace => policies (newTyped c namespace);
     OperatorPolicies := fun namespace => operatorPolicies (newTyped c namespace);
     Queues := fun namespace => queues (newTyped c namespace);
     SchemaReplications := fun namespace => schemaReplications (newTyped c namespace);
     Shovels := fun namespace => shovels (newTyped c namespace);
     Users := fun namespace => users (newTyped c namespace);
     Vhosts := fun namespace => vhosts (newTyped c namespace) |}.

(** [setConfigDefaults] writes to the configuration it is given. *)
Definition setConfigDefaults (config : Config) : option error * Config :=
  let config := mkConfig (Host config) "/apis" (Some v1beta1.SchemeGroupVersion)
                  (Some CodecsWithoutConversion) (UserAgent config) (QPS config) (Burst config)
                  (Config_RateLimiter config) in
  (None, if bool_decide (UserAgent config = "")
         then set_UserAgent DefaultKubernetesUserAgent config else config).

Definition NewForConfigAndClient (c : Config) (h : HTTPClient) : error + RabbitmqV1beta1Client :=
  let '(err, config) := setConfigDefaults c in
  match err with
  | Some err => inl err
  | None =>
      match RESTClientForConfigAndClient config h with
      | inl err => inl err
      | inr client => inr (mkRabbitmqV1beta1Client (Some client))
      end
  end.

Definition NewForConfig (c : Config) : error + RabbitmqV1beta1Client :=
  let '(err, config) := setConfigDefaults c in
  match err with
  | Some err => inl err
  | None =>
      match HTTPClientFor config with
      | inl err => inl err
      | inr httpClient => NewForConfigAndClient config httpClient
      end
  end.

Definition NewForConfigOrDie (c : Config) : outcome RabbitmqV1beta1Client := orPanic (NewForConfig c).

Definition New (c : option RESTClient) : RabbitmqV1beta1Client := mkRabbitmqV1beta1Client c.
End client.
End V1beta1.

Module V1alpha1.
Section client.
Context `{RestLib}.

Record RabbitmqV1alpha1Client := mkRabbitmqV1alpha1Client { restClient : option RESTClient }.

Definition RESTClientOf (c : option RabbitmqV1alpha1Client) : option RESTClient :=
  match c with None => None | Some c => restClient c end.

Definition newTyped (c : option RabbitmqV1alpha1Client) (namespace : string) : typed :=
  mkTyped (RESTClientOf c) namespace.

Definition asInterface (c : option RabbitmqV1alpha1Client) :
    RabbitmqV1alpha1Interface RESTClient rest :=
  {| v1alpha1_RESTClient := RESTClientOf c;
     SuperStreams := fun namespace => superStreams (newTyped c namespace) |}.

Definition setConfigDefaults (config : Config) : option error * Config :=
  let config := mkConfig (Host config) "/apis" (Some v1alpha1.SchemeGroupVersion)
                  (Some CodecsWithoutConversion) (UserAgent config) (QPS config) (Burst config)
                  (Config_RateLimiter config) in
  (None, if bool_decide (UserAgent config = "")
         then set_UserAgent DefaultKubernetesUserAgent config else config).

Definition NewForConfigAndClient (c : Config) (h : HTTPClient) : error + RabbitmqV1alpha1Client :=
  let '(err, config) := setConfigDefaults c in
  match err with
  | Some err => inl err
  | None =>
      match RESTClientForConfigAndClient config h with
      | inl err => inl err
      | inr client => inr (mkRabbitmqV1alpha1Client (Some client))
      end
  end.

Definition NewForConfig (c : Config) : error + RabbitmqV1alpha1Client :=
  let '(err, config) := setConfigDefaults c in
  match err with
  | Some err => inl err
  | None =>
      match HTTPClientFor config with
      | inl err => inl err
      | inr httpClient => NewForConfigAndClient config httpClient
      end
  end.

Definition NewForConfigOrDie (c : Config) : outcome RabbitmqV1alpha1Client := orPanic (NewForConfig c).

Definition New (c : option RESTClient) : RabbitmqV1alpha1Client := mkRabbitmqV1alpha1Client c.
End client.
End V1alpha1.

(** ** The clientset (clientset.go) *)

Module Clientset.
Section clientset.
Context `{RestLib}.

Record Clientset := mkClientset {
  discovery : option DiscoveryClient;
  rabbitmqV1alpha1 : option V1alpha1.RabbitmqV1alpha1Client;
  rabbitmqV1beta1 : option V1beta1.RabbitmqV1beta1Client
}.

(** [Clientset.Discovery()], on a pointer that may be nil. *)
Definition DiscoveryOf (c : option Clientset) : option DiscoveryClient :=
  match c with None => None | Some c => discovery c end.

Definition asInterface (c : Clientset) : Interface RESTClient DiscoveryClient rest :=
  {| Discovery := DiscoveryOf (Some c);
     RabbitmqV1alpha1 := V1alpha1.asInterface (rabbitmqV1alpha1 c);
     RabbitmqV1beta1 := V1beta1.asInterface (rabbitmqV1beta1 c) |}.

Definition burstRequired : error :=
  ErrText "burst is required to be greater than 0 when RateLimiter is not set and QPS is set to greater than 0".

(** [x > 0] of a [float32] *)
Definition positive (x : spec_float) : bool := SFltb (S754_zero false) x.

(** The shared rate limiter, lines 84 to 89. *)
Definition limited (c : Config) : error + Config :=
  match Config_RateLimiter c with
  | None =>
      if positive (QPS c) then
        if (Burst c <=? 0)%Z then inl burstRequired
        else inr (set_RateLimiter (Some (NewTokenBucketRateLimiter (QPS c) (Burst c))) c)
      else inr c
  | Some _ => inr c
  end.

Definition NewForConfigAndClient (c : Config) (httpClient : HTTPClient) : error + Clientset :=
  match limited c with
  | inl err => inl err
  | inr c =>
      match V1alpha1.NewForConfigAndClient c httpClient with
      | inl err => inl err
      | inr alpha =>
          match V1beta1.NewForConfigAndClient c httpClient with
          | inl err => inl err
          | inr beta =>
              match NewDiscoveryClientForConfigAndClient c httpClient with
              | inl err => inl err
              | inr d => inr (mkClientset (Some d) (Some alpha) (Some beta))
              end
          end
      end
  end.

Definition NewForConfig (c : Config) : error + Clientset :=
  let c := if bool_decide (UserAgent c = "") then set_UserAgent DefaultKubernetesUserAgent c else c in
  match HTTPClientFor c with
  | inl err => inl err
  | inr httpClient => NewForConfigAndClient c httpClient
  end.

Definition NewForConfigOrDie (c : Config) : outcome Clientset := orPanic (NewForConfig c).

Definition New (c : RESTClient) : Clientset :=
  mkClientset (Some (NewDiscoveryClient c)) (Some (V1alpha1.New (Some c))) (Some (V1beta1.New (Some c))).
End clientset.
End Clientset.
