(* ===== verification/ClientStore.v ===== *)
(** * The generated clients on an API server

    The abstract specification of a clientset is one map from kind, namespace and
    name to objects: [Get] and [List] read it, the writes put what the server
    returned, nothing else changes.  Class [ApiServer] is a server of the
    Kubernetes REST API, whose laws speak of raw requests (verb, group version,
    name of the resource, namespace, name); the theorem is that the clients of a
    clientset made by [NewForConfig] implement the map on any such server, so that
    a kind's client reaches the resource of that kind and no other. *)

From S2P Require Import Prelude.
From S2P Require Import GoStrings.
From S2P Require Import GoErrors.
From S2P Require Import Prog.
From S2P Require Import Api.
From S2P Require Import Scheme.
From S2P Require Import Rest.
From S2P Require Import Clientset.
Import ProgNotations.
Local Open Scope go_scope.

(** ** What a request asks for: the last value given to each part *)

Section reading.
Context `{RestLib}.

Definition said {A} (f : building -> option A) (r : Request) : option A :=
  last (omap f (Request_calls r)).

Definition r_namespace (r : Request) : string :=
  deref (said (fun b => match b with CallNamespace x => Some x | _ => None end) r) "".
Definition r_resource (r : Request) : string :=
  deref (said (fun b => match b with CallResource x => Some x | _ => None end) r) "".
Definition r_name (r : Request) : option string :=
  said (fun b => match b with CallName x => Some x | _ => None end) r.
Definition r_sub (r : Request) : list string :=
  deref (said (fun b => match b with CallSubResource x => Some x | _ => None end) r) [].
Definition r_options (r : Request) : option ListOptions :=
  said (fun b => match b with CallVersionedParams (ParamsList o) => Some o | _ => None end) r.
End reading.

(** ** Servers *)

Definition any_object : Type := {k : kind & object k}.

(** The specification and the status of two objects of a kind agree. *)
Definition spec_eq (k : kind) : object k -> object k -> Prop :=
  match k with
  | KBinding => fun o o' : Binding => Spec o = Spec o'
  | KExchange => fun o o' : Exchange => Spec o = Spec o'
  | KFederation => fun o o' : Federation => Spec o = Spec o'
  | KOperatorPolicy => fun o o' : OperatorPolicy => Spec o = Spec o'
  | KPermission => fun o o' : Permission => Spec o = Spec o'
  | KPolicy => fun o o' : Policy => Spec o = Spec o'
  | KQueue => fun o o' : Queue => Spec o = Spec o'
  | KSchemaReplication => fun o o' : SchemaReplication => Spec o = Spec o'
  | KShovel => fun o o' : Shovel => Spec o = Spec o'
  | KTopicPermission => fun o o' : TopicPermission => Spec o = Spec o'
  | KUser => fun o o' : User => Spec o = Spec o'
  | KVhost => fun o o' : Vhost => Spec o = Spec o'
  | KSuperStream => fun o o' : SuperStream => Spec o = Spec o'
  | _ => fun _ _ => True
  end.

Definition status_eq (k : kind) : object k -> object k -> Prop :=
  match k with
  | KBinding => fun o o' : Binding => Status o = Status o'
  | KExchange => fun o o' : Exchange => Status o = Status o'
  | KFederation => fun o o' : Federation => Status o = Status o'
  | KOperatorPolicy => fun o o' : OperatorPolicy => Status o = Status o'
  | KPermission => fun o o' : Permission => Status o = Status o'
  | KPolicy => fun o o' : Policy => Status o = Status o'
  | KQueue => fun o o' : Queue => Status o = Status o'
  | KSchemaReplication => fun o o' : SchemaReplication => Status o = Status o'
  | KShovel => fun o o' : Shovel => Status o = Status o'
  | KTopicPermission => fun o o' : TopicPermission => Status o = Status o'
  | KUser => fun o o' : User => Status o = Status o'
  | KVhost => fun o o' : Vhost => Status o = Status o'
  | KSuperStream => fun o o' : SuperStream => Status o = Status o'
  | _ => fun _ _ => True
  end.

Definition cell : Type := (GroupVersionResource * NamespacedName)%type.

Class ApiServer `{RestLib} (St : Type) := {
  serve : handler rest_result St;
  (** the group version in the paths of a client *)
  versionOf : RESTClient -> GroupVersion;
  stored : St -> cell -> option any_object;
  (** whether the selectors of the options select an object *)
  selects : ListOptions -> ObjectMeta -> bool;
  (** what is left of an object after its deletion was accepted: nothing, or the
      object marked for deletion when it has finalizers *)
  afterDelete : any_object -> option any_object
}.

Section laws.
Context `{RestLib} {St : Type} `{!ApiServer St}.

Definition r_gvr (r : Request) : GroupVersionResource :=
  WithResource (versionOf (Request_client r)) (r_resource r).
Definition r_cell (r : Request) (name : string) : cell :=
  (r_gvr r, mkNamespacedName (r_namespace r) name).

(** Only one cell may differ, and it holds [v]. *)
Definition written (s : St) (c : cell) (v : option any_object) (s' : St) : Prop :=
  stored s' c = v /\ forall c', c' <> c -> stored s' c' = stored s c'.
Definition untouched (s s' : St) : Prop := forall c, stored s' c = stored s c.

Definition in_namespace (ns : string) (key : NamespacedName) : Prop :=
  ns = "" \/ nn_Namespace key = ns.
Definition key_of (k : kind) (o : object k) : NamespacedName :=
  mkNamespacedName (Namespace (meta k o)) (Name (meta k o)).
Definition any_key (o : any_object) : NamespacedName := key_of (projT1 o) (projT2 o).
Definition any_meta (o : any_object) : ObjectMeta := meta (projT1 o) (projT2 o).
End laws.

(** The REST API, as its documentation has it: for a request on one object, for a
    request on a collection. *)
Class ApiServerOk `{RestLib} (St : Type) `{!ApiServer St} := {
  (** a client works on the group version it was configured with *)
  client_version c h r gv :
    RESTClientForConfigAndClient c h = inr r -> Config_GroupVersion c = Some gv -> versionOf r = gv;
  (** objects are stored under their namespace and name *)
  stored_key s g key o : stored s (g, key) = Some o -> any_key o = key;
  serve_get k r n s o err s' :
    Request_verb r = GET -> r_name r = Some n ->
    serve (DoInto k r) s = ((o, err), s') ->
    untouched s s' /\ (err = None -> stored s (r_cell r n) = Some (existT k o));
  serve_post k r s o err s' :
    Request_verb r = POST ->
    serve (DoInto k r) s = ((o, err), s') ->
    match err with
    | Some _ => untouched s s'
    | None => stored s (r_cell r (Name (meta k o))) = None /\
              written s (r_cell r (Name (meta k o))) (Some (existT k o)) s'
    end;
  serve_put k r n s o err s' :
    Request_verb r = PUT -> r_name r = Some n ->
    serve (DoInto k r) s = ((o, err), s') ->
    match err with
    | Some _ => untouched s s'
    | None => exists old, stored s (r_cell r n) = Some (existT k old) /\
                written s (r_cell r n) (Some (existT k o)) s' /\
                (r_sub r = ["status"] -> spec_eq k old o) /\
                (r_sub r = [] -> status_eq k old o)
    end;
  serve_patch k r pt n s o err s' :
    Request_verb r = PATCH pt -> r_name r = Some n ->
    serve (DoInto k r) s = ((o, err), s') ->
    match err with
    | Some _ => untouched s s'
    | None => stored s (r_cell r n) <> None /\ written s (r_cell r n) (Some (existT k o)) s'
    end;
  serve_delete r n s err s' :
    Request_verb r = DELETE -> r_name r = Some n ->
    serve (DoError r) s = (err, s') ->
    match err with
    | Some _ => untouched s s'
    | None => written s (r_cell r n) (stored s (r_cell r n) ≫= afterDelete) s'
    end;
  serve_list k r opts s l err s' :
    Request_verb r = GET -> r_name r = None -> r_options r = Some opts ->
    serve (DoIntoList k r) s = ((l, err), s') ->
    untouched s s' /\
    (err = None -> forall o, o ∈ Items l <->
       stored s (r_gvr r, key_of k o) = Some (existT k o) /\
       in_namespace (r_namespace r) (key_of k o) /\ selects opts (meta k o) = true);
  (** a deletion that fails half-way has deleted some of the selected objects *)
  serve_delete_list r opts s err s' :
    Request_verb r = DELETE -> r_name r = None -> r_options r = Some opts ->
    serve (DoError r) s = (err, s') ->
    forall g key,
      (g <> r_gvr r -> stored s' (g, key) = stored s (g, key)) /\
      (g = r_gvr r ->
       forall o, stored s (g, key) = Some o ->
         if bool_decide (in_namespace (r_namespace r) key) && selects opts (any_meta o)
         then stored s' (g, key) = afterDelete o \/ (err <> None /\ stored s' (g, key) = Some o)
         else stored s' (g, key) = Some o) /\
      (stored s (g, key) = None -> stored s' (g, key) = None);
  serve_watch r s w s' : serve (DoWatch r) s = (w, s') -> untouched s s'
}.

(** ** The specification: one map *)

(** The operations of the client of a kind. *)
Inductive kop (k : kind) :=
| OpGet (name : string) (o : GetOptions)
| OpList (o : ListOptions)
| OpWatch (o : ListOptions)
| OpCreate (x : object k) (o : CreateOptions)
| OpUpdate (x : object k) (o : UpdateOptions)
| OpUpdateStatus (x : object k) (o : UpdateOptions)
| OpDelete (name : string) (o : DeleteOptions)
| OpDeleteCollection (o : DeleteOptions) (l : ListOptions)
| OpPatch (name pt data : string) (o : PatchOptions) (subs : list string).
Arguments OpGet {k}.
Arguments OpList {k}.
Arguments OpWatch {k}.
Arguments OpCreate {k}.
Arguments OpUpdate {k}.
Arguments OpUpdateStatus {k}.
Arguments OpDelete {k}.
Arguments OpDeleteCollection {k}.
Arguments OpPatch {k}.

Definition answer {k} (o : kop k) : Type :=
  match o with
  | OpList _ => option (ObjectList k) * option error
  | OpWatch _ => error + Watcher
  | OpDelete _ _ | OpDeleteCollection _ _ => option error
  | _ => option (object k) * option error
  end.

Definition perform {M k} (t : TypedInterface M k) (o : kop k) : M (answer o) :=
  match o with
  | OpGet name opts => Get t name opts
  | OpList opts => List t opts
  | OpWatch opts => WatchChanges t opts
  | OpCreate x opts => Create t x opts
  | OpUpdate x opts => Update t x opts
  | OpUpdateStatus x opts => UpdateStatus t x opts
  | OpDelete name opts => Delete t name opts
  | OpDeleteCollection opts l => DeleteCollection t opts l
  | OpPatch name pt data opts subs => Patch t name pt data opts subs
  end.

(** The client of a kind in a clientset; topic permissions have none. *)
Definition clientOf {R D M} (i : Interface R D M) (k : kind) : option (string -> TypedInterface M k) :=
  match k with
  | KBinding => Some (Bindings (RabbitmqV1beta1 i))
  | KExchange => Some (Exchanges (RabbitmqV1beta1 i))
  | KFederation => Some (Federations (RabbitmqV1beta1 i))
  | KOperatorPolicy => Some (OperatorPolicies (RabbitmqV1beta1 i))
  | KPermission => Some (Permissions (RabbitmqV1beta1 i))
  | KPolicy => Some (Policies (RabbitmqV1beta1 i))
  | KQueue => Some (Queues (RabbitmqV1beta1 i))
  | KSchemaReplication => Some (SchemaReplications (RabbitmqV1beta1 i))
  | KShovel => Some (Shovels (RabbitmqV1beta1 i))
  | KUser => Some (Users (RabbitmqV1beta1 i))
  | KVhost => Some (Vhosts (RabbitmqV1beta1 i))
  | KSuperStream => Some (SuperStreams (RabbitmqV1alpha1 i))
  | KTopicPermission | KSecret | KService | KRabbitmqCluster => None
  end.

(** The plural of each kind in its custom resource definition (config/crd/bases). *)
Definition plural (k : kind) : string :=
  match k with
  | KBinding => "bindings" | KExchange => "exchanges" | KFederation => "federations"
  | KOperatorPolicy => "operatorpolicies" | KPermission => "permissions"
  | KPolicy => "policies" | KQueue => "queues" | KSchemaReplication => "schemareplications"
  | KShovel => "shovels" | KTopicPermission => "topicpermissions" | KUser => "users"
  | KVhost => "vhosts" | KSuperStream => "superstreams" | KSecret => "secrets"
  | KService => "services" | KRabbitmqCluster => "rabbitmqclusters"
  end.
Definition gvr_of (k : kind) : GroupVersionResource := WithResource (gv_of k) (plural k).

Lemma gvr_of_inj k k' : gvr_of k = gvr_of k' -> k = k'.
Proof. destruct k, k'; intros E; first [reflexivity|discriminate E]. Qed.

Definition store : Type := kind -> NamespacedName -> option any_object.
Definition same (st st' : store) : Prop := forall k key, st' k key = st k key.
Definition put (st : store) (k : kind) (key : NamespacedName) (v : option any_object) (st' : store) :
    Prop :=
  st' k key = v /\ forall k' key', (k', key') <> (k, key) -> st' k' key' = st k' key'.

Section spec.
Context `{RestLib} {St : Type} `{!ApiServer St}.

(** One call of the client of kind [k] for namespace [ns]. *)
Definition spec_step (k : kind) (ns : string) (st : store) (o : kop k) (st' : store) :
    answer o -> Prop :=
  match o return answer o -> Prop with
  | OpGet name _ => fun a => same st st' /\
      (a.2 = None -> exists x, a.1 = Some x /\ st k (mkNamespacedName ns name) = Some (existT k x))
  | OpList opts => fun a => same st st' /\
      (a.2 = None -> exists l, a.1 = Some l /\ forall x, x ∈ Items l <->
         st k (key_of k x) = Some (existT k x) /\ in_namespace ns (key_of k x) /\
         selects opts (meta k x) = true)
  | OpWatch _ => fun _ => same st st'
  | OpCreate x0 _ => fun a =>
      match a with
      | (Some x, None) => st k (mkNamespacedName ns (Name (meta k x))) = None /\
          put st k (mkNamespacedName ns (Name (meta k x))) (Some (existT k x)) st'
      | _ => same st st'
      end
  | OpUpdate x0 _ => fun a =>
      match a with
      | (Some x, None) => let key := mkNamespacedName ns (Name (meta k x0)) in
          exists old, st k key = Some (existT k old) /\ status_eq k old x /\
            put st k key (Some (existT k x)) st'
      | _ => same st st'
      end
  | OpUpdateStatus x0 _ => fun a =>
      match a with
      | (Some x, None) => let key := mkNamespacedName ns (Name (meta k x0)) in
          exists old, st k key = Some (existT k old) /\ spec_eq k old x /\
            put st k key (Some (existT k x)) st'
      | _ => same st st'
      end
  | OpDelete name _ => fun a =>
      let key := mkNamespacedName ns name in
      match a with
      | None => put st k key (st k key ≫= afterDelete) st'
      | Some _ => same st st'
      end
  | OpDeleteCollection _ opts => fun a =>
      forall k' key, (k' <> k -> st' k' key = st k' key) /\
        (st k' key = None -> st' k' key = None) /\
        forall x, k' = k -> st k key = Some x ->
          if bool_decide (in_namespace ns key) && selects opts (any_meta x)
          then st' k key = afterDelete x \/ (a <> None /\ st' k key = Some x)
          else st' k key = Some x
  | OpPatch name _ _ _ _ => fun a =>
      match a with
      | (Some x, None) => let key := mkNamespacedName ns name in
          st k key <> None /\ put st k key (Some (existT k x)) st'
      | _ => same st st'
      end
  end.
End spec.

(** ** Refinement *)

Section refinement.
Context `{RestLib} {St : Type} `{!ApiServer St, !ApiServerOk St}.

(** The map that a state of the server stands for. *)
Definition abs (s : St) : store := fun k key => stored s (gvr_of k, key).

Lemma abs_untouched s s' : untouched s s' -> same (abs s) (abs s').
Proof. intros Hu k key. apply Hu. Qed.

Lemma abs_written s k key v s' :
  written s (gvr_of k, key) v s' -> put (abs s) k key v (abs s').
Proof.
  intros [Hv Hrest]. split; [done|]. intros k' key' Hne. apply Hrest.
  intros Heq. apply Hne. pose proof (f_equal fst Heq) as Hk%gvr_of_inj.
  pose proof (f_equal snd Heq) as Hkey. simpl in *. congruence.
Qed.

Section one_client.
Context (k : kind) (r : RESTClient) (ns : string).
Hypothesis version : versionOf r = gv_of k.
Notation t := (typedClient k (plural k) (mkTyped (Some r) ns)).

(** One call is one request, and a step of the map. *)
Lemma typed_step (o : kop k) (s : St) :
  exists e a s', run serve (perform t o) s = ([e], Returned a, s') /\
    spec_step k ns (abs s) o (abs s') a.
Proof.
  assert (Hgvr : forall v calls, r_resource (mkRequest r v calls) = plural k ->
    r_gvr (mkRequest r v calls) = gvr_of k).
  { intros v calls Hc. unfold r_gvr. cbn [Request_client]. by rewrite Hc, version. }
  destruct o as [name o|o|o|x o|x o|x o|name o|o l|name pt data o subs];
    cbn [perform Get List WatchChanges Create Update UpdateStatus Delete DeleteCollection Patch
         typedClient typed_Get typed_List typed_Watch typed_Create typed_Update typed_UpdateStatus
         typed_Delete typed_DeleteCollection typed_Patch verb into intoList client
         Clientset.ns bind act run];
    unfold call; cbn [Request_client Request_verb Request_calls app];
    (match goal with |- context [serve ?a s] => destruct (serve a s) as [ans s'] eqn:E end).
  - destruct ans as [x err]. eapply serve_get in E as [Hu Hx]; [|done..].
    eexists _, _, s'. split; [done|]. cbn. split; [by apply abs_untouched|]. intros He.
    exists x. split; [done|]. rewrite <- (Hx He). unfold abs, r_cell. by rewrite Hgvr.
  - destruct ans as [l err]. eapply serve_list in E as [Hu Hx]; [|done..].
    eexists _, _, s'. split; [done|]. cbn. split; [by apply abs_untouched|]. intros He.
    exists l. split; [done|]. intros x. rewrite (Hx He x). unfold abs. by rewrite Hgvr.
  - apply serve_watch in E. eexists _, _, s'. split; [done|]. cbn. by apply abs_untouched.
  - destruct ans as [y err]. eapply serve_post in E; [|done..].
    eexists _, _, s'. split; [done|]. cbn. unfold r_cell in E. rewrite Hgvr in E by done.
    destruct err; [by apply abs_untouched|]. split; [apply E|]. apply abs_written, E.
  - destruct ans as [y err]. eapply serve_put in E; [|done..].
    eexists _, _, s'. split; [done|]. cbn. unfold r_cell in E. rewrite Hgvr in E by done.
    destruct err; [by apply abs_untouched|]. destruct E as (old & Hold & Hw & _ & Hst).
    exists old. split; [done|]. split; [by apply Hst|]. apply abs_written, Hw.
  - destruct ans as [y err]. eapply serve_put in E; [|done..].
    eexists _, _, s'. split; [done|]. cbn. unfold r_cell in E. rewrite Hgvr in E by done.
    destruct err; [by apply abs_untouched|]. destruct E as (old & Hold & Hw & Hsp & _).
    exists old. split; [done|]. split; [by apply Hsp|]. apply abs_written, Hw.
  - eapply serve_delete in E; [|done..].
    eexists _, _, s'. split; [done|]. cbn. unfold r_cell in E. rewrite Hgvr in E by done.
    destruct ans; [by apply abs_untouched|]. apply abs_written, E.
  - eexists _, _, s'. split; [done|]. cbn. intros k' key.
    eapply (serve_delete_list _ l s ans s') with (g := gvr_of k') (key := key) in E
      as (H1 & H2 & H3); [|done..].
    rewrite Hgvr in H1, H2 by done. split; [|split].
    + intros Hk. apply H1. by intros ?%gvr_of_inj.
    + exact H3.
    + intros x -> Hx. by apply H2.
  - destruct ans as [y err]. eapply serve_patch in E; [|done..].
    eexists _, _, s'. split; [done|]. cbn. unfold r_cell in E. rewrite Hgvr in E by done.
    destruct err; [by apply abs_untouched|]. split; [apply E|]. apply abs_written, E.
Qed.
End one_client.

(** The clients of a clientset, once it was made. *)
Lemma clientset_clients c cs k :
  Clientset.NewForConfig c = inr cs ->
  match clientOf (Clientset.asInterface cs) k with
  | Some t => exists r, versionOf r = gv_of k /\
      forall ns, t ns = typedClient k (plural k) (mkTyped (Some r) ns)
  | None => k = KTopicPermission \/ ~ own k
  end.
Proof.
  unfold Clientset.NewForConfig. cbn zeta.
  set (c1 := if bool_decide _ then _ else c). clearbody c1.
  destruct (HTTPClientFor c1) as [|h]; [done|].
  unfold Clientset.NewForConfigAndClient.
  destruct (Clientset.limited c1) as [|c2]; [done|].
  unfold V1alpha1.NewForConfigAndClient, V1alpha1.setConfigDefaults,
    V1beta1.NewForConfigAndClient, V1beta1.setConfigDefaults. cbn zeta.
  destruct (RESTClientForConfigAndClient _ h) as [|ra] eqn:Ea; [done|].
  destruct (RESTClientForConfigAndClient _ h) as [|rb] eqn:Eb in |- *; [done|].
  destruct (NewDiscoveryClientForConfigAndClient c2 h) as [|d]; [done|].
  intros [= <-].
  assert (Ha : versionOf ra = v1alpha1.SchemeGroupVersion).
  { eapply client_version; [exact Ea|]. cbn. by destruct (bool_decide _). }
  assert (Hb : versionOf rb = v1beta1.SchemeGroupVersion).
  { eapply client_version; [exact Eb|]. cbn. by destruct (bool_decide _). }
  unfold own. destruct k; cbn; eauto; right; naive_solver.
Qed.

(** Calls of the clients of one clientset, with their answers. *)
Record step := mkStep { step_kind : kind; step_ns : string; step_op : kop step_kind;
                        step_answer : answer step_op }.

Inductive session (i : Interface RESTClient DiscoveryClient rest) : St -> list step -> St -> Prop :=
| session_nil s : session i s [] s
| session_cons k t ns o a s tr s1 l s2 :
    clientOf i k = Some t -> run serve (perform (t ns) o) s = (tr, Returned a, s1) ->
    session i s1 l s2 -> session i s (mkStep k ns o a :: l) s2.

Inductive spec_session : store -> list step -> store -> Prop :=
| spec_nil st st' : same st st' -> spec_session st [] st'
| spec_cons k ns o a st st1 l st2 :
    spec_step k ns st o st1 a -> spec_session st1 l st2 ->
    spec_session st (mkStep k ns o a :: l) st2.

(** C27: Any sequence of calls on the generated clients of a clientset is a run of
    a store of objects by kind, namespace and name: creating, updating
    specification or status, deleting, listing and reading touch exactly the
    objects of the client's kind and namespace; every kind but TopicPermission has
    such a client. *)
Theorem clients_refine_store c cs :
  Clientset.NewForConfig c = inr cs ->
  let i := Clientset.asInterface cs in
  (forall k, own k -> k <> KTopicPermission -> exists t, clientOf i k = Some t /\
     forall ns (o : kop k) s, exists e a s', run serve (perform (t ns) o) s = ([e], Returned a, s')) /\
  (forall s l s', session i s l s' -> spec_session (abs s) l (abs s')).
Proof.
  intros Hc i. split.
  - intros k Hk Ht. pose proof (clientset_clients c cs k Hc) as Hcl. fold i in Hcl.
    destruct (clientOf i k) as [t|]; [|by destruct Hcl as [?|?]].
    destruct Hcl as (r & Hr & Ht'). exists t. split; [done|]. intros ns o s.
    destruct (typed_step k r ns Hr o s) as (e & a & s' & Hrun & _).
    exists e, a, s'. by rewrite Ht'.
  - intros s l s'. induction 1 as [s|k t ns o a s tr s1 l s2 Hcl Hrun Hs IH].
    { by constructor. }
    pose proof (clientset_clients c cs k Hc) as Hcl'. fold i in Hcl'. rewrite Hcl in Hcl'.
    destruct Hcl' as (r & Hr & Ht). rewrite Ht in Hrun.
    destruct (typed_step k r ns Hr o s) as (e & a' & s1' & Hrun' & Hstep).
    rewrite Hrun in Hrun'. injection Hrun' as -> <- <-. econstructor; [exact Hstep|exact IH].
Qed.
End refinement.
