(* ===== verification/Listers.v ===== *)
(** * The generated listers (pkg/generated/listers)

    A lister reads the cache of an informer.  As with the clients, lister-gen
    writes one file per kind from one template: section [lister], and one
    definition per file.  The cache is client-go's [cache.Indexer]: class
    [CacheLib], with its promises in [CacheLibOk]. *)

From S2P Require Import Prelude.
From S2P Require Import GoStrings.
From S2P Require Import GoErrors.
From S2P Require Import Prog.
From S2P Require Import Api.
From S2P Require Import Scheme.
From S2P Require Import Rest.
From S2P Require Import Clientset.
From S2P Require Import ClientStore.
From Stdlib Require Import Ascii.

(** What a cache may hold: an object, or a value of another type. *)
Inductive cached := CachedObject (o : any_object) | CachedOther (id : Z).

Class CacheLib := {
  Indexer : Type;
  Selector : Type;
  (** [labels.Selector.Matches] *)
  Matches : Selector -> gmap string string -> bool;
  (** [cache.ListAll] and [cache.ListAllByNamespace]: the values on which the
      function they are given is called, in order, and the error *)
  ListAll : Indexer -> Selector -> list cached * option error;
  ListAllByNamespace : Indexer -> string -> Selector -> list cached * option error;
  (** [Indexer.GetByKey]: the value, if there is one, and the error *)
  GetByKey : Indexer -> string -> option cached * option error;
  (** [errors.NewNotFound] *)
  NewNotFound : GroupResource -> string -> api_error;
  (** the values in the cache *)
  contents : Indexer -> list cached
}.

Section lister.
Context `{CacheLib} (k : kind).

(** The assertion [m.(T)] for a pointer type T. *)
Definition assertType (m : cached) : option (object k) :=
  match m with
  | CachedObject (existT k' o) =>
      match decide (k' = k) with
      | left e => Some (eq_rect k' object o k e)
      | right _ => None
      end
  | CachedOther _ => None
  end.

Definition badAssertion {A} : outcome A := Panicked "interface conversion".

(** [ret = append(ret, m.(T))] for each value *)
Fixpoint appendAll (ms : list cached) : option (list (object k)) :=
  match ms with
  | [] => Some []
  | m :: ms => match assertType m, appendAll ms with
               | Some o, Some os => Some (o :: os)
               | _, _ => None
               end
  end.

Definition collect (r : list cached * option error) : outcome (list (object k) * option error) :=
  match appendAll (fst r) with
  | Some ret => Returned (ret, snd r)
  | None => badAssertion
  end.

Record Lister := mkLister { indexer : Indexer }.
Record NamespaceLister := mkNamespaceLister { ns_indexer : Indexer; namespace : string }.

Definition lister_List (s : Lister) (selector : Selector) : outcome (list (object k) * option error) :=
  collect (ListAll (indexer s) selector).

Definition lister_InNamespace (s : Lister) (ns : string) : NamespaceLister :=
  mkNamespaceLister (indexer s) ns.

Definition namespaceLister_List (s : NamespaceLister) (selector : Selector) :
    outcome (list (object k) * option error) :=
  collect (ListAllByNamespace (ns_indexer s) (namespace s) selector).

(** [resource] is the group resource of the error. *)
Definition namespaceLister_Get (resource : GroupResource) (s : NamespaceLister) (name : string) :
    outcome (option (object k) * option error) :=
  let '(obj, err) := GetByKey (ns_indexer s) (namespace s +:+ "/" +:+ name) in
  match err with
  | Some err => Returned (None, Some err)
  | None =>
      match obj with
      | None => Returned (None, Some (ErrAPI (NewNotFound resource name)))
      | Some obj => match assertType obj with
                    | Some o => Returned (Some o, None)
                    | None => badAssertion
                    end
      end
  end.
End lister.
Arguments mkLister {_}.
Arguments indexer {_}.

(** The interface [QueueLister] and its namespaced half, for any kind. *)
Record ListerInterface `{CacheLib} (k : kind) := mkListerInterface {
  listAll : Selector -> outcome (list (object k) * option error);
  listIn : string -> Selector -> outcome (list (object k) * option error);
  getIn : string -> string -> outcome (option (object k) * option error)
}.
Arguments mkListerInterface {_ k}.
Arguments listAll {_ k}.
Arguments listIn {_ k}.
Arguments getIn {_ k}.

Definition newLister `{CacheLib} (k : kind) (resource : GroupResource) (idx : Indexer) :
    ListerInterface k :=
  let s := mkLister idx in
  {| listAll := lister_List k s;
     listIn := fun ns => namespaceLister_List k (lister_InNamespace s ns);
     getIn := fun ns => namespaceLister_Get k resource (lister_InNamespace s ns) |}.

(** ** One lister per generated file *)

Section listers.
Context `{CacheLib}.
Definition NewBindingLister : Indexer -> ListerInterface KBinding :=
  newLister KBinding (v1beta1.Resource "binding").
Definition NewExchangeLister : Indexer -> ListerInterface KExchange :=
  newLister KExchange (v1beta1.Resource "exchange").
Definition NewFederationLister : Indexer -> ListerInterface KFederation :=
  newLister KFederation (v1beta1.Resource "federation").
Definition NewOperatorPolicyLister : Indexer -> ListerInterface KOperatorPolicy :=
  newLister KOperatorPolicy (v1beta1.Resource "operatorpolicy").
Definition NewPermissionLister : Indexer -> ListerInterface KPermission :=
  newLister KPermission (v1beta1.Resource "permission").
Definition NewPolicyLister : Indexer -> ListerInterface KPolicy :=
  newLister KPolicy (v1beta1.Resource "policy").
Definition NewQueueLister : Indexer -> ListerInterface KQueue :=
  newLister KQueue (v1beta1.Resource "queue").
Definition NewSchemaReplicationLister : Indexer -> ListerInterface KSchemaReplication :=
  newLister KSchemaReplication (v1beta1.Resource "schemareplication").
Definition NewShovelLister : Indexer -> ListerInterface KShovel :=
  newLister KShovel (v1beta1.Resource "shovel").
Definition NewUserLister : Indexer -> ListerInterface KUser :=
  newLister KUser (v1beta1.Resource "user").
Definition NewVhostLister : Indexer -> ListerInterface KVhost :=
  newLister KVhost (v1beta1.Resource "vhost").
Definition NewSuperStreamLister : Indexer -> ListerInterface KSuperStream :=
  newLister KSuperStream (v1alpha1.Resource "superstream").
End listers.

(** ** What a cache promises *)

(** [cache.MetaNamespaceKeyFunc] of an object with a namespace *)
Definition cache_key (key : NamespacedName) : string := nn_Namespace key +:+ "/" +:+ nn_Name key.

(** The objects of a namespaced kind, each under its key: the shape of the cache
    of an informer with the namespace index. *)
Definition keyed `{CacheLib} (k : kind) (idx : Indexer) (os : list (object k)) : Prop :=
  contents idx = (fun o => CachedObject (existT k o)) <$> os /\
  NoDup (key_of k <$> os) /\
  Forall (fun o => Namespace (meta k o) <> "") os.

Class CacheLibOk `{CacheLib} := {
  ListAll_spec k idx sel (os : list (object k)) :
    keyed k idx os ->
    exists l, ListAll idx sel = ((fun o => CachedObject (existT k o)) <$> l, None) /\
      l ≡ₚ filter (fun o => Matches sel (Labels (meta k o)) = true) os;
  ListAllByNamespace_spec k idx sel ns (os : list (object k)) :
    keyed k idx os ->
    exists l, ListAllByNamespace idx ns sel = ((fun o => CachedObject (existT k o)) <$> l, None) /\
      l ≡ₚ filter (fun o => (ns = "" \/ Namespace (meta k o) = ns) /\
                            Matches sel (Labels (meta k o)) = true) os;
  GetByKey_spec k idx name (os : list (object k)) :
    keyed k idx os ->
    GetByKey idx name =
      (CachedObject ∘ existT k <$> List.find (fun o => bool_decide (cache_key (key_of k o) = name)) os,
       None);
  NewNotFound_spec r name : IsNotFound (NewNotFound r name) = true
}.

(** ** Listers on such a cache *)

Lemma cache_key_inj key key' :
  contains (nn_Namespace key) "/" = false -> contains (nn_Namespace key') "/" = false ->
  cache_key key = cache_key key' -> key = key'.
Proof.
  destruct key as [ns n], key' as [ns' n']. unfold cache_key. simpl. intros Hs Hs' E.
  apply (f_equal (fun s => Split s "/")) in E.
  rewrite !Split_app_sep in E by done. injection E as -> E.
  apply (f_equal (fun l => Join l "/")) in E. rewrite !Join_Split in E. by subst.
Qed.

Lemma assertType_id k (o : object k) : assertType k (CachedObject (existT k o)) = Some o.
Proof.
  simpl. destruct (decide (k = k)) as [e|]; [|done].
  by rewrite (Eqdep_dec.UIP_dec kind_eq_dec e eq_refl).
Qed.

Lemma appendAll_objects k (os : list (object k)) :
  appendAll k ((fun o => CachedObject (existT k o)) <$> os) = Some os.
Proof.
  induction os as [|o os IH]; [done|]. cbn [fmap list_fmap appendAll].
  by rewrite assertType_id, IH.
Qed.

Section reads.
Context `{CacheLibOk} (k : kind) (resource : GroupResource) (idx : Indexer) (os : list (object k)).
Hypothesis Hidx : keyed k idx os.
Notation l := (newLister k resource idx).

Lemma lister_lists sel :
  exists os', listAll l sel = Returned (os', None) /\
    os' ≡ₚ filter (fun o => Matches sel (Labels (meta k o)) = true) os.
Proof.
  destruct (ListAll_spec k idx sel os Hidx) as (os' & E & Hp). exists os'. split; [|done].
  unfold listAll, newLister, lister_List, collect. cbn [indexer]. rewrite E. cbn [fst snd].
  by rewrite appendAll_objects.
Qed.

Lemma lister_lists_in ns sel :
  exists os', listIn l ns sel = Returned (os', None) /\
    os' ≡ₚ filter (fun o => (ns = "" \/ Namespace (meta k o) = ns) /\
                            Matches sel (Labels (meta k o)) = true) os.
Proof.
  destruct (ListAllByNamespace_spec k idx sel ns os Hidx) as (os' & E & Hp).
  exists os'. split; [|done].
  unfold listIn, newLister, namespaceLister_List, collect, lister_InNamespace.
  cbn [indexer ns_indexer namespace]. rewrite E. cbn [fst snd]. by rewrite appendAll_objects.
Qed.

(** The one object of that namespace and name, or the error "not found". *)
Lemma lister_gets ns name :
  contains ns "/" = false -> Forall (fun o => contains (Namespace (meta k o)) "/" = false) os ->
  match getIn l ns name with
  | Returned (Some o, None) => o ∈ os /\ key_of k o = mkNamespacedName ns name
  | Returned (None, Some (ErrAPI e)) =>
      IsNotFound e = true /\ forall o, o ∈ os -> key_of k o <> mkNamespacedName ns name
  | _ => False
  end.
Proof.
  intros Hns Hos. unfold getIn, newLister, namespaceLister_Get, lister_InNamespace.
  cbn [indexer ns_indexer namespace].
  change (ns +:+ "/" +:+ name) with (cache_key (mkNamespacedName ns name)).
  rewrite (GetByKey_spec k idx _ os Hidx). rewrite Forall_forall in Hos.
  destruct (List.find _ os) as [o|] eqn:E; cbn [fmap option_fmap option_map compose].
  - apply List.find_some in E as [Hin E%bool_decide_eq_true]. apply list_elem_of_In in Hin.
    rewrite assertType_id. split; [done|]. apply cache_key_inj in E; [done| |done]. by apply Hos.
  - split; [apply NewNotFound_spec|]. intros o Hin%list_elem_of_In Hkey.
    pose proof (List.find_none _ _ E o Hin) as Hn%bool_decide_eq_false. by rewrite Hkey in Hn.
Qed.
End reads.
