(* ===== verification/Informers.v ===== *)
(** * The shared informers (pkg/generated/informers/externalversions)

    [sharedInformerFactory] (factory.go) keeps at most one informer per Go type and
    starts each of them once.  [Heap] is what the factory and its callers share: the
    factory behind its pointer, the informers allocated so far, and the informers
    for which a goroutine [go informer.Run(stopCh)] was started.  Every method holds
    the factory's mutex while it touches the factory, so a concurrent use of the
    factory is a sequence of these functions.

    informer-gen writes one file per kind from one template (section [informer]);
    interface.go and generic.go give access to them by name and by resource. *)

From S2P Require Import Prelude.
From S2P Require Import GoStrings.
From S2P Require Import GoErrors.
From S2P Require Import Prog.
From S2P Require Import Api.
From S2P Require Import Scheme.
From S2P Require Import Rest.
From S2P Require Import Clientset.
From S2P Require Import ClientStore.
From S2P Require Import Listers.

(** A [reflect.Type] of a pointer to an object is the kind of the object. *)
Definition kind_code (k : kind) : nat :=
  match k with
  | KBinding => 0 | KExchange => 1 | KFederation => 2 | KOperatorPolicy => 3
  | KPermission => 4 | KPolicy => 5 | KQueue => 6 | KSchemaReplication => 7 | KShovel => 8
  | KTopicPermission => 9 | KUser => 10 | KVhost => 11 | KSuperStream => 12 | KSecret => 13
  | KService => 14 | KRabbitmqCluster => 15
  end.
Definition kind_decode (n : nat) : option kind :=
  [KBinding; KExchange; KFederation; KOperatorPolicy; KPermission; KPolicy; KQueue;
   KSchemaReplication; KShovel; KTopicPermission; KUser; KVhost; KSuperStream; KSecret; KService;
   KRabbitmqCluster] !! n.
#[export] Instance kind_countable : Countable kind.
Proof. apply (inj_countable kind_code kind_decode). by intros []. Defined.

Section informers.
Context {R D : Type} {M : Type -> Type}.

(** [internalinterfaces.TweakListOptionsFunc]; nil is [None] *)
Definition TweakListOptionsFunc : Type := option (ListOptions -> ListOptions).

(** [if tweakListOptions != nil { tweakListOptions(&options) }] *)
Definition tweak (f : TweakListOptionsFunc) (o : ListOptions) : ListOptions :=
  match f with Some f => f o | None => o end.

(** What [cache.NewSharedIndexInformer] was called with, at an address. *)
Record SharedIndexInformer := mkSharedIndexInformer {
  address : nat;
  objectType : kind;
  ListFunc : ListOptions -> M (option (ObjectList objectType) * option error)%type;
  WatchFunc : ListOptions -> M (error + Watcher)%type;
  resyncPeriod : Z;
  indexers : list string
}.

(** [internalinterfaces.NewInformerFunc]; the address is the one of the new object *)
Definition NewInformerFunc : Type := Interface R D M -> Z -> nat -> SharedIndexInformer.

(** ** factory.go *)

Record sharedInformerFactory := mkSharedInformerFactory {
  client : Interface R D M;
  f_namespace : string;
  tweakListOptions : TweakListOptionsFunc;
  defaultResync : Z;
  customResync : gmap kind Z;
  informers : gmap kind SharedIndexInformer;
  startedInformers : gmap kind bool
}.

Definition SharedInformerOption : Type := sharedInformerFactory -> sharedInformerFactory.

(** The map of the source is from objects to periods: the type of each key, in the
    order in which the loop visits the map. *)
Definition WithCustomResyncConfig (resyncConfig : list (kind * Z)) : SharedInformerOption :=
  fun f => mkSharedInformerFactory (client f) (f_namespace f) (tweakListOptions f) (defaultResync f)
             (foldl (fun m '(t, v) => <[t:=v]> m) (customResync f) resyncConfig)
             (informers f) (startedInformers f).

Definition WithTweakListOptions (t : TweakListOptionsFunc) : SharedInformerOption :=
  fun f => mkSharedInformerFactory (client f) (f_namespace f) t (defaultResync f) (customResync f)
             (informers f) (startedInformers f).

Definition WithNamespace (ns : string) : SharedInformerOption :=
  fun f => mkSharedInformerFactory (client f) ns (tweakListOptions f) (defaultResync f)
             (customResync f) (informers f) (startedInformers f).

Definition NamespaceAll : string := "".

Definition NewSharedInformerFactoryWithOptions (c : Interface R D M) (resync : Z)
    (options : list SharedInformerOption) : sharedInformerFactory :=
  foldl (fun f opt => opt f) (mkSharedInformerFactory c NamespaceAll None resync ∅ ∅ ∅) options.

Definition NewSharedInformerFactory (c : Interface R D M) (resync : Z) : sharedInformerFactory :=
  NewSharedInformerFactoryWithOptions c resync [].

Definition NewFilteredSharedInformerFactory (c : Interface R D M) (resync : Z) (ns : string)
    (t : TweakListOptionsFunc) : sharedInformerFactory :=
  NewSharedInformerFactoryWithOptions c resync [WithNamespace ns; WithTweakListOptions t].

(** ** The factory in memory *)

Record Heap := mkHeap {
  factory : sharedInformerFactory;
  next : nat;
  running : list nat
}.

Definition set_informers (m : gmap kind SharedIndexInformer) (f : sharedInformerFactory) :=
  mkSharedInformerFactory (client f) (f_namespace f) (tweakListOptions f) (defaultResync f)
    (customResync f) m (startedInformers f).
Definition set_started (m : gmap kind bool) (f : sharedInformerFactory) :=
  mkSharedInformerFactory (client f) (f_namespace f) (tweakListOptions f) (defaultResync f)
    (customResync f) (informers f) m.

(** A missing entry of [startedInformers] reads as false. *)
Definition started (f : sharedInformerFactory) (t : kind) : bool := deref (startedInformers f !! t) false.

Definition InformerFor (t : kind) (newFunc : NewInformerFunc) (h : Heap) : SharedIndexInformer * Heap :=
  let f := factory h in
  match informers f !! t with
  | Some informer => (informer, h)
  | None =>
      let period := match customResync f !! t with Some p => p | None => defaultResync f end in
      let informer := newFunc (client f) period (next h) in
      (informer, mkHeap (set_informers (<[t:=informer]> (informers f)) f) (S (next h)) (running h))
  end.

(** One round of the loop of [Start]. *)
Definition startOne (h : Heap) (entry : kind * SharedIndexInformer) : Heap :=
  let '(t, informer) := entry in
  if negb (started (factory h) t)
  then mkHeap (set_started (<[t:=true]> (startedInformers (factory h))) (factory h)) (next h)
         (running h ++ [address informer])
  else h.

(** [order] are the entries of the map in the order in which the loop visits them. *)
Definition Start (order : list (kind * SharedIndexInformer)) (h : Heap) : Heap :=
  foldl startOne h order.

(** [WaitForCacheSync]: the informers that were started by now, and for each whether
    its cache was in sync before the channel was closed. *)
Definition WaitForCacheSync (synced : SharedIndexInformer -> bool) (h : Heap) : gmap kind bool :=
  let f := factory h in
  synced <$> filter (fun '(t, _) => started f t = true) (informers f).

(** ** Templates of the files per kind *)

Section informer.
Context (k : kind) (getter : Interface R D M -> string -> TypedInterface M k).

Definition NewFilteredInformer (c : Interface R D M) (ns : string) (resync : Z) (idx : list string)
    (t : TweakListOptionsFunc) (addr : nat) : SharedIndexInformer :=
  mkSharedIndexInformer addr k
    (fun options => List (getter c ns) (tweak t options))
    (fun options => WatchChanges (getter c ns) (tweak t options))
    resync idx.

Definition NewInformer (c : Interface R D M) (ns : string) (resync : Z) (idx : list string)
    (addr : nat) : SharedIndexInformer :=
  NewFilteredInformer c ns resync idx None addr.

(** [type queueInformer struct]; the factory is the one of the heap *)
Record kindInformer := mkKindInformer { i_tweak : TweakListOptionsFunc; i_namespace : string }.

(** [cache.NamespaceIndex] *)
Definition NamespaceIndex : string := "namespace".

Definition defaultInformer (i : kindInformer) : NewInformerFunc :=
  fun c resync addr =>
    NewFilteredInformer c (i_namespace i) resync [NamespaceIndex] (i_tweak i) addr.

Definition Informer (i : kindInformer) (h : Heap) : SharedIndexInformer * Heap :=
  InformerFor k (defaultInformer i) h.

(** [NewQueueLister(f.Informer().GetIndexer())] *)
Definition InformerLister `{CacheLib} (newL : Indexer -> ListerInterface k)
    (GetIndexer : SharedIndexInformer -> Indexer) (i : kindInformer) (h : Heap) :
    ListerInterface k * Heap :=
  let '(informer, h) := Informer i h in (newL (GetIndexer informer), h).
End informer.

(** ** One informer per generated file *)

Definition bindingInformer := Informer KBinding (fun c => Bindings (RabbitmqV1beta1 c)).
Definition exchangeInformer := Informer KExchange (fun c => Exchanges (RabbitmqV1beta1 c)).
Definition federationInformer := Informer KFederation (fun c => Federations (RabbitmqV1beta1 c)).
Definition operatorPolicyInformer :=
  Informer KOperatorPolicy (fun c => OperatorPolicies (RabbitmqV1beta1 c)).
Definition permissionInformer := Informer KPermission (fun c => Permissions (RabbitmqV1beta1 c)).
Definition policyInformer := Informer KPolicy (fun c => Policies (RabbitmqV1beta1 c)).
Definition queueInformer := Informer KQueue (fun c => Queues (RabbitmqV1beta1 c)).
Definition schemaReplicationInformer :=
  Informer KSchemaReplication (fun c => SchemaReplications (RabbitmqV1beta1 c)).
Definition shovelInformer := Informer KShovel (fun c => Shovels (RabbitmqV1beta1 c)).
Definition userInformer := Informer KUser (fun c => Users (RabbitmqV1beta1 c)).
Definition vhostInformer := Informer KVhost (fun c => Vhosts (RabbitmqV1beta1 c)).
Definition superStreamInformer := Informer KSuperStream (fun c => SuperStreams (RabbitmqV1alpha1 c)).

(** ** interface.go: [Rabbitmq().V1beta1().Queues()] and its like *)

(** The structs [group] and [version] hold the same three fields as the informers;
    the factory is the one of the heap. *)
Definition Rabbitmq (f : sharedInformerFactory) : kindInformer :=
  mkKindInformer (tweakListOptions f) (f_namespace f).
Definition group_V1beta1 (g : kindInformer) : kindInformer := mkKindInformer (i_tweak g) (i_namespace g).
Definition group_V1alpha1 (g : kindInformer) : kindInformer := mkKindInformer (i_tweak g) (i_namespace g).
Definition version_informer (v : kindInformer) : kindInformer := mkKindInformer (i_tweak v) (i_namespace v).

(** ** generic.go *)

Record genericInformer := mkGenericInformer {
  g_informer : SharedIndexInformer;
  g_resource : GroupResource
}.

Definition informersV1beta1 : list (string * (kindInformer -> Heap -> SharedIndexInformer * Heap)) :=
  [("bindings", bindingInformer); ("exchanges", exchangeInformer);
   ("federations", federationInformer); ("operatorpolicies", operatorPolicyInformer);
   ("permissions", permissionInformer); ("policies", policyInformer); ("queues", queueInformer);
   ("schemareplications", schemaReplicationInformer); ("shovels", shovelInformer);
   ("users", userInformer); ("vhosts", vhostInformer)].
Definition informersV1alpha1 : list (string * (kindInformer -> Heap -> SharedIndexInformer * Heap)) :=
  [("superstreams", superStreamInformer)].

(** The cases of the switch, in order. *)
Definition resourceCases : list (GroupVersionResource * (kindInformer -> Heap -> SharedIndexInformer * Heap)) :=
  (prod_map (WithResource v1alpha1.SchemeGroupVersion)
     (fun inf g => inf (version_informer (group_V1alpha1 g))) <$> informersV1alpha1) ++
  (prod_map (WithResource v1beta1.SchemeGroupVersion)
     (fun inf g => inf (version_informer (group_V1beta1 g))) <$> informersV1beta1).

(** [fmt.Errorf("no informer found for %v", resource)]; the text of a resource is
    a method of the library *)
Definition ForResource (show : GroupVersionResource -> string) (resource : GroupVersionResource)
    (h : Heap) : (error + genericInformer) * Heap :=
  match List.find (fun '(r, _) => bool_decide (resource = r)) resourceCases with
  | Some (_, inf) =>
      let '(informer, h) := inf (Rabbitmq (factory h)) h in
      (inr (mkGenericInformer informer (gvr_GroupResource resource)), h)
  | None => (inl (ErrText ("no informer found for " +:+ show resource)), h)
  end.
End informers.
Arguments SharedIndexInformer : clear implicits.
Arguments sharedInformerFactory : clear implicits.
Arguments Heap : clear implicits.
Arguments NewInformerFunc : clear implicits.
