(* ===== verification/InformerProofs.v ===== *)
(** * What the informer factory promises

    The abstract state of a factory is a pair of sets of types: those that were
    requested, and those that run (requested before the last [Start]).  The factory
    refines it over every sequence of calls, in every order in which its loops visit
    their maps; informers are shared per type and started once. *)

From S2P Require Import Prelude.
From S2P Require Import GoStrings.
From S2P Require Import GoErrors.
From S2P Require Import Prog.
From S2P Require Import Api.
From S2P Require Import Scheme.
From S2P Require Import Rest.
From S2P Require Import Clientset.
From S2P Require Import ClientStore.
From S2P Require Import Listers.
From S2P Require Import Informers.

Section factory.
Context {R D : Type} {M : Type -> Type}.
Notation informer := (SharedIndexInformer M).
Notation heap := (Heap R D M).
Implicit Types (h : heap) (i : informer) (t : kind).

(** ** Calls of a factory, with their answers *)

Inductive fevent :=
| Requested (t : kind) (i : informer)
| Started
| Waited (res : gmap kind bool).

(** A [NewInformerFunc] that makes a new informer. *)
Definition allocates (newFunc : NewInformerFunc R D M) : Prop :=
  forall c p a, address (newFunc c p a) = a.

Inductive fstep : heap -> fevent -> heap -> Prop :=
| fstep_request t newFunc h i h' :
    allocates newFunc -> InformerFor t newFunc h = (i, h') -> fstep h (Requested t i) h'
| fstep_resource show k h g h' :
    ForResource show (gvr_of k) h = (inr g, h') -> fstep h (Requested k (g_informer g)) h'
| fstep_start order h :
    order ≡ₚ map_to_list (informers (factory h)) -> fstep h Started (Start order h)
| fstep_wait synced h : fstep h (Waited (WaitForCacheSync synced h)) h.

Inductive fsteps : heap -> list fevent -> heap -> Prop :=
| fsteps_nil h : fsteps h [] h
| fsteps_snoc h evs h1 e h2 : fsteps h evs h1 -> fstep h1 e h2 -> fsteps h (evs ++ [e]) h2.

(** A factory as its constructors leave it. *)
Inductive is_option : SharedInformerOption (R:=R) (D:=D) (M:=M) -> Prop :=
| option_resync l : is_option (WithCustomResyncConfig l)
| option_tweak tw : is_option (WithTweakListOptions tw)
| option_namespace ns : is_option (WithNamespace ns).

Definition fresh_heap (h : heap) : Prop :=
  exists c resync options, Forall is_option options /\
    factory h = NewSharedInformerFactoryWithOptions c resync options /\ running h = [].

(** ** The specification *)

Record spec_state := mkSpec { requested : gset kind; runs : gset kind }.
Definition spec_event (s : spec_state) (e : fevent) : spec_state :=
  match e with
  | Requested t _ => mkSpec ({[t]} ∪ requested s) (runs s)
  | Started => mkSpec (requested s) (requested s)
  | Waited _ => s
  end.
Definition spec_of (evs : list fevent) : spec_state := foldl spec_event (mkSpec ∅ ∅) evs.

Lemma spec_of_snoc evs e : spec_of (evs ++ [e]) = spec_event (spec_of evs) e.
Proof. unfold spec_of. by rewrite foldl_app. Qed.

(** ** Invariant *)

Record invariant (h : heap) (s : spec_state) : Prop := {
  inv_requested : dom (informers (factory h)) = requested s;
  inv_runs t : started (factory h) t = true <-> t ∈ runs s;
  inv_subset : runs s ⊆ requested s;
  inv_next t i : informers (factory h) !! t = Some i -> address i < next h;
  inv_distinct t t' i i' :
    informers (factory h) !! t = Some i -> informers (factory h) !! t' = Some i' ->
    address i = address i' -> t = t';
  inv_once : NoDup (running h);
  inv_running a : a ∈ running h <->
    exists t i, informers (factory h) !! t = Some i /\ t ∈ runs s /\ address i = a
}.

Lemma fresh_invariant h : fresh_heap h -> invariant h (mkSpec ∅ ∅).
Proof.
  intros (c & resync & options & Hopts & Hf & Hr).
  assert (Hempty : informers (factory h) = ∅ /\ startedInformers (factory h) = ∅).
  { rewrite Hf. unfold NewSharedInformerFactoryWithOptions.
    set (f0 := mkSharedInformerFactory _ _ _ _ _ _ _).
    assert (Hf0 : informers f0 = ∅ /\ startedInformers f0 = ∅) by done. clearbody f0.
    clear Hf. revert f0 Hf0. induction Hopts as [|o os Ho Hos IH]; intros f0 Hf0; [done|].
    simpl. apply IH. by destruct Ho. }
  destruct Hempty as [Hi Hs].
  constructor; unfold started; rewrite ?Hi, ?Hs, ?Hr.
  - apply dom_empty_L.
  - intros t. rewrite lookup_empty. simpl. split; [done|]. by intros ?%not_elem_of_empty.
  - done.
  - intros t i. by rewrite lookup_empty.
  - intros t t' i i'. by rewrite lookup_empty.
  - constructor.
  - intros a. split; [by intros ?%not_elem_of_nil|]. intros (t & i & Ht & _).
    by rewrite lookup_empty in Ht.
Qed.

(** ** Each operation keeps it *)

Lemma InformerFor_invariant t newFunc h i h' s :
  allocates newFunc -> invariant h s -> InformerFor t newFunc h = (i, h') ->
  invariant h' (mkSpec ({[t]} ∪ requested s) (runs s)) /\
  informers (factory h') !! t = Some i /\
  informers (factory h) ⊆ informers (factory h').
Proof.
  intros Hnew Hinv. unfold InformerFor.
  destruct (informers (factory h) !! t) as [i0|] eqn:Et.
  - intros [= -> ->]. split; [|done].
    replace ({[t]} ∪ requested s) with (requested s); [by destruct s|].
    apply elem_of_dom_2 in Et. rewrite (inv_requested _ _ Hinv) in Et. set_solver.
  - intros [= <- <-]. simpl.
    set (i := newFunc _ _ _). assert (Ha : address i = next h) by apply Hnew.
    clearbody i. split; [|split; [apply lookup_insert_eq|by apply insert_subseteq]].
    pose proof (inv_subset _ _ Hinv) as Hsub.
    assert (Hnt : t ∉ runs s).
    { intros Ht%Hsub. rewrite <- (inv_requested _ _ Hinv) in Ht.
      apply elem_of_dom in Ht as [? Ht]. congruence. }
    constructor; simpl.
    + by rewrite dom_insert_L, (inv_requested _ _ Hinv).
    + apply (inv_runs _ _ Hinv).
    + set_solver.
    + intros t' i'. rewrite lookup_insert_Some. intros [[-> <-]|[_ Hi]]; [lia|].
      apply (inv_next _ _ Hinv) in Hi. lia.
    + intros t1 t2 i1 i2. rewrite !lookup_insert_Some.
      intros [[-> <-]|[_ H1]] [[-> <-]|[_ H2]] E; [done| | |by eapply inv_distinct].
      * apply (inv_next _ _ Hinv) in H2. lia.
      * apply (inv_next _ _ Hinv) in H1. lia.
    + apply (inv_once _ _ Hinv).
    + intros a. rewrite (inv_running _ _ Hinv). split; intros (t' & i' & Hi & Hr & <-).
      * exists t', i'. split; [|done]. rewrite lookup_insert_ne; [done|congruence].
      * exists t', i'. split; [|done]. by rewrite lookup_insert_ne in Hi by congruence.
Qed.

(** Nothing appears but the informer that was asked for. *)
Lemma InformerFor_only t newFunc h i h' :
  InformerFor t newFunc h = (i, h') ->
  forall t' i', informers (factory h') !! t' = Some i' ->
    informers (factory h) !! t' = Some i' \/ Requested t i = Requested t' i'.
Proof.
  unfold InformerFor. destruct (informers (factory h) !! t) as [i0|] eqn:Et; intros [= <- <-] t' i'.
  - eauto.
  - simpl. rewrite lookup_insert_Some. intros [[-> ->]|[_ ?]]; eauto.
Qed.

(** One round of [Start], for an entry of the map. *)
Lemma startOne_invariant t i h s :
  invariant h s -> informers (factory h) !! t = Some i ->
  invariant (startOne h (t, i)) (mkSpec (requested s) ({[t]} ∪ runs s)) /\
  informers (factory (startOne h (t, i))) = informers (factory h).
Proof.
  intros Hinv Hi. unfold startOne. destruct (started (factory h) t) eqn:Es; simpl.
  - split; [|done]. apply (inv_runs _ _ Hinv) in Es.
    by replace ({[t]} ∪ runs s) with (runs s) by set_solver; destruct s.
  - split; [|done].
    assert (Hnt : t ∉ runs s) by (rewrite <- (inv_runs _ _ Hinv), Es; done).
    assert (Ht : t ∈ requested s)
      by (rewrite <- (inv_requested _ _ Hinv); by eapply elem_of_dom_2).
    pose proof (inv_subset _ _ Hinv) as Hsub.
    constructor; simpl.
    + apply (inv_requested _ _ Hinv).
    + intros t'. unfold started. simpl. destruct (decide (t' = t)) as [->|Hne].
      * rewrite lookup_insert_eq. simpl. set_solver.
      * rewrite lookup_insert_ne by done. pose proof (inv_runs _ _ Hinv t') as Hr.
        unfold started in Hr. rewrite Hr. set_solver.
    + set_solver.
    + apply (inv_next _ _ Hinv).
    + apply (inv_distinct _ _ Hinv).
    + apply NoDup_app. split; [apply (inv_once _ _ Hinv)|]. split; [|apply NoDup_singleton].
      intros a (t' & i' & Hi' & Hr' & Ha)%(inv_running _ _ Hinv) ->%list_elem_of_singleton.
      by rewrite (inv_distinct _ _ Hinv _ _ _ _ Hi' Hi Ha) in Hr'.
    + intros a. rewrite elem_of_app, (inv_running _ _ Hinv), list_elem_of_singleton. split.
      * intros [(t' & i' & Hi' & Hr & <-)| ->]; [exists t', i'|exists t, i]; set_solver.
      * intros (t' & i' & Hi' & [->%elem_of_singleton|Hr]%elem_of_union & <-); [|eauto 6].
        right. congruence.
Qed.

Lemma Start_invariant_gen order h s :
  invariant h s -> (forall t i, (t, i) ∈ order -> informers (factory h) !! t = Some i) ->
  invariant (Start order h) (mkSpec (requested s) (list_to_set order.*1 ∪ runs s)) /\
  informers (factory (Start order h)) = informers (factory h).
Proof.
  revert h s. induction order as [|[t i] order IH]; intros h s Hinv Hin.
  - simpl. split; [|done]. replace (∅ ∪ runs s) with (runs s) by set_solver. by destruct s.
  - destruct (startOne_invariant t i h s Hinv) as [Hinv1 Hsame].
    { apply Hin. by left. }
    destruct (IH (startOne h (t, i)) _ Hinv1) as [Hinv2 Hsame2].
    { intros t' i' Ht. rewrite Hsame. apply Hin. by right. }
    change (Start ((t, i) :: order) h) with (Start order (startOne h (t, i))).
    split; [|by rewrite Hsame2]. cbn [requested runs] in Hinv2.
    assert (Hset : list_to_set ((t, i) :: order).*1 ∪ runs s =
                   list_to_set order.*1 ∪ ({[t]} ∪ runs s)) by (simpl; set_solver).
    by rewrite Hset.
Qed.

Lemma Start_invariant order h s :
  order ≡ₚ map_to_list (informers (factory h)) -> invariant h s ->
  invariant (Start order h) (mkSpec (requested s) (requested s)) /\
  informers (factory (Start order h)) = informers (factory h).
Proof.
  intros Ho Hinv. destruct (Start_invariant_gen order h s Hinv) as [H1 H2].
  { intros t i Ht. rewrite Ho in Ht. by apply elem_of_map_to_list in Ht. }
  split; [|done].
  replace (requested s) with (list_to_set order.*1 ∪ runs s) at 2; [done|].
  apply leibniz_equiv. rewrite (fmap_Permutation fst _ _ Ho).
  pose proof (inv_subset _ _ Hinv) as Hsub.
  rewrite <- (inv_requested _ _ Hinv) in Hsub |- *.
  apply set_equiv. intros t. rewrite elem_of_union, elem_of_list_to_set, list_elem_of_fmap.
  split.
  - intros [([t' i] & -> & Ht%elem_of_map_to_list)|Ht]; [by eapply elem_of_dom_2|by apply Hsub].
  - intros [i Hi]%elem_of_dom. left. exists (t, i). split; [done|]. by apply elem_of_map_to_list.
Qed.

Lemma Wait_domain synced h s :
  invariant h s -> dom (WaitForCacheSync synced h) = runs s.
Proof.
  intros Hinv. apply set_eq. intros t. unfold WaitForCacheSync. cbn zeta.
  rewrite dom_fmap_L, elem_of_dom. rewrite <- (inv_runs _ _ Hinv). split.
  - intros [i Hi]. by apply map_lookup_filter_Some in Hi as [_ ?].
  - intros Hs. apply (inv_runs _ _ Hinv) in Hs as Hr. apply (inv_subset _ _ Hinv) in Hr.
    rewrite <- (inv_requested _ _ Hinv) in Hr. apply elem_of_dom in Hr as [i Hi].
    exists i. by apply map_lookup_filter_Some.
Qed.

(** ** Access by resource *)

(** How the generated accessors get the client of a kind. *)
Definition getter_of (k : kind) : option (Interface R D M -> string -> TypedInterface M k) :=
  match k with
  | KBinding => Some (fun c => Bindings (RabbitmqV1beta1 c))
  | KExchange => Some (fun c => Exchanges (RabbitmqV1beta1 c))
  | KFederation => Some (fun c => Federations (RabbitmqV1beta1 c))
  | KOperatorPolicy => Some (fun c => OperatorPolicies (RabbitmqV1beta1 c))
  | KPermission => Some (fun c => Permissions (RabbitmqV1beta1 c))
  | KPolicy => Some (fun c => Policies (RabbitmqV1beta1 c))
  | KQueue => Some (fun c => Queues (RabbitmqV1beta1 c))
  | KSchemaReplication => Some (fun c => SchemaReplications (RabbitmqV1beta1 c))
  | KShovel => Some (fun c => Shovels (RabbitmqV1beta1 c))
  | KUser => Some (fun c => Users (RabbitmqV1beta1 c))
  | KVhost => Some (fun c => Vhosts (RabbitmqV1beta1 c))
  | KSuperStream => Some (fun c => SuperStreams (RabbitmqV1alpha1 c))
  | KTopicPermission | KSecret | KService | KRabbitmqCluster => None
  end.

Lemma clientOf_getter (c : Interface R D M) k : clientOf c k = (fun g => g c) <$> getter_of k.
Proof. by destruct k. Qed.

(** The accessor of a kind: [f.Rabbitmq().V1beta1().Queues().Informer()]. *)
Definition accessor (k : kind) (g : Interface R D M -> string -> TypedInterface M k) (h : heap) :
    informer * heap :=
  InformerFor k (defaultInformer k g (Rabbitmq (factory h))) h.

Lemma ForResource_known show k g h :
  getter_of k = Some g ->
  ForResource show (gvr_of k) h =
    let '(i, h') := accessor k g h in (inr (mkGenericInformer i (gvr_GroupResource (gvr_of k))), h').
Proof. destruct k; intros [= <-]; reflexivity. Qed.

Lemma ForResource_unknown show r h :
  (forall k, is_Some (getter_of k) -> r <> gvr_of k) ->
  ForResource show r h = (inl (ErrText ("no informer found for " +:+ show r)), h).
Proof.
  intros Hr. unfold ForResource. destruct (List.find _ resourceCases) as [[r' inf]|] eqn:E; [|done].
  apply List.find_some in E as [Hin ->%bool_decide_eq_true]. exfalso.
  assert (Hk : exists k, is_Some (getter_of k) /\ r' = gvr_of k).
  { apply (in_map fst) in Hin. cbn in Hin. clear Hr.
    repeat (destruct Hin as [<-|Hin]); [..|done];
      [exists KSuperStream|exists KBinding|exists KExchange|exists KFederation|exists KOperatorPolicy
      |exists KPermission|exists KPolicy|exists KQueue|exists KSchemaReplication|exists KShovel
      |exists KUser|exists KVhost]; by split; [eexists|]. }
  destruct Hk as (k & Hk & ->). by apply (Hr k).
Qed.

Lemma defaultInformer_allocates k g (ki : kindInformer) : allocates (defaultInformer k g ki).
Proof. by intros c p a. Qed.

(** ** Sequences of calls *)

Lemma fstep_keeps h e h' s :
  invariant h s -> fstep h e h' ->
  invariant h' (spec_event s e) /\ informers (factory h) ⊆ informers (factory h') /\
  (forall t i, informers (factory h') !! t = Some i ->
     informers (factory h) !! t = Some i \/ e = Requested t i) /\
  match e with
  | Requested t i => informers (factory h') !! t = Some i
  | Started => True
  | Waited res => dom res = runs s
  end.
Proof.
  intros Hinv Hstep. destruct Hstep as [t newFunc h i h' Hnew E|show k h g h' E|order h Ho|synced h].
  - destruct (InformerFor_invariant _ _ _ _ _ _ Hnew Hinv E) as (H1 & H2 & H3).
    split; [done|]. split; [done|]. split; [|done].
    eapply InformerFor_only; exact E.
  - destruct (getter_of k) as [gt|] eqn:Eg.
    + rewrite (ForResource_known show k gt h Eg) in E.
      destruct (accessor k gt h) as [i h1] eqn:Ea. injection E as <- <-.
      destruct (InformerFor_invariant _ _ _ _ _ _ (defaultInformer_allocates _ _ _) Hinv Ea)
        as (H1 & H2 & H3).
      split; [done|]. split; [done|]. split; [|done].
      eapply InformerFor_only; exact Ea.
    + rewrite ForResource_unknown in E; [done|].
      intros k' Hk' Heq%gvr_of_inj. subst k'. rewrite Eg in Hk'. by destruct Hk'.
  - destruct (Start_invariant order h s Ho Hinv) as [H1 H2]. rewrite H2. eauto.
  - rewrite (Wait_domain synced h s Hinv). eauto.
Qed.

Lemma fsteps_keep h0 evs h :
  fresh_heap h0 -> fsteps h0 evs h ->
  invariant h (spec_of evs) /\
  (forall t i, Requested t i ∈ evs <-> informers (factory h) !! t = Some i) /\
  (forall pre res post, evs = pre ++ Waited res :: post -> dom res = runs (spec_of pre)).
Proof.
  intros Hf Hs. induction Hs as [h|h evs h1 e h2 Hs IH Hstep].
  - pose proof (fresh_invariant h Hf) as Hi. split; [done|]. split.
    + intros t i. split; [by intros ?%not_elem_of_nil|]. intros Ht%elem_of_dom_2.
      rewrite (inv_requested _ _ Hi) in Ht. by apply not_elem_of_empty in Ht.
    + intros pre res post E. by destruct pre.
  - destruct (IH Hf) as (Hinv & Hreq & Hwait).
    destruct (fstep_keeps _ _ _ _ Hinv Hstep) as (Hinv' & Hsub & Honly & He).
    rewrite spec_of_snoc. split; [done|]. split.
    + intros t i. rewrite elem_of_app, list_elem_of_singleton, Hreq. split.
      * intros [Hi| <-]; [by eapply lookup_weaken|done].
      * intros [Hi| ->]%Honly; eauto.
    + intros pre res post E.
      destruct post as [|e' post _] using rev_ind.
      * apply app_inj_tail in E as [-> ->]. exact He.
      * rewrite app_comm_cons, app_assoc in E. apply app_inj_tail in E as [E _].
        by eapply Hwait.
Qed.

(** C29: A shared informer factory hands out one informer per type however often
    and in whatever order it is asked, directly or by resource; each informer that
    was requested before a Start runs exactly once, and WaitForCacheSync waits for
    exactly the started ones. *)
Theorem factory_shares h0 evs h :
  fresh_heap h0 -> fsteps h0 evs h ->
  (forall t i i', Requested t i ∈ evs -> Requested t i' ∈ evs -> i = i') /\
  (forall t t' i i', Requested t i ∈ evs -> Requested t' i' ∈ evs -> address i = address i' -> t = t') /\
  NoDup (running h) /\
  (forall a, a ∈ running h <->
     exists t i, Requested t i ∈ evs /\ t ∈ runs (spec_of evs) /\ address i = a) /\
  (forall pre res post, evs = pre ++ Waited res :: post -> dom res = runs (spec_of pre)).
Proof.
  intros Hf Hs. destruct (fsteps_keep _ _ _ Hf Hs) as (Hinv & Hreq & Hwait).
  split; [|split; [|split; [|split; [|done]]]].
  - intros t i i' H1%Hreq H2%Hreq. congruence.
  - intros t t' i i' H1%Hreq H2%Hreq. by eapply inv_distinct.
  - apply (inv_once _ _ Hinv).
  - intros a. rewrite (inv_running _ _ Hinv). by setoid_rewrite Hreq.
Qed.
End factory.
