(* ===== verification/CacheReads.v ===== *)
(** * From the API server to a lister

    The generated clients, informers and listers put together: the informer of a
    kind lists that kind with the client of the clientset, in the namespace of the
    factory and with its filter, and a lister on the cache that was filled from such
    a list answers what the server would. *)

From S2P Require Import Prelude.
From S2P Require Import GoStrings.
From S2P Require Import GoErrors.
From S2P Require Import Prog.
From S2P Require Import Api.
From S2P Require Import Scheme.
From S2P Require Import Rest.
From S2P Require Import Clientset.
From S2P Require Import ClientStore.
From S2P Require Import Listers.
From S2P Require Import Informers.
From S2P Require Import InformerProofs.
From Stdlib Require Import Ascii.

(** The constructor of the lister of a kind. *)
Definition lister_of `{CacheLib} (k : kind) : option (Indexer -> ListerInterface k) :=
  match k with
  | KBinding => Some NewBindingLister | KExchange => Some NewExchangeLister
  | KFederation => Some NewFederationLister | KOperatorPolicy => Some NewOperatorPolicyLister
  | KPermission => Some NewPermissionLister | KPolicy => Some NewPolicyLister
  | KQueue => Some NewQueueLister | KSchemaReplication => Some NewSchemaReplicationLister
  | KShovel => Some NewShovelLister | KUser => Some NewUserLister
  | KVhost => Some NewVhostLister | KSuperStream => Some NewSuperStreamLister
  | KTopicPermission | KSecret | KService | KRabbitmqCluster => None
  end.

Lemma lister_of_template `{CacheLib} k L :
  lister_of k = Some L -> exists r, L = newLister k r.
Proof. destruct k; intros [= <-]; eexists; reflexivity. Qed.

(** ** Factories that are used through the generated accessors *)

Section accessors.
Context {R D : Type} {M : Type -> Type}.
Notation informer := (SharedIndexInformer M).
Notation heap := (Heap R D M).

Inductive gstep : heap -> fevent -> heap -> Prop :=
| gstep_access k g h i h' :
    getter_of k = Some g -> accessor k g h = (i, h') -> gstep h (Requested k i) h'
| gstep_resource show k h g h' :
    ForResource show (gvr_of k) h = (inr g, h') -> gstep h (Requested k (g_informer g)) h'
| gstep_start order h :
    order ≡ₚ map_to_list (informers (factory h)) -> gstep h Started (Start order h)
| gstep_wait synced h : gstep h (Waited (WaitForCacheSync synced h)) h.

Inductive gsteps : heap -> list (fevent (M:=M)) -> heap -> Prop :=
| gsteps_nil h : gsteps h [] h
| gsteps_snoc h evs h1 e h2 : gsteps h evs h1 -> gstep h1 e h2 -> gsteps h (evs ++ [e]) h2.

(** The settings of a factory, which its methods do not change. *)
Definition same_settings (f f' : sharedInformerFactory R D M) : Prop :=
  client f' = client f /\ f_namespace f' = f_namespace f /\
  tweakListOptions f' = tweakListOptions f /\ defaultResync f' = defaultResync f /\
  customResync f' = customResync f.

(** The period of the type in [WithCustomResyncConfig], or the default. *)
Definition period (f : sharedInformerFactory R D M) (k : kind) : Z :=
  deref (customResync f !! k) (defaultResync f).

(** An informer as the template of its kind makes it. *)
Definition from_template (f : sharedInformerFactory R D M) (k : kind) (i : informer) : Prop :=
  exists g a, getter_of k = Some g /\
    i = NewFilteredInformer k g (client f) (f_namespace f) (period f k) [NamespaceIndex]
          (tweakListOptions f) a.

Definition generated (f : sharedInformerFactory R D M) (h : heap) : Prop :=
  same_settings f (factory h) /\
  forall k i, informers (factory h) !! k = Some i -> from_template f k i.

Lemma accessor_generated f k g h i h' :
  getter_of k = Some g -> generated f h -> accessor k g h = (i, h') -> generated f h'.
Proof.
  intros Hg [Hset Hall]. unfold accessor, InformerFor.
  destruct (informers (factory h) !! k) as [i0|] eqn:Ek; [by intros [= <- <-]|].
  intros [= <- <-]. split; [done|]. simpl. intros k' i'. rewrite lookup_insert_Some.
  intros [[<- <-]|[_ Hi]]; [|by apply Hall].
  destruct Hset as (Hc & Hn & Ht & Hd & Hcu). exists g, (next h). split; [done|].
  unfold defaultInformer, period. simpl. by rewrite Hc, Hn, Ht, Hd, Hcu.
Qed.

Lemma ForResource_accessor show k (h : heap) g h' :
  ForResource show (gvr_of k) h = (inr g, h') ->
  exists gt, getter_of k = Some gt /\ accessor k gt h = (g_informer g, h').
Proof.
  destruct (getter_of k) as [gt|] eqn:Eg.
  - rewrite (ForResource_known show k gt h Eg). destruct (accessor k gt h) as [i h1] eqn:Ea.
    intros [= <- <-]. by exists gt.
  - rewrite ForResource_unknown; [done|].
    intros k' Hk' <-%gvr_of_inj. rewrite Eg in Hk'. by destruct Hk'.
Qed.

Lemma Start_generated f order (h : heap) : generated f h -> generated f (Start order h).
Proof.
  revert h. induction order as [|[k i] order IH]; intros h Hg; [done|].
  apply IH. unfold startOne. by destruct (negb _).
Qed.

Lemma gstep_generated f h e h' : generated f h -> gstep h e h' -> generated f h'.
Proof.
  intros Hg Hs. destruct Hs as [k g h i h' Hgt E|show k h g h' E|order h _|synced h].
  - by eapply accessor_generated.
  - apply ForResource_accessor in E as (gt & Hgt & E). by eapply accessor_generated.
  - by apply Start_generated.
  - done.
Qed.

Lemma gsteps_fsteps h evs h' : gsteps h evs h' -> fsteps h evs h'.
Proof.
  induction 1 as [h|h evs h1 e h2 Hs IH Hstep]; [constructor|]. econstructor; [exact IH|].
  destruct Hstep as [k g h0 i h' Hgt E|show k h0 g h' E|order h0 Ho|synced h0].
  - eapply fstep_request; [|exact E]. apply defaultInformer_allocates.
  - by eapply fstep_resource.
  - by apply fstep_start.
  - apply fstep_wait.
Qed.

Lemma gsteps_generated h0 evs h :
  fresh_heap h0 -> gsteps h0 evs h -> generated (factory h0) h.
Proof.
  intros Hf Hs.
  assert (H0 : generated (factory h0) h0).
  { split; [done|]. intros k i Hi%elem_of_dom_2.
    rewrite (inv_requested _ _ (fresh_invariant h0 Hf)) in Hi. by apply not_elem_of_empty in Hi. }
  clear Hf. induction Hs as [h|h evs h1 e h2 Hs IH Hstep]; [done|].
  eapply gstep_generated; [by apply IH|done].
Qed.

Lemma requested_template h0 evs h k i :
  fresh_heap h0 -> gsteps h0 evs h -> Requested k i ∈ evs -> from_template (factory h0) k i.
Proof.
  intros Hf Hs Hin.
  destruct (fsteps_keep _ _ _ Hf (gsteps_fsteps _ _ _ Hs)) as (_ & Hreq & _).
  by apply (gsteps_generated h0 evs h Hf Hs), Hreq.
Qed.
End accessors.

(** ** Reading through the cache *)

Section reads.
Context `{RestLib} {St : Type} `{!ApiServer St, !ApiServerOk St} `{CacheLibOk}.

(** The cache of an informer whose last list is [os]: one entry per object, of
    objects with a namespace without slash, as the API server validates names. *)
Definition synced_with (k : kind) (os : list (object k)) (idx : Indexer) : Prop :=
  exists os', keyed k idx os' /\ (forall o, o ∈ os' <-> o ∈ os) /\
    Forall (fun o => contains (Namespace (meta k o)) "/" = false) os'.

(** What the factory shows of the server: its namespace, and its filter. *)
Definition visible (f : sharedInformerFactory RESTClient DiscoveryClient rest) (opts : ListOptions)
    (s : St) (k : kind) (o : object k) : Prop :=
  abs s k (key_of k o) = Some (existT k o) /\
  in_namespace (f_namespace f) (key_of k o) /\
  selects (tweak (tweakListOptions f) opts) (meta k o) = true.

Lemma synced_get k os idx L ns name (P : object k -> Prop) :
  lister_of k = Some L -> synced_with k os idx -> (forall o, o ∈ os <-> P o) ->
  contains ns "/" = false ->
  match getIn (L idx) ns name with
  | Returned (Some o, None) => P o /\ key_of k o = mkNamespacedName ns name
  | Returned (None, Some (ErrAPI e)) =>
      IsNotFound e = true /\ forall o, P o -> key_of k o <> mkNamespacedName ns name
  | _ => False
  end.
Proof.
  intros [r ->]%lister_of_template (os' & Hk & Hos & Hslash) HP Hns.
  pose proof (lister_gets k r idx os' Hk ns name Hns Hslash) as Hget.
  destruct (getIn _ ns name) as [[[o|] [[]|]]|]; try done.
  - destruct Hget as [Hin Hkey]. split; [|done]. by apply HP, Hos.
  - destruct Hget as [Hn Hno]. split; [done|]. intros o Ho. by apply Hno, Hos, HP.
Qed.

Lemma synced_list k os idx L sel (P : object k -> Prop) :
  lister_of k = Some L -> synced_with k os idx -> (forall o, o ∈ os <-> P o) ->
  exists l, listAll (L idx) sel = Returned (l, None) /\
    forall o, o ∈ l <-> P o /\ Matches sel (Labels (meta k o)) = true.
Proof.
  intros [r ->]%lister_of_template (os' & Hk & Hos & _) HP.
  destruct (lister_lists k r idx os' Hk sel) as (l & Hl & Hperm). exists l. split; [done|].
  intros o. rewrite Hperm, list_elem_of_filter, Hos, HP. tauto.
Qed.

(** C28: Through a generated informer and lister one reads back what the API
    server holds: the list of the informer of a kind, with the namespace and the
    filter of its factory, is the objects the server shows, and a lister over a
    cache in sync with that list finds exactly those by namespace and name or by
    label. *)
Theorem cache_reads_server c cs h0 evs h k a listF watchF resync idxs :
  Clientset.NewForConfig c = inr cs ->
  fresh_heap h0 -> client (factory h0) = Clientset.asInterface cs -> gsteps h0 evs h ->
  Requested k (mkSharedIndexInformer a k listF watchF resync idxs) ∈ evs ->
  resync = period (factory h0) k /\
  forall opts s, exists e ans s',
    run serve (listF opts) s = ([e], Returned ans, s') /\
    (snd ans = None -> exists l, fst ans = Some l /\
       forall L idx, lister_of k = Some L -> synced_with k (Items l) idx ->
         (forall ns name, contains ns "/" = false ->
            match getIn (L idx) ns name with
            | Returned (Some o, None) =>
                visible (factory h0) opts s k o /\ key_of k o = mkNamespacedName ns name
            | Returned (None, Some (ErrAPI e)) =>
                IsNotFound e = true /\
                forall o, visible (factory h0) opts s k o -> key_of k o <> mkNamespacedName ns name
            | _ => False
            end) /\
         (forall sel, exists l', listAll (L idx) sel = Returned (l', None) /\
            forall o, o ∈ l' <->
              visible (factory h0) opts s k o /\ Matches sel (Labels (meta k o)) = true)).
Proof.
  intros Hc Hf Hcl Hs Hin.
  destruct (requested_template _ _ _ _ _ Hf Hs Hin) as (g & a' & Hg & Hi).
  unfold NewFilteredInformer in Hi. injection Hi as -> Hlist _ -> _.
  apply (Eqdep_dec.inj_pair2_eq_dec _ kind_eq_dec) in Hlist. subst listF.
  split; [done|]. intros opts s.
  pose proof (clientset_clients c cs k Hc) as Hclient. rewrite <- Hcl, clientOf_getter, Hg in Hclient.
  destruct Hclient as (r & Hr & Ht). rewrite Ht.
  destruct (typed_step k r (f_namespace (factory h0)) Hr
              (OpList (tweak (tweakListOptions (factory h0)) opts)) s)
    as (e & ans & s' & Hrun & _ & Hlist).
  exists e, ans, s'. split; [exact Hrun|]. intros He.
  destruct (Hlist He) as (l & Hl & Hitems). exists l. split; [done|].
  intros L idx HL Hidx. split.
  - intros ns name Hns. by apply (synced_get k (Items l) idx L).
  - intros sel. by apply (synced_list k (Items l) idx L).
Qed.
End reads.
