(* ===== verification/FakeClients.v ===== *)
(** * The generated fakes (pkg/generated/clientset/versioned/fake and typed/*/fake)

    The fakes implement the interfaces of the clients by recording actions on a
    [testing.Fake] of client-go.  As for the clients, one template (section
    [fake_client]) and one definition per generated file.  The fake itself answers
    arbitrarily: it may return nil, an object of another type, an error, or both. *)

From S2P Require Import Prelude.
From S2P Require Import GoStrings.
From S2P Require Import GoErrors.
From S2P Require Import Prog.
From S2P Require Import Api.
From S2P Require Import Scheme.
From S2P Require Import Rest.
From S2P Require Import Clientset.
From S2P Require Import ClientStore.
Import ProgNotations.
Local Open Scope go_scope.

(** ** Package k8s.io/client-go/testing *)

(** What the constructors of actions were called with. *)
Inductive test_action :=
| NewGetAction (r : GroupVersionResource) (ns name : string)
| NewListAction (r : GroupVersionResource) (gvk : TypeMeta) (ns : string) (o : ListOptions)
| NewWatchAction (r : GroupVersionResource) (ns : string) (o : ListOptions)
| NewCreateAction (r : GroupVersionResource) (ns : string) (k : kind) (x : object k)
| NewUpdateAction (r : GroupVersionResource) (ns : string) (k : kind) (x : object k)
| NewUpdateSubresourceAction (r : GroupVersionResource) (sub ns : string) (k : kind) (x : object k)
| NewDeleteActionWithOptions (r : GroupVersionResource) (ns name : string) (o : DeleteOptions)
| NewDeleteCollectionAction (r : GroupVersionResource) (ns : string) (o : ListOptions)
| NewPatchSubresourceAction (r : GroupVersionResource) (ns name pt data : string) (subs : list string).

(** A [runtime.Object] that is not nil. *)
Inductive runtime_object :=
| RuntimeObject (o : any_object)
| RuntimeList (k : kind) (l : ObjectList k)
| RuntimeOther (id : Z).

(** [Fake.Invokes(action, defaultReturnObj)] and [Fake.InvokesWatch(action)] *)
Inductive fake_action := Invokes (a : test_action) (default : go_type) | InvokesWatch (a : test_action).
Definition fake_result (a : fake_action) : Type :=
  match a with
  | Invokes _ _ => option runtime_object * option error
  | InvokesWatch _ => error + Watcher
  end.
Notation fake := (prog fake_result).

(** Labels: [ExtractFromListOptions] of package testing, and package labels. *)
Class LabelLib := {
  LSelector : Type;
  ExtractLabel : ListOptions -> option LSelector;
  Everything : LSelector;
  LMatches : LSelector -> gmap string string -> bool
}.

(** ** The fake of one kind *)

Section fake_client.
Context `{LabelLib} (k : kind) (resource : GroupVersionResource) (gvk : TypeMeta) (ns : string).

Definition badType {A} : fake A := Panic "interface conversion".

(** [if obj == nil { return nil, err }; return obj.(T), err] *)
Definition objectOf (r : option runtime_object * option error) : fake (option (object k) * option error) :=
  match r with
  | (None, err) => Ret (None, err)
  | (Some (RuntimeObject (existT k' o)), err) =>
      match decide (k' = k) with
      | left e => Ret (Some (eq_rect k' object o k e), err)
      | right _ => badType
      end
  | _ => badType
  end.

Definition fake_Get (name : string) (options : GetOptions) : fake (option (object k) * option error) :=
  r <- act (Invokes (NewGetAction resource ns name) (ObjectType k)) ;; objectOf r.

(** The items whose labels match, lines 58 to 68. *)
Definition filtered (opts : ListOptions) (l : ObjectList k) : ObjectList k :=
  let label := deref (ExtractLabel opts) Everything in
  mkObjectList (ListMeta l) (filter (fun o => LMatches label (Labels (meta k o)) = true) (Items l)).

Definition fake_List (opts : ListOptions) : fake (option (ObjectList k) * option error) :=
  r <- act (Invokes (NewListAction resource gvk ns opts) (ObjectListType k)) ;;
  match r with
  | (None, err) => Ret (None, err)
  | (Some (RuntimeList k' l), err) =>
      match decide (k' = k) with
      | left e => Ret (Some (filtered opts (eq_rect k' ObjectList l k e)), err)
      | right _ => badType
      end
  | _ => badType
  end.

Definition fake_Watch (opts : ListOptions) : fake (error + Watcher) :=
  act (InvokesWatch (NewWatchAction resource ns opts)).

Definition fake_Create (x : object k) (opts : CreateOptions) : fake (option (object k) * option error) :=
  r <- act (Invokes (NewCreateAction resource ns k x) (ObjectType k)) ;; objectOf r.

Definition fake_Update (x : object k) (opts : UpdateOptions) : fake (option (object k) * option error) :=
  r <- act (Invokes (NewUpdateAction resource ns k x) (ObjectType k)) ;; objectOf r.

Definition fake_UpdateStatus (x : object k) (opts : UpdateOptions) :
    fake (option (object k) * option error) :=
  r <- act (Invokes (NewUpdateSubresourceAction resource "status" ns k x) (ObjectType k)) ;; objectOf r.

Definition fake_Delete (name : string) (opts : DeleteOptions) : fake (option error) :=
  r <- act (Invokes (NewDeleteActionWithOptions resource ns name opts) (ObjectType k)) ;; Ret (snd r).

Definition fake_DeleteCollection (opts : DeleteOptions) (listOpts : ListOptions) : fake (option error) :=
  r <- act (Invokes (NewDeleteCollectionAction resource ns listOpts) (ObjectListType k)) ;; Ret (snd r).

Definition fake_Patch (name pt data : string) (opts : PatchOptions) (subresources : list string) :
    fake (option (object k) * option error) :=
  r <- act (Invokes (NewPatchSubresourceAction resource ns name pt data subresources) (ObjectType k)) ;;
  objectOf r.

Definition fakeClient : TypedInterface fake k :=
  mkTypedInterface fake_Create fake_Update fake_UpdateStatus fake_Delete fake_DeleteCollection
    fake_Get fake_List fake_Watch fake_Patch.
End fake_client.

(** ** One fake per generated file *)

Section fakes.
Context `{LabelLib}.
Definition FakeBindings : string -> TypedInterface fake KBinding :=
  fakeClient KBinding (mkGroupVersionResource "rabbitmq.com" "v1beta1" "bindings")
    (mkTypeMeta "rabbitmq.com" "v1beta1" "Binding").
Definition FakeExchanges : string -> TypedInterface fake KExchange :=
  fakeClient KExchange (mkGroupVersionResource "rabbitmq.com" "v1beta1" "exchanges")
    (mkTypeMeta "rabbitmq.com" "v1beta1" "Exchange").
Definition FakeFederations : string -> TypedInterface fake KFederation :=
  fakeClient KFederation (mkGroupVersionResource "rabbitmq.com" "v1beta1" "federations")
    (mkTypeMeta "rabbitmq.com" "v1beta1" "Federation").
Definition FakeOperatorPolicies : string -> TypedInterface fake KOperatorPolicy :=
  fakeClient KOperatorPolicy (WithResource v1beta1.SchemeGroupVersion "operatorpolicies")
    (WithKind v1beta1.SchemeGroupVersion "OperatorPolicy").
Definition FakePermissions : string -> TypedInterface fake KPermission :=
  fakeClient KPermission (mkGroupVersionResource "rabbitmq.com" "v1beta1" "permissions")
    (mkTypeMeta "rabbitmq.com" "v1beta1" "Permission").
Definition FakePolicies : string -> TypedInterface fake KPolicy :=
  fakeClient KPolicy (mkGroupVersionResource "rabbitmq.com" "v1beta1" "policies")
    (mkTypeMeta "rabbitmq.com" "v1beta1" "Policy").
Definition FakeQueues : string -> TypedInterface fake KQueue :=
  fakeClient KQueue (mkGroupVersionResource "rabbitmq.com" "v1beta1" "queues")
    (mkTypeMeta "rabbitmq.com" "v1beta1" "Queue").
Definition FakeSchemaReplications : string -> TypedInterface fake KSchemaReplication :=
  fakeClient KSchemaReplication
    (mkGroupVersionResource "rabbitmq.com" "v1beta1" "schemareplications")
    (mkTypeMeta "rabbitmq.com" "v1beta1" "SchemaReplication").
Definition FakeShovels : string -> TypedInterface fake KShovel :=
  fakeClient KShovel (mkGroupVersionResource "rabbitmq.com" "v1beta1" "shovels")
    (mkTypeMeta "rabbitmq.com" "v1beta1" "Shovel").
Definition FakeUsers : string -> TypedInterface fake KUser :=
  fakeClient KUser (mkGroupVersionResource "rabbitmq.com" "v1beta1" "users")
    (mkTypeMeta "rabbitmq.com" "v1beta1" "User").
Definition FakeVhosts : string -> TypedInterface fake KVhost :=
  fakeClient KVhost (mkGroupVersionResource "rabbitmq.com" "v1beta1" "vhosts")
    (mkTypeMeta "rabbitmq.com" "v1beta1" "Vhost").
Definition FakeSuperStreams : string -> TypedInterface fake KSuperStream :=
  fakeClient KSuperStream (mkGroupVersionResource "rabbitmq.com" "v1alpha1" "superstreams")
    (mkTypeMeta "rabbitmq.com" "v1alpha1" "SuperStream").

(** ** fake_rabbitmq.com_client.go *)

(** [RESTClient()] returns a nil [*rest.RESTClient] in an interface that is not nil. *)
Inductive fakeREST := NilRESTClient.

Definition FakeRabbitmqV1beta1 : RabbitmqV1beta1Interface fakeREST fake :=
  {| v1beta1_RESTClient := Some NilRESTClient;
     Bindings := FakeBindings; Exchanges := FakeExchanges; Federations := FakeFederations;
     Permissions := FakePermissions; Policies := FakePolicies;
     OperatorPolicies := FakeOperatorPolicies; Queues := FakeQueues;
     SchemaReplications := FakeSchemaReplications; Shovels := FakeShovels; Users := FakeUsers;
     Vhosts := FakeVhosts |}.

Definition FakeRabbitmqV1alpha1 : RabbitmqV1alpha1Interface fakeREST fake :=
  {| v1alpha1_RESTClient := Some NilRESTClient; SuperStreams := FakeSuperStreams |}.
End fakes.

(** ** clientset_generated.go *)

(** The object tracker of package testing. *)
Class TrackerLib := {
  Tracker : Type;
  NewObjectTracker : Tracker;
  Tracker_Add : runtime_object -> Tracker -> option error * Tracker;
  Tracker_Watch : GroupVersionResource -> string -> Tracker -> error + Watcher;
  FakeDiscovery : Type;
  newFakeDiscovery : FakeDiscovery
}.

(** A reactor: the verb and the resource it is for, and its reaction. *)
Inductive reaction `{TrackerLib} :=
| ObjectReaction (o : Tracker)
| WatchReaction (react : GroupVersionResource -> string -> bool * (error + Watcher)).
Arguments ObjectReaction {_}.
Arguments WatchReaction {_}.

Record FakeClientset `{TrackerLib} := mkFakeClientset {
  reactors : list (string * string * reaction);
  watchReactors : list (string * reaction);
  fake_discovery : option FakeDiscovery;
  tracker : Tracker
}.
Arguments mkFakeClientset {_}.

Section fake_clientset.
Context `{TrackerLib}.

(** The loop of [NewSimpleClientset]; an object that cannot be added panics. *)
Fixpoint addObjects (objects : list runtime_object) (o : Tracker) : outcome Tracker :=
  match objects with
  | [] => Returned o
  | obj :: objects =>
      match Tracker_Add obj o with
      | (Some _, _) => Panicked "panic(err)"
      | (None, o) => addObjects objects o
      end
  end.

Definition watchReaction (o : Tracker) (gvr : GroupVersionResource) (ns : string) :
    bool * (error + Watcher) :=
  match Tracker_Watch gvr ns o with
  | inl err => (false, inl err)
  | inr w => (true, inr w)
  end.

Definition NewSimpleClientset (objects : list runtime_object) : outcome FakeClientset :=
  match addObjects objects NewObjectTracker with
  | Panicked why => Panicked why
  | Returned o =>
      Returned (mkFakeClientset [("*", "*", ObjectReaction o)] [("*", WatchReaction (watchReaction o))]
                  (Some newFakeDiscovery) o)
  end.

Definition fakeInterface `{LabelLib} (c : FakeClientset) : Interface fakeREST FakeDiscovery fake :=
  {| Discovery := fake_discovery c;
     RabbitmqV1alpha1 := FakeRabbitmqV1alpha1;
     RabbitmqV1beta1 := FakeRabbitmqV1beta1 |}.
End fake_clientset.

(** ** The fakes ask for what the clients ask for *)

(** Verb, resource, namespace, name, subresource, object, and selection of a call. *)
Record asked := mkAsked {
  asked_verb : string;
  asked_resource : GroupVersionResource;
  asked_namespace : string;
  asked_name : option string;
  asked_sub : list string;
  asked_object : option any_object;
  asked_list : option (string * string)
}.

Definition selection (o : ListOptions) : string * string := (LabelSelector o, FieldSelector o).

Definition action_asks (a : fake_action) : asked :=
  match a with
  | Invokes (NewGetAction r ns n) _ => mkAsked "get" r ns (Some n) [] None None
  | Invokes (NewListAction r _ ns o) _ => mkAsked "list" r ns None [] None (Some (selection o))
  | Invokes (NewCreateAction r ns k x) _ => mkAsked "create" r ns None [] (Some (existT k x)) None
  | Invokes (NewUpdateAction r ns k x) _ =>
      mkAsked "update" r ns (Some (Name (meta k x))) [] (Some (existT k x)) None
  | Invokes (NewUpdateSubresourceAction r sub ns k x) _ =>
      mkAsked "update" r ns (Some (Name (meta k x))) [sub] (Some (existT k x)) None
  | Invokes (NewDeleteActionWithOptions r ns n _) _ => mkAsked "delete" r ns (Some n) [] None None
  | Invokes (NewDeleteCollectionAction r ns o) _ =>
      mkAsked "delete-collection" r ns None [] None (Some (selection o))
  | Invokes (NewPatchSubresourceAction r ns n _ _ subs) _ => mkAsked "patch" r ns (Some n) subs None None
  | Invokes (NewWatchAction r ns o) _ | InvokesWatch (NewWatchAction r ns o) =>
      mkAsked "watch" r ns None [] None (Some (selection o))
  | InvokesWatch _ => mkAsked "" (mkGroupVersionResource "" "" "") "" None [] None None
  end.

Section asks.
Context `{RestLib} {St : Type} `{!ApiServer St, !ApiServerOk St} `{LabelLib}.

Definition r_object (r : Request) : option any_object :=
  said (fun b => match b with CallBody (BodyObject k x) => Some (existT k x) | _ => None end) r.

Definition request_verb (r : Request) : string :=
  match Request_verb r, r_name r with
  | GET, Some _ => "get" | GET, None => "list"
  | POST, _ => "create" | PUT, _ => "update"
  | DELETE, Some _ => "delete" | DELETE, None => "delete-collection"
  | PATCH _, _ => "patch"
  end.

Definition request_asks (r : Request) : asked :=
  mkAsked (request_verb r) (r_gvr r) (r_namespace r) (r_name r) (r_sub r) (r_object r)
    (selection <$> r_options r).

Definition rest_asks (a : rest_action) : asked :=
  match a with
  | DoInto _ r | DoIntoList _ r | DoError r => request_asks r
  | DoWatch r => mkAsked "watch" (r_gvr r) (r_namespace r) (r_name r) (r_sub r) (r_object r)
                   (selection <$> r_options r)
  end.

(** What a program asks for: its one action, whatever the answer. *)
Definition asks {action} {result : action -> Type} {A} (view : action -> asked)
    (p : prog result A) (q : asked) : Prop :=
  exists a, view a = q /\ forall tr o, exec p tr o -> calls tr = [a].

(** The question of each operation. *)
Definition question (k : kind) (ns : string) (o : kop k) : asked :=
  let r := gvr_of k in
  match o with
  | OpGet n _ => mkAsked "get" r ns (Some n) [] None None
  | OpList l => mkAsked "list" r ns None [] None (Some (selection l))
  | OpWatch l => mkAsked "watch" r ns None [] None (Some (selection l))
  | OpCreate x _ => mkAsked "create" r ns None [] (Some (existT k x)) None
  | OpUpdate x _ => mkAsked "update" r ns (Some (Name (meta k x))) [] (Some (existT k x)) None
  | OpUpdateStatus x _ =>
      mkAsked "update" r ns (Some (Name (meta k x))) ["status"] (Some (existT k x)) None
  | OpDelete n _ => mkAsked "delete" r ns (Some n) [] None None
  | OpDeleteCollection _ l => mkAsked "delete-collection" r ns None [] None (Some (selection l))
  | OpPatch n _ _ _ subs => mkAsked "patch" r ns (Some n) subs None None
  end.

Lemma one_call {action} {result : action -> Type} {A} (a : action) (f : result a -> prog result A) tr o :
  (forall r tr' o', exec (f r) tr' o' -> tr' = []) ->
  exec (bind (act a) f) tr o -> calls tr = [a].
Proof. intros Hf (r & tr' & -> & Hx). by rewrite (Hf r tr' o Hx). Qed.

Lemma typed_asks k r ns (o : kop k) :
  versionOf r = gv_of k ->
  asks rest_asks (perform (typedClient k (plural k) (mkTyped (Some r) ns)) o) (question k ns o).
Proof.
  intros Hv. destruct o; eexists; (split; [|intros tr out Hx; eapply one_call; [|exact Hx]]);
    try (by intros [] ? ? [-> _]); try (by intros ? ? ? [-> _]);
    cbn; unfold request_asks, r_gvr, gvr_of; cbn; by rewrite Hv.
Qed.

Lemma fake_asks k gvk ns (o : kop k) :
  asks action_asks (perform (fakeClient k (gvr_of k) gvk ns) o) (question k ns o).
Proof.
  destruct o; eexists; (split; [|intros tr out Hx; eapply one_call; [|exact Hx]]);
    try done; try (by intros ? ? ? [-> _]); intros [[[[]|?|?]|] ?] ? ?; simpl;
    try (destruct (decide _)); by intros [-> _].
Qed.

Lemma fake_clients `{TrackerLib} (fc : FakeClientset) k t :
  clientOf (fakeInterface fc) k = Some t ->
  forall ns, t ns = fakeClient k (gvr_of k) (gvk_of (ObjectType k)) ns.
Proof. destruct k; intros [= <-]; reflexivity. Qed.

(** C30: For every kind the fake client records the same question (verb, resource,
    namespace, name, subresource, object, selectors) that the real client sends to
    the API server, for each of its nine operations. *)
Theorem fakes_ask_the_same `{TrackerLib} c cs (fc : FakeClientset) k t :
  Clientset.NewForConfig c = inr cs ->
  clientOf (Clientset.asInterface cs) k = Some t ->
  exists t', clientOf (fakeInterface fc) k = Some t' /\
    forall ns (o : kop k),
      asks rest_asks (perform (t ns) o) (question k ns o) /\
      asks action_asks (perform (t' ns) o) (question k ns o).
Proof.
  intros Hc Ht. pose proof (clientset_clients c cs k Hc) as Hcl. rewrite Ht in Hcl.
  destruct Hcl as (r & Hr & Heq).
  assert (Hf : exists t', clientOf (fakeInterface fc) k = Some t').
  { destruct k; first [discriminate Ht|by eexists]. }
  destruct Hf as [t' Ht']. exists t'. split; [done|]. intros ns o.
  rewrite Heq, (fake_clients fc k t' Ht' ns). split; [exact (typed_asks k r ns o Hr)|apply fake_asks].
Qed.
End asks.
