(* ===== verification/FakeBroker.v ===== *)
(** * The test doubles of counterfeiter (rabbitmqclient/rabbitmqclientfakes)

    [FakeClient] stands in for the broker client in the tests of the controllers,
    [FakeSecretReader] and [FakeSecretStoreClient] for the secret store.  They are
    generated from one template: for each method the arguments of its calls, a stub,
    a default result and results for single calls, and for the double a map of all
    invocations.

    Each operation holds the lock of its method, so that goroutines interleave whole
    operations; a stub runs after the lock is released and sees a world [W] of its
    own. *)

From S2P Require Import Prelude.
From S2P Require Import GoStrings.
From S2P Require Import GoErrors.
From S2P Require Import Prog.
From S2P Require Import Api.
From S2P Require Import Values.
From S2P Require Import World.
From S2P Require Import Vault.

(** ** One method *)

Record fakeMethod (W A R : Type) := mkFakeMethod {
  Stub : option (A -> W -> R * W);
  argsForCall : list A;
  fakeReturns : R;
  returnsOnCall : option (gmap Z R)
}.
Arguments mkFakeMethod {W A R}.
Arguments Stub {W A R}.
Arguments argsForCall {W A R}.
Arguments fakeReturns {W A R}.
Arguments returnsOnCall {W A R}.

(** ** A double: a family of methods and the invocations *)

Section double.
Context {W M : Type} `{EqDecision M} (Args Results : M -> Type) (methodName : M -> string).

Definition invocation : Type := {m : M & Args m}.

Record double := mkDouble {
  methods : forall m, fakeMethod W (Args m) (Results m);
  invocations : option (gmap string (list invocation))
}.

Definition setMethod (m : M) (f : fakeMethod W (Args m) (Results m)) (d : double) : double :=
  mkDouble (fun m' => match decide (m = m') with
                      | left E => eq_rect m (fun m => fakeMethod W (Args m) (Results m)) f m' E
                      | right _ => methods d m'
                      end) (invocations d).

(** [recordInvocation] *)
Definition recordInvocation (key : string) (args : invocation) (d : double) : double :=
  let inv := deref (invocations d) ∅ in
  let old := deref (inv !! key) [] in
  mkDouble (methods d) (Some (<[key := old ++ [args]]> inv)).

(** The method itself. *)
Definition Invoke (m : M) (args : Args m) (w : W) (d : double) : Results m * W * double :=
  let f := methods d m in
  let ret := deref (returnsOnCall f) ∅ !! Z.of_nat (length (argsForCall f)) in
  let d := setMethod m (mkFakeMethod (Stub f) (argsForCall f ++ [args]) (fakeReturns f)
                          (returnsOnCall f)) d in
  let d := recordInvocation (methodName m) (existT m args) d in
  match Stub f with
  | Some stub => let '(r, w) := stub args w in (r, w, d)
  | None => match ret with
            | Some ret => (ret, w, d)
            | None => (fakeReturns f, w, d)
            end
  end.

Definition CallCount (m : M) (d : double) : nat := length (argsForCall (methods d m)).

Definition Calls (m : M) (stub : option (Args m -> W -> Results m * W)) (d : double) : double :=
  let f := methods d m in
  setMethod m (mkFakeMethod stub (argsForCall f) (fakeReturns f) (returnsOnCall f)) d.

(** An index of a slice: out of range it panics. *)
Definition ArgsForCall (m : M) (i : Z) (d : double) : outcome (Args m) :=
  if (i <? 0)%Z then Panicked "index out of range"
  else match argsForCall (methods d m) !! Z.to_nat i with
       | Some args => Returned args
       | None => Panicked "index out of range"
       end.

Definition Returns (m : M) (result : Results m) (d : double) : double :=
  let f := methods d m in
  setMethod m (mkFakeMethod None (argsForCall f) result (returnsOnCall f)) d.

Definition ReturnsOnCall (m : M) (i : Z) (result : Results m) (d : double) : double :=
  let f := methods d m in
  setMethod m (mkFakeMethod None (argsForCall f) (fakeReturns f)
                 (Some (<[i := result]> (deref (returnsOnCall f) ∅)))) d.

(** [Invocations]: a copy of the map *)
Definition Invocations (d : double) : gmap string (list invocation) := deref (invocations d) ∅.

(** The functions that are generated for a method. *)
Record FakeOps (A R : Type) := mkFakeOps {
  op_Call : A -> W -> double -> R * W * double;
  op_CallCount : double -> nat;
  op_Calls : option (A -> W -> R * W) -> double -> double;
  op_ArgsForCall : Z -> double -> outcome A;
  op_Returns : R -> double -> double;
  op_ReturnsOnCall : Z -> R -> double -> double
}.
Definition ops (m : M) : FakeOps (Args m) (Results m) :=
  mkFakeOps _ _ (Invoke m) (CallCount m) (Calls m) (ArgsForCall m) (Returns m) (ReturnsOnCall m).

(** [new(FakeX)]: no calls, no stubs, and zero results *)
Definition newDouble (zero : forall m, Results m) : double :=
  mkDouble (fun m => mkFakeMethod None [] (zero m) None) None.
End double.

(** ** FakeClient *)

Module FakeClient.
#[local] Open Scope type_scope.

Inductive method :=
| ClearPermissionsIn | DeclareBinding | DeclareExchange | DeclareQueue | DeclareShovel
| DeleteBinding | DeleteExchange | DeleteFederationUpstream | DeleteGlobalParameter
| DeleteOperatorPolicy | DeletePolicy | DeleteQueue | DeleteShovel | DeleteTopicPermissionsIn
| DeleteUser | DeleteUserLimits | DeleteVhost | DeleteVhostLimits | GetQueue | GetUserLimits
| GetVhost | GetVhostLimits | ListExchangeBindingsBetween | ListQueueBindingsBetween
| PutFederationUpstream | PutGlobalParameter | PutOperatorPolicy | PutPolicy | PutUser
| PutUserLimits | PutVhost | PutVhostLimits | UpdatePermissionsIn | UpdateTopicPermissionsIn.

#[global] Instance client_method_eq_dec : EqDecision method.
Proof. solve_decision. Defined.

Definition methodName (m : method) : string :=
  match m with
  | ClearPermissionsIn => "ClearPermissionsIn"
  | DeclareBinding => "DeclareBinding"
  | DeclareExchange => "DeclareExchange"
  | DeclareQueue => "DeclareQueue"
  | DeclareShovel => "DeclareShovel"
  | DeleteBinding => "DeleteBinding"
  | DeleteExchange => "DeleteExchange"
  | DeleteFederationUpstream => "DeleteFederationUpstream"
  | DeleteGlobalParameter => "DeleteGlobalParameter"
  | DeleteOperatorPolicy => "DeleteOperatorPolicy"
  | DeletePolicy => "DeletePolicy"
  | DeleteQueue => "DeleteQueue"
  | DeleteShovel => "DeleteShovel"
  | DeleteTopicPermissionsIn => "DeleteTopicPermissionsIn"
  | DeleteUser => "DeleteUser"
  | DeleteUserLimits => "DeleteUserLimits"
  | DeleteVhost => "DeleteVhost"
  | DeleteVhostLimits => "DeleteVhostLimits"
  | GetQueue => "GetQueue"
  | GetUserLimits => "GetUserLimits"
  | GetVhost => "GetVhost"
  | GetVhostLimits => "GetVhostLimits"
  | ListExchangeBindingsBetween => "ListExchangeBindingsBetween"
  | ListQueueBindingsBetween => "ListQueueBindingsBetween"
  | PutFederationUpstream => "PutFederationUpstream"
  | PutGlobalParameter => "PutGlobalParameter"
  | PutOperatorPolicy => "PutOperatorPolicy"
  | PutPolicy => "PutPolicy"
  | PutUser => "PutUser"
  | PutUserLimits => "PutUserLimits"
  | PutVhost => "PutVhost"
  | PutVhostLimits => "PutVhostLimits"
  | UpdatePermissionsIn => "UpdatePermissionsIn"
  | UpdateTopicPermissionsIn => "UpdateTopicPermissionsIn"
  end.

(** The signatures: of the limits the values are kept, as in World.v, and the value of a
    global parameter is the one that the operator sends. *)
Definition Args (m : method) : Type :=
  match m with
  | ClearPermissionsIn => string * string
  | DeclareBinding => string * BindingInfo
  | DeclareExchange => string * string * ExchangeSettings
  | DeclareQueue => string * string * QueueSettings
  | DeclareShovel => string * string * ShovelDefinition
  | DeleteBinding => string * BindingInfo
  | DeleteExchange => string * string
  | DeleteFederationUpstream => string * string
  | DeleteGlobalParameter => string
  | DeleteOperatorPolicy => string * string
  | DeletePolicy => string * string
  | DeleteQueue => string * string * list QueueDeleteOptions
  | DeleteShovel => string * string
  | DeleteTopicPermissionsIn => string * string * string
  | DeleteUser => string
  | DeleteUserLimits => string * list string
  | DeleteVhost => string
  | DeleteVhostLimits => string * list string
  | GetQueue => string * string
  | GetUserLimits => string
  | GetVhost => string
  | GetVhostLimits => string
  | ListExchangeBindingsBetween => string * string * string
  | ListQueueBindingsBetween => string * string * string
  | PutFederationUpstream => string * string * FederationDefinition
  | PutGlobalParameter => string * UpstreamEndpoints
  | PutOperatorPolicy => string * string * PolicyInfo
  | PutPolicy => string * string * PolicyInfo
  | PutUser => string * UserSettings
  | PutUserLimits => string * LimitsValues
  | PutVhost => string * VhostSettings
  | PutVhostLimits => string * LimitsValues
  | UpdatePermissionsIn => string * string * Permissions
  | UpdateTopicPermissionsIn => string * string * TopicPermissions
  end.

Section client.
Context {W : Type} (VhostInfo : Type).

Definition Results (m : method) : Type :=
  match m with
  | GetQueue => option DetailedQueueInfo * option rmq_error
  | GetUserLimits | GetVhostLimits => list LimitsValues * option rmq_error
  | GetVhost => option VhostInfo * option rmq_error
  | ListExchangeBindingsBetween | ListQueueBindingsBetween => list BindingInfo * option rmq_error
  | _ => http_result
  end.

Definition zero (m : method) : Results m :=
  match m with
  | ClearPermissionsIn => (None, None)
  | DeclareBinding => (None, None)
  | DeclareExchange => (None, None)
  | DeclareQueue => (None, None)
  | DeclareShovel => (None, None)
  | DeleteBinding => (None, None)
  | DeleteExchange => (None, None)
  | DeleteFederationUpstream => (None, None)
  | DeleteGlobalParameter => (None, None)
  | DeleteOperatorPolicy => (None, None)
  | DeletePolicy => (None, None)
  | DeleteQueue => (None, None)
  | DeleteShovel => (None, None)
  | DeleteTopicPermissionsIn => (None, None)
  | DeleteUser => (None, None)
  | DeleteUserLimits => (None, None)
  | DeleteVhost => (None, None)
  | DeleteVhostLimits => (None, None)
  | GetQueue => (None, None)
  | GetUserLimits => ([], None)
  | GetVhost => (None, None)
  | GetVhostLimits => ([], None)
  | ListExchangeBindingsBetween => ([], None)
  | ListQueueBindingsBetween => ([], None)
  | PutFederationUpstream => (None, None)
  | PutGlobalParameter => (None, None)
  | PutOperatorPolicy => (None, None)
  | PutPolicy => (None, None)
  | PutUser => (None, None)
  | PutUserLimits => (None, None)
  | PutVhost => (None, None)
  | PutVhostLimits => (None, None)
  | UpdatePermissionsIn => (None, None)
  | UpdateTopicPermissionsIn => (None, None)
  end.

Definition FakeClient : Type := double (W:=W) Args Results.
Definition new : FakeClient := newDouble Args Results zero.
Notation generated := (FakeOps (W:=W) Args Results).
Notation ops := (ops (W:=W) Args Results methodName).

Definition FakeClient_ClearPermissionsIn :
    generated (string * string) http_result :=
  ops ClearPermissionsIn.
Definition FakeClient_DeclareBinding :
    generated (string * BindingInfo) http_result :=
  ops DeclareBinding.
Definition FakeClient_DeclareExchange :
    generated (string * string * ExchangeSettings) http_result :=
  ops DeclareExchange.
Definition FakeClient_DeclareQueue :
    generated (string * string * QueueSettings) http_result :=
  ops DeclareQueue.
Definition FakeClient_DeclareShovel :
    generated (string * string * ShovelDefinition) http_result :=
  ops DeclareShovel.
Definition FakeClient_DeleteBinding :
    generated (string * BindingInfo) http_result :=
  ops DeleteBinding.
Definition FakeClient_DeleteExchange :
    generated (string * string) http_result :=
  ops DeleteExchange.
Definition FakeClient_DeleteFederationUpstream :
    generated (string * string) http_result :=
  ops DeleteFederationUpstream.
Definition FakeClient_DeleteGlobalParameter :
    generated string http_result :=
  ops DeleteGlobalParameter.
Definition FakeClient_DeleteOperatorPolicy :
    generated (string * string) http_result :=
  ops DeleteOperatorPolicy.
Definition FakeClient_DeletePolicy : generated (string * string) http_result := ops DeletePolicy.
Definition FakeClient_DeleteQueue :
    generated (string * string * list QueueDeleteOptions) http_result :=
  ops DeleteQueue.
Definition FakeClient_DeleteShovel : generated (string * string) http_result := ops DeleteShovel.
Definition FakeClient_DeleteTopicPermissionsIn :
    generated (string * string * string) http_result :=
  ops DeleteTopicPermissionsIn.
Definition FakeClient_DeleteUser : generated string http_result := ops DeleteUser.
Definition FakeClient_DeleteUserLimits :
    generated (string * list string) http_result :=
  ops DeleteUserLimits.
Definition FakeClient_DeleteVhost : generated string http_result := ops DeleteVhost.
Definition FakeClient_DeleteVhostLimits :
    generated (string * list string) http_result :=
  ops DeleteVhostLimits.
Definition FakeClient_GetQueue :
    generated (string * string) (option DetailedQueueInfo * option rmq_error) :=
  ops GetQueue.
Definition FakeClient_GetUserLimits :
    generated string (list LimitsValues * option rmq_error) :=
  ops GetUserLimits.
Definition FakeClient_GetVhost :
    generated string (option VhostInfo * option rmq_error) :=
  ops GetVhost.
Definition FakeClient_GetVhostLimits :
    generated string (list LimitsValues * option rmq_error) :=
  ops GetVhostLimits.
Definition FakeClient_ListExchangeBindingsBetween :
    generated (string * string * string) (list BindingInfo * option rmq_error) :=
  ops ListExchangeBindingsBetween.
Definition FakeClient_ListQueueBindingsBetween :
    generated (string * string * string) (list BindingInfo * option rmq_error) :=
  ops ListQueueBindingsBetween.
Definition FakeClient_PutFederationUpstream :
    generated (string * string * FederationDefinition) http_result :=
  ops PutFederationUpstream.
Definition FakeClient_PutGlobalParameter :
    generated (string * UpstreamEndpoints) http_result :=
  ops PutGlobalParameter.
Definition FakeClient_PutOperatorPolicy :
    generated (string * string * PolicyInfo) http_result :=
  ops PutOperatorPolicy.
Definition FakeClient_PutPolicy :
    generated (string * string * PolicyInfo) http_result :=
  ops PutPolicy.
Definition FakeClient_PutUser : generated (string * UserSettings) http_result := ops PutUser.
Definition FakeClient_PutUserLimits :
    generated (string * LimitsValues) http_result :=
  ops PutUserLimits.
Definition FakeClient_PutVhost : generated (string * VhostSettings) http_result := ops PutVhost.
Definition FakeClient_PutVhostLimits :
    generated (string * LimitsValues) http_result :=
  ops PutVhostLimits.
Definition FakeClient_UpdatePermissionsIn :
    generated (string * string * Permissions) http_result :=
  ops UpdatePermissionsIn.
Definition FakeClient_UpdateTopicPermissionsIn :
    generated (string * string * TopicPermissions) http_result :=
  ops UpdateTopicPermissionsIn.
End client.
End FakeClient.

(** ** FakeSecretReader and FakeSecretStoreClient: one method each *)

Module FakeSecretReader.
Inductive method := ReadSecret.

#[global] Instance reader_method_eq_dec : EqDecision method.
Proof. solve_decision. Defined.

Definition methodName (m : method) : string := "ReadSecret".
Definition Args (m : method) : Type := string.
Definition Results (m : method) : Type := (option vault_secret * option error)%type.
Definition zero (m : method) : Results m := (None, None).

Definition FakeSecretReader_ReadSecret {W : Type} :
    FakeOps (W:=W) Args Results string (option vault_secret * option error) :=
  ops Args Results methodName ReadSecret.
End FakeSecretReader.

Module FakeSecretStoreClient.
Inductive method := ReadCredentials.

#[global] Instance store_method_eq_dec : EqDecision method.
Proof. solve_decision. Defined.

Definition methodName (m : method) : string := "ReadCredentials".
Definition Args (m : method) : Type := string.
Definition Results (m : method) : Type := (string * string * option error)%type.
Definition zero (m : method) : Results m := ("", "", None).

Definition FakeSecretStoreClient_ReadCredentials {W : Type} :
    FakeOps (W:=W) Args Results string (string * string * option error) :=
  ops Args Results methodName ReadCredentials.
End FakeSecretStoreClient.
