(* ===== verification/FakeBrokerProofs.v ===== *)
(** * What a double remembers and answers

    A double is a log: whatever the order of configuration and calls, it shows the
    calls of each method as they were made, and answers each call with what was
    configured last before it. *)

From S2P Require Import Prelude.
From S2P Require Import GoStrings.
From S2P Require Import GoErrors.
From S2P Require Import Prog.
From S2P Require Import Api.
From S2P Require Import Values.
From S2P Require Import World.
From S2P Require Import FakeBroker.

Section double.
Context {W M : Type} `{EqDecision M} (Args Results : M -> Type) (methodName : M -> string).
Context `{!Inj (=) (=) methodName} (zero : forall m, Results m).

Notation stub m := (Args m -> W -> Results m * W).
Notation dbl := (double (W:=W) Args Results).

(** ** Operations on a double, and what they answer *)

Inductive op :=
| DoInvoke (m : M) (args : Args m)
| DoCalls (m : M) (s : option (stub m))
| DoReturns (m : M) (r : Results m)
| DoReturnsOnCall (m : M) (i : Z) (r : Results m).

Definition op_method (o : op) : M :=
  match o with DoInvoke m _ | DoCalls m _ | DoReturns m _ | DoReturnsOnCall m _ _ => m end.

Definition step (o : op) (w : W) (d : dbl) : option {m & Results m} * W * dbl :=
  match o with
  | DoInvoke m args =>
      let '(r, w, d) := Invoke Args Results methodName m args w d in (Some (existT m r), w, d)
  | DoCalls m s => (None, w, Calls Args Results m s d)
  | DoReturns m r => (None, w, Returns Args Results m r d)
  | DoReturnsOnCall m i r => (None, w, ReturnsOnCall Args Results m i r d)
  end.

Fixpoint steps (l : list op) (w : W) (d : dbl) : list (option {m & Results m}) * W * dbl :=
  match l with
  | [] => ([], w, d)
  | o :: l =>
      let '(x, w, d) := step o w d in
      let '(xs, w, d) := steps l w d in (x :: xs, w, d)
  end.

(** ** What the history says *)

Definition atMethod {F : M -> Type} (m m' : M) (x : F m') : option (F m) :=
  match decide (m' = m) with left E => Some (eq_rect m' F x m E) | right _ => None end.

(** The last of the values that a history gives. *)
Definition lastOf {A} (f : op -> option A) (l : list op) : option A := last (omap f l).

Definition callsTo (m : M) (l : list op) : list (Args m) :=
  omap (fun o => match o with DoInvoke m' args => atMethod m m' args | _ => None end) l.
Definition stubOf (m : M) (l : list op) : option (stub m) :=
  mjoin (lastOf (fun o => match o with
                          | DoCalls m' s => atMethod (F:=fun m => option (stub m)) m m' s
                          | DoReturns m' _ | DoReturnsOnCall m' _ _ =>
                              if decide (m' = m) then Some None else None
                          | DoInvoke _ _ => None
                          end) l).
Definition defaultOf (m : M) (l : list op) : Results m :=
  default (zero m) (lastOf (fun o => match o with DoReturns m' r => atMethod m m' r | _ => None end) l).
Definition onCallOf (m : M) (i : Z) (l : list op) : option (Results m) :=
  lastOf (fun o => match o with
                   | DoReturnsOnCall m' i' r => if decide (i' = i) then atMethod m m' r else None
                   | _ => None
                   end) l.

Definition expected (m : M) (args : Args m) (w : W) (before : list op) : Results m :=
  match stubOf m before with
  | Some s => (s args w).1
  | None => default (defaultOf m before) (onCallOf m (Z.of_nat (length (callsTo m before))) before)
  end.

(** ** Histories that grow *)

Lemma lastOf_snoc {A} (f : op -> option A) l o :
  lastOf f (l ++ [o]) = match f o with Some x => Some x | None => lastOf f l end.
Proof.
  unfold lastOf. rewrite omap_app. csimpl. destruct (f o); [apply last_snoc|by rewrite app_nil_r].
Qed.

Lemma callsTo_snoc m l o :
  callsTo m (l ++ [o]) =
  callsTo m l ++ match o with DoInvoke m' args => option_list (atMethod m m' args) | _ => [] end.
Proof.
  unfold callsTo. rewrite omap_app. f_equal. csimpl. by destruct o; [destruct (atMethod _ _ _)|..].
Qed.

Lemma atMethod_eq {F : M -> Type} m (x : F m) : atMethod m m x = Some x.
Proof.
  unfold atMethod. destruct (decide (m = m)) as [E|]; [|done].
  by rewrite (Eqdep_dec.UIP_dec (decide_rel (=)) E eq_refl).
Qed.

Lemma atMethod_ne {F : M -> Type} m m' (x : F m') : m' <> m -> atMethod m m' x = None.
Proof. intros. unfold atMethod. by destruct (decide (m' = m)). Qed.

Lemma methods_set m f (d : dbl) : methods _ _ (setMethod Args Results m f d) m = f.
Proof.
  simpl. destruct (decide (m = m)) as [E|]; [|done].
  by rewrite (Eqdep_dec.UIP_dec (decide_rel (=)) E eq_refl).
Qed.

Lemma methods_set_ne m m' f (d : dbl) :
  m <> m' -> methods _ _ (setMethod Args Results m f d) m' = methods _ _ d m'.
Proof. intros. simpl. by destruct (decide (m = m')). Qed.

(** ** The double is its history *)

Record describes (l : list op) (d : dbl) : Prop := {
  desc_stub m : Stub (methods _ _ d m) = stubOf m l;
  desc_args m : argsForCall (methods _ _ d m) = callsTo m l;
  desc_default m : fakeReturns (methods _ _ d m) = defaultOf m l;
  desc_onCall m i : deref (returnsOnCall (methods _ _ d m)) ∅ !! i = onCallOf m i l;
  desc_invocations m :
    Invocations Args Results d !! methodName m =
    match callsTo m l with [] => None | _ => Some (existT m <$> callsTo m l) end
}.

Lemma new_describes : describes [] (newDouble Args Results zero).
Proof. split; intros; try done; apply lookup_empty. Qed.

(** An operation says nothing of the other methods. *)
Lemma others_snoc m l o : op_method o <> m ->
  callsTo m (l ++ [o]) = callsTo m l /\ stubOf m (l ++ [o]) = stubOf m l /\
  defaultOf m (l ++ [o]) = defaultOf m l /\ forall i, onCallOf m i (l ++ [o]) = onCallOf m i l.
Proof.
  intros Hne. unfold stubOf, defaultOf, onCallOf. rewrite callsTo_snoc, !lastOf_snoc.
  destruct o as [m' a|m' s|m' r|m' i r]; simpl in Hne;
    rewrite ?atMethod_ne, ?decide_False by done; cbn [option_list]; rewrite ?app_nil_r;
    (split; [done|]); (split; [done|]); (split; [done|]); intros i'; rewrite lastOf_snoc; [done..|].
  destruct (decide (i = i')); [|done]. by rewrite atMethod_ne.
Qed.

(** The double after a call, and the answer. *)
Definition called (m : M) (args : Args m) (d : dbl) : dbl :=
  let f := methods _ _ d m in
  recordInvocation Args Results (methodName m) (existT m args)
    (setMethod Args Results m
       (mkFakeMethod (Stub f) (argsForCall f ++ [args]) (fakeReturns f) (returnsOnCall f)) d).

Lemma Invoke_called m args w (d : dbl) : (Invoke Args Results methodName m args w d).2 = called m args d.
Proof.
  unfold Invoke, called. destruct (Stub _) as [s|]; [by destruct (s args w)|]. by destruct (_ !! _).
Qed.

Lemma Invoke_answer l d m args w :
  describes l d -> (Invoke Args Results methodName m args w d).1.1 = expected m args w l.
Proof.
  intros [Hs Ha Hd Ho _]. unfold Invoke, expected. rewrite Hs, Ho, Ha, Hd.
  destruct (stubOf m l) as [s|]; [by destruct (s args w)|]. by destruct (onCallOf _ _ _).
Qed.

Lemma step_double o w (d : dbl) :
  (step o w d).2 = match o with
                   | DoInvoke m args => called m args d
                   | DoCalls m s => Calls Args Results m s d
                   | DoReturns m r => Returns Args Results m r d
                   | DoReturnsOnCall m i r => ReturnsOnCall Args Results m i r d
                   end.
Proof.
  destruct o as [m a|m s|m r|m i r]; [|done..]. cbn [step]. rewrite <- (Invoke_called m a w).
  by destruct (Invoke _ _ _ _ _ _ _) as [[? ?] ?].
Qed.

(** The state of the method that an operation is for. *)
Lemma same_snoc l o d w : describes l d ->
  let m := op_method o in let f := methods _ _ (step o w d).2 m in
  Stub f = stubOf m (l ++ [o]) /\ argsForCall f = callsTo m (l ++ [o]) /\
  fakeReturns f = defaultOf m (l ++ [o]) /\
  forall i, deref (returnsOnCall f) ∅ !! i = onCallOf m i (l ++ [o]).
Proof.
  intros [Hs Ha Hd Ho _]. cbv zeta. rewrite step_double.
  unfold stubOf, defaultOf, onCallOf in *. rewrite callsTo_snoc, !lastOf_snoc.
  destruct o as [m a|m s|m r|m i r]; cbn [op_method];
    unfold called, recordInvocation, Calls, Returns, ReturnsOnCall; cbn [methods];
    rewrite methods_set; cbn [Stub argsForCall fakeReturns returnsOnCall];
    rewrite ?atMethod_eq, ?decide_True by done; cbn [option_list]; rewrite ?app_nil_r;
    (split; [done|]); (split; [by rewrite Ha|]); (split; [done|]); intros i'; rewrite lastOf_snoc;
    [done..|].
  cbn [deref]. destruct (decide (i = i')) as [->|]; [by rewrite atMethod_eq, lookup_insert_eq|].
  by rewrite lookup_insert_ne.
Qed.

Lemma step_others o w (d : dbl) m :
  op_method o <> m -> methods _ _ (step o w d).2 m = methods _ _ d m.
Proof.
  intros Hne. rewrite step_double.
  destruct o; simpl in Hne; unfold called, recordInvocation, Calls, Returns, ReturnsOnCall;
    cbn [methods]; by rewrite methods_set_ne.
Qed.

Lemma step_invocations o w (d : dbl) :
  Invocations Args Results (step o w d).2 =
  match o with
  | DoInvoke m args =>
      <[methodName m := deref (Invocations Args Results d !! methodName m) [] ++ [existT m args]]>
        (Invocations Args Results d)
  | _ => Invocations Args Results d
  end.
Proof. rewrite step_double. by destruct o. Qed.

(** The calls of a method, as the map of invocations has them. *)
Definition logged (m : M) (l : list op) : option (list (invocation Args)) :=
  match callsTo m l with [] => None | _ => Some (existT m <$> callsTo m l) end.

Lemma logged_deref m l : deref (logged m l) [] = existT m <$> callsTo m l.
Proof. unfold logged. by destruct (callsTo m l). Qed.

Lemma logged_snoc l o w d m : (forall m, Invocations Args Results d !! methodName m = logged m l) ->
  Invocations Args Results (step o w d).2 !! methodName m = logged m (l ++ [o]).
Proof.
  intros Hi. rewrite step_invocations. unfold logged at 1. rewrite callsTo_snoc.
  destruct o as [m' a|m' s|m' r|m' i r]; try (by rewrite app_nil_r, Hi).
  destruct (decide (m' = m)) as [->|Hne].
  - rewrite lookup_insert_eq, Hi, logged_deref, atMethod_eq. cbn [option_list].
    rewrite fmap_app. by destruct (callsTo m l).
  - rewrite lookup_insert_ne by (by intros E%Inj0). rewrite atMethod_ne by done. cbn [option_list].
    by rewrite app_nil_r, Hi.
Qed.

Lemma step_describes l o w d : describes l d -> describes (l ++ [o]) (step o w d).2.
Proof.
  intros Hl. pose proof Hl as [Hs Ha Hd Ho Hi].
  destruct (same_snoc l o d w Hl) as (Hs' & Ha' & Hd' & Ho').
  pose proof (fun m => others_snoc m l o) as Hother.
  split; intros m; [..|by apply (logged_snoc l)];
    (destruct (decide (op_method o = m)) as [<-|Hne]; [done|]);
    destruct (Hother m Hne) as (Hc & Hst & Hdf & Hoc); rewrite (step_others _ _ _ _ Hne), ?Hc, ?Hst, ?Hdf.
  - apply Hs.
  - apply Ha.
  - apply Hd.
  - intros i. rewrite Hoc. apply Ho.
Qed.

Lemma steps_describe l l' w d :
  describes l d -> describes (l ++ l') (steps l' w d).2.
Proof.
  revert l w d. induction l' as [|o l' IH]; intros l w d Hd; [by rewrite app_nil_r|]. cbn [steps].
  pose proof (step_describes l o w d Hd) as Hd'. destruct (step o w d) as [[x w1] d1].
  specialize (IH (l ++ [o]) w1 d1 Hd'). rewrite <- app_assoc in IH.
  by destruct (steps l' w1 d1) as [[xs w2] d2].
Qed.

Lemma steps_app l l' w d :
  steps (l ++ l') w d =
  let '(xs, w1, d1) := steps l w d in let '(ys, w2, d2) := steps l' w1 d1 in (xs ++ ys, w2, d2).
Proof.
  revert w d. induction l as [|o l IH]; intros w d; cbn [steps app].
  - by destruct (steps l' w d) as [[? ?] ?].
  - destruct (step o w d) as [[x w1] d1]. rewrite IH. destruct (steps l w1 d1) as [[xs w2] d2].
    by destruct (steps l' w2 d2) as [[ys w3] d3].
Qed.

Lemma steps_length l w d : length (steps l w d).1.1 = length l.
Proof.
  revert w d. induction l as [|o l IH]; intros w d; [done|]. cbn [steps].
  destruct (step o w d) as [[x w1] d1]. specialize (IH w1 d1).
  destruct (steps l w1 d1) as [[xs w2] d2]. simpl in *. by rewrite IH.
Qed.

(** The answer of a call in the middle of a history. *)
Lemma steps_answer pre m args post w0 :
  (steps (pre ++ DoInvoke m args :: post) w0 (newDouble Args Results zero)).1.1 !! length pre =
  Some (Some (existT m (expected m args
    (steps pre w0 (newDouble Args Results zero)).1.2 pre))).
Proof.
  pose proof (steps_describe [] pre w0 _ new_describes) as Hd. rewrite steps_app.
  pose proof (steps_length pre w0 (newDouble Args Results zero)) as Hlen.
  destruct (steps pre w0 _) as [[xs w1] d1]. simpl in Hd, Hlen. cbn [steps step fst snd].
  pose proof (Invoke_answer pre d1 m args w1 Hd) as Ha.
  destruct (Invoke _ _ _ m args w1 d1) as [[r w2] d2]. simpl in Ha. subst r.
  destruct (steps post w2 d2) as [[ys w3] d3]. cbn [fst].
  rewrite <- Hlen, list_lookup_middle; done.
Qed.
End double.

(** ** The broker client of the tests *)

Lemma methodName_inj : Inj (=) (=) FakeClient.methodName.
Proof. intros m m' E. destruct m, m'; first [reflexivity|discriminate E]. Qed.

Section fake_client.
Context {W : Type} (VhostInfo : Type).
Notation Args := FakeClient.Args.
Notation Results := (FakeClient.Results VhostInfo).
Notation history := (list (op (W:=W) Args Results)).
Notation play l w :=
  (steps Args Results FakeClient.methodName l w (FakeClient.new (W:=W) VhostInfo)).

(** C39: The broker client of the tests is a log: in whatever order it is
    configured and called, it shows the calls of each method as they were made, in
    ArgsForCall (which panics out of range), CallCount and Invocations alike, and
    answers each call by the stub, the result for that call or the default that
    was configured last before it. *)
Theorem fake_client_log (l : history) w0 :
  let d := (play l w0).2 in
  (forall m, CallCount Args Results m d = length (callsTo Args Results m l)) /\
  (forall m i, ArgsForCall Args Results m i d =
     match callsTo Args Results m l !! Z.to_nat i with
     | Some args => if (i <? 0)%Z then Panicked "index out of range" else Returned args
     | None => Panicked "index out of range"
     end) /\
  (forall m, Invocations Args Results d !! FakeClient.methodName m = logged Args Results m l) /\
  (forall pre m args post,
     (play (pre ++ DoInvoke Args Results m args :: post) w0).1.1 !! length pre =
     Some (Some (existT m (expected Args Results (FakeClient.zero VhostInfo) m args
                             (play pre w0).1.2 pre)))).
Proof.
  pose proof methodName_inj as Hinj.
  pose proof (steps_describe Args Results FakeClient.methodName (FakeClient.zero VhostInfo) [] l w0 _
    (new_describes Args Results FakeClient.methodName (FakeClient.zero VhostInfo))) as [_ Ha _ _ Hi].
  cbv zeta. split; [|split; [|split]].
  - intros m. unfold CallCount. by rewrite Ha.
  - intros m i. unfold ArgsForCall. rewrite Ha. destruct (i <? 0)%Z; [by destruct (_ !! _)|done].
  - apply Hi.
  - intros pre m args post. apply (steps_answer Args Results FakeClient.methodName).
Qed.
End fake_client.
