(* ===== verification/ClientServer.v ===== *)
(** * An API server and a cache in memory

    Instances of the classes of Rest.v, ClientStore.v and Listers.v: a server that
    keeps the objects in a finite map, and a cache that is a list.  They show that
    the laws of the classes can hold together, and the witnesses run on them. *)

From S2P Require Import Prelude.
From S2P Require Import GoStrings.
From S2P Require Import GoErrors.
From S2P Require Import Prog.
From S2P Require Import Api.
From S2P Require Import Scheme.
From S2P Require Import Rest.
From S2P Require Import Clientset.
From S2P Require Import ClientStore.
From S2P Require Import Listers.
From Stdlib Require Import Ascii.

(** ** Clients: the configuration they were made from *)

#[export] Instance memRest : RestLib := {
  RESTClient := GroupVersion;
  HTTPClient := unit;
  DiscoveryClient := unit;
  HTTPClientFor _ := inr tt;
  RESTClientForConfigAndClient c _ :=
    match Config_GroupVersion c with
    | Some gv => inr gv
    | None => inl (ErrText "GroupVersion is required when initializing a RESTClient")
    end;
  NewDiscoveryClientForConfigAndClient _ _ := inr tt;
  NewDiscoveryClient _ := tt;
  DefaultKubernetesUserAgent := "operator"
}.

(** ** The objects *)

#[export] Instance GroupVersionResource_countable : Countable GroupVersionResource.
Proof.
  apply (inj_countable' (fun r => (gvr_Group r, gvr_Version r, gvr_Resource r))
           (fun '(g, v, r) => mkGroupVersionResource g v r)). by intros [].
Defined.
#[export] Instance NamespacedName_countable : Countable NamespacedName.
Proof.
  apply (inj_countable' (fun n => (nn_Namespace n, nn_Name n))
           (fun '(ns, n) => mkNamespacedName ns n)). by intros [].
Defined.

#[export] Instance cell_eq_dec : EqDecision cell.
Proof. unfold cell. apply _. Defined.
#[export] Instance cell_countable : Countable cell.
Proof. unfold cell. apply _. Defined.

Definition blank (k : kind) : object k.
Proof.
  destruct k; repeat first
    [exact EmptyString|exact 0%Z|exact None|exact false|exact ∅|exact []|constructor].
Defined.

(** The specification of one object with the status of another. *)
Definition with_status (k : kind) : object k -> object k -> object k :=
  match k with
  | KBinding => fun o s : Binding => set_Status (Status s) o
  | KExchange => fun o s : Exchange => set_Status (Status s) o
  | KFederation => fun o s : Federation => set_Status (Status s) o
  | KOperatorPolicy => fun o s : OperatorPolicy => set_Status (Status s) o
  | KPermission => fun o s : Permission => set_Status (Status s) o
  | KPolicy => fun o s : Policy => set_Status (Status s) o
  | KQueue => fun o s : Queue => set_Status (Status s) o
  | KSchemaReplication => fun o s : SchemaReplication => set_Status (Status s) o
  | KShovel => fun o s : Shovel => set_Status (Status s) o
  | KTopicPermission => fun o s : TopicPermission => set_Status (Status s) o
  | KUser => fun o s : User => set_Status (Status s) o
  | KVhost => fun o s : Vhost => set_Status (Status s) o
  | KSuperStream => fun o s : SuperStream => set_Status (Status s) o
  | _ => fun o _ => o
  end.

Lemma with_status_meta k o s : meta k (with_status k o s) = meta k o.
Proof. by destruct k. Qed.
Lemma with_status_spec k o s : spec_eq k o (with_status k o s).
Proof. by destruct k. Qed.

Definition named (key : NamespacedName) (m : ObjectMeta) : ObjectMeta :=
  mkObjectMeta (nn_Name key) (nn_Namespace key) (Labels m) (Annotations m) (Generation m)
    (DeletionTimestamp m) (Finalizers m) (OwnerReferences m).
Definition under (key : NamespacedName) (k : kind) (o : object k) : object k :=
  set_meta k (named key (meta k o)) o.

Lemma under_key key k o : key_of k (under key k o) = key.
Proof. unfold key_of, under. rewrite meta_set_meta. by destruct key. Qed.
Lemma under_status key k o s : status_eq k s (under key k (with_status k o s)).
Proof. by destruct k. Qed.

(** ** The server *)

Notation mem := (gmap cell any_object).

Definition mem_stored (s : mem) (c : cell) : option any_object :=
  match s !! c with
  | Some o => if decide (any_key o = snd c) then Some o else None
  | None => None
  end.

Definition refused : error := ErrAPI (mkApiError (StatusReasonOther "Invalid") "refused").
Definition missing : error := ErrAPI (mkApiError StatusReasonNotFound "not found").

Section server.
Notation version := (fun r : Request => WithResource (Request_client r : GroupVersion) (r_resource r)).
Notation at_name := (fun (r : Request) n => (version r, mkNamespacedName (r_namespace r) n)).

Definition body_of (k : kind) (r : Request) : option (object k) :=
  said (fun b => match b with CallBody (BodyObject k' o) => Some (CachedObject (existT k' o)) | _ => None end) r
    ≫= assertType k.

Definition stored_as (k : kind) (s : mem) (c : cell) : option (object k) :=
  mem_stored s c ≫= fun o => assertType k (CachedObject o).

Definition mem_into (k : kind) (r : Request) (s : mem) : (object k * option error) * mem :=
  match Request_verb r, r_name r with
  | GET, Some n =>
      match stored_as k s (at_name r n) with
      | Some o => ((o, None), s)
      | None => ((blank k, Some missing), s)
      end
  | POST, _ =>
      match body_of k r with
      | Some o =>
          let key := mkNamespacedName (r_namespace r) (Name (meta k o)) in
          match s !! (version r, key) with
          | Some _ => ((o, Some refused), s)
          | None => ((under key k o, None), <[(version r, key) := existT k (under key k o)]> s)
          end
      | None => ((blank k, Some refused), s)
      end
  | PUT, Some n =>
      match body_of k r, stored_as k s (at_name r n) with
      | Some o, Some old =>
          let key := mkNamespacedName (r_namespace r) n in
          if bool_decide (r_sub r = ["status"]) then
            ((with_status k old o, None), <[at_name r n := existT k (with_status k old o)]> s)
          else if bool_decide (r_sub r = []) then
            let o' := under key k (with_status k o old) in
            ((o', None), <[at_name r n := existT k o']> s)
          else ((o, Some refused), s)
      | _, _ => ((blank k, Some missing), s)
      end
  | _, _ => ((blank k, Some refused), s)
  end.

Definition in_ns (ns : string) (key : NamespacedName) : bool :=
  bool_decide (in_namespace ns key).

(** The objects of a kind in a namespace. *)
Definition mem_items (k : kind) (r : Request) (s : mem) : list (object k) :=
  omap (fun '(c, _) =>
          if bool_decide (fst c = version r) && in_ns (r_namespace r) (snd c)
          then stored_as k s c else None) (map_to_list s).

Definition mem_error (r : Request) (s : mem) : option error * mem :=
  match Request_verb r, r_name r with
  | DELETE, Some n => (None, delete (at_name r n) s)
  | DELETE, None =>
      (None, filter (fun '(c, _) => ~ (fst c = version r /\ in_ns (r_namespace r) (snd c) = true)) s)
  | _, _ => (Some refused, s)
  end.

Definition mem_serve (a : rest_action) (s : mem) : rest_result a * mem :=
  match a with
  | DoInto k r => mem_into k r s
  | DoIntoList k r => ((mkObjectList "" (mem_items k r s), None), s)
  | DoError r => mem_error r s
  | DoWatch _ => (inl refused, s)
  end.
End server.

#[export] Instance memServer : ApiServer mem := {
  serve := mem_serve;
  versionOf gv := gv;
  stored := mem_stored;
  selects _ _ := true;
  afterDelete _ := None
}.

(** ** Its laws *)

Lemma mem_stored_key s g key o : mem_stored s (g, key) = Some o -> any_key o = key.
Proof.
  unfold mem_stored. destruct (s !! _) as [o'|]; [|done].
  destruct (decide _) as [E|]; [|done]. by intros [= <-].
Qed.

Lemma assertType_Some k m (o : object k) : assertType k m = Some o -> m = CachedObject (existT k o).
Proof.
  destruct m as [[k' o']|id]; [|done]. simpl. destruct (decide (k' = k)) as [e|]; [|done].
  destruct e. by intros [= <-].
Qed.

Lemma stored_as_Some k s c o : stored_as k s c = Some o -> mem_stored s c = Some (existT k o).
Proof.
  unfold stored_as. intros (x & Hx & E%assertType_Some)%bind_Some. by injection E as ->.
Qed.

Lemma stored_as_intro k s c o : mem_stored s c = Some (existT k o) -> stored_as k s c = Some o.
Proof. unfold stored_as. intros ->. apply assertType_id. Qed.

Lemma mem_insert s c o :
  any_key o = snd c -> written (St:=mem) s c (Some o) (<[c:=o]> s).
Proof.
  intros Hk. split; [|intros c' Hne]; cbn; unfold mem_stored.
  - rewrite lookup_insert_eq. by rewrite decide_True.
  - by rewrite lookup_insert_ne.
Qed.

Lemma mem_elem k r s o :
  o ∈ mem_items k r s <->
  mem_stored s (r_gvr (St:=mem) r, key_of k o) = Some (existT k o) /\
  in_namespace (r_namespace r) (key_of k o).
Proof.
  unfold mem_items. rewrite list_elem_of_omap. split.
  - intros ([[g key] x] & Hin & E).
    case_bool_decide as Hg; [|done]. simpl in Hg. subst g.
    unfold in_ns in E. case_bool_decide as Hns; [|done]. simpl in E, Hns.
    apply stored_as_Some in E. pose proof (mem_stored_key _ _ _ _ E) as Hkey.
    change (any_key (existT k o)) with (key_of k o) in Hkey. by rewrite Hkey.
  - intros [E Hns]. exists ((r_gvr (St:=mem) r, key_of k o), existT k o). split.
    + apply elem_of_map_to_list. unfold mem_stored in E.
      destruct (s !! _) as [x|]; [|done]. by destruct (decide _); simplify_eq.
    + unfold in_ns. rewrite !bool_decide_eq_true_2 by done. simpl. by apply stored_as_intro.
Qed.

Lemma mem_into_put k r n s o err s' :
  Request_verb r = PUT -> r_name r = Some n -> mem_into k r s = ((o, err), s') ->
  match err with
  | Some _ => s' = s
  | None => exists old, mem_stored s (r_cell (St:=mem) r n) = Some (existT k old) /\
              s' = <[r_cell (St:=mem) r n := existT k o]> s /\
              key_of k o = mkNamespacedName (r_namespace r) n /\
              (r_sub r = ["status"] -> spec_eq k old o) /\ (r_sub r = [] -> status_eq k old o)
  end.
Proof.
  intros Hv Hn. unfold mem_into. rewrite Hv, Hn.
  destruct (body_of k r) as [b|]; [|by intros [= <- <- <-]].
  destruct (stored_as k s _) as [old|] eqn:Eo; [|by intros [= <- <- <-]].
  apply stored_as_Some in Eo.
  case_bool_decide as Hst; [|case_bool_decide as Hnil]; intros [= <- <- <-]; [| |done].
  - exists old. split; [done|]. split; [done|]. split.
    + unfold key_of. rewrite with_status_meta. by apply mem_stored_key in Eo.
    + split; [intros _; apply with_status_spec|]. by rewrite Hst.
  - exists old. split; [done|]. split; [done|]. split; [apply under_key|].
    split; [by rewrite Hnil|]. intros _. apply under_status.
Qed.

#[export] Instance memServerOk : ApiServerOk mem.
Proof.
  constructor; cbn.
  - intros c h r gv. destruct (Config_GroupVersion c); [|done]. by intros [= ->] [= ->].
  - apply mem_stored_key.
  - intros k r n s o err s' Hv Hn. unfold mem_into. rewrite Hv, Hn.
    destruct (stored_as k s _) as [o'|] eqn:E; intros [= <- <- <-]; (split; [done|]); [|done].
    intros _. by apply stored_as_Some.
  - intros k r s o err s' Hv. unfold mem_into. rewrite Hv.
    destruct (body_of k r) as [b|]; [|by intros [= <- <- <-]].
    destruct (s !! _) as [?|] eqn:E; intros [= <- <- <-]; [done|].
    assert (Hname : Name (meta k (under (mkNamespacedName (r_namespace r) (Name (meta k b))) k b)) =
                    Name (meta k b)) by (unfold under; by rewrite meta_set_meta).
    change (s !! r_cell (St:=mem) r (Name (meta k b)) = None) in E.
    rewrite Hname. unfold mem_stored. split; [by rewrite E|]. apply mem_insert, under_key.
  - intros k r n s o err s' Hv Hn Hx. pose proof (mem_into_put _ _ _ _ _ _ _ Hv Hn Hx) as Hp.
    destruct err; [by subst|]. destruct Hp as (old & Hold & -> & Hkey & Hsp & Hst).
    exists old. split; [done|]. split; [|done]. by apply mem_insert.
  - intros k r pt n s o err s' Hv Hn. unfold mem_into. rewrite Hv. by intros [= <- <- <-].
  - intros r n s err s' Hv Hn. unfold mem_error. rewrite Hv, Hn. intros [= <- <-].
    unfold written. cbn. unfold mem_stored. split.
    + rewrite lookup_delete_eq. by destruct (s !! _) as [?|]; [destruct (decide _)|].
    + intros c Hc. by rewrite lookup_delete_ne.
  - intros k r opts s l err s' Hv Hn Ho [= <- <- <-]. split; [done|]. intros _ o. cbn.
    rewrite mem_elem. tauto.
  - intros r opts s err s' Hv Hn Ho. unfold mem_error. rewrite Hv, Hn. intros [= <- <-] g key.
    unfold mem_stored. rewrite map_lookup_filter. destruct (s !! _) as [o|]; simpl; [|by split; [|split]].
    unfold in_ns. split; [|split].
    + intros Hg. rewrite option_guard_True; [done|]. intros [? _]. by destruct Hg.
    + intros -> x. destruct (decide (any_key o = key)) as [|]; [|done]. intros [= ->].
      rewrite andb_true_r. case_bool_decide as Hns.
      * rewrite option_guard_False; [by left|]. intros Hnot. by apply Hnot.
      * rewrite option_guard_True; [by rewrite decide_True|]. by intros [_ ?].
    + destruct (decide (any_key o = key)) as [|Hne]; [done|]. intros _.
      destruct (guard _); simpl; [by rewrite decide_False|done].
  - intros r s w s' [= <- <-]. done.
Qed.

(** ** A cache *)

(** A selector is the labels an object must have. *)
Definition label_matches (sel labels : gmap string string) : bool := bool_decide (sel ⊆ labels).

Definition cached_meta (c : cached) : option ObjectMeta :=
  match c with CachedObject o => Some (any_meta o) | CachedOther _ => None end.
Definition cached_with (p : ObjectMeta -> bool) (c : cached) : bool :=
  match cached_meta c with Some m => p m | None => false end.
Definition meta_key (m : ObjectMeta) : string := cache_key (mkNamespacedName (Namespace m) (Name m)).

#[export] Instance memCache : CacheLib := {
  Indexer := list cached;
  Selector := gmap string string;
  Matches := label_matches;
  ListAll idx sel := (List.filter (cached_with (fun m => label_matches sel (Labels m))) idx, None);
  ListAllByNamespace idx ns sel :=
    (List.filter (cached_with (fun m =>
       (bool_decide (ns = "") || bool_decide (Namespace m = ns)) && label_matches sel (Labels m))) idx,
     None);
  GetByKey idx name := (List.find (cached_with (fun m => bool_decide (meta_key m = name))) idx, None);
  NewNotFound r name := mkApiError StatusReasonNotFound (gr_Resource r +:+ " " +:+ quoted name +:+ " not found");
  contents idx := idx
}.

Lemma filter_cached k p (P : object k -> Prop) `{!forall o, Decision (P o)} (os : list (object k)) :
  (forall o, p (meta k o) = true <-> P o) ->
  List.filter (cached_with p) ((fun o => CachedObject (existT k o)) <$> os) =
  (fun o => CachedObject (existT k o)) <$> filter P os.
Proof.
  intros Hp. induction os as [|o os IH]; [done|]. rewrite filter_cons.
  cbn [fmap list_fmap List.filter].
  change (cached_with p (CachedObject (existT k o))) with (p (meta k o)).
  destruct (decide (P o)) as [Ho|Ho].
  - apply Hp in Ho. rewrite Ho. cbn [fmap list_fmap]. by f_equal.
  - rewrite <- Hp in Ho. apply not_true_is_false in Ho. by rewrite Ho.
Qed.

Lemma find_cached k p q (os : list (object k)) :
  (forall o, p (meta k o) = q o) ->
  List.find (cached_with p) ((fun o => CachedObject (existT k o)) <$> os) =
  CachedObject ∘ existT k <$> List.find q os.
Proof.
  intros Hp. induction os as [|o os IH]; [done|]. cbn [fmap list_fmap List.find].
  change (cached_with p (CachedObject (existT k o))) with (p (meta k o)). rewrite Hp.
  by destruct (q o).
Qed.

#[export] Instance memCacheOk : CacheLibOk.
Proof.
  constructor.
  - intros k idx sel os [Hc _]. cbn in Hc |- *. subst idx. eexists. split; [|reflexivity].
    f_equal. by apply filter_cached.
  - intros k idx sel ns os [Hc _]. cbn in Hc |- *. subst idx. eexists. split; [|reflexivity].
    f_equal. apply filter_cached. intros o.
    by rewrite andb_true_iff, orb_true_iff, !bool_decide_eq_true.
  - intros k idx name os [Hc _]. cbn in Hc |- *. subst idx. f_equal. by apply find_cached.
  - done.
Qed.

(** ** A scheme *)

Definition known_list : Type := list (TypeMeta * go_type).
Definition known_at (s : known_list) (g : TypeMeta) : option go_type :=
  snd <$> List.find (fun e => bool_decide (fst e = g)) s.

Definition clashes (gv : GroupVersion) (s : known_list) (t : go_type) : bool :=
  match known_at s (WithKind gv (go_typeName t)) with
  | Some t' => negb (bool_decide (t' = t))
  | None => false
  end.

#[export] Instance memScheme : SchemeLib := {
  Scheme := known_list;
  NewScheme := [];
  Builder_AddToScheme gv ts s :=
    if existsb (clashes gv s) ts then (Some (ErrText "Double registration of different types"), s)
    else (None, ((fun t => (WithKind gv (go_typeName t), t)) <$> ts) ++ s);
  clientgoscheme_AddToScheme s :=
    (None, [(mkTypeMeta "" "v1" "Secret", ObjectType KSecret);
            (mkTypeMeta "" "v1" "Service", ObjectType KService)] ++ s);
  rabbitmqv1beta1_AddToScheme s :=
    (None, [(mkTypeMeta "rabbitmq.com" "v1beta1" "RabbitmqCluster", ObjectType KRabbitmqCluster);
            (mkTypeMeta "rabbitmq.com" "v1beta1" "RabbitmqClusterList", ObjectListType KRabbitmqCluster)]
           ++ s);
  AddToGroupVersion _ s := s;
  knownType := known_at
}.

Lemma known_at_app gv ts s g :
  known_at (((fun t => (WithKind gv (go_typeName t), t)) <$> ts) ++ s) g =
  match List.find (fun t => bool_decide (WithKind gv (go_typeName t) = g)) ts with
  | Some t => Some t
  | None => known_at s g
  end.
Proof.
  induction ts as [|t ts IH]; [done|]. unfold known_at in *. cbn [fmap list_fmap app List.find fst].
  by destruct (bool_decide (WithKind gv (go_typeName t) = g)).
Qed.

#[export] Instance memSchemeOk : SchemeLibOk.
Proof.
  constructor; cbn.
  - done.
  - intros gv ts s Hclash.
    assert (Hno : existsb (clashes gv s) ts = false); [apply not_true_is_false|rewrite Hno; clear Hno].
    2: { eexists. split; [done|]. intros g. apply known_at_app. }
    + intros (t & Hin%list_elem_of_In & Ht)%existsb_exists. unfold clashes in Ht.
      destruct (known_at s _) as [t'|] eqn:E; [|done].
      rewrite bool_decide_eq_true_2 in Ht; [done|]. by apply (Hclash t t').
  - intros s. split; [done|]. split; [done|]. intros g Hg. unfold known_at. cbn [app List.find fst].
    destruct g as [gr v kd]. simpl in Hg. subst gr. by repeat case_bool_decide.
  - intros s g. unfold known_at. cbn [app List.find fst].
    repeat (case_bool_decide; subst; try done).
  - done.
Qed.
