(* ===== verification/StreamLifecycle.v ===== *)
(** * Super streams against a server

    A Kubernetes API that stores a super stream and the objects of all kinds.
    Whatever became of the children (deleted, changed by hand, never created), one
    reconciliation brings each of them to what its builder makes of it and touches
    nothing else, publishes the partitions, and a second one changes nothing. *)

From S2P Require Import Prelude.
From S2P Require Import GoStrings.
From S2P Require Import GoErrors.
From S2P Require Import Prog.
From S2P Require Import Api.
From S2P Require Import World.
From S2P Require Import Resources.
From S2P Require Import ParseReference.
From S2P Require Import Utils.
From S2P Require Import SuperStreams.
From S2P Require Import SuperStreamProofs.
From S2P Require Import Lifecycle.
Import ProgNotations.
Open Scope go_scope.

(** ** Runs and retries *)

Section retry.
Context {S : Type} (h : handler result S).

Lemma replays_app tr1 tr2 s s' :
  replays h (tr1 ++ tr2) s s' <-> exists s1, replays h tr1 s s1 /\ replays h tr2 s1 s'.
Proof.
  revert s. induction tr1 as [|[a x] tr1 IH]; intros s; simpl.
  - split; [eauto|]. by intros (s1 & -> & ?).
  - setoid_rewrite IH. split.
    + intros (s1 & Ha & s2 & H1 & H2). eauto.
    + intros (s2 & (s1 & Ha & H1) & H2). eauto.
Qed.

(** An execution with the answers of the environment is the run. *)
Lemma exec_replays {A} (p : go A) s tr o s' :
  exec p tr o -> replays h tr s s' -> run h p s = (tr, o, s').
Proof.
  revert s tr. induction p as [x|a k IH|w]; intros s tr; simpl.
  - by intros [-> ->] ->.
  - intros (x & tr' & -> & Hx) (s1 & Ha & Hr). rewrite Ha. by rewrite (IH x s1 tr' Hx Hr).
  - by intros [-> ->] ->.
Qed.

(** A function that succeeds is not retried. *)
Lemma yields_retry `{LibsOk} {T} (fn : T -> go (option error * T)) x0 x1 s s' :
  yields h (fn x0) s (None, x1) s' -> yields h (RetryOnConflict fn x0) s (None, x1) s'.
Proof.
  intros [tr0 Hrun]. unfold yields.
  destruct (run h (RetryOnConflict fn x0) s) as [[tr out] s2] eqn:E.
  pose proof (run_replays _ _ _ _ _ _ E) as Hr. exists tr.
  apply run_exec, RetryOnConflict_spec in E.
  inversion E as [? ? ? ? Hx|? ? tr1 e y tr2 ? Hx Hc Hrest]; subst.
  - rewrite (exec_replays _ _ _ _ _ Hx Hr) in Hrun. by injection Hrun as -> -> ->.
  - apply replays_app in Hr as (s1 & Hr & _).
    rewrite (exec_replays _ _ _ _ _ Hx Hr) in Hrun. discriminate Hrun.
Qed.
End retry.

(** ** What the builders make *)

(** [controllerutil.SetControllerReference] replaces the reference it set before. *)
Class OwnerStable `{Libs} : Prop :=
  owner_again t owner m m' :
    SetControllerReference t owner m = inr m' -> SetControllerReference t owner m' = inr m'.

Definition builder_at (b : ResourceBuilder) : NamespacedName :=
  mkNamespacedName (Namespace (meta (builder_kind b) (Build b)))
    (Name (meta (builder_kind b) (Build b))).
Definition object_at (k : kind) (o : object k) : NamespacedName :=
  mkNamespacedName (Namespace (meta k o)) (Name (meta k o)).

(** [Update] keeps namespace and name, and leaves what it made as it is. *)
Record good_builder (b : ResourceBuilder) : Prop := {
  good_at o o' : Update b o = inr o' -> object_at (builder_kind b) o' = object_at (builder_kind b) o;
  good_again o o' : Update b o = inr o' -> Update b o' = inr o'
}.

Section good.
Context `{LibsOk} `{!OwnerStable} (s : SuperStream).

Lemma setOwner_at {A T} (x x' : Resource A T) :
  setOwner s x = inr x' ->
  Namespace (resource_ObjectMeta x') = Namespace (resource_ObjectMeta x) /\
  Name (resource_ObjectMeta x') = Name (resource_ObjectMeta x).
Proof.
  unfold setOwner. destruct (SetControllerReference _ _ _) as [|m] eqn:E; [done|].
  intros [= <-]. apply SetControllerReference_rest in E. simpl.
  by split; [apply (f_equal Namespace) in E|apply (f_equal Name) in E].
Qed.

Lemma setOwner_again {A T} (x x' : Resource A T) : setOwner s x = inr x' -> setOwner s x' = inr x'.
Proof.
  unfold setOwner. destruct (SetControllerReference _ _ _) as [|m] eqn:E; [done|].
  intros [= <-]. simpl. by rewrite (owner_again _ _ _ _ E).
Qed.

Lemma set_Spec_id {A T} (x : Resource A T) sp : Spec x = sp -> set_Spec sp x = x.
Proof. intros <-. by destruct x. Qed.

(** The three builders end in [setOwner] of a specification that does not change
    when it is filled in again. *)
Ltac good_update :=
  split; simpl; intros o o' E;
  [ unfold object_at; simpl; by destruct (setOwner_at _ _ E) as [-> ->]
  | pose proof (setOwner_spec _ _ _ E) as Hsp; apply setOwner_again in E;
    etransitivity; [|exact E]; unfold SuperStreamExchange_Update, SuperStreamPartition_Update,
      SuperStreamBinding_Update; f_equal; apply set_Spec_id; rewrite Hsp; reflexivity ].

Lemma exchange_good vhost ref : good_builder (SuperStreamExchange s vhost ref).
Proof. good_update. Qed.
Lemma partition_good i key vhost ref : good_builder (SuperStreamPartition s i key vhost ref).
Proof. good_update. Qed.
Lemma binding_good i key vhost ref : good_builder (SuperStreamBinding s i key vhost ref).
Proof. good_update. Qed.

Lemma partitions_good i keys vhost ref : Forall good_builder (partitionBuilders s i keys vhost ref).
Proof.
  revert i. induction keys as [|key keys IH]; intros i; simpl; [constructor|].
  constructor; [apply partition_good|]. constructor; [apply binding_good|apply IH].
Qed.

Lemma builders_good keys vhost ref : Forall good_builder (superStreamBuilders s keys vhost ref).
Proof. constructor; [apply exchange_good|apply partitions_good]. Qed.

(** The names that the loop collects. *)
Definition collected (b : ResourceBuilder) (x : object (builder_kind b)) : list string :=
  if bool_decide (ResourceType b = "Partition") then partitionName (builder_kind b) x else [].

Definition made (bs : list ResourceBuilder) (ns : list (list string)) : Prop :=
  Forall2 (fun b n => exists o x, Update b o = inr x /\ n = collected b x) bs ns.

Lemma partitions_made i keys vhost ref ns :
  made (partitionBuilders s i keys vhost ref) ns ->
  mjoin ns = RoutingKeyToPartitionName (owner_name s) <$> keys.
Proof.
  revert i ns. induction keys as [|key keys IH]; intros i ns Hm; [by inversion Hm|].
  simpl in Hm. apply Forall2_cons_inv_l in Hm as (n1 & ns1 & (o1 & x1 & E1 & ->) & Hm & ->).
  apply Forall2_cons_inv_l in Hm as (n2 & ns2 & (o2 & x2 & E2 & ->) & Hm & ->).
  simpl. rewrite (IH _ _ Hm). unfold collected. simpl.
  simpl in E1. apply setOwner_spec in E1. by rewrite E1.
Qed.

Lemma stream_made keys vhost ref ns :
  made (superStreamBuilders s keys vhost ref) ns ->
  mjoin ns = RoutingKeyToPartitionName (owner_name s) <$> keys.
Proof.
  intros Hm. apply Forall2_cons_inv_l in Hm as (n & ns1 & (o & x & _ & ->) & Hm & ->).
  simpl. by apply (partitions_made 0 keys vhost ref).
Qed.

Lemma partitions_at i keys vhost ref b :
  b ∈ partitionBuilders s i keys vhost ref ->
  nn_Namespace (builder_at b) = Namespace (resource_ObjectMeta s).
Proof.
  revert i. induction keys as [|key keys IH]; intros i; simpl; [by intros ?%not_elem_of_nil|].
  intros [->|[->|Hb]%elem_of_cons]%elem_of_cons; [done..|]. by eapply IH.
Qed.

Lemma builders_at keys vhost ref b :
  b ∈ superStreamBuilders s keys vhost ref ->
  builder_at b = mkNamespacedName (Namespace (resource_ObjectMeta s)) (snd (builder_key b)).
Proof.
  intros Hb. unfold builder_at, builder_key. f_equal.
  apply elem_of_cons in Hb as [->|Hb]; [done|]. by apply partitions_at in Hb.
Qed.
End good.

(** ** The server *)

Section server.
Context `{LibsOk} `{!OwnerStable}.
Context (req clusterKey : NamespacedName) (cluster : RabbitmqCluster).
Context {S : Type} (h : handler result S).
(** The super stream of the request, and the objects of all kinds. *)
Context (stream : S -> option SuperStream) (child : S -> forall k, NamespacedName -> option (object k)).

Definition same_children (s s' : S) : Prop := forall k key, child s' k key = child s k key.

(** [controllerutil.CreateOrUpdate] reads the object, applies the function to it or
    to the given one, and creates or updates it. *)
Record StreamServer : Prop := {
  st_get s o : stream s = Some o -> h (CGet KSuperStream req) s = (inr o, s);
  st_cluster s : h (CGet KRabbitmqCluster clusterKey) s = (inr cluster, s);
  st_now s : (h Now s).2 = s;
  st_at s k key o : child s k key = Some o -> object_at k o = key;
  st_status s o st :
    stream s = Some o ->
    exists s', h (CStatusUpdate KSuperStream (set_Status st o)) s = (inr (set_Status st o), s') /\
      stream s' = Some (set_Status st o) /\ same_children s s';
  st_apply s k o mutate o' :
    mutate (deref (child s k (object_at k o)) o) = inr o' -> object_at k o' = object_at k o ->
    exists res s', h (CCreateOrUpdate k o mutate) s = ((res, None, o'), s') /\
      stream s' = stream s /\ child s' k (object_at k o) = Some o' /\
      forall k' key, (k', key) <> (k, object_at k o) -> child s' k' key = child s k' key
}.
Context (Hserver : StreamServer).

(** The object that a builder starts from. *)
Definition current (s : S) (b : ResourceBuilder) : object (builder_kind b) :=
  deref (child s (builder_kind b) (builder_at b)) (Build b).

Lemma current_at s b : object_at (builder_kind b) (current s b) = builder_at b.
Proof.
  unfold current. destruct (child s _ _) as [o|] eqn:E; [|done]. by apply (st_at Hserver) in E.
Qed.

(** One round of the loop. *)
Lemma apply_one b bs names s x :
  good_builder b -> Update b (current s b) = inr x ->
  exists s1,
    (forall y s2, yields h (applyBuilders bs (names ++ collected b x)) s1 y s2 ->
                  yields h (applyBuilders (b :: bs) names) s y s2) /\
    stream s1 = stream s /\ child s1 (builder_kind b) (builder_at b) = Some x /\
    forall k key, (k, key) <> (builder_kind b, builder_at b) -> child s1 k key = child s k key.
Proof.
  intros Hb Hx.
  destruct (st_apply Hserver s (builder_kind b) (Build b) (Update b) x Hx)
    as (res & s1 & Ha & Hst & Hc & Hrest).
  { rewrite (good_at b Hb _ _ Hx). apply current_at. }
  exists s1. split; [|done]. intros y s2 Hy. cbn [applyBuilders].
  eapply (yields_bind h _ _ s (None, x) s1).
  { apply (yields_retry h _ _ x s s1).
    eapply yields_bind; [apply yields_act; exact Ha|]. apply yields_ret. }
  cbv iota. unfold collected in Hy.
  destruct (bool_decide (ResourceType b = "Partition")); [exact Hy|].
  by rewrite app_nil_r in Hy.
Qed.

Lemma applyBuilders_yields bs names s :
  Forall good_builder bs -> NoDup ((fun b => (builder_kind b, builder_at b)) <$> bs) ->
  (forall b, b ∈ bs -> exists x, Update b (current s b) = inr x) ->
  exists ns s', yields h (applyBuilders bs names) s (inr (names ++ mjoin ns)) s' /\ made bs ns /\
    stream s' = stream s /\
    (forall b, b ∈ bs -> exists x, Update b (current s b) = inr x /\
       child s' (builder_kind b) (builder_at b) = Some x) /\
    (forall k key, (k, key) ∉ (fun b => (builder_kind b, builder_at b)) <$> bs ->
       child s' k key = child s k key).
Proof.
  intros Hg. revert names s. induction Hg as [|b bs Hb Hg IH]; intros names s Hnd Hup.
  - exists [], s. rewrite app_nil_r. split; [apply yields_ret|]. split; [constructor|].
    split; [done|]. split; [by intros b ?%not_elem_of_nil|done].
  - cbn [fmap list_fmap] in Hnd. apply NoDup_cons in Hnd as [Hnotin Hnd].
    destruct (Hup b) as [x Hx]; [by left|].
    destruct (apply_one b bs names s x Hb Hx) as (s1 & Hrun & Hst1 & Hc1 & Hrest1).
    assert (Hcur : forall b', b' ∈ bs -> current s1 b' = current s b').
    { intros b' Hb'. unfold current. rewrite Hrest1; [done|]. intros Heq. apply Hnotin.
      rewrite <- Heq. apply list_elem_of_fmap. by exists b'. }
    destruct (IH (names ++ collected b x) s1 Hnd) as (ns & s' & Hy & Hm & Hst & Hc & Hrest).
    { intros b' Hb'. rewrite Hcur by done. apply Hup. by right. }
    exists (collected b x :: ns), s'. split.
    { apply Hrun. simpl. by rewrite app_assoc. }
    split; [constructor; [by eauto|done]|]. split; [congruence|]. split.
    + intros b' [->|Hb']%elem_of_cons.
      * exists x. split; [done|]. by rewrite (Hrest _ _ Hnotin).
      * destruct (Hc b' Hb') as (x' & Hx' & Hc'). exists x'. by rewrite <- Hcur.
    + intros k key Hk. cbn [fmap list_fmap] in Hk. apply not_elem_of_cons in Hk as [Hne Hk].
      rewrite (Hrest _ _ Hk). by apply Hrest1.
Qed.

(** The status updates of the end of a run. *)
Lemma status_yields s o st :
  stream s = Some o ->
  exists s', yields h (retryStatusUpdate KSuperStream (set_Status st o)) s (None, set_Status st o) s' /\
    stream s' = Some (set_Status st o) /\ same_children s s'.
Proof.
  intros Ho. destruct (st_status Hserver s o st Ho) as (s' & Ha & Hs & Hc).
  exists s'. split; [by apply yields_status|done].
Qed.

Definition succeeded (t : Z) : Condition :=
  mkCondition ready ConditionTrue t "SuccessfulCreateOrUpdate" "".

Lemma stream_Ready_yields conds s :
  exists t, yields h (ConditionOps.Ready conds) s (succeeded t) s /\
    forall t', ConditionOps.sameTransition ready ConditionTrue conds = Some t' -> t = t'.
Proof.
  unfold ConditionOps.Ready, ConditionOps.lastTransitionTime.
  destruct (ConditionOps.sameTransition _ _ _) as [t|].
  - exists t. split; [|congruence]. eapply yields_bind; apply yields_ret.
  - destruct (h Now s) as [t s1] eqn:E. pose proof (st_now Hserver s) as Hn. rewrite E in Hn.
    simpl in Hn. subst s1. exists t. split; [|done].
    eapply yields_bind; [apply (yields_act h Now); exact E|]. apply yields_ret.
Qed.

(** ** One reconciliation *)

(** The reference that the children get, and the children. *)
Definition streamTarget (o : SuperStream) : NamespacedName :=
  let ref := SuperStream_RabbitmqClusterReference (Spec o) in
  mkNamespacedName (if bool_decide (Ref_Namespace ref = "") then Namespace (resource_ObjectMeta o)
                    else Ref_Namespace ref) (Ref_Name ref).
Definition streamChildren (o : SuperStream) (keys : list string) : list ResourceBuilder :=
  superStreamBuilders o keys (SuperStream_Vhost (Spec o))
    (mkRabbitmqClusterReference (nn_Name (streamTarget o)) (nn_Namespace (streamTarget o)) None).

(** A super stream that can be declared: its cluster allows it, it does not ask for
    fewer partitions than it has, it names as many routing keys as partitions. *)
Record declarable (o : SuperStream) (keys : list string) : Prop := {
  decl_target : streamTarget o = clusterKey;
  decl_allowed : AllowedNamespace (SuperStream_RabbitmqClusterReference (Spec o))
                   (Namespace (resource_ObjectMeta o)) cluster = true;
  decl_grows : (Z.of_nat (length (SuperStreamStatus_Partitions (Status o))) <=
                  SuperStream_Partitions (Spec o))%Z;
  decl_keys : superStreamRoutingKeys o = inr keys
}.

Definition declaredStatus (o : SuperStream) (keys : list string) (t : Z) : SuperStreamStatus :=
  mkSuperStreamStatus (Generation (resource_ObjectMeta o)) [succeeded t]
    (RoutingKeyToPartitionName (owner_name o) <$> keys).

Lemma children_distinct o keys :
  NoDup ((fun b => (builder_kind b, builder_at b)) <$> streamChildren o keys).
Proof.
  destruct (builders_distinct o keys (SuperStream_Vhost (Spec o))
    (mkRabbitmqClusterReference (nn_Name (streamTarget o)) (nn_Namespace (streamTarget o)) None))
    as [_ Hnd].
  assert (Heq : builder_key <$> streamChildren o keys =
    (fun p : kind * NamespacedName => (p.1, nn_Name p.2)) <$>
      ((fun b => (builder_kind b, builder_at b)) <$> streamChildren o keys)).
  { rewrite <- list_fmap_compose. by apply list_fmap_ext. }
  unfold streamChildren in *. rewrite Heq in Hnd. by apply NoDup_fmap_1 in Hnd.
Qed.

Lemma stream_run s o keys :
  stream s = Some o -> declarable o keys ->
  (forall b, b ∈ streamChildren o keys -> exists x, Update b (current s b) = inr x) ->
  exists t s', yields h (SuperStream_Reconcile req) s (emptyResult, None) s' /\
    stream s' = Some (set_Status (declaredStatus o keys t) o) /\
    (forall t', ConditionOps.sameTransition ready ConditionTrue
                  (SuperStreamStatus_Conditions (Status o)) = Some t' -> t = t') /\
    (forall b, b ∈ streamChildren o keys -> exists x, Update b (current s b) = inr x /\
       child s' (builder_kind b) (builder_at b) = Some x) /\
    (forall k key, (k, key) ∉ (fun b => (builder_kind b, builder_at b)) <$> streamChildren o keys ->
       child s' k key = child s k key).
Proof.
  intros Ho [Htarget Hallow Hgrow Hkeys] Hup.
  destruct (applyBuilders_yields (streamChildren o keys) [] s (builders_good o _ _ _)
              (children_distinct o keys) Hup) as (ns & s1 & Happ & Hmade & Hst1 & Hch & Hrest).
  rewrite (stream_made o _ _ _ _ Hmade) in Happ. simpl in Happ.
  rewrite Ho in Hst1.
  destruct (status_yields s1 o (mkSuperStreamStatus
      (SuperStreamStatus_ObservedGeneration (Status o)) (SuperStreamStatus_Conditions (Status o))
      (RoutingKeyToPartitionName (owner_name o) <$> keys)) Hst1) as (s2 & Hy2 & Hst2 & Hc2).
  destruct (stream_Ready_yields (SuperStreamStatus_Conditions (Status o)) s2) as (t & Hr & Ht).
  destruct (status_yields s2 _ (declaredStatus o keys t) Hst2) as (s3 & Hy3 & Hst3 & Hc3).
  exists t, s3. split; [|split; [exact Hst3|split; [exact Ht|split]]].
  - eapply yields_bind; [apply yields_act, (st_get Hserver); exact Ho|]. cbv iota.
    unfold reconcileStream, getRabbitmqClusterReference. cbv zeta.
    eapply yields_bind.
    { change (mkNamespacedName _ _) with (streamTarget o). rewrite Htarget.
      eapply yields_bind; [apply yields_act, (st_cluster Hserver)|]. cbv iota.
      rewrite Hallow. apply yields_ret. }
    cbv iota. rewrite (proj2 (Z.ltb_ge _ _) Hgrow), Hkeys.
    eapply yields_bind; [exact Happ|]. cbv iota.
    eapply yields_bind; [exact Hy2|]. cbv iota.
    eapply yields_bind; [exact Hr|]. cbv beta.
    eapply yields_bind; [exact Hy3|]. apply yields_ret.
  - intros b Hb. destruct (Hch b Hb) as (x & Hx & Hc). exists x. split; [done|].
    by rewrite Hc3, Hc2.
  - intros k key Hk. by rewrite Hc3, Hc2, Hrest.
Qed.

Lemma declarable_again o keys t :
  declarable o keys -> declarable (set_Status (declaredStatus o keys t) o) keys.
Proof.
  intros [Ht Ha Hg Hk]. split; [done|done| |done].
  apply superStreamRoutingKeys_spec in Hk as [Hlen _]. simpl. rewrite length_fmap, Hlen. lia.
Qed.

(** C21: Against a server that stores objects, whatever became of the children of
    a super stream (deleted, changed by hand, never created), one Reconcile of a
    super stream that can be declared brings each child to what its builder makes
    of it and changes no other object, publishes the partitions and the Ready
    condition, and a second Reconcile changes nothing. *)
Theorem stream_converges s o keys :
  stream s = Some o -> declarable o keys ->
  (forall b, b ∈ streamChildren o keys -> exists x, Update b (current s b) = inr x) ->
  exists t s', yields h (SuperStream_Reconcile req) s (emptyResult, None) s' /\
    stream s' = Some (set_Status (declaredStatus o keys t) o) /\
    (forall b, b ∈ streamChildren o keys -> exists x,
       Update b (current s b) = inr x /\ child s' (builder_kind b) (builder_at b) = Some x /\
       Update b x = inr x) /\
    (forall k key, (k, key) ∉ (fun b => (builder_kind b, builder_at b)) <$> streamChildren o keys ->
       child s' k key = child s k key) /\
    exists s'', yields h (SuperStream_Reconcile req) s' (emptyResult, None) s'' /\
      stream s'' = stream s' /\ same_children s' s''.
Proof.
  intros Ho Hd Hup.
  destruct (stream_run s o keys Ho Hd Hup) as (t & s' & Hy & Hst & _ & Hch & Hrest).
  pose proof (builders_good o keys (SuperStream_Vhost (Spec o))
    (mkRabbitmqClusterReference (nn_Name (streamTarget o)) (nn_Namespace (streamTarget o)) None))
    as Hgood. rewrite Forall_forall in Hgood.
  assert (Hfix : forall b, b ∈ streamChildren o keys -> exists x,
    Update b (current s b) = inr x /\ child s' (builder_kind b) (builder_at b) = Some x /\
    Update b x = inr x).
  { intros b Hb. destruct (Hch b Hb) as (x & Hx & Hc). exists x. split; [done|]. split; [done|].
    exact (good_again b (Hgood b Hb) _ _ Hx). }
  assert (Hcur : forall b x, child s' (builder_kind b) (builder_at b) = Some x -> current s' b = x).
  { intros b x Hc. unfold current. by rewrite Hc. }
  destruct (stream_run s' _ keys Hst (declarable_again o keys t Hd))
    as (t2 & s'' & Hy2 & Hst2 & Ht2 & Hch2 & Hrest2).
  { intros b Hb. destruct (Hfix b Hb) as (x & _ & Hc & Hx). exists x. by rewrite (Hcur b x Hc). }
  exists t, s'. split; [done|]. split; [done|]. split; [done|]. split; [done|].
  exists s''. split; [done|]. split.
  - rewrite Hst2, Hst, (Ht2 t eq_refl). done.
  - intros k key.
    destruct (decide ((k, key) ∈ (fun b => (builder_kind b, builder_at b)) <$> streamChildren o keys))
      as [Hin|Hout]; [|by apply Hrest2].
    apply list_elem_of_fmap in Hin as (b & [= -> ->] & Hb).
    destruct (Hfix b Hb) as (x & _ & Hc & Hx). destruct (Hch2 b Hb) as (x2 & Hx2 & Hc2).
    rewrite (Hcur b x Hc) in Hx2. congruence.
Qed.
End server.
