(* ===== verification/Wiring.v ===== *)
(** * How the operator is wired to the API

    [SetupWithManager] of the controllers, [SetupControllerBuilder] of the users, and
    the [Setup<Kind>WebhookWithManager] functions: which kinds each controller
    watches, what it enqueues on a change, what it runs, and what each webhook
    answers.  The builders of controller-runtime are data here; completing one may
    fail ([Manager]).  [runtimeOf] puts the functions under [main] of Setup.v. *)

From S2P Require Import Prelude.
From S2P Require Import GoStrings.
From S2P Require Import GoErrors.
From S2P Require Import Prog.
From S2P Require Import Api.
From S2P Require Import Scheme.
From S2P Require Import World.
From S2P Require Import Resources.
From S2P Require Import Settings.
From S2P Require Import Utils.
From S2P Require Import TopologyReconciler.
From S2P Require Import Controllers.
From S2P Require Import PermissionControllers.
From S2P Require Import UserController.
From S2P Require Import Webhooks.
From S2P Require Import SuperStreams.
From S2P Require Import Setup.
From S2P Require Import SetupProofs.

(** ** Builders of controllers *)

(** [Owns(&X{})] and [Watches(&X{}, handler.EnqueueRequestsFromMapFunc(f))] *)
Inductive source :=
| Owns (k : kind)
| Watches (k : kind) (toRequests : object k -> go (list NamespacedName)).

Record Builder := mkBuilder {
  For : kind;
  Sources : list source;
  Options_MaxConcurrentReconciles : Z
}.

Definition addSource (s : source) (b : Builder) : Builder :=
  mkBuilder (For b) (Sources b ++ [s]) (Options_MaxConcurrentReconciles b).

(** A completed builder: a controller that reconciles the requests it is given. *)
Record RunningController := mkController {
  built : Builder;
  reconcile : NamespacedName -> go (Result * option error)
}.

(** ** Builders of webhooks *)

Record validator (k : kind) := mkValidator {
  ValidateCreate : object k -> go (option rejection);
  ValidateUpdate : object k -> object k -> go (option rejection);
  ValidateDelete : object k -> go (option rejection)
}.
Arguments mkValidator {k}.
Arguments ValidateCreate {k}.
Arguments ValidateUpdate {k}.
Arguments ValidateDelete {k}.

Record Webhook := mkWebhook {
  wh_kind : kind;
  wh_validator : option (validator wh_kind);
  wh_defaulter : option (object wh_kind -> object wh_kind)
}.

(** ** The manager: the error of each call on it, if any *)

Record Manager := mkManager {
  IndexField : forall k : kind, string -> (object k -> list string) -> option error;
  CompleteController : Builder -> option error;
  CompleteWebhook : Webhook -> option error
}.

Definition complete (mgr : Manager) (b : Builder)
    (r : NamespacedName -> go (Result * option error)) : error + RunningController :=
  match CompleteController mgr b with
  | Some e => inl e
  | None => inr (mkController b r)
  end.

(** ** The controllers *)

Section controllers.
Context `{Libs} (mgr : Manager).

(** user_controller.go *)
Definition UserReconciler_SetupControllerBuilder (b : Builder) : error + Builder :=
  match IndexField mgr KUser ".spec.importCredentialsSecret.name" importSecretIndex with
  | Some e => inl e
  | None => inr (addSource (Watches KSecret secretToUserRequests) b)
  end.

(** [r.ReconcileFunc.(ControllerBuilder)]: the reconciler of users alone has the
    method. *)
Definition asControllerBuilder (k : kind) : option (Builder -> error + Builder) :=
  match k with
  | KUser => Some UserReconciler_SetupControllerBuilder
  | _ => None
  end.

(** topology_controller.go *)
Definition TopologyReconciler_SetupWithManager (k : kind) `{!TopologyResource k}
    `{!ReconcileFunc k} (r : ReconcilerConfig) : error + RunningController :=
  let b := mkBuilder k [] (MaxConcurrentReconciles r) in
  let b := if WatchesClusters r
           then addSource (Watches KRabbitmqCluster (rabbitmqClusterToRequests k r)) b
           else b in
  match asControllerBuilder k with
  | Some SetupControllerBuilder =>
      match SetupControllerBuilder b with
      | inl err => inl err
      | inr b => complete mgr b (Reconcile k r)
      end
  | None => complete mgr b (Reconcile k r)
  end.

(** super_stream_controller.go *)
Definition SuperStreamReconciler_SetupWithManager (maxConcurrentReconciles : Z) :
    error + RunningController :=
  complete mgr
    (mkBuilder KSuperStream [Owns KExchange; Owns KBinding; Owns KQueue] maxConcurrentReconciles)
    SuperStream_Reconcile.

(** The controllers of [main]: its literals set [Type] and [ReconcileFunc] of one kind. *)
Definition setupController (k : kind) (r : ReconcilerConfig) : error + RunningController :=
  match k with
  | KQueue => TopologyReconciler_SetupWithManager KQueue r
  | KExchange => TopologyReconciler_SetupWithManager KExchange r
  | KBinding => TopologyReconciler_SetupWithManager KBinding r
  | KUser => TopologyReconciler_SetupWithManager KUser r
  | KVhost => TopologyReconciler_SetupWithManager KVhost r
  | KPolicy => TopologyReconciler_SetupWithManager KPolicy r
  | KOperatorPolicy => TopologyReconciler_SetupWithManager KOperatorPolicy r
  | KPermission => TopologyReconciler_SetupWithManager KPermission r
  | KSchemaReplication => TopologyReconciler_SetupWithManager KSchemaReplication r
  | KFederation => TopologyReconciler_SetupWithManager KFederation r
  | KShovel => TopologyReconciler_SetupWithManager KShovel r
  | KTopicPermission => TopologyReconciler_SetupWithManager KTopicPermission r
  | _ => inl (ErrText "no reconciler")
  end.
End controllers.

(** ** The webhooks *)

(** [ValidateDelete] of every validator. *)
Definition acceptDelete {k : kind} (o : object k) : go (option rejection) := Ret None.

Section webhooks.
Context `{Libs} (mgr : Manager).

Definition completeWebhook (w : Webhook) : error + Webhook :=
  match CompleteWebhook mgr w with
  | Some e => inl e
  | None => inr w
  end.

Definition WithValidator (k : kind) (create : object k -> go (option rejection))
    (update : object k -> object k -> go (option rejection)) : error + Webhook :=
  completeWebhook (mkWebhook k (Some (mkValidator create update acceptDelete)) None).

Definition SetupBindingWebhookWithManager : error + Webhook :=
  WithValidator KBinding Binding_ValidateCreate (fun o n => Ret (Binding_ValidateUpdate o n)).
Definition SetupExchangeWebhookWithManager : error + Webhook :=
  WithValidator KExchange Exchange_ValidateCreate (fun o n => Ret (Exchange_ValidateUpdate o n)).
Definition SetupFederationWebhookWithManager : error + Webhook :=
  WithValidator KFederation Federation_ValidateCreate Federation_ValidateUpdate.
Definition SetupOperatorPolicyWebhookWithManager : error + Webhook :=
  WithValidator KOperatorPolicy OperatorPolicy_ValidateCreate
    (fun o n => Ret (OperatorPolicy_ValidateUpdate o n)).
Definition SetupPermissionWebhookWithManager : error + Webhook :=
  WithValidator KPermission Permission_ValidateCreate (fun o n => Ret (Permission_ValidateUpdate o n)).
Definition SetupPolicyWebhookWithManager : error + Webhook :=
  WithValidator KPolicy Policy_ValidateCreate (fun o n => Ret (Policy_ValidateUpdate o n)).
Definition SetupQueueWebhookWithManager : error + Webhook :=
  WithValidator KQueue Queue_ValidateCreate Queue_ValidateUpdate.
Definition SetupQueueDefaulterWebhookWithManager : error + Webhook :=
  completeWebhook (mkWebhook KQueue None (Some Queue_Default)).
Definition SetupSchemaReplicationWebhookWithManager : error + Webhook :=
  WithValidator KSchemaReplication SchemaReplication_ValidateCreate SchemaReplication_ValidateUpdate.
Definition SetupShovelWebhookWithManager : error + Webhook :=
  WithValidator KShovel Shovel_ValidateCreate Shovel_ValidateUpdate.
Definition SetupTopicPermissionWebhookWithManager : error + Webhook :=
  WithValidator KTopicPermission TopicPermission_ValidateCreate
    (fun o n => Ret (TopicPermission_ValidateUpdate o n)).
Definition SetupUserWebhookWithManager : error + Webhook :=
  WithValidator KUser User_ValidateCreate User_ValidateUpdate.
Definition SetupVhostWebhookWithManager : error + Webhook :=
  WithValidator KVhost Vhost_ValidateCreate (fun o n => Ret (Vhost_ValidateUpdate o n)).
Definition SetupSuperStreamWebhookWithManager : error + Webhook :=
  WithValidator KSuperStream (fun n => Ret (SuperStream_ValidateCreate n)) SuperStream_ValidateUpdate.

Definition setupWebhook (k : kind) : error + Webhook :=
  match k with
  | KBinding => SetupBindingWebhookWithManager
  | KExchange => SetupExchangeWebhookWithManager
  | KFederation => SetupFederationWebhookWithManager
  | KOperatorPolicy => SetupOperatorPolicyWebhookWithManager
  | KPermission => SetupPermissionWebhookWithManager
  | KPolicy => SetupPolicyWebhookWithManager
  | KQueue => SetupQueueWebhookWithManager
  | KSchemaReplication => SetupSchemaReplicationWebhookWithManager
  | KShovel => SetupShovelWebhookWithManager
  | KTopicPermission => SetupTopicPermissionWebhookWithManager
  | KUser => SetupUserWebhookWithManager
  | KVhost => SetupVhostWebhookWithManager
  | KSuperStream => SetupSuperStreamWebhookWithManager
  | _ => inl (ErrText "no validator")
  end.
End webhooks.

(** ** Under [main] *)

Section started.
Context `{Libs} (mgr : Manager).

Definition setup (r : registration) : error + (RunningController + Webhook) :=
  match r with
  | Setup.Controller k _ cfg => sum_map id inl (setupController mgr k cfg)
  | SuperStreamController _ max => sum_map id inl (SuperStreamReconciler_SetupWithManager mgr max)
  | Validator k => sum_map id inr (setupWebhook mgr k)
  | QueueDefaulter => sum_map id inr (SetupQueueDefaulterWebhookWithManager mgr)
  end.

Definition failure (r : registration) : string :=
  match r with
  | Setup.Controller _ _ _ | SuperStreamController _ _ => "unable to create controller"
  | Validator _ | QueueDefaulter => "unable to create webhook"
  end.

(** The runtime of [main] whose registrations are the functions above. *)
Definition runtimeOf (rt : Runtime) : Runtime :=
  mkRuntime (AddDebugPprofEndpoints rt) (NewManager rt)
    (fun r => match setup r with inl _ => Some (failure r) | inr _ => None end)
    (AddHealthzCheck rt) (AddReadyzCheck rt) (Start rt).

Definition controllers_of (rs : list registration) : list RunningController :=
  omap (fun r => match setup r with inr (inl c) => Some c | _ => None end) rs.
Definition webhooks_of (rs : list registration) : list Webhook :=
  omap (fun r => match setup r with inr (inr w) => Some w | _ => None end) rs.
End started.

(** ** Events *)

(** sigs.k8s.io/controller-runtime: [handler.EnqueueRequestForObject],
    [handler.EnqueueRequestForOwner] with [OnlyControllerOwner], for an owner type, and
    what a completed builder runs for a change of an object; each of these programs
    answers with requests to enqueue. *)
Class HandlerLib := {
  EnqueueRequestForObject : ObjectMeta -> list NamespacedName;
  EnqueueRequestForOwner : TypeMeta -> ObjectMeta -> list NamespacedName;
  dispatch : Builder -> forall k : kind, object k -> list (go (list NamespacedName))
}.

(** The handler of a source, for an object of kind [k]. *)
Definition sourceHandlers `{HandlerLib} (owner k : kind) (o : object k) (s : source) :
    list (go (list NamespacedName)) :=
  match s with
  | Owns k' =>
      if decide (k' = k)
      then [Ret (EnqueueRequestForOwner (gvk_of (ObjectType owner)) (meta k o))] else []
  | Watches k' f =>
      match decide (k = k') with
      | left E => [f (eq_rect k object o k' E)]
      | right _ => []
      end
  end.

Definition handlers `{HandlerLib} (b : Builder) (k : kind) (o : object k) :
    list (go (list NamespacedName)) :=
  (if decide (For b = k) then [Ret (EnqueueRequestForObject (meta k o))] else []) ++
  (Sources b ≫= sourceHandlers (For b) k o).

(** The documentation of the builder: [For] enqueues the object, [Owns] its controlling
    owner, [Watches] what the map function answers. *)
Class HandlerLibOk `{Libs} `{HandlerLib} := {
  forObject_spec m : EnqueueRequestForObject m = [mkNamespacedName (Namespace m) (Name m)];
  forOwner_spec t m ref :
    GetControllerOf m = Some ref -> OwnerReference_APIVersion ref = apiVersion t ->
    OwnerReference_Kind ref = Kind t ->
    EnqueueRequestForOwner t m = [mkNamespacedName (Namespace m) (OwnerReference_Name ref)];
  dispatch_spec b k o q : q ∈ dispatch b k o <-> q ∈ handlers b k o
}.

(** The cluster reference of an object that has one. *)
Definition reference_of (k : kind) : object k -> option RabbitmqClusterReference :=
  match k with
  | KBinding => fun o => Some (RabbitReference (k:=KBinding) o)
  | KExchange => fun o => Some (RabbitReference (k:=KExchange) o)
  | KFederation => fun o => Some (RabbitReference (k:=KFederation) o)
  | KOperatorPolicy => fun o => Some (RabbitReference (k:=KOperatorPolicy) o)
  | KPermission => fun o => Some (RabbitReference (k:=KPermission) o)
  | KPolicy => fun o => Some (RabbitReference (k:=KPolicy) o)
  | KQueue => fun o => Some (RabbitReference (k:=KQueue) o)
  | KSchemaReplication => fun o => Some (RabbitReference (k:=KSchemaReplication) o)
  | KShovel => fun o => Some (RabbitReference (k:=KShovel) o)
  | KTopicPermission => fun o => Some (RabbitReference (k:=KTopicPermission) o)
  | KUser => fun o => Some (RabbitReference (k:=KUser) o)
  | KVhost => fun o => Some (RabbitReference (k:=KVhost) o)
  | _ => fun _ => None
  end.
