(* ===== verification/WiringProofs.v ===== *)
(** * What reaches a controller

    For an operator that [main] has started: every kind has its controller, and a
    change of an object, of a child of a super stream, of the credentials of a user
    or of a cluster enqueues the objects that depend on it. *)

From S2P Require Import Prelude.
From S2P Require Import GoStrings.
From S2P Require Import GoErrors.
From S2P Require Import Prog.
From S2P Require Import Api.
From S2P Require Import Scheme.
From S2P Require Import World.
From S2P Require Import Resources.
From S2P Require Import Settings.
From S2P Require Import ParseReference.
From S2P Require Import Utils.
From S2P Require Import TopologyReconciler.
From S2P Require Import ParseReferenceProofs.
From S2P Require Import ReconcilerTheorems.
From S2P Require Import Controllers.
From S2P Require Import PermissionControllers.
From S2P Require Import UserController.
From S2P Require Import SecretWatch.
From S2P Require Import SuperStreams.
From S2P Require Import SuperStreamProofs.
From S2P Require Import StreamLifecycle.
From S2P Require Import Setup.
From S2P Require Import SetupProofs.
From S2P Require Import Wiring.

Section wiring.
Context `{LibsOk} (mgr : Manager).

(** ** The controllers that are set up *)

Definition secretWatches (k : kind) : list source :=
  match k with KUser => [Watches KSecret secretToUserRequests] | _ => [] end.

Lemma complete_inv b q c : complete mgr b q = inr c -> c = mkController b q.
Proof. unfold complete. destruct (CompleteController _ _); [done|]. by intros [= <-]. Qed.

Lemma SetupWithManager_inv k `{!TopologyResource k} `{!ReconcileFunc k} r c :
  TopologyReconciler_SetupWithManager mgr k r = inr c -> WatchesClusters r = true ->
  c = mkController
        (mkBuilder k (Watches KRabbitmqCluster (rabbitmqClusterToRequests k r) :: secretWatches k)
           (MaxConcurrentReconciles r)) (Reconcile k r).
Proof.
  unfold TopologyReconciler_SetupWithManager. intros Hc Hw. rewrite Hw in Hc.
  destruct k; cbn [asControllerBuilder] in Hc; try by apply complete_inv in Hc.
  unfold UserReconciler_SetupControllerBuilder in Hc. destruct (IndexField _ _ _ _); [done|].
  by apply complete_inv in Hc.
Qed.

Lemma stream_setup_inv max c :
  SuperStreamReconciler_SetupWithManager mgr max = inr c ->
  c = mkController (mkBuilder KSuperStream [Owns KExchange; Owns KBinding; Owns KQueue] max)
        SuperStream_Reconcile.
Proof. apply complete_inv. Qed.

Lemma setupController_for k r c :
  setupController mgr k r = inr c -> WatchesClusters r = true -> For (built c) = k.
Proof. intros Hc Hw. by destruct k; cbn [setupController] in Hc; try done; apply SetupWithManager_inv in Hc as ->. Qed.

Context (args : list string) (p : process) (others : other_flags) (rt : Runtime).
Context (opts : ManagerOptions) (rs : list registration).
Hypothesis Hmain : main args p others (runtimeOf mgr rt) = inr (opts, rs).

Lemma registered r : r ∈ rs -> exists x, setup mgr r = inr x.
Proof.
  destruct (main_inv _ _ _ _ _ _ Hmain) as (f & _ & Hs).
  destruct (start_inv _ _ _ _ _ Hs) as (plain & max & _ & _ & Hreg & _).
  intros Hr. eapply Forall_forall in Hreg; [|exact Hr]. simpl in Hreg.
  destruct (setup mgr r) as [e|x]; [done|by eexists].
Qed.

Lemma registrations_of : exists d plain max, rs = controllers d plain max ++ webhooks p.
Proof.
  destruct (main_inv _ _ _ _ _ _ Hmain) as (f & _ & Hs).
  destruct (start_inv _ _ _ _ _ Hs) as (plain & max & _ & -> & _). by eexists _, _, _.
Qed.

Lemma running r c : r ∈ rs -> setup mgr r = inr (inl c) -> c ∈ controllers_of mgr rs.
Proof. intros Hr Hc. apply list_elem_of_omap. exists r. by rewrite Hc. Qed.

(** Every topology kind has a controller that watches the clusters. *)
Lemma topology_running k : k ∈ topology_kinds ->
  exists c r, c ∈ controllers_of mgr rs /\ setupController mgr k r = inr c /\
    WatchesClusters r = true.
Proof.
  intros Hk. destruct registrations_of as (d & plain & max & Hrs).
  assert (Hin : exists name, (k, name) ∈ controllerNames).
  { exists (default "" (snd <$> List.find (fun '(k', _) => bool_decide (k' = k)) controllerNames)).
    revert k Hk. apply Forall_forall, (bool_decide_unpack _). vm_compute. exact I. }
  destruct Hin as [name Hin].
  set (r := mkReconcilerConfig d plain true max).
  assert (Hr : Setup.Controller k name r ∈ rs).
  { rewrite Hrs. apply elem_of_app. left. apply elem_of_app. left.
    apply list_elem_of_fmap. by exists (k, name). }
  destruct (registered _ Hr) as [x Hx]. simpl in Hx.
  destruct (setupController mgr k r) as [e|c] eqn:Hc; [done|]. injection Hx as <-.
  exists c, r. split; [|done]. eapply running; [exact Hr|]. simpl. by rewrite Hc.
Qed.

Lemma stream_running : exists c max, c ∈ controllers_of mgr rs /\
  c = mkController (mkBuilder KSuperStream [Owns KExchange; Owns KBinding; Owns KQueue] max)
        SuperStream_Reconcile.
Proof.
  destruct registrations_of as (d & plain & max & Hrs).
  assert (Hr : SuperStreamController "super-stream-controller" max ∈ rs)
    by (rewrite Hrs; unfold controllers; set_solver).
  destruct (registered _ Hr) as [x Hx]. simpl in Hx.
  destruct (SuperStreamReconciler_SetupWithManager mgr max) as [e|c] eqn:Hc; [done|].
  injection Hx as <-. exists c, max. split; [|by apply stream_setup_inv].
  eapply running; [exact Hr|]. simpl. by rewrite Hc.
Qed.

Lemma own_running k : own k -> exists c, c ∈ controllers_of mgr rs /\ For (built c) = k.
Proof.
  intros Hk. destruct (decide (k = KSuperStream)) as [->|Hs].
  - destruct stream_running as (c & max & Hc & ->). by eexists.
  - destruct (topology_running k) as (c & r & Hc & Hset & Hw).
    + destruct k, Hk as (? & ? & ?); try done; apply (bool_decide_unpack _); vm_compute; exact I.
    + exists c. split; [done|]. by eapply setupController_for.
Qed.

(** One controller per kind. *)
Lemma controllers_for : (For ∘ built <$> controllers_of mgr rs) ≡ₚ KSuperStream :: topology_kinds.
Proof.
  destruct registrations_of as (d & plain & max & Hrs).
  rewrite <- (controllers_kinds d plain max p), <- Hrs.
  assert (Hall : forall r, r ∈ rs -> (For ∘ built) <$>
    match setup mgr r with inr (inl c) => Some c | _ => None end = controller_kind r).
  { intros r Hr. destruct (registered r Hr) as [x Hx]. rewrite Hx.
    destruct r as [k name cfg|name m|k|]; simpl in Hx |- *.
    - destruct (setupController mgr k cfg) as [|c] eqn:Hc; [done|]. injection Hx as <-. simpl.
      f_equal. eapply setupController_for; [done|]. rewrite Hrs in Hr.
      by apply controllers_config in Hr as (_ & _ & ->).
    - destruct (SuperStreamReconciler_SetupWithManager mgr m) as [|c] eqn:Hc; [done|].
      injection Hx as <-. by apply stream_setup_inv in Hc as ->.
    - destruct (setupWebhook mgr k); [done|]. by injection Hx as <-.
    - destruct (SetupQueueDefaulterWebhookWithManager mgr); [done|]. by injection Hx as <-. }
  clear -Hall. unfold controllers_of. induction rs as [|r l IH]; [done|]. simpl.
  pose proof (Hall r (list_elem_of_here _ _)) as Hr.
  assert (IH' : For ∘ built <$> omap (fun r => match setup mgr r with inr (inl c) => Some c | _ => None end) l
     ≡ₚ omap controller_kind l) by (apply IH; intros; apply Hall; by right).
  rewrite <- Hr. destruct (setup mgr r) as [|[c|]]; simpl; [done| |done]. by rewrite IH'.
Qed.

(** ** Handlers *)

Context `{!HandlerLib} `{!HandlerLibOk}.

Definition key (k : kind) (o : object k) : NamespacedName :=
  mkNamespacedName (Namespace (meta k o)) (Name (meta k o)).

Lemma own_handled c k (o : object k) :
  For (built c) = k -> Ret [key k o] ∈ handlers (built c) k o.
Proof.
  intros Hk. unfold handlers. rewrite decide_True by done. rewrite forObject_spec.
  apply list_elem_of_here.
Qed.

Lemma stream_owner_handled max k (o : object k) ref :
  k ∈ [KExchange; KBinding; KQueue] ->
  GetControllerOf (meta k o) = Some ref ->
  OwnerReference_APIVersion ref = apiVersion (gvk_of (ObjectType KSuperStream)) ->
  OwnerReference_Kind ref = Kind (gvk_of (ObjectType KSuperStream)) ->
  Ret [mkNamespacedName (Namespace (meta k o)) (OwnerReference_Name ref)] ∈
    handlers (mkBuilder KSuperStream [Owns KExchange; Owns KBinding; Owns KQueue] max) k o.
Proof.
  intros Hk Hc Hv Hkind. rewrite <- (forOwner_spec _ _ _ Hc Hv Hkind).
  unfold handlers. apply elem_of_app. right. apply list_elem_of_bind.
  exists (Owns k). split; [|simpl; set_solver].
  simpl. rewrite decide_True by done. apply list_elem_of_here.
Qed.

(** What [setOwner] leaves on a child. *)
Lemma setOwner_controller {A T} (s : SuperStream) (x x' : Resource A T) :
  setOwner s x = inr x' -> exists ref, GetControllerOf (resource_ObjectMeta x') = Some ref /\
    OwnerReference_APIVersion ref = apiVersion (gvk_of (ObjectType KSuperStream)) /\
    OwnerReference_Kind ref = Kind (gvk_of (ObjectType KSuperStream)) /\
    OwnerReference_Name ref = Name (resource_ObjectMeta s).
Proof.
  unfold setOwner. destruct (SetControllerReference _ _ _) as [|m] eqn:E; [done|].
  intros [= <-]. by apply SetControllerReference_owner in E.
Qed.

(** A child that a builder of a super stream has updated. *)
Definition owned_by (s : SuperStream) (k : kind) (x : object k) : Prop :=
  k ∈ [KExchange; KBinding; KQueue] /\ exists ref, GetControllerOf (meta k x) = Some ref /\
    OwnerReference_APIVersion ref = apiVersion (gvk_of (ObjectType KSuperStream)) /\
    OwnerReference_Kind ref = Kind (gvk_of (ObjectType KSuperStream)) /\
    OwnerReference_Name ref = Name (resource_ObjectMeta s).

Definition makes_owned (s : SuperStream) (b : ResourceBuilder) : Prop :=
  Namespace (meta (builder_kind b) (Build b)) = Namespace (resource_ObjectMeta s) /\
  forall o x, Update b o = inr x ->
    owned_by s (builder_kind b) x /\ Namespace (meta _ x) = Namespace (meta _ o).

Lemma builders_own s keys vhost ref : Forall (makes_owned s) (superStreamBuilders s keys vhost ref).
Proof.
  assert (Hown : forall A T (x x' : Resource A T), setOwner s x = inr x' ->
    (exists cref, GetControllerOf (resource_ObjectMeta x') = Some cref /\
      OwnerReference_APIVersion cref = apiVersion (gvk_of (ObjectType KSuperStream)) /\
      OwnerReference_Kind cref = Kind (gvk_of (ObjectType KSuperStream)) /\
      OwnerReference_Name cref = Name (resource_ObjectMeta s)) /\
    Namespace (resource_ObjectMeta x') = Namespace (resource_ObjectMeta x)).
  { intros A T x x' E. split; [by eapply setOwner_controller|by apply setOwner_at in E as [-> _]]. }
  assert (Hpart : forall i, Forall (makes_owned s) (partitionBuilders s i keys vhost ref)).
  { induction keys as [|k keys IH]; intros i; simpl; [constructor|].
    constructor; [|constructor; [|apply IH]]; (split; [done|]); intros o x E;
      apply Hown in E as [Hc Hn]; (split; [split; [set_solver|exact Hc]|exact Hn]). }
  constructor; [|apply Hpart]. split; [done|]. intros o x E.
  apply Hown in E as [Hc Hn]. split; [split; [set_solver|exact Hc]|exact Hn].
Qed.

(** The map function of the clusters, for the kinds that have one. *)
Definition refers (k : kind) (o : object k) (cluster : RabbitmqCluster) : Prop :=
  exists ref, reference_of k o = Some ref /\ Ref_ConnectionSecret ref = None /\
    Ref_Name ref = Name (Cluster_ObjectMeta cluster) /\
    referenceNamespace ref (Namespace (meta k o)) = Namespace (Cluster_ObjectMeta cluster).

Definition lists_referring (k : kind) (cluster : RabbitmqCluster) (q : go (list NamespacedName)) :
    Prop :=
  forall items, exists reqs,
    exec q [existT (P:=result) (CList k) (inr items)] (Returned reqs) /\
    forall r, r ∈ reqs <-> exists res, res ∈ items /\ r = key k res /\ refers k res cluster.

Lemma cluster_requests k `{!TopologyResource k} `{!TopologyResourceOk k} r cluster :
  WatchesClusters r = true ->
  (forall o : object k, reference_of k o = Some (RabbitReference o)) ->
  lists_referring k cluster (rabbitmqClusterToRequests k r cluster).
Proof.
  intros Hw Href items. unfold rabbitmqClusterToRequests. rewrite Hw. cbn [negb bind act].
  eexists. split; [by exists (inr items), []|].
  intros q. rewrite (clusterRequests_spec k cluster items q). unfold refers. setoid_rewrite Href. naive_solver.
Qed.

Lemma cluster_handled k r c cluster :
  setupController mgr k r = inr c -> WatchesClusters r = true ->
  exists q, q ∈ handlers (built c) KRabbitmqCluster cluster /\ lists_referring k cluster q.
Proof.
  intros Hc Hw.
  assert (Hin : forall k' `{!TopologyResource k'} n, rabbitmqClusterToRequests k' r cluster ∈
    handlers (mkBuilder k' (Watches KRabbitmqCluster (rabbitmqClusterToRequests k' r) ::
      secretWatches k') n) KRabbitmqCluster cluster).
  { intros. unfold handlers. apply elem_of_app. right. apply list_elem_of_here. }
  destruct k; cbn [setupController] in Hc; try done; apply SetupWithManager_inv in Hc as ->; try done;
    (eexists; split; [apply Hin|apply cluster_requests; [apply _|exact Hw|reflexivity]]).
Qed.

(** C17: A started operator has one controller per kind; a change of an object
    enqueues the object, a change of a child that a super stream manages enqueues
    the super stream, a change of the secret generated for a user enqueues the
    user, and a change of a cluster lists each topology kind and enqueues exactly
    the objects whose reference names it. *)
Theorem events_routed :
  (For ∘ built <$> controllers_of mgr rs) ≡ₚ KSuperStream :: topology_kinds /\
  (forall k (o : object k), own k -> exists c, c ∈ controllers_of mgr rs /\ For (built c) = k /\
     Ret [key k o] ∈ dispatch (built c) k o) /\
  (forall s keys vhost ref b o x, b ∈ superStreamBuilders s keys vhost ref ->
     object_at (builder_kind b) o = builder_at b -> Update b o = inr x ->
     exists c, c ∈ controllers_of mgr rs /\ reconcile c = SuperStream_Reconcile /\
       Ret [key KSuperStream s] ∈ dispatch (built c) (builder_kind b) x) /\
  (forall user base secret, labelAndOwn user base = inr secret ->
     Namespace (Secret_ObjectMeta base) = Namespace (resource_ObjectMeta user) ->
     exists c q, c ∈ controllers_of mgr rs /\ For (built c) = KUser /\
       q ∈ dispatch (built c) KSecret secret /\ exec q [] (Returned [key KUser user])) /\
  (forall k cluster, k ∈ topology_kinds ->
     exists c q, c ∈ controllers_of mgr rs /\ For (built c) = k /\
       q ∈ dispatch (built c) KRabbitmqCluster cluster /\ lists_referring k cluster q).
Proof.
  split_and!.
  - apply controllers_for.
  - intros k o Hk. destruct (own_running k Hk) as (c & Hc & Hfor).
    exists c. split_and!; [done..|]. by apply dispatch_spec, own_handled.
  - intros s keys vhost ref b o x Hb Hat Hup. destruct stream_running as (c & max & Hc & ->).
    eexists. split; [exact Hc|]. split; [done|].
    destruct (proj1 (Forall_forall _ _) (builders_own s keys vhost ref) b Hb) as [Hbuild Hmade].
    destruct (Hmade _ _ Hup) as ((Hk & cref & Hctl & Hv & Hkind & Hn) & Hns).
    replace (key KSuperStream s)
      with (mkNamespacedName (Namespace (meta _ x)) (OwnerReference_Name cref));
      [by apply dispatch_spec, stream_owner_handled|].
    unfold key. rewrite Hn, Hns. apply (f_equal nn_Namespace) in Hat. simpl in Hat.
    by rewrite Hat, Hbuild.
  - intros user base secret Hown Hns. destruct (topology_running KUser) as (c & r & Hc & Hset & Hw);
      [set_solver|].
    exists c, (secretToUserRequests secret). split; [done|].
    cbn [setupController] in Hset. apply SetupWithManager_inv in Hset as ->; [|done].
    split; [done|]. split; [apply dispatch_spec, list_elem_of_here|].
    destruct (labelAndOwn_controller _ _ _ Hown) as (Hn & cref & Hctl & Hkind & Hname).
    unfold secretToUserRequests. rewrite Hctl, Hkind, bool_decide_true, Hn, Hns, Hname by done. done.
  - intros k cluster Hk. destruct (topology_running k Hk) as (c & r & Hc & Hset & Hw).
    destruct (cluster_handled _ _ _ cluster Hset Hw) as (q & Hq & Hl).
    exists c, q. split_and!; [done|by eapply setupController_for|by apply dispatch_spec|done].
Qed.
End wiring.
