(* ===== verification/WebhookConfig.v ===== *)
(** * The admission configuration

    The webhook rules that the source states in markers ([+kubebuilder:webhook]) and
    the configuration of the installation (config/webhook/manifests.yaml), against the
    validators and the defaulter that a started operator serves. *)

From Stdlib Require Import Ascii.
From S2P Require Import Prelude.
From S2P Require Import GoStrings.
From S2P Require Import GoErrors.
From S2P Require Import Prog.
From S2P Require Import Api.
From S2P Require Import Scheme.
From S2P Require Import World.
From S2P Require Import Webhooks.
From S2P Require Import Setup.
From S2P Require Import SetupProofs.
From S2P Require Import ClientStore.
From S2P Require Import Wiring.
From S2P Require Import WiringProofs.

(** ** Rules *)

Record webhookRule := mkWebhookRule {
  rule_Name : string;
  rule_Path : string;
  rule_Mutating : bool;
  FailurePolicy : string;
  rule_Groups : list string;
  rule_Versions : list string;
  rule_Resources : list string;
  rule_Operations : list string
}.

#[export] Instance webhookRule_eq_dec : EqDecision webhookRule.
Proof. solve_decision. Defined.

(** Markers are written in lower case. *)
Definition lowerCase (r : webhookRule) : webhookRule :=
  mkWebhookRule (rule_Name r) (rule_Path r) (rule_Mutating r) (ToLower (FailurePolicy r))
    (rule_Groups r) (rule_Versions r) (rule_Resources r) (ToLower <$> rule_Operations r).

(** The rule matches an operation on a kind. *)
Definition covers (k : kind) (op : string) (r : webhookRule) : Prop :=
  gvr_Group (gvr_of k) ∈ rule_Groups r /\ gvr_Version (gvr_of k) ∈ rule_Versions r /\
  gvr_Resource (gvr_of k) ∈ rule_Resources r /\ op ∈ rule_Operations r.
#[export] Instance covers_dec k op r : Decision (covers k op r).
Proof. unfold covers. apply _. Defined.

(** ** The markers of the webhooks *)

Definition Binding_webhook : webhookRule :=
  mkWebhookRule "vbinding-v1beta1.kb.io"
    "/validate-rabbitmq-com-v1beta1-binding" false "fail"
    ["rabbitmq.com"] ["v1beta1"] ["bindings"] ["create"; "update"].
Definition Exchange_webhook : webhookRule :=
  mkWebhookRule "vexchange.kb.io"
    "/validate-rabbitmq-com-v1beta1-exchange" false "fail"
    ["rabbitmq.com"] ["v1beta1"] ["exchanges"] ["create"; "update"].
Definition Federation_webhook : webhookRule :=
  mkWebhookRule "vfederation.kb.io"
    "/validate-rabbitmq-com-v1beta1-federation" false "fail"
    ["rabbitmq.com"] ["v1beta1"] ["federations"] ["create"; "update"].
Definition OperatorPolicy_webhook : webhookRule :=
  mkWebhookRule "voperatorpolicy-v1beta1.kb.io"
    "/validate-rabbitmq-com-v1beta1-operatorpolicy" false "fail"
    ["rabbitmq.com"] ["v1beta1"] ["operatorpolicies"] ["create"; "update"].
Definition Permission_webhook : webhookRule :=
  mkWebhookRule "vpermission-v1beta1.kb.io"
    "/validate-rabbitmq-com-v1beta1-permission" false "fail"
    ["rabbitmq.com"] ["v1beta1"] ["permissions"] ["create"; "update"].
Definition Policy_webhook : webhookRule :=
  mkWebhookRule "vpolicy.kb.io"
    "/validate-rabbitmq-com-v1beta1-policy" false "fail"
    ["rabbitmq.com"] ["v1beta1"] ["policies"] ["create"; "update"].
Definition Queue_webhook : webhookRule :=
  mkWebhookRule "vqueue.kb.io"
    "/validate-rabbitmq-com-v1beta1-queue" false "fail"
    ["rabbitmq.com"] ["v1beta1"] ["queues"] ["create"; "update"].
Definition SchemaReplication_webhook : webhookRule :=
  mkWebhookRule "vschemareplication-v1beta1.kb.io"
    "/validate-rabbitmq-com-v1beta1-schemareplication" false "fail"
    ["rabbitmq.com"] ["v1beta1"] ["schemareplications"] ["create"; "update"].
Definition Shovel_webhook : webhookRule :=
  mkWebhookRule "vshovel-v1beta1.kb.io"
    "/validate-rabbitmq-com-v1beta1-shovel" false "fail"
    ["rabbitmq.com"] ["v1beta1"] ["shovels"] ["create"; "update"].
Definition TopicPermission_webhook : webhookRule :=
  mkWebhookRule "vtopicpermission-v1beta1.kb.io"
    "/validate-rabbitmq-com-v1beta1-topicpermission" false "fail"
    ["rabbitmq.com"] ["v1beta1"] ["topicpermissions"] ["create"; "update"].
Definition User_webhook : webhookRule :=
  mkWebhookRule "vuser.kb.io"
    "/validate-rabbitmq-com-v1beta1-user" false "fail"
    ["rabbitmq.com"] ["v1beta1"] ["users"] ["create"; "update"].
Definition Vhost_webhook : webhookRule :=
  mkWebhookRule "vvhost.kb.io"
    "/validate-rabbitmq-com-v1beta1-vhost" false "fail"
    ["rabbitmq.com"] ["v1beta1"] ["vhosts"] ["create"; "update"].
Definition SuperStream_webhook : webhookRule :=
  mkWebhookRule "vsuperstream-v1alpha1.kb.io"
    "/validate-rabbitmq-com-v1alpha1-superstream" false "fail"
    ["rabbitmq.com"] ["v1alpha1"] ["superstreams"] ["create"; "update"].
Definition QueueDefaulter_webhook : webhookRule :=
  mkWebhookRule "mqueue.kb.io"
    "/mutate-rabbitmq-com-v1beta1-queue" true "fail"
    ["rabbitmq.com"] ["v1beta1"] ["queues"] ["create"].

Definition webhookMarkers : list webhookRule :=
  [Binding_webhook; Exchange_webhook; Federation_webhook; OperatorPolicy_webhook;
   Permission_webhook; Policy_webhook; Queue_webhook; SchemaReplication_webhook; Shovel_webhook;
   TopicPermission_webhook; User_webhook; Vhost_webhook; SuperStream_webhook;
   QueueDefaulter_webhook].

(** ** config/webhook/manifests.yaml *)

Definition MutatingWebhookConfiguration : list webhookRule :=
  [mkWebhookRule "mqueue.kb.io"
     "/mutate-rabbitmq-com-v1beta1-queue" true "Fail"
     ["rabbitmq.com"] ["v1beta1"] ["queues"] ["CREATE"]].
Definition ValidatingWebhookConfiguration : list webhookRule :=
  [mkWebhookRule "vbinding-v1beta1.kb.io"
     "/validate-rabbitmq-com-v1beta1-binding" false "Fail"
     ["rabbitmq.com"] ["v1beta1"] ["bindings"] ["CREATE"; "UPDATE"];
   mkWebhookRule "vexchange.kb.io"
     "/validate-rabbitmq-com-v1beta1-exchange" false "Fail"
     ["rabbitmq.com"] ["v1beta1"] ["exchanges"] ["CREATE"; "UPDATE"];
   mkWebhookRule "vfederation.kb.io"
     "/validate-rabbitmq-com-v1beta1-federation" false "Fail"
     ["rabbitmq.com"] ["v1beta1"] ["federations"] ["CREATE"; "UPDATE"];
   mkWebhookRule "voperatorpolicy-v1beta1.kb.io"
     "/validate-rabbitmq-com-v1beta1-operatorpolicy" false "Fail"
     ["rabbitmq.com"] ["v1beta1"] ["operatorpolicies"] ["CREATE"; "UPDATE"];
   mkWebhookRule "vpermission-v1beta1.kb.io"
     "/validate-rabbitmq-com-v1beta1-permission" false "Fail"
     ["rabbitmq.com"] ["v1beta1"] ["permissions"] ["CREATE"; "UPDATE"];
   mkWebhookRule "vpolicy.kb.io"
     "/validate-rabbitmq-com-v1beta1-policy" false "Fail"
     ["rabbitmq.com"] ["v1beta1"] ["policies"] ["CREATE"; "UPDATE"];
   mkWebhookRule "vqueue.kb.io"
     "/validate-rabbitmq-com-v1beta1-queue" false "Fail"
     ["rabbitmq.com"] ["v1beta1"] ["queues"] ["CREATE"; "UPDATE"];
   mkWebhookRule "vschemareplication-v1beta1.kb.io"
     "/validate-rabbitmq-com-v1beta1-schemareplication" false "Fail"
     ["rabbitmq.com"] ["v1beta1"] ["schemareplications"] ["CREATE"; "UPDATE"];
   mkWebhookRule "vshovel-v1beta1.kb.io"
     "/validate-rabbitmq-com-v1beta1-shovel" false "Fail"
     ["rabbitmq.com"] ["v1beta1"] ["shovels"] ["CREATE"; "UPDATE"];
   mkWebhookRule "vsuperstream-v1alpha1.kb.io"
     "/validate-rabbitmq-com-v1alpha1-superstream" false "Fail"
     ["rabbitmq.com"] ["v1alpha1"] ["superstreams"] ["CREATE"; "UPDATE"];
   mkWebhookRule "vtopicpermission-v1beta1.kb.io"
     "/validate-rabbitmq-com-v1beta1-topicpermission" false "Fail"
     ["rabbitmq.com"] ["v1beta1"] ["topicpermissions"] ["CREATE"; "UPDATE"];
   mkWebhookRule "vuser.kb.io"
     "/validate-rabbitmq-com-v1beta1-user" false "Fail"
     ["rabbitmq.com"] ["v1beta1"] ["users"] ["CREATE"; "UPDATE"];
   mkWebhookRule "vvhost.kb.io"
     "/validate-rabbitmq-com-v1beta1-vhost" false "Fail"
     ["rabbitmq.com"] ["v1beta1"] ["vhosts"] ["CREATE"; "UPDATE"]].

Lemma configuration_of_markers :
  lowerCase <$> MutatingWebhookConfiguration ++ ValidatingWebhookConfiguration ≡ₚ webhookMarkers.
Proof. apply (bool_decide_unpack _). vm_compute. exact I. Qed.

(** ** The paths of the webhook server *)

(** sigs.k8s.io/controller-runtime/pkg/builder: where a webhook is served. *)
Class WebhookPaths := {
  ValidatePath : TypeMeta -> string;
  MutatePath : TypeMeta -> string
}.

Definition pathOf (t : TypeMeta) : string :=
  ReplaceAll (Group t) "." "-" +:+ "-" +:+ Version t +:+ "-" +:+ ToLower (Kind t).

Class WebhookPathsOk `{WebhookPaths} := {
  ValidatePath_spec t : ValidatePath t = "/validate-" +:+ pathOf t;
  MutatePath_spec t : MutatePath t = "/mutate-" +:+ pathOf t
}.

(** The paths of a webhook: one for its validator and one for its defaulter. *)
Definition servedPaths `{WebhookPaths} (w : Webhook) : list string :=
  (if wh_validator w then [ValidatePath (gvk_of (ObjectType (wh_kind w)))] else []) ++
  (if wh_defaulter w then [MutatePath (gvk_of (ObjectType (wh_kind w)))] else []).

Section served.
Context `{Libs} `{WebhookPathsOk} (mgr : Manager).

Definition webhookOf (r : registration) : option Webhook :=
  match setup mgr r with inr (inr w) => Some w | _ => None end.

(** What the registrations of [main] make of webhooks, as kinds. *)
Definition expectedPaths (r : registration) : list string :=
  match r with
  | Validator k => ["/validate-" +:+ pathOf (gvk_of (ObjectType k))]
  | QueueDefaulter => ["/mutate-" +:+ pathOf (gvk_of (ObjectType KQueue))]
  | _ => []
  end.

Lemma completeWebhook_inv w w' : completeWebhook mgr w = inr w' -> w' = w.
Proof. unfold completeWebhook. destruct (CompleteWebhook mgr w); [done|]. by intros [= <-]. Qed.

(** A webhook that is set up validates the objects of its kind. *)
Lemma setupWebhook_inv k w :
  setupWebhook mgr k = inr w -> exists v, w = mkWebhook k (Some v) None.
Proof.
  destruct k; try done; intros E; apply completeWebhook_inv in E as ->; by eexists.
Qed.

Lemma registered_paths r x :
  setup mgr r = inr x -> default [] (servedPaths <$> webhookOf r) = expectedPaths r.
Proof.
  unfold webhookOf. intros E. rewrite E.
  destruct r as [k n c|n m|k|]; simpl in E |- *.
  - destruct (setupController mgr k c); [done|]. by injection E as <-.
  - destruct (SuperStreamReconciler_SetupWithManager mgr m); [done|]. by injection E as <-.
  - destruct (setupWebhook mgr k) as [|w] eqn:Hw; [done|]. injection E as <-. simpl.
    destruct (setupWebhook_inv _ _ Hw) as [v ->]. unfold servedPaths. simpl.
    by rewrite ValidatePath_spec.
  - destruct (SetupQueueDefaulterWebhookWithManager mgr) as [|w] eqn:Hw; [done|]. injection E as <-.
    apply completeWebhook_inv in Hw as ->. unfold servedPaths. simpl. by rewrite MutatePath_spec.
Qed.

Context (args : list string) (p : process) (others : other_flags) (rt : Runtime).
Context (opts : ManagerOptions) (rs : list registration).
Hypothesis Hmain : main args p others (runtimeOf mgr rt) = inr (opts, rs).
Hypothesis Henabled : Getenv p EnableWebhooksEnvVar <> "false".

Lemma served_paths : webhooks_of mgr rs ≫= servedPaths = rs ≫= expectedPaths.
Proof.
  assert (Hall : forall r, r ∈ rs -> default [] (servedPaths <$> webhookOf r) = expectedPaths r).
  { intros r Hr. destruct (registered mgr _ _ _ _ _ _ Hmain r Hr) as [x Hx].
    by eapply registered_paths. }
  clear -Hall. unfold webhooks_of. induction rs as [|r l IH]; [done|]. csimpl.
  rewrite <- (Hall r (list_elem_of_here _ _)). unfold webhookOf.
  destruct (setup mgr r) as [|[|w]]; csimpl; (rewrite IH; [done|intros; apply Hall; by right]).
Qed.

Lemma paths_distinct : NoDup (webhooks_of mgr rs ≫= servedPaths).
Proof.
  rewrite served_paths. destruct (registrations_of mgr _ _ _ _ _ _ Hmain) as (d & pl & max & ->).
  unfold webhooks. rewrite bool_decide_false by done.
  apply (bool_decide_unpack _). vm_compute. exact I.
Qed.

(** A path is served by one webhook. *)
Lemma serving_one path w :
  w ∈ webhooks_of mgr rs -> path ∈ servedPaths w ->
  base.filter (fun w => path ∈ servedPaths w) (webhooks_of mgr rs) = [w].
Proof.
  generalize paths_distinct. induction (webhooks_of mgr rs) as [|w' ws IH]; [set_solver|].
  csimpl. intros (Hw' & Hdis & Hws)%NoDup_app Hin Hp. apply elem_of_cons in Hin as [->|Hin].
  - rewrite filter_cons_True by done. f_equal.
    destruct (base.filter _ ws) as [|w2 l] eqn:E; [done|].
    assert (Hw2 : w2 ∈ base.filter (fun w => path ∈ servedPaths w) ws)
      by (rewrite E; apply list_elem_of_here).
    apply list_elem_of_filter in Hw2 as [Hpw Hw2].
    destruct (Hdis path Hp). apply list_elem_of_bind. by exists w2.
  - rewrite filter_cons_False; [by apply IH|]. intros Hpw.
    apply (Hdis path Hpw), list_elem_of_bind. by exists w.
Qed.

Lemma validator_running k : own k -> exists w, setupWebhook mgr k = inr w /\
  w ∈ webhooks_of mgr rs /\ ValidatePath (gvk_of (ObjectType k)) ∈ servedPaths w.
Proof.
  intros Hk. destruct (registrations_of mgr _ _ _ _ _ _ Hmain) as (d & pl & max & Hrs).
  assert (Hr : Validator k ∈ rs).
  { rewrite Hrs. unfold webhooks. rewrite bool_decide_false by done. apply elem_of_app. right.
    destruct k, Hk as (? & ? & ?); try done; set_solver. }
  destruct (registered mgr _ _ _ _ _ _ Hmain _ Hr) as [x Hx]. simpl in Hx.
  destruct (setupWebhook mgr k) as [|w] eqn:Hw; [done|]. exists w. split; [done|].
  split; [apply list_elem_of_omap; exists (Validator k); simpl; by rewrite Hw|].
  destruct (setupWebhook_inv _ _ Hw) as [v ->]. unfold servedPaths. simpl. set_solver.
Qed.

Lemma defaulter_running :
  mkWebhook KQueue None (Some Queue_Default) ∈ webhooks_of mgr rs.
Proof.
  destruct (registrations_of mgr _ _ _ _ _ _ Hmain) as (d & pl & max & Hrs).
  assert (Hr : QueueDefaulter ∈ rs).
  { rewrite Hrs. unfold webhooks. rewrite bool_decide_false by done. set_solver. }
  destruct (registered mgr _ _ _ _ _ _ Hmain _ Hr) as [x Hx].
  apply list_elem_of_omap. exists QueueDefaulter. split; [done|]. simpl in Hx |- *.
  destruct (SetupQueueDefaulterWebhookWithManager mgr) as [|w] eqn:Hw; [done|].
  by apply completeWebhook_inv in Hw as ->.
Qed.

(** The rule of a kind. *)
Lemma validating_rule k op : own k -> op ∈ ["CREATE"; "UPDATE"] ->
  exists rule, base.filter (covers k op) ValidatingWebhookConfiguration = [rule] /\
    FailurePolicy rule = "Fail" /\ rule_Path rule = "/validate-" +:+ pathOf (gvk_of (ObjectType k)).
Proof.
  intros Hk Hop. set_unfold in Hop.
  destruct k, Hk as (? & ? & ?); try done; destruct Hop as [->|[->|[]]]; vm_compute; by eexists.
Qed.

(** C16: With webhooks enabled, each create and update of each of the thirteen
    kinds matches exactly one rule of the validating configuration, which fails
    closed and whose path the started manager serves with exactly one webhook, the
    validator of that kind; creating a queue also runs the defaulter; and the
    configuration is what the markers of the sources say. *)
Theorem admission_guarded :
  (forall k op, own k -> op ∈ ["CREATE"; "UPDATE"] ->
     exists rule w, base.filter (covers k op) ValidatingWebhookConfiguration = [rule] /\
       FailurePolicy rule = "Fail" /\
       base.filter (fun w => rule_Path rule ∈ servedPaths w) (webhooks_of mgr rs) = [w] /\
       setupWebhook mgr k = inr w) /\
  (exists rule, base.filter (covers KQueue "CREATE") MutatingWebhookConfiguration = [rule] /\
     FailurePolicy rule = "Fail" /\
     base.filter (fun w => rule_Path rule ∈ servedPaths w) (webhooks_of mgr rs) =
       [mkWebhook KQueue None (Some Queue_Default)]) /\
  lowerCase <$> MutatingWebhookConfiguration ++ ValidatingWebhookConfiguration ≡ₚ webhookMarkers.
Proof.
  split_and!.
  - intros k op Hk Hop. destruct (validating_rule k op Hk Hop) as (rule & Hrule & Hf & Hpath).
    destruct (validator_running k Hk) as (w & Hw & Hin & Hserved).
    exists rule, w. split_and!; [done..| |done]. apply serving_one; [done|].
    by rewrite Hpath, <- ValidatePath_spec.
  - eexists. split; [vm_compute; reflexivity|]. split; [done|].
    apply serving_one; [apply defaulter_running|]. unfold servedPaths. simpl.
    rewrite MutatePath_spec. set_solver.
  - apply configuration_of_markers.
Qed.
End served.
