(* ===== verification/Rbac.v ===== *)
(** * The permissions of the operator

    The rules of access that the source states in markers on the controllers
    ([+kubebuilder:rbac]) and the ClusterRole of the installation
    (config/rbac/role.yaml), against the calls that the controllers, their watches
    and the webhooks make. *)

From S2P Require Import Prelude.
From S2P Require Import GoStrings.
From S2P Require Import GoErrors.
From S2P Require Import Prog.
From S2P Require Import Api.
From S2P Require Import Values.
From S2P Require Import World.
From S2P Require Import Resources.
From S2P Require Import Settings.
From S2P Require Import ParseReference.
From S2P Require Import Utils.
From S2P Require Import TopologyReconciler.
From S2P Require Import Controllers.
From S2P Require Import PermissionControllers.
From S2P Require Import Random.
From S2P Require Import UserController.
From S2P Require Import ControllerProofs.
From S2P Require Import Webhooks.
From S2P Require Import SuperStreams.
From S2P Require Import Setup.
From S2P Require Import SetupProofs.
From S2P Require Import Scheme.
From S2P Require Import ClientStore.
From S2P Require Import Wiring.
From S2P Require Import WiringProofs.
From S2P Require Import WebhookConfig.

(** ** Rules *)

Record rule := mkRule { APIGroups : list string; RuleResources : list string; Verbs : list string }.

(** A group, a resource (with its subresource) and a verb. *)
Definition permission : Type := (string * string * string)%type.

Definition grants (rs : list rule) : list permission :=
  r ← rs; g ← APIGroups r; res ← RuleResources r; v ← Verbs r; [(g, res, v)].

(** ** The markers of the controllers *)

Definition Binding_rbac : list rule :=
  [mkRule ["rabbitmq.com"] ["bindings"]
     ["get"; "list"; "watch"; "create"; "update"; "patch"; "delete"];
   mkRule ["rabbitmq.com"] ["bindings/finalizers"]
     ["update"];
   mkRule ["rabbitmq.com"] ["bindings/status"]
     ["get"; "update"; "patch"]].
Definition Exchange_rbac : list rule :=
  [mkRule ["rabbitmq.com"] ["exchanges"]
     ["get"; "list"; "watch"; "create"; "update"; "patch"; "delete"];
   mkRule ["rabbitmq.com"] ["exchanges/finalizers"]
     ["update"];
   mkRule ["rabbitmq.com"] ["exchanges/status"]
     ["get"; "update"; "patch"]].
Definition Federation_rbac : list rule :=
  [mkRule ["rabbitmq.com"] ["federations"]
     ["get"; "list"; "watch"; "create"; "update"; "patch"; "delete"];
   mkRule ["rabbitmq.com"] ["federations/finalizers"]
     ["update"];
   mkRule ["rabbitmq.com"] ["federations/status"]
     ["get"; "update"; "patch"]].
Definition OperatorPolicy_rbac : list rule :=
  [mkRule ["rabbitmq.com"] ["operatorpolicies"]
     ["get"; "list"; "watch"; "create"; "update"; "patch"; "delete"];
   mkRule ["rabbitmq.com"] ["operatorpolicies/finalizers"]
     ["update"];
   mkRule ["rabbitmq.com"] ["operatorpolicies/status"]
     ["get"; "update"; "patch"]].
Definition Permission_rbac : list rule :=
  [mkRule ["rabbitmq.com"] ["permissions"]
     ["get"; "list"; "watch"; "create"; "update"; "patch"; "delete"];
   mkRule ["rabbitmq.com"] ["permissions/finalizers"]
     ["update"];
   mkRule ["rabbitmq.com"] ["permissions/status"]
     ["get"; "update"; "patch"]].
Definition Policy_rbac : list rule :=
  [mkRule ["rabbitmq.com"] ["policies"]
     ["get"; "list"; "watch"; "create"; "update"; "patch"; "delete"];
   mkRule ["rabbitmq.com"] ["policies/finalizers"]
     ["update"];
   mkRule ["rabbitmq.com"] ["policies/status"]
     ["get"; "update"; "patch"]].
Definition Queue_rbac : list rule :=
  [mkRule ["rabbitmq.com"] ["queues"]
     ["get"; "list"; "watch"; "create"; "update"; "patch"; "delete"];
   mkRule ["rabbitmq.com"] ["queues/finalizers"]
     ["update"];
   mkRule ["rabbitmq.com"] ["queues/status"]
     ["get"; "update"; "patch"];
   mkRule ["rabbitmq.com"] ["rabbitmqclusters"]
     ["get"; "list"; "watch"];
   mkRule ["rabbitmq.com"] ["rabbitmqclusters/status"]
     ["get"];
   mkRule [""] ["services"]
     ["get"; "list"; "watch"]].
Definition SchemaReplication_rbac : list rule :=
  [mkRule ["rabbitmq.com"] ["schemareplications"]
     ["get"; "list"; "watch"; "create"; "update"; "patch"; "delete"];
   mkRule ["rabbitmq.com"] ["schemareplications/finalizers"]
     ["update"];
   mkRule ["rabbitmq.com"] ["schemareplications/status"]
     ["get"; "update"; "patch"]].
Definition Shovel_rbac : list rule :=
  [mkRule ["rabbitmq.com"] ["shovels"]
     ["get"; "list"; "watch"; "create"; "update"; "patch"; "delete"];
   mkRule ["rabbitmq.com"] ["shovels/finalizers"]
     ["update"];
   mkRule ["rabbitmq.com"] ["shovels/status"]
     ["get"; "update"; "patch"]].
Definition SuperStream_rbac : list rule :=
  [mkRule ["rabbitmq.com"] ["exchanges"]
     ["get"; "create"; "update"; "patch"; "delete"];
   mkRule ["rabbitmq.com"] ["queues"]
     ["get"; "create"; "update"; "patch"; "delete"];
   mkRule ["rabbitmq.com"] ["bindings"]
     ["get"; "create"; "update"; "patch"; "delete"];
   mkRule ["rabbitmq.com"] ["superstreams"]
     ["get"; "list"; "watch"; "create"; "update"; "patch"; "delete"];
   mkRule ["rabbitmq.com"] ["superstreams/finalizers"]
     ["update"];
   mkRule ["rabbitmq.com"] ["superstreams/status"]
     ["get"; "update"; "patch"];
   mkRule ["rabbitmq.com"] ["rabbitmqclusters"]
     ["get"; "list"; "watch"];
   mkRule ["rabbitmq.com"] ["rabbitmqclusters/status"]
     ["get"];
   mkRule [""] ["services"]
     ["get"; "list"; "watch"]].
Definition TopicPermission_rbac : list rule :=
  [mkRule ["rabbitmq.com"] ["topicpermissions"]
     ["get"; "list"; "watch"; "create"; "update"; "patch"; "delete"];
   mkRule ["rabbitmq.com"] ["topicpermissions/status"]
     ["get"; "update"; "patch"];
   mkRule ["rabbitmq.com"] ["topicpermissions/finalizers"]
     ["update"]].
Definition Topology_rbac : list rule :=
  [mkRule ["events.k8s.io"] ["events"]
     ["create"; "patch"]].
Definition User_rbac : list rule :=
  [mkRule ["rabbitmq.com"] ["users"]
     ["get"; "list"; "watch"; "create"; "update"; "patch"; "delete"];
   mkRule ["rabbitmq.com"] ["users/finalizers"]
     ["update"];
   mkRule ["rabbitmq.com"] ["users/status"]
     ["get"; "update"; "patch"];
   mkRule [""] ["secrets"]
     ["get"; "list"; "watch"; "create"; "update"]].
Definition Vhost_rbac : list rule :=
  [mkRule ["rabbitmq.com"] ["vhosts"]
     ["get"; "list"; "watch"; "create"; "update"; "patch"; "delete"];
   mkRule ["rabbitmq.com"] ["vhosts/finalizers"]
     ["update"];
   mkRule ["rabbitmq.com"] ["vhosts/status"]
     ["get"; "update"; "patch"]].

(** The union of the markers, file by file. *)
Definition markers : list rule :=
  Binding_rbac ++ Exchange_rbac ++ Federation_rbac ++ OperatorPolicy_rbac ++ Permission_rbac ++ Policy_rbac ++ Queue_rbac ++ SchemaReplication_rbac ++ Shovel_rbac ++ SuperStream_rbac ++ TopicPermission_rbac ++ Topology_rbac ++ User_rbac ++ Vhost_rbac.

(** config/rbac/role.yaml *)
Definition manager_role : list rule :=
  [mkRule [""]
     ["secrets"]
     ["create"; "get"; "list"; "update"; "watch"];
   mkRule [""]
     ["services"]
     ["get"; "list"; "watch"];
   mkRule ["events.k8s.io"]
     ["events"]
     ["create"; "patch"];
   mkRule ["rabbitmq.com"]
     ["bindings"; "exchanges"; "federations"; "operatorpolicies"; "permissions";
      "policies"; "queues"; "schemareplications"; "shovels"; "superstreams";
      "topicpermissions"; "users"; "vhosts"]
     ["create"; "delete"; "get"; "list"; "patch"; "update"; "watch"];
   mkRule ["rabbitmq.com"]
     ["bindings/finalizers"; "exchanges/finalizers"; "federations/finalizers";
      "operatorpolicies/finalizers"; "permissions/finalizers"; "policies/finalizers";
      "queues/finalizers"; "schemareplications/finalizers"; "shovels/finalizers";
      "superstreams/finalizers"; "topicpermissions/finalizers"; "users/finalizers";
      "vhosts/finalizers"]
     ["update"];
   mkRule ["rabbitmq.com"]
     ["bindings/status"; "exchanges/status"; "federations/status";
      "operatorpolicies/status"; "permissions/status"; "policies/status";
      "queues/status"; "schemareplications/status"; "shovels/status";
      "superstreams/status"; "topicpermissions/status"; "users/status";
      "vhosts/status"]
     ["get"; "patch"; "update"];
   mkRule ["rabbitmq.com"]
     ["rabbitmqclusters"]
     ["get"; "list"; "watch"];
   mkRule ["rabbitmq.com"]
     ["rabbitmqclusters/status"]
     ["get"]].

(** ** What a call needs *)

Definition on (k : kind) (sub verb : string) : permission :=
  (gvr_Group (gvr_of k), gvr_Resource (gvr_of k) +:+ sub, verb).

(** The manager's client reads from a cache, which lists and watches the kind, except
    for the kinds of [Client.Cache.DisableFor]. *)
Definition reads (uncached : list kind) (k : kind) : list permission :=
  if bool_decide (k ∈ uncached) then [on k "" "get"] else [on k "" "list"; on k "" "watch"].

Definition needed (uncached : list kind) (a : action) : list permission :=
  match a with
  | CGet k _ | CList k => reads uncached k
  | CListUsersByImportSecret _ _ => reads uncached KUser
  | CUpdate k _ => [on k "" "update"]
  | CStatusUpdate k _ => [on k "/status" "update"]
  | CCreateOrUpdate k _ _ => reads uncached k ++ [on k "" "create"; on k "" "update"]
  | AGet k _ => [on k "" "get"]
  | Eventf _ _ _ => [("events.k8s.io", "events", "create"); ("events.k8s.io", "events", "patch")]
  | _ => []
  end.

Definition permitted (uncached : list kind) (e : event result) : Prop :=
  Forall (fun p => p ∈ grants manager_role) (needed uncached (projT1 e)).

(** The manager as it is started: services are read without a cache. *)
Notation allowed := (permitted [KService]).

#[export] Instance permitted_dec uncached e : Decision (permitted uncached e).
Proof. unfold permitted. apply _. Defined.

(** Single calls, on kinds that are known. *)
Ltac permit_call := apply (bool_decide_unpack _); vm_compute; exact I.

Section own.
Context (k : kind) (Hk : own k).

Ltac each_kind := destruct k; destruct Hk as (? & ? & ?); first [done|permit_call].

Lemma own_get key x : allowed (existT (P:=result) (CGet k key) x).
Proof. each_kind. Qed.
Lemma own_list x : allowed (existT (P:=result) (CList k) x).
Proof. each_kind. Qed.
Lemma own_update o x : allowed (existT (P:=result) (CUpdate k o) x).
Proof. each_kind. Qed.
Lemma own_status o x : allowed (existT (P:=result) (CStatusUpdate k o) x).
Proof. each_kind. Qed.
Lemma own_apply o f x : allowed (existT (P:=result) (CCreateOrUpdate k o f) x).
Proof. each_kind. Qed.
Lemma any_event o ev x : allowed (existT (P:=result) (Eventf k o ev) x).
Proof. permit_call. Qed.
End own.

Create HintDb rbac discriminated.
#[export] Hint Resolve own_get own_list own_update own_status own_apply any_event : rbac.

#[export] Hint Extern 1 (own _) => solve [repeat split; discriminate] : rbac.

Ltac permit := first [solve [eauto with rbac]|permit_call].
Ltac all_permitted := repeat (cbv zeta; all_calls_step); try (solve [eauto with rbac]); permit.

(** ** The functions that the controllers share *)

Section shared.
Context `{LibsOk}.

Lemma ParseReference_permitted rmq ns dom http : all_calls allowed (ParseReference rmq ns dom http).
Proof.
  unfold ParseReference, defaultUserCredentials, kubernetesSecretCredentials, clusterAddress.
  all_permitted.
Qed.

Lemma generateRabbitholeClient_permitted creds tls pool :
  all_calls allowed (generateRabbitholeClient creds tls pool).
Proof. unfold generateRabbitholeClient. all_permitted. Qed.

Lemma lastTransitionTime_permitted t s cs :
  all_calls allowed (ConditionOps.lastTransitionTime t s cs).
Proof. unfold ConditionOps.lastTransitionTime. all_permitted. Qed.

Section kind.
Context (k : kind) (Hk : own k).

Lemma retryStatusUpdate_permitted (o : object k) : all_calls allowed (retryStatusUpdate k o).
Proof. unfold retryStatusUpdate. all_permitted. Qed.
Lemma removeFinalizer_permitted (o : object k) : all_calls allowed (removeFinalizer k o).
Proof. unfold removeFinalizer. all_permitted. Qed.
Lemma addFinalizerIfNeeded_permitted (o : object k) : all_calls allowed (addFinalizerIfNeeded k o).
Proof. unfold addFinalizerIfNeeded. all_permitted. Qed.
End kind.
End shared.

#[export] Hint Resolve ParseReference_permitted generateRabbitholeClient_permitted
  lastTransitionTime_permitted addFinalizerIfNeeded_permitted : rbac.
#[export] Hint Extern 1 (all_calls _ (retryStatusUpdate ?k ?o)) =>
  refine (retryStatusUpdate_permitted k _ o); solve [auto with rbac] : rbac.
#[export] Hint Extern 1 (all_calls _ (removeFinalizer ?k ?o)) =>
  refine (removeFinalizer_permitted k _ o); solve [auto with rbac] : rbac.

(** ** The functions of the kinds *)

Class ReconcileFuncPermitted `{Libs} (k : kind) `{!ReconcileFunc k} := {
  permitted_own : own k;
  permitted_declare c (o : object k) : all_calls allowed (DeclareFunc c o);
  permitted_delete c (o : object k) : all_calls allowed (DeleteFunc c o)
}.

Section kinds.
Context `{LibsOk}.

Ltac kind_permitted := unfold declareCall, deleteCall in *; all_permitted.

#[export] Instance Exchange_permitted : ReconcileFuncPermitted KExchange.
Proof.
  split; [done|..]; simpl; intros; [unfold Exchange_DeclareFunc|unfold Exchange_DeleteFunc];
    kind_permitted.
Qed.

#[export] Instance Queue_permitted : ReconcileFuncPermitted KQueue.
Proof.
  split; [done|..]; simpl; intros; [unfold Queue_DeclareFunc|unfold Queue_DeleteFunc, quorumGuard];
    kind_permitted.
Qed.

#[export] Instance Binding_permitted : ReconcileFuncPermitted KBinding.
Proof.
  split; [done|..]; simpl; intros;
    [unfold Binding_DeclareFunc|unfold Binding_DeleteFunc, findBindingInfo]; kind_permitted.
Qed.

#[export] Instance Policy_permitted : ReconcileFuncPermitted KPolicy.
Proof.
  split; [done|..]; simpl; intros;
    [unfold Policy_DeclareFunc, GeneratePolicy|unfold Policy_DeleteFunc]; kind_permitted.
Qed.

#[export] Instance OperatorPolicy_permitted : ReconcileFuncPermitted KOperatorPolicy.
Proof.
  split; [done|..]; simpl; intros;
    [unfold OperatorPolicy_DeclareFunc, GenerateOperatorPolicy|unfold OperatorPolicy_DeleteFunc];
    kind_permitted.
Qed.

#[export] Instance Federation_permitted : ReconcileFuncPermitted KFederation.
Proof.
  split; [done|..]; simpl; intros;
    [unfold Federation_DeclareFunc, Federation_getUri, uriSecretError|unfold Federation_DeleteFunc];
    kind_permitted.
Qed.

#[export] Instance Shovel_permitted : ReconcileFuncPermitted KShovel.
Proof.
  split; [done|..]; simpl; intros;
    [unfold Shovel_DeclareFunc, Shovel_getUris, uriSecretError|unfold Shovel_DeleteFunc];
    kind_permitted.
Qed.

#[export] Instance SchemaReplication_permitted : ReconcileFuncPermitted KSchemaReplication.
Proof.
  split; [done|..]; simpl; intros;
    [unfold SchemaReplication_DeclareFunc, getUpstreamEndpoints, upstreamSecret
    |unfold SchemaReplication_DeleteFunc]; kind_permitted.
Qed.

#[export] Instance Vhost_permitted : ReconcileFuncPermitted KVhost.
Proof.
  split; [done|..]; simpl; intros;
    [unfold Vhost_DeclareFunc, reconcileVhostLimits, getVhostLimits|unfold Vhost_DeleteFunc];
    kind_permitted.
Qed.

#[export] Instance Permission_permitted : ReconcileFuncPermitted KPermission.
Proof.
  split; [done|..]; simpl; intros c o.
  - unfold Permission_DeclareFunc, permissionUser, getUsernameFromUser, ownedBy. kind_permitted.
  - unfold Permission_DeleteFunc, permissionUser, getUsernameFromUser, revokePermissions.
    kind_permitted.
Qed.

#[export] Instance TopicPermission_permitted : ReconcileFuncPermitted KTopicPermission.
Proof.
  split; [done|..]; simpl; intros c o.
  - unfold TopicPermission_DeclareFunc, permissionUser, getUsernameFromUser, ownedBy. kind_permitted.
  - unfold TopicPermission_DeleteFunc, permissionUser, getUsernameFromUser, clearTopicPermission.
    kind_permitted.
Qed.

#[export] Instance User_permitted : ReconcileFuncPermitted KUser.
Proof.
  split; [done|..]; simpl; intros; [|unfold User_DeleteFunc; kind_permitted].
  unfold User_DeclareFunc, declareWithImportedCredentials, declareWithGeneratedCredentials,
    importCredentials, declareCredentials, generateCredentials, getUserCredentials, setUserStatus,
    putUser, reconcileUserLimits, getUserLimits, GenerateUserSettings, ConditionOps.PasswordSynced,
    RandomEncodedString.
  kind_permitted.
Qed.
End kinds.

(** ** Controllers, watches and webhooks *)

Section controllers.
Context `{LibsOk}.

Lemma Reconcile_permitted k `{!TopologyResource k} `{!ReconcileFunc k} `{!ReconcileFuncPermitted k} r req :
  all_calls allowed (Reconcile k r req).
Proof.
  pose proof permitted_own as Hk. pose proof permitted_declare as Hdecl.
  pose proof permitted_delete as Hdel.
  unfold Reconcile, reconcileObject, extractSystemCertPool, reconcileDelete, reconcileDeclare,
    Reconciler_handleRMQReferenceParseError, reportNotReady, statusUpdate, ConditionOps.Ready,
    ConditionOps.NotReady.
  all_permitted.
Qed.

Lemma applyBuilders_permitted builders names :
  Forall (fun b => own (builder_kind b)) builders ->
  all_calls allowed (applyBuilders builders names).
Proof.
  intros Hb. revert names. induction Hb as [|b builders Hb _ IH]; intros names; cbn [applyBuilders];
    all_permitted.
Qed.

Lemma builders_own_kinds (o : SuperStream) keys vhost ref :
  Forall (fun b => own (builder_kind b)) (superStreamBuilders o keys vhost ref).
Proof.
  constructor; [done|]. generalize 0 at 1.
  induction keys as [|key keys IH]; intros i; simpl; [constructor|]. by repeat constructor.
Qed.
#[local] Hint Resolve applyBuilders_permitted builders_own_kinds : rbac.

Lemma SuperStream_permitted req : all_calls allowed (SuperStream_Reconcile req).
Proof.
  unfold SuperStream_Reconcile, reconcileStream, getRabbitmqClusterReference,
    handleRMQReferenceParseError, reportStreamNotReady, SetReconcileSuccess, ConditionOps.Ready,
    ConditionOps.NotReady.
  all_permitted.
Qed.

Lemma cluster_watch_permitted k `{!TopologyResource k} r cluster :
  own k -> all_calls allowed (rabbitmqClusterToRequests k r cluster).
Proof. intros Hk. unfold rabbitmqClusterToRequests. all_permitted. Qed.

Lemma secret_watch_permitted secret : all_calls allowed (secretToUserRequests secret).
Proof. unfold secretToUserRequests. all_permitted. Qed.

Lemma validateSecretLabel_permitted ref ns : all_calls allowed (validateSecretLabel ref ns).
Proof. unfold validateSecretLabel. all_permitted. Qed.
#[local] Hint Resolve validateSecretLabel_permitted : rbac.

Lemma webhook_permitted mgr k w v :
  setupWebhook mgr k = inr w -> wh_validator w = Some v -> forall o n,
  all_calls allowed (ValidateCreate v n) /\ all_calls allowed (ValidateUpdate v o n) /\
  all_calls allowed (ValidateDelete v o).
Proof.
  destruct k; try done; intros E; apply completeWebhook_inv in E as ->; intros [= <-] o n;
    split_and!; simpl;
    unfold Binding_ValidateCreate, Exchange_ValidateCreate, Federation_ValidateCreate,
      OperatorPolicy_ValidateCreate, Permission_ValidateCreate, Policy_ValidateCreate,
      Queue_ValidateCreate, SchemaReplication_ValidateCreate, Shovel_ValidateCreate,
      TopicPermission_ValidateCreate, User_ValidateCreate, Vhost_ValidateCreate,
      Federation_ValidateUpdate, Queue_ValidateUpdate, SchemaReplication_ValidateUpdate,
      Shovel_ValidateUpdate, User_ValidateUpdate, SuperStream_ValidateUpdate,
      validateReferenceOnCreate, argumentsUpdated, acceptDelete, andThen;
    all_permitted.
Qed.

(** What a controller runs and what it watches. *)
Definition watched (b : Builder) : list kind :=
  For b :: ((fun s => match s with Owns k => k | Watches k _ => k end) <$> Sources b).

Record controller_permitted `{HandlerLib} (c : RunningController) : Prop := {
  runs_permitted req : all_calls allowed (reconcile c req);
  handlers_permitted k o q : q ∈ handlers (built c) k o -> all_calls allowed q;
  watches_permitted k : k ∈ watched (built c) ->
    on k "" "list" ∈ grants manager_role /\ on k "" "watch" ∈ grants manager_role
}.

Section wired.
Context `{HandlerLib} (mgr : Manager).

Lemma sourceHandlers_permitted owner k (o : object k) src q :
  match src with Owns _ => True | Watches _ f => forall x, all_calls allowed (f x) end ->
  q ∈ sourceHandlers owner k o src -> all_calls allowed q.
Proof.
  intros Hsrc. destruct src as [k'|k' f]; simpl.
  - destruct (decide _); [|set_solver]. intros ->%list_elem_of_singleton. all_permitted.
  - destruct (decide _); [|set_solver]. intros ->%list_elem_of_singleton. apply Hsrc.
Qed.

Lemma builder_permitted b k (o : object k) q :
  Forall (fun src => match src with Owns _ => True | Watches _ f => forall x, all_calls allowed (f x) end)
    (Sources b) ->
  q ∈ handlers b k o -> all_calls allowed q.
Proof.
  rewrite Forall_forall. intros Hsrc [Hq|(src & Hq & Hin)%list_elem_of_bind]%elem_of_app.
  - destruct (decide _); [|set_solver]. apply list_elem_of_singleton in Hq as ->. all_permitted.
  - eapply sourceHandlers_permitted; [by apply Hsrc|exact Hq].
Qed.

Lemma watch_granted k : own k \/ k = KRabbitmqCluster \/ k = KSecret ->
  on k "" "list" ∈ grants manager_role /\ on k "" "watch" ∈ grants manager_role.
Proof.
  intros Hk. assert (k <> KService) by (intros ->; destruct Hk as [(_ & ? & _)|[]]; done).
  destruct k; try done; (split; apply (bool_decide_unpack _); vm_compute; exact I).
Qed.

Lemma topology_permitted k `{!TopologyResource k} `{!ReconcileFunc k} `{!ReconcileFuncPermitted k}
    r c :
  TopologyReconciler_SetupWithManager mgr k r = inr c -> WatchesClusters r = true ->
  controller_permitted c.
Proof.
  intros Hc Hw. apply SetupWithManager_inv in Hc as ->; [|done]. pose proof permitted_own as Hk.
  split; simpl.
  - intros req. by apply Reconcile_permitted.
  - intros k' o q. apply builder_permitted. constructor; [intros x; by apply cluster_watch_permitted|].
    destruct k; repeat constructor. intros x. apply secret_watch_permitted.
  - intros k' Hk'. apply watch_granted. apply elem_of_cons in Hk' as [->|Hk']; [by left|].
    apply elem_of_cons in Hk' as [->|Hk']; [auto|]. destruct k; set_solver.
Qed.

Lemma stream_permitted max c :
  SuperStreamReconciler_SetupWithManager mgr max = inr c -> controller_permitted c.
Proof.
  intros ->%stream_setup_inv. split; simpl.
  - apply SuperStream_permitted.
  - intros k o q. apply builder_permitted. by repeat constructor.
  - intros k Hk. apply watch_granted. left.
    repeat (apply elem_of_cons in Hk as [->|Hk]; [done|]). by apply not_elem_of_nil in Hk.
Qed.

Lemma setup_permitted r c :
  setup mgr r = inr (inl c) ->
  (forall k name cfg, r = Setup.Controller k name cfg -> WatchesClusters cfg = true) ->
  controller_permitted c.
Proof.
  destruct r as [k name cfg|name max|k|]; cbn [setup]; intros E Hcfg.
  - destruct (setupController mgr k cfg) as [|c'] eqn:Hc; [done|]. injection E as <-.
    specialize (Hcfg _ _ _ eq_refl).
    destruct k; cbn [setupController] in Hc; try done;
      exact (topology_permitted _ _ _ Hc Hcfg).
  - destruct (SuperStreamReconciler_SetupWithManager mgr max) as [|c'] eqn:Hc; [done|].
    injection E as <-. by eapply stream_permitted.
  - by destruct (setupWebhook mgr k).
  - by destruct (SetupQueueDefaulterWebhookWithManager mgr).
Qed.
End wired.

(** The role says what the markers say. *)
Lemma role_of_markers p : p ∈ grants manager_role <-> p ∈ grants markers.
Proof.
  assert (E : forallb (fun q => bool_decide (q ∈ grants markers)) (grants manager_role) &&
              forallb (fun q => bool_decide (q ∈ grants manager_role)) (grants markers) = true)
    by (vm_compute; reflexivity).
  apply andb_true_iff in E as [E1 E2]. rewrite forallb_forall in E1, E2.
  split; intros Hp%list_elem_of_In; eapply bool_decide_eq_true; [by apply E1|by apply E2].
Qed.

(** C4: Every Kubernetes call that a controller, a watch handler or a webhook of a
    started operator can make, and every kind its controllers watch, is granted by
    config/rbac/role.yaml and by the markers of the sources, with the cache that
    main configures. *)
Theorem calls_permitted `{!HandlerLib} `{!HandlerLibOk} mgr args p others rt opts rs :
  main args p others (runtimeOf mgr rt) = inr (opts, rs) ->
  let granted n := n ∈ grants manager_role /\ n ∈ grants markers in
  let ok {A} (q : go A) := forall tr o, exec q tr o ->
    Forall (fun e => Forall granted (needed (DisableFor opts) (projT1 e))) tr in
  (forall c, c ∈ controllers_of mgr rs ->
     (forall req, ok (reconcile c req)) /\
     (forall k o q, q ∈ dispatch (built c) k o -> ok q) /\
     (forall k, k ∈ watched (built c) -> granted (on k "" "list") /\ granted (on k "" "watch"))) /\
  (forall w v, w ∈ webhooks_of mgr rs -> wh_validator w = Some v -> forall o n,
     ok (ValidateCreate v n) /\ ok (ValidateUpdate v o n) /\ ok (ValidateDelete v o)).
Proof.
  intros Hmain granted ok. pose proof Hmain as (f & _ & Hs)%main_inv.
  apply start_inv in Hs as (plain & max & _ & Hrs & _ & _ & Huncached & _).
  assert (Hg : forall n, n ∈ grants manager_role -> granted n).
  { intros n Hn. split; [done|]. by apply role_of_markers. }
  assert (Hok : forall A (q : go A), all_calls allowed q -> ok A q).
  { intros A q Hq tr o Hx. apply wp_exec with (tr := tr) (o := o) in Hq; [|done].
    rewrite Huncached. eapply Forall_impl; [exact Hq|]. intros e He.
    eapply Forall_impl; [exact He|]. intros n. apply Hg. }
  split.
  - intros c (r & Hr & Hc)%list_elem_of_omap.
    destruct (setup mgr r) as [|[c'|]] eqn:E; try done. injection Hc as ->.
    destruct (setup_permitted mgr r c E) as [Hruns Hhandlers Hwatch].
    { intros k name cfg ->. rewrite Hrs in Hr. by apply controllers_config in Hr as (_ & _ & ->). }
    split; [intros req; by apply Hok|]. split.
    + intros k o q Hq%dispatch_spec. apply Hok. by eapply Hhandlers.
    + intros k [? ?]%Hwatch. by split; apply Hg.
  - intros w v (r & Hr & Hw)%list_elem_of_omap Hv o n.
    destruct (setup mgr r) as [|[|w']] eqn:E; try done. injection Hw as ->.
    assert (Hall : all_calls allowed (ValidateCreate v n) /\ all_calls allowed (ValidateUpdate v o n) /\
      all_calls allowed (ValidateDelete v o)); [|destruct Hall as (? & ? & ?); split_and!; by apply Hok].
    destruct r as [k name cfg|name m|k|]; cbn [setup] in E.
    + by destruct (setupController mgr k cfg).
    + by destruct (SuperStreamReconciler_SetupWithManager mgr m).
    + destruct (setupWebhook mgr k) as [|w'] eqn:Hk; [done|]. injection E as ->.
      by eapply webhook_permitted.
    + destruct (SetupQueueDefaulterWebhookWithManager mgr) as [|w'] eqn:Hk; [done|].
      injection E as ->. apply completeWebhook_inv in Hk as ->. done.
Qed.
End controllers.
