(* ===== verification/Witnesses.v ===== *)
(** * The theorems at concrete inputs

    Each theorem with hypotheses is applied to a run of the definitions against
    the environment of Instances.v, so its hypotheses can hold together. *)

From S2P Require Import Prelude.
From S2P Require Import GoStrings.
From S2P Require Import GoErrors.
From S2P Require Import GoUrl.
From S2P Require Import Prog.
From S2P Require Import Api.
From S2P Require Import Values.
From S2P Require Import World.
From S2P Require Import Resources.
From S2P Require Import ParseReference.
From S2P Require Import ParseReferenceProofs.
From S2P Require Import Utils.
From S2P Require Import Traces.
From S2P Require Import TopologyReconciler.
From S2P Require Import ReconcilerProofs.
From S2P Require Import ReconcilerTheorems.
From S2P Require Import Settings.
From S2P Require Import SettingsProofs.
From S2P Require Import Random.
From S2P Require Import Controllers.
From S2P Require Import PermissionControllers.
From S2P Require Import UserController.
From S2P Require Import ControllerProofs.
From S2P Require Import ControllerTheorems.
From S2P Require Import Webhooks.
From S2P Require Import WebhookProofs.
From S2P Require Import NoPanic.
From S2P Require Import SuperStreams.
From S2P Require Import SuperStreamProofs.
From S2P Require Import GoConv.
From S2P Require Import GoFlag.
From S2P Require Import Setup.
From S2P Require Import SetupProofs.
From S2P Require Import Vault.
From S2P Require Import VaultProofs.
From S2P Require Import Broker.
From S2P Require Import Lifecycle.
From S2P Require Import LifecycleKinds.
From S2P Require Import Faults.
From S2P Require Import FaultKinds.
From S2P Require Import Bounds.
From S2P Require Import StreamAdmission.
From S2P Require Import Memory.
From S2P Require Import DeepCopy.
From S2P Require Import DeepCopyProofs.
From S2P Require Import Instances.
From S2P Require Import Servers.
From S2P Require Import SecretWatch.
From S2P Require Import PermissionDeletion.
From Stdlib Require Import Ascii String.

Definition request : NamespacedName := mkNamespacedName "default" "ex".

(** ** An exchange that is being deleted *)

Definition finalizer : string := "deletion.finalizers.exchanges.rabbitmq.com".
Definition goneExchange : Exchange := exampleExchange (Some 5%Z) [finalizer].
Definition deletion : go_trace :=
  tail (trace_of (exampleEnv goneExchange) (Reconcile KExchange config request)).

Lemma env_echoes {A} v k (p : go A) tr :
  (forall e, e ∈ tr -> e ∈ trace_of v p) -> echoes k tr.
Proof.
  intros Hsub sent o Hin%Hsub. pose proof (trace_answers v p) as Ha.
  rewrite Forall_forall in Ha. apply Ha in Hin. simpl in Hin. by injection Hin as ->.
Qed.

Lemma finalizer_protects_witness :
  is_Some (DeletionTimestamp (meta KExchange goneExchange)) /\
  (released (k:=KExchange) goneExchange (take 7 deletion) \/ cluster_gone (take 7 deletion)).
Proof.
  apply (finalizer_protects KExchange config request goneExchange (take 7 deletion)
           (pick deletion 7) (drop 8 deletion) (Returned (emptyResult, None)) finalizer).
  - exact (trace_exec (exampleEnv goneExchange) (Reconcile KExchange config request)).
  - apply list_elem_of_here.
  - apply (env_echoes (exampleEnv goneExchange) KExchange (Reconcile KExchange config request)).
    intros e He. right. exact He.
  - do 2 eexists. split; [reflexivity|]. apply not_elem_of_nil.
Defined.

(** ** An exchange that is declared *)

Definition newExchange : Exchange := exampleExchange None [].
Definition declaration : go_trace :=
  tail (trace_of (exampleEnv newExchange) (Reconcile KExchange config request)).
Definition exampleClient : RmqClient :=
  mkRmqClient "http://rmq.default.svc:15672" "guest" "guest" None.
Definition exchangeCall : rmq_call :=
  DeclareExchange "/" "ex" (mkExchangeSettings "direct" true false (Some [])).

Lemma finalizer_before_broker_witness :
  finalizerOf KExchange newExchange ∈ Finalizers (meta KExchange newExchange) \/
  exists sent o', existT (P:=result) (CUpdate KExchange sent) (inr o') ∈ take 6 declaration /\
    finalizerOf KExchange sent ∈ Finalizers (meta KExchange sent).
Proof.
  apply (finalizer_before_broker KExchange config request newExchange (take 6 declaration)
           (pick declaration 6) (drop 7 declaration) (Returned (emptyResult, None))).
  - exact (trace_exec (exampleEnv newExchange) (Reconcile KExchange config request)).
  - reflexivity.
  - do 2 eexists. reflexivity.
Defined.

Lemma broker_calls_authorized_witness :
  exists trp creds tls,
    exec (parse_reference_of KExchange config newExchange) trp (Returned (inr (creds, tls))) /\
    (forall ev, ev ∈ trp -> ev ∈ take 6 declaration) /\
    creds !! "username" = Some (client_username exampleClient) /\
    creds !! "password" = Some (client_password exampleClient) /\
    creds !! "uri" = Some (client_uri exampleClient) /\
    (is_Some (client_tls exampleClient) <-> url_scheme (client_uri exampleClient) = "https") /\
    (crossNamespace (RabbitReference (k:=KExchange) newExchange) (Namespace (meta KExchange newExchange)) ->
     first_grants (RabbitReference (k:=KExchange) newExchange)
       (Namespace (meta KExchange newExchange)) trp).
Proof.
  apply (broker_calls_authorized KExchange config request newExchange (take 6 declaration)
           exampleClient exchangeCall ok204_response (drop 7 declaration)
           (Returned (emptyResult, None))).
  exact (trace_exec (exampleEnv newExchange) (Reconcile KExchange config request)).
Defined.

Definition declared : go_trace :=
  trace_of (exampleEnv newExchange) (reconcileDeclare KExchange exampleClient newExchange).

Lemma declaration_published_witness :
  exists tra o1 trd o2 ev trs,
    exec (addFinalizerIfNeeded KExchange newExchange) tra (Returned (None, o1)) /\
    exec (DeclareFunc (k:=KExchange) exampleClient o1) trd (Returned (None, o2)) /\
    declared = tra ++ trd ++ ev :: trs /\
    published KExchange o2 ConditionTrue "" (Generation (meta KExchange o2)) trs.
Proof.
  destruct (declaration_published KExchange exampleClient newExchange declared
              (Returned (emptyResult, None))
              (trace_exec (exampleEnv newExchange)
                 (reconcileDeclare KExchange exampleClient newExchange)))
    as [(e & o1 & [=] & _)|(tra & o1 & trd & od & Ha & Hd & Hrest)].
  destruct od as [[[e|] o2]|w].
  - destruct Hrest as (ev & trs & _ & [=] & _).
  - destruct Hrest as (ev & trs & Htr & _ & Hp). by exists tra, o1, trd, o2, ev, trs.
  - destruct Hrest as [_ [=]].
Defined.

(** ** Clusters that cannot be used *)

Lemma reference_errors_witness :
  rmq_calls (trace_of (exampleEnv goneExchange)
    (Reconciler_handleRMQReferenceParseError KExchange goneExchange (Some ErrClusterScaledToZero))) = []
  /\ exists ev sent x (err : option error),
    trace_of (exampleEnv goneExchange)
      (Reconciler_handleRMQReferenceParseError KExchange goneExchange (Some ErrClusterScaledToZero))
    = [ev; existT (P:=result) (CUpdate KExchange sent) x] /\
    (forall f, f ∈ Finalizers (meta KExchange sent) <->
       f <> finalizerOf KExchange goneExchange /\ f ∈ Finalizers (meta KExchange goneExchange)) /\
    Returned (emptyResult, None) = Returned (emptyResult, err) /\
    (err = None <-> exists o', x = inr o').
Proof.
  exact (reference_errors KExchange goneExchange ErrClusterScaledToZero _ _
    (trace_exec (exampleEnv goneExchange)
       (Reconciler_handleRMQReferenceParseError KExchange goneExchange (Some ErrClusterScaledToZero)))).
Defined.

(** ** Resolving a cluster *)

Lemma ParseReference_finds_witness :
  (run (answers (env_answer (exampleEnv newExchange)))
     (ParseReference exampleRef "default" "" false) tt).1.2 =
  Returned (inr (mkCreds "guest" "guest" "http://rmq.default.svc:15672", false)).
Proof.
  exact (ParseReference_finds (env_answer (exampleEnv newExchange)) exampleRef "default" "" false
    exampleCluster "rmq" "rmq-default-user" exampleSecret exampleService ∅ eq_refl eq_refl
    (fun Hx => match proj1 Hx eq_refl with end) ltac:(discriminate) eq_refl eq_refl eq_refl eq_refl
    eq_refl eq_refl eq_refl ltac:(discriminate)).
Defined.

(** ** Queues *)

Definition exampleQueue (type : string) (deletion : option Z) : Queue :=
  mkResource (mkTypeMeta "rabbitmq.com" "v1beta1" "Queue") (exampleMeta "q" deletion [])
    (mkQueueSpec "q" "/" type (Some true) false true true None exampleRef "delete")
    (mkCommonStatus 1 []).
Definition quorumQueue : Queue := exampleQueue "quorum" (Some 5%Z).
Definition queueDeletion : go_trace :=
  trace_of (exampleEnv newExchange) (Queue_DeleteFunc exampleClient quorumQueue).

Lemma queue_deletion_guarded_witness :
  "/" = Queue_Vhost (Spec quorumQueue) /\ "q" = Queue_Name (Spec quorumQueue) /\
  Queue_DeletionPolicy (Spec quorumQueue) <> "retain" /\
  conditions_checked quorumQueue (take 1 queueDeletion) (mkQueueDeleteOptions false false).
Proof.
  apply (queue_deletion_guarded exampleClient quorumQueue (take 1 queueDeletion)
           (pick queueDeletion 1) [] (Returned (None, quorumQueue))).
  - exact (trace_exec (exampleEnv newExchange) (Queue_DeleteFunc exampleClient quorumQueue)).
  - eexists. reflexivity.
Defined.

Lemma queue_update_admission_witness :
  exists r, Queue_ValidateUpdate (exampleQueue "quorum" None) (exampleQueue "classic" None) = Ret r /\
    r <> None.
Proof.
  destruct (queue_update_admission (exampleQueue "quorum" None) (exampleQueue "classic" None)
    (Some []) (Some []) eq_refl eq_refl (Forall_nil_2 _)) as (r & Hr & Hiff).
  exists r. split; [exact Hr|]. intros Hn.
  destruct (proj1 Hiff Hn) as (_ & _ & _ & Ht & _). discriminate Ht.
Defined.

(** ** Users *)

Definition exampleUser (deletion : option Z) : User :=
  mkResource (mkTypeMeta "rabbitmq.com" "v1beta1" "User") (exampleMeta "guest" deletion [])
    (mkUserSpec ["management"] exampleRef None true None)
    (mkUserStatus 1 [] None "").
Definition userDeclaration : go_trace :=
  trace_of (exampleEnv newExchange) (User_DeclareFunc exampleClient (exampleUser None)).
Definition guestSettings : UserSettings :=
  mkUserSettings "guest" ["management"] "guest" HashingAlgorithmSHA512.

(** The user as the declaration leaves it, to be deleted. *)
Definition guestUser : User := set_Status (mkUserStatus 1 [] None "guest") (exampleUser (Some 5%Z)).

Lemma user_put_recorded_witness :
  put_allowed (exampleUser None) (take 5 userDeclaration) "guest" guestSettings /\
  rmq_calls (trace_of (exampleEnv newExchange) (User_DeleteFunc exampleClient guestUser)) =
    [DeleteUser "guest"].
Proof.
  destruct (user_put_recorded exampleClient (exampleUser None) (take 5 userDeclaration)
           (pick userDeclaration 5) (drop 6 userDeclaration)
           (outcome_of (exampleEnv newExchange)
              (User_DeclareFunc exampleClient (exampleUser None))) "guest" guestSettings) as [Hput Hdel].
  - exact (trace_exec (exampleEnv newExchange)
             (User_DeclareFunc exampleClient (exampleUser None))).
  - eexists. reflexivity.
  - split; [exact Hput|]. apply (Hdel exampleClient guestUser _ _ eq_refl (trace_exec _ _)).
Defined.

(** ** Admission *)

Lemma admitted_update_keeps_target_witness :
  target_of KExchange goneExchange = target_of KExchange newExchange.
Proof.
  apply (admitted_update_keeps_target KExchange newExchange goneExchange []).
  split; reflexivity.
Defined.

Definition alice : LocalObjectReference := mkLocalObjectReference "alice".

(** Nothing can be read. *)

(** ** Super streams *)

Definition exampleStream (partitions : Z) (existing : list string) : SuperStream :=
  mkResource (mkTypeMeta "rabbitmq.com" "v1alpha1" "SuperStream") (exampleMeta "s" None [])
    (mkSuperStreamSpec "s" "/" partitions [] exampleRef)
    (mkSuperStreamStatus 1 [] existing).
Definition streamEnv (s : SuperStream) : Env :=
  mkEnv (fun k key => match k with
                      | KSuperStream => inr s
                      | KRabbitmqCluster => inr exampleCluster
                      | _ => inl notFound
                      end) (fun _ => []) empty_broker.

Lemma scale_down_refused_witness :
  Forall (keeps_partitions (exampleStream 1 ["s-0"; "s-1"]))
    (tail (trace_of (streamEnv (exampleStream 1 ["s-0"; "s-1"])) (SuperStream_Reconcile request))).
Proof.
  apply (scale_down_refused request (exampleStream 1 ["s-0"; "s-1"]) _
    (outcome_of (streamEnv (exampleStream 1 ["s-0"; "s-1"])) (SuperStream_Reconcile request)));
    [|reflexivity].
  exact (trace_exec (streamEnv (exampleStream 1 ["s-0"; "s-1"])) (SuperStream_Reconcile request)).
Defined.

Definition stream2 : SuperStream := exampleStream 2 [].

Definition streamTrace : go_trace :=
  tail (tail (trace_of (streamEnv stream2) (SuperStream_Reconcile request))).

Lemma env_honest v e : projT2 e = env_answer v (projT1 e) -> honest e.
Proof.
  destruct e as [a x]. destruct a; try done. destruct k; try done. simpl. intros ->.
  destruct (mutate o) as [e|q] eqn:E; [done|]. by exists o.
Qed.

Lemma superstream_declared_witness :
  stream_done stream2 (mkRabbitmqClusterReference "rmq" "default" None) streamTrace.
Proof.
  refine (superstream_declared request stream2 exampleCluster streamTrace emptyResult _ _ _ _).
  - exact (trace_exec (streamEnv stream2) (SuperStream_Reconcile request)).
  - reflexivity.
  - pose proof (trace_answers (streamEnv stream2) (SuperStream_Reconcile request)) as Ha.
    apply Forall_tail, Forall_tail in Ha. eapply Forall_impl; [exact Ha|]. apply env_honest.
  - discriminate.
Defined.

(** ** No panic *)

(** A new federation, whose secret is set, and a new permission, which names its
    user once. *)
Definition exampleFederation : Federation :=
  mkResource (mkTypeMeta "rabbitmq.com" "v1beta1" "Federation") (exampleMeta "fed" None [])
    (mkFederationSpec "fed" "/" exampleRef (Some (mkLocalObjectReference "upstream")) 0 "on-confirm" 0 0 1
       None false "ex" "" "delete" "" "")%Z
    (mkCommonStatus 1 []).
Definition examplePermission : Permission :=
  mkResource (mkTypeMeta "rabbitmq.com" "v1beta1" "Permission") (exampleMeta "perm" None [])
    (mkPermissionSpec "guest" None "/" (mkVhostPermissions "" ".*" ".*") exampleRef)
    (mkCommonStatus 1 []).
Definition policyEnv : Env :=
  mkEnv (fun k key => match k with
                      | KFederation => inr exampleFederation
                      | KPermission => inr examplePermission
                      | KSecret => inr (mkSecret (mkTypeMeta "" "v1" "Secret") (exampleMeta "upstream" None [])
                          (<["uri" := "amqp://upstream"]> (Data exampleSecret)) "Opaque")
                      | k => exampleGet newExchange k key
                      end) (fun _ => []) empty_broker.

(** The objects of a trace, one by one. *)
Definition handed_complete (k : kind) (e : event result) : Prop :=
  match e with
  | existT (CGet k' _) (inr o) | existT (CUpdate k' _) (inr o) => k' = k -> complete k' o
  | _ => True
  end.
#[local] Instance complete_dec k (o : object k) : Decision (complete k o).
Proof. destruct k; simpl; apply _. Defined.
#[local] Instance handed_complete_dec k e : Decision (handed_complete k e).
Proof. destruct e as [[] x]; simpl; try destruct x; apply _. Defined.
Lemma handed_out_complete k (tr : go_trace) :
  Forall (handed_complete k) tr -> forall o : object k, handed_out o tr -> complete k o.
Proof.
  intros Hall o [[key Hin]|[sent Hin]]; rewrite Forall_forall in Hall; by apply (Hall _ Hin).
Qed.

Lemma reconcile_no_panic_witness :
  returns (outcome_of policyEnv (Reconcile KFederation config request)) /\
  returns (outcome_of policyEnv (Reconcile KPermission config request)).
Proof.
  split.
  - apply (reconcile_no_panic KFederation config request _ _
      (trace_exec policyEnv (Reconcile KFederation config request))).
    apply handed_out_complete. refine (bool_decide_unpack _ _). vm_compute. exact I.
  - apply (reconcile_no_panic KPermission config request _ _
      (trace_exec policyEnv (Reconcile KPermission config request))).
    apply handed_out_complete. refine (bool_decide_unpack _ _). vm_compute. exact I.
Defined.

(** ** The start of the operator *)

Definition exampleProcess : process :=
  mkProcess (list_to_map [("OPERATOR_NAMESPACE", "rabbitmq-system");
                          ("MESSAGING_DOMAIN_NAME", "cluster.local");
                          ("LEASE_DURATION", "15")])
    (fun _ => inl "no such file").

(** Fifteen seconds, and the first duration that does not fit. *)
Definition longProcess : process :=
  mkProcess (<["SYNC_PERIOD" := "9223372037"]> ∅) (fun _ => inl "no such file").

Lemma env_duration_witness :
  (exists d, ParseInt "15" = Some d /\ 15000000000%Z = (d * 1000000000)%Z) /\
  (exists d, ParseInt "9223372037" = Some d /\ ((-9223372036709551616 - d * 1000000000) mod 2 ^ 64 = 0)%Z /\
    ~ (- 9223372036 <= d <= 9223372036)%Z).
Proof.
  split.
  - destruct (env_duration exampleProcess "LEASE_DURATION" 15000000000 eq_refl) as (d & Hd & _ & _ & Hv).
    exists d. split; [exact Hd|]. apply Hv.
    assert (Some d = Some 15%Z) as [= ->] by (rewrite <- Hd; vm_compute; reflexivity). lia.
  - destruct (env_duration longProcess "SYNC_PERIOD" (-9223372036709551616) eq_refl) as (d & Hd & _ & Hm & Hv).
    exists d. split; [exact Hd|]. split; [exact Hm|].
    assert (Some d = Some 9223372037%Z) as [= ->] by (rewrite <- Hd; vm_compute; reflexivity). lia.
Defined.

Definition deployedArgs : list string := ["--leader-elect"; "--health-probe-bind-address=:8081"].
Definition exampleRuntime : Runtime := mkRuntime None None (fun _ => None) None None None.
Definition startedOperator : ManagerOptions * list registration :=
  match main deployedArgs exampleProcess (fun _ => None) exampleRuntime with
  | inr x => x
  | inl _ => (mkManagerOptions (metricsServerOptions defaultFlags) (webhookServerOptions defaultFlags)
                "" false "" "" None None None None None false ∅ [], [])
  end.

Lemma servers_protected_witness :
  offered (WebhookServer startedOperator.1) (mkTLSConfig ["h2"; "http/1.1"]) = ["http/1.1"] /\
  BindAddress (Metrics startedOperator.1) = "0" /\ LeaderElection startedOperator.1 = true.
Proof.
  destruct (servers_protected deployedArgs exampleProcess (fun _ => None) exampleRuntime
              startedOperator.1 startedOperator.2 ltac:(vm_compute; reflexivity))
    as (Hh & _ & _ & Hb & _).
  assert (forall name, name <> "leader-elect" -> name <> "health-probe-bind-address" ->
    no_flag name deployedArgs) as Hno.
  { intros name H1 H2 a v. unfold deployedArgs. rewrite !elem_of_cons, elem_of_nil.
    intros [->|[->|[]]]; simpl; congruence. }
  split; [apply Hh, Hno; discriminate|]. split; [apply Hb, Hno; discriminate|]. reflexivity.
Defined.

(** ** Vault *)

Definition loginSecret : vault_secret :=
  mkVaultSecret [] None (Some (mkSecretAuth "s.token" true)).
Definition userSecret : vault_secret :=
  mkVaultSecret [] (Some [("data", VMap [("username", VString "guest");
                                         ("password", VString "secret")])]) None.

Definition vault_answer (a : vault_action) : vault_result a :=
  match a with
  | VGetenv name => if bool_decide (name = "VAULT_ADDR") then "http://vault:8200" else ""
  | VReadFile _ => inr "jwt"
  | VSystemCertPool => inr (mkCertPool 1)
  | VNewClient _ => None
  | VSetNamespace _ | VSetToken _ => tt
  | VWrite _ _ => inr (Some loginSecret)
  | VRead _ => inr (Some userSecret)
  | VNewLifetimeWatcher _ => None
  end.

Definition vault_trace_of {A} (p : prog vault_result A) : trace vault_result :=
  (run (fun a u => (vault_answer a, u)) p tt).1.1.

Lemma vault_run_exec {A} (p : prog vault_result A) :
  exec p (vault_trace_of p) (run (fun a u => (vault_answer a, u)) p tt).1.2.
Proof.
  unfold vault_trace_of. destruct (run _ p tt) as [[tr o] s] eqn:E. by eapply run_exec.
Qed.

(** After the first login the token is watched. *)
Lemma vault_session_witness :
  let tr := vault_trace_of (renewTurn false) in
  let s := mkRenewState AtSelect [None] in
  Datatypes.length (sends s) <= 1 /\ (pc s <> AtLogin false -> sends s <> []) /\
  (sends s = [None] -> exists t, last (tokens tr) = Some t /\ t <> "") /\
  (forall e, sends s = [Some e] -> pc s = AtReturn /\ tokens tr = []).
Proof.
  apply (vault_session ([] ++ vault_trace_of (renewTurn false)) (mkRenewState AtSelect [None])).
  eapply run_step; [constructor|].
  exact (step_turn false [] _ [None] AtSelect (vault_run_exec (renewTurn false))).
Defined.

Definition vaultCluster : RabbitmqCluster :=
  mkRabbitmqCluster (mkTypeMeta "rabbitmq.com" "v1beta1" "RabbitmqCluster")
    (exampleMeta "rmq" None []) (Some 3%Z) (Some "secret/data/rmq") "" (Some (Some "rmq")) None
    false false.

Lemma vault_default_user_witness :
  (run (answers (with_vault None vault_answer (env_answer (exampleEnv newExchange))))
     (defaultUserCredentials vaultCluster "default") tt).1.2 =
    Returned (inr ("guest", "secret")).
Proof.
  apply (vault_default_user None vault_answer (env_answer (exampleEnv newExchange)) vaultCluster
           "default" "guest" "secret" ltac:(discriminate)).
  split; [reflexivity|]. exists userSecret. split; [reflexivity|]. split; [reflexivity|].
  do 2 eexists. split_and!; reflexivity.
Defined.

(** ** The life of objects *)

Definition defaultVhost : rmq_call := PutVhost "/" (mkVhostSettings false [] "").
Definition noObjects : store := fun _ _ => None.
Definition withExchange (ex : Exchange) (b : broker_state) : Store :=
  mkStore (put_object KExchange request (Some ex) noObjects) b 1000.
Definition emptyStore (ex : Exchange) : Store := withExchange ex (<[BVhost "/" := defaultVhost]> ∅).

Definition directExchange : rmq_call :=
  DeclareExchange "/" "ex" (mkExchangeSettings "direct" true false (Some [])).
Definition exchangeGoal : Goal := entry (BExchange "/" "ex") directExchange.

Lemma exchange_ok :
  ServerOk KExchange request storeHandler storeReads stored_objects store_broker willingly.
Proof. exact (store_ok KExchange request (fun n => n)). Qed.

Lemma reconcile_converges_witness :
  exists o' s', yields storeHandler (Reconcile KExchange config request)
      (emptyStore newExchange) (emptyResult, None) s' /\
    stored_objects s' KExchange request = Some o' /\
    store_broker s' !! BExchange "/" "ex" = Some directExchange /\
    store_broker s' !! BVhost "/" = Some defaultVhost /\
    exists s'', yields storeHandler (Reconcile KExchange config request) s' (emptyResult, None) s'' /\
      stored_objects s'' KExchange request = Some o'.
Proof.
  destruct (reconcile_converges KExchange config request storeHandler storeReads stored_objects
    store_broker willingly exchange_ok (emptyStore newExchange) newExchange directExchange exchangeGoal
    eq_refl eq_refl) as (o' & s' & Hrun & Ho & _ & Hb & _ & _ & _ & _ & s'' & Hagain & Hsame & _).
  - by apply reachable_all.
  - reflexivity.
  - vm_compute. reflexivity.
  - exists o', s'. split; [exact Hrun|]. split; [exact Ho|]. rewrite Hb.
    split; [vm_compute; reflexivity|]. split; [vm_compute; reflexivity|].
    exists s''. split; [exact Hagain|]. rewrite Hsame. exact Ho.
Defined.

(** A virtual host that is being deleted, with an exchange inside. *)
Definition vhostRequest : NamespacedName := mkNamespacedName "default" "v".
Definition goneVhost : Vhost :=
  mkResource (mkTypeMeta "rabbitmq.com" "v1beta1" "Vhost")
    (exampleMeta "v" (Some 5%Z) ["deletion.finalizers.vhosts.rabbitmq.com"])
    (mkVhostSpec "v" false [] "" exampleRef "delete" None) (mkCommonStatus 1 []).
Definition inVhost : rmq_call := DeclareExchange "v" "ex" (mkExchangeSettings "direct" true false None).
Definition vhostStore : Store :=
  mkStore (put_object KVhost vhostRequest (Some goneVhost) noObjects)
    (<[BVhost "v" := PutVhost "v" (mkVhostSettings false [] "")]>
      (<[BExchange "v" "ex" := inVhost]> (<[BVhost "/" := defaultVhost]> ∅))) 1000.

(** A binding without arguments that is being deleted; its routing key has a tilde,
    and so has that of another binding, which stays. *)
Definition bindingRequest : NamespacedName := mkNamespacedName "default" "b".
Definition goneBinding : Binding :=
  mkResource (mkTypeMeta "rabbitmq.com" "v1beta1" "Binding")
    (exampleMeta "b" (Some 5%Z) ["deletion.finalizers.bindings.rabbitmq.com"])
    (mkBindingSpec "/" "ex" "q" "queue" "a~b" None exampleRef) (mkCommonStatus 1 []).
Definition boundBy (key : string) : rmq_call :=
  DeclareBinding "/" (mkBindingInfo "/" "ex" "q" "queue" key (Some []) "").
Definition boundKey (id : string) : bkey := BBinding "/" "ex" "q" "queue" id.
Definition bindingStore : Store :=
  mkStore (put_object KBinding bindingRequest (Some goneBinding) noObjects)
    (<[boundKey "a%7Eb" := boundBy "a~b"]> (<[boundKey "a%7Ec" := boundBy "a~c"]>
      (<[BVhost "/" := defaultVhost]> ∅))) 1000.

Lemma deletion_converges_witness :
  (exists s', yields storeHandler (Reconcile KBinding config bindingRequest) bindingStore
       (emptyResult, None) s' /\
     stored_objects s' KBinding bindingRequest = None /\ store_broker s' !! boundKey "a%7Eb" = None /\
     store_broker s' !! boundKey "a%7Ec" = Some (boundBy "a~c")) /\
  exists s', yields storeHandler (Reconcile KVhost config vhostRequest) vhostStore (emptyResult, None) s' /\
    stored_objects s' KVhost vhostRequest = None /\ store_broker s' !! BVhost "v" = None /\
    store_broker s' !! BExchange "v" "ex" = None /\ store_broker s' !! BVhost "/" = Some defaultVhost.
Proof.
  split.
  { destruct (deletion_converges KBinding config bindingRequest storeHandler storeReads stored_objects
      store_broker willingly (store_ok KBinding bindingRequest (fun n => n)) bindingStore goneBinding eq_refl)
      as (s' & Hrun & Ho & _ & Hb).
    - by eexists.
    - reflexivity.
    - by apply reachable_all.
    - eexists. split; [reflexivity|]. vm_compute. reflexivity.
    - exists s'. split; [exact Hrun|]. split; [exact Ho|]. rewrite Hb. vm_compute. split; reflexivity. }
  destruct (deletion_converges KVhost config vhostRequest storeHandler storeReads stored_objects
    store_broker willingly (store_ok KVhost vhostRequest (fun n => n)) vhostStore goneVhost eq_refl)
    as (s' & Hrun & Ho & _ & Hb).
  - by eexists.
  - reflexivity.
  - by apply reachable_all.
  - exact I.
  - exists s'. split; [exact Hrun|]. split; [exact Ho|]. rewrite Hb. vm_compute. split_and!; reflexivity.
Defined.

(** The first read of the exchange fails, the second reconciliation is undisturbed. *)
Definition unavailable : api_error := mkApiError (StatusReasonOther "ServiceUnavailable") "try again".
(** Meanwhile others declare a queue and leave the exchange alone. *)
Definition aside (s s' : Store) : Prop :=
  stored_objects s' KExchange request = stored_objects s KExchange request /\
  store_broker s' !! BVhost "/" = store_broker s !! BVhost "/" /\
  store_broker s' !! BExchange "/" "ex" = store_broker s !! BExchange "/" "ex".

Lemma aside_ok :
  OthersOk KExchange request stored_objects store_broker willingly directExchange exchangeGoal aside.
Proof.
  split.
  - split; [by intros s|]. intros s1 s2 s3 (Ha & Hb & Hc) (Ha' & Hb' & Hc').
    split; [by rewrite Ha'|]. split; [by rewrite Hb'|by rewrite Hc'].
  - by intros s s' [? _].
  - intros s s' key (_ & _ & Hk). unfold exchangeGoal. rewrite footprint_entry.
    by intros ->%elem_of_singleton.
  - intros s s' (_ & Hv & Hk). unfold willingly, admits. simpl. by rewrite Hv, Hk.
Qed.

Definition withQueue (s : Store) : Store :=
  set_entries (<[BQueue "/" "q" := DeclareQueue "/" "q" (mkQueueSettings "classic" true false None)]>
    (store_entries s)) s.

Lemma withQueue_aside s : aside s (withQueue s).
Proof.
  split; [done|]. unfold withQueue.
  rewrite (store_broker_insert s (DeclareQueue "/" "q" (mkQueueSettings "classic" true false None))
    (BQueue "/" "q") eq_refl). by rewrite !lookup_insert_ne.
Qed.

Definition undisturbed : go_trace * outcome (Result * option error) * Store :=
  run storeHandler (Reconcile KExchange config request) (withQueue (emptyStore newExchange)).
Definition twoAttempts : list (outcome (Result * option error) * Store) :=
  [(Returned (emptyResult, Some (ErrAPI unavailable)), withQueue (emptyStore newExchange));
   (undisturbed.1.2, undisturbed.2)].

Lemma twoAttempts_ok :
  attempts KExchange config request storeHandler aside (emptyStore newExchange) twoAttempts 1.
Proof.
  pose proof (others_preorder _ _ _ _ _ _ _ _ aside_ok).
  refine (attempts_cons _ _ _ _ _ _ [existT (P:=result) (CGet KExchange request) (inl unavailable)]
    _ _ 1 _ 0 _ _ _).
  - do 2 eexists. split; [reflexivity|]. by split.
  - exists (emptyStore newExchange). split; [reflexivity|]. right. split; [by exists unavailable|].
    exists (emptyStore newExchange), 0%nat. split; [by left|]. split; [done|].
    split; [apply withQueue_aside|done].
  - refine (attempts_cons _ _ _ _ _ _ undisturbed.1.1 _ _ 0 _ 0 _ _ (attempts_nil _ _ _ _ _ _)).
    + apply (run_exec storeHandler _ (withQueue (emptyStore newExchange)) _ _ undisturbed.2).
      by destruct undisturbed as [[? ?] ?] eqn:E.
    + apply (run_faulty KExchange storeHandler aside (Reconcile KExchange config request) _
        undisturbed.1.2). by destruct undisturbed as [[? ?] ?] eqn:E.
Qed.

Lemma declared_despite_faults_witness :
  Exists (fun '(out, s') => out = Returned (emptyResult, None) /\
    met exchangeGoal (store_broker s') /\
    exists o', stored_objects s' KExchange request = Some o' /\
      finalizerOf KExchange o' ∈ Finalizers (meta KExchange o') /\
      on_wanted (k:=KExchange) storeReads o' = Some (directExchange, exchangeGoal)) twoAttempts.
Proof.
  refine (declared_despite_faults KExchange config request storeHandler storeReads stored_objects
    store_broker willingly exchange_ok aside (emptyStore newExchange) newExchange directExchange
    exchangeGoal twoAttempts 1 eq_refl eq_refl _ eq_refl _ aside_ok twoAttempts_ok _).
  - by apply reachable_all.
  - vm_compute. reflexivity.
  - simpl. lia.
Defined.

(** ** A secret that is imported by a user *)

Definition importingUser : User :=
  let u := exampleUser None in
  mkResource (resource_TypeMeta u) (resource_ObjectMeta u)
    (mkUserSpec [] exampleRef (Some (mkLocalObjectReference "creds")) false None) (Status u).
Definition importedSecret : Secret :=
  mkSecret (mkTypeMeta "" "v1" "Secret") (exampleMeta "creds" None []) (Data exampleSecret) "Opaque".
Definition indexReads (a : action) : result a :=
  match a with
  | CListUsersByImportSecret ns name =>
      inr (base.filter (fun u : User => Namespace (resource_ObjectMeta u) = ns /\
        name ∈ importSecretIndex u) [importingUser])
  | a => env_answer (exampleEnv newExchange) a
  end.

Lemma secret_watch_witness :
  exists reqs, outcome_with indexReads (secretToUserRequests importedSecret) = Returned reqs /\
    user_request importingUser ∈ reqs.
Proof.
  destruct (secret_watch [importingUser] indexReads importedSecret) as [_ Hw].
  - intros ns name. eexists. split; [reflexivity|]. intros u. rewrite list_elem_of_filter. tauto.
  - destruct Hw as (reqs & Hr & Hq); [done|]. exists reqs. split; [exact Hr|].
    apply Hq. exists importingUser. split_and!; try reflexivity. set_solver.
Defined.

(** ** A super stream that is scaled up *)

Lemma stream_update_admitted_witness :
  exists kept added, streamBuilders (exampleStream 3 ["s-0"]) ["0"; "1"; "2"] = kept ++ added /\
    Forall2 takes_over (streamBuilders (exampleStream 1 []) ["0"]) kept /\
    Forall creation_admitted (kept ++ added).
Proof.
  apply (stream_update_admitted (exampleStream 1 []) (exampleStream 3 ["s-0"]) ["0"] []);
    [by split|reflexivity..|done].
Defined.

(** ** The number of calls *)

Lemma reconciliations_end_witness :
  (forall env : handler result Store,
     let '(calls, _, _) := run env (Reconcile KUser config request) (emptyStore newExchange) in
     Datatypes.length calls <= 32) /\
  (let '(calls, _, _) := run (fun a (s : unit) => (env_answer (streamEnv stream2) a, s))
                           (SuperStream_Reconcile request) tt in
   Datatypes.length calls <= 38).
Proof.
  destruct reconciliations_end as [Hk Hs]. split.
  - intros env. apply (Hk KUser _ _ 16 _ config request Store env (emptyStore newExchange)).
  - apply (Hs request unit _ tt 2). intros s' stream. simpl. intros [= <-]. reflexivity.
Defined.

(** ** A queue in memory

    Here the embedded types of apimachinery are lists of texts. *)

Definition textsTy (e : ext) (t : tree) : Prop :=
  t = LNil \/ exists xs, t = LCell xs /\ Forall (fun x => exists b, x = LBasic b) xs.
Definition copyTexts (e : ext) : copier := slice shallow.

Lemma texts_copied : ExtCopies textsTy copyTexts.
Proof. intros e. exact (copies_slice textsTy TBasic shallow (copies_shallow textsTy TBasic eq_refl)). Qed.

Definition text (n b : string) : string * val := (n, VBasic b).
Definition queueHeap : gmap positive (list val) :=
  list_to_map
    [(1%positive, [VStruct
       [("TypeMeta", VStruct [text "Kind" "Queue"; text "APIVersion" "v1beta1"]);
        ("ObjectMeta", VRef (Some 4%positive));
        ("Spec", VStruct
           [text "Name" "q"; text "Vhost" "/"; text "Type" "quorum"; ("Durable", VRef (Some 2%positive));
            text "AutoDelete" "false"; text "DeleteIfEmpty" "false"; text "DeleteIfUnused" "false";
            ("Arguments", VRef (Some 3%positive));
            ("RabbitmqClusterReference", VStruct
               [text "Name" "rmq"; text "Namespace" ""; ("ConnectionSecret", VRef None)]);
            text "DeletionPolicy" "delete"]);
        ("Status", VStruct [text "ObservedGeneration" "1"; ("Conditions", VRef None)])]]);
     (2%positive, [VBasic "true"]); (3%positive, [VRef (Some 5%positive)]);
     (4%positive, [VBasic "q"; VBasic "default"]); (5%positive, [VBasic "{}"])].

Definition leaf (n b : string) : string * tree := (n, LBasic b).
Definition queueTree : tree :=
  LCell [LStruct
    [("TypeMeta", LStruct [leaf "Kind" "Queue"; leaf "APIVersion" "v1beta1"]);
     ("ObjectMeta", LCell [LBasic "q"; LBasic "default"]);
     ("Spec", LStruct
        [leaf "Name" "q"; leaf "Vhost" "/"; leaf "Type" "quorum"; ("Durable", LCell [LBasic "true"]);
         leaf "AutoDelete" "false"; leaf "DeleteIfEmpty" "false"; leaf "DeleteIfUnused" "false";
         ("Arguments", LCell [LCell [LBasic "{}"]]);
         ("RabbitmqClusterReference", LStruct
            [leaf "Name" "rmq"; leaf "Namespace" ""; ("ConnectionSecret", LNil)]);
         leaf "DeletionPolicy" "delete"]);
     ("Status", LStruct [leaf "ObservedGeneration" "1"; ("Conditions", LNil)])]].

Lemma queue_rep : exists L, rep queueHeap (VRef (Some 1%positive)) queueTree L.
Proof. eexists. repeat first [eapply rep_cell; [reflexivity|] | econstructor]. Qed.

Ltac typed :=
  repeat match goal with
  | |- has_ty _ _ _ => cbn
  | |- match _ with _ => _ end => cbn
  | |- exists ts, LStruct _ = LStruct ts /\ _ => eexists; split; [reflexivity|]
  | |- exists b, LBasic _ = LBasic b => by eexists
  | |- LNil = LNil \/ _ => by left
  | |- textsTy _ _ => right; eexists; split; [reflexivity|]
  | |- LCell _ = LNil \/ _ => right; eexists; split; [reflexivity|]
  | |- _ /\ _ => split
  | |- Forall _ _ => constructor
  | |- _ = _ => reflexivity
  | |- True => exact I
  end.

Lemma deep_copies_independent_witness :
  exists L, let '(v', h') := Queue_DeepCopyObject copyTexts (VRef (Some 1%positive)) queueHeap in
    rep h' (VRef (Some 1%positive)) queueTree L /\
    exists L', rep h' v' queueTree L' /\
      (forall later, (forall l, l ∉ dom queueHeap -> later !! l = h' !! l) -> rep later v' queueTree L') /\
      (forall later, (forall l, l ∈ dom queueHeap -> later !! l = h' !! l) ->
         rep later (VRef (Some 1%positive)) queueTree L).
Proof.
  destruct queue_rep as [L HL]. exists L. pose proof texts_copied.
  apply (deep_copies_independent (mkGenerated Queue_ty (Queue_DeepCopyInto copyTexts)
    (Queue_DeepCopy copyTexts) (Some (Queue_DeepCopyObject copyTexts))) (Queue_DeepCopyObject copyTexts)
    queueHeap (VRef (Some 1%positive)) queueTree L).
  - apply (list_elem_of_lookup_2 _ 34). reflexivity.
  - apply list_elem_of_further, list_elem_of_here.
  - exact HL.
  - unfold queueTree, leaf. typed.
Defined.

(** ** A permission that is being deleted *)

Definition gonePermission : Permission :=
  mkResource (mkTypeMeta "rabbitmq.com" "v1beta1" "Permission")
    (exampleMeta "p" (Some 5%Z) ["deletion.finalizers.permissions.rabbitmq.com"])
    (mkPermissionSpec "guest" None "/" (mkVhostPermissions "" "" ".*") exampleRef)
    (mkCommonStatus 0 []).

(** The API server keeps whether the permission is still there. *)
Definition permissionHandler : handler result bool := fun a there =>
  match a with
  | CUpdate KPermission o => if there then (inr o, negb (bool_decide (Finalizers (meta KPermission o) = [])))
                             else (inl notFound, there)
  | a => (env_answer (exampleEnv newExchange) a, there)
  end.
Definition permissionRun : go_trace * outcome (Result * option error) * bool :=
  run permissionHandler (reconcileDelete KPermission exampleClient gonePermission) true.

Definition update_accepted (e : event result) : bool :=
  match e with existT (CUpdate _ _) (inr _) => true | _ => false end.

Lemma permission_gone : goes_with_last_finalizer KPermission permissionRun.1.1.
Proof.
  intros tr1 sent stored tr2 Heq _ _ sent' x Hin.
  apply (f_equal (fmap update_accepted)) in Heq. rewrite fmap_app in Heq. csimpl in Heq.
  change ([false; true; false; false] = (update_accepted <$> tr1) ++ true :: (update_accepted <$> tr2))
    in Heq.
  assert (Hrest : update_accepted <$> tr2 = [false; false])
    by (destruct tr1 as [|? [|? [|? [|? [|? ?]]]]]; by simplify_eq/=).
  apply (list_elem_of_fmap_2 update_accepted) in Hin. rewrite Hrest in Hin.
  destruct x as [e|o]; [by exists e|]. simpl in Hin. set_solver.
Qed.

Lemma permission_deletion_error_witness :
  exists res e, permissionRun.1.2 = Returned (res, Some e).
Proof.
  apply (proj1 (permission_deletion_error exampleClient) gonePermission permissionRun.1.1).
  - apply (run_exec permissionHandler _ true _ _ permissionRun.2). reflexivity.
  - apply permission_gone.
  - by eexists.
  - reflexivity.
Defined.
