(* ===== verification/SystemWitnesses.v ===== *)
(** * The theorems on clients, wiring and super streams at concrete inputs

    The clients, caches and schemes of ClientServer.v, a manager that accepts every
    registration, and a Kubernetes API that stores a super stream and its children. *)

From S2P Require Import Prelude.
From S2P Require Import GoStrings.
From S2P Require Import GoErrors.
From S2P Require Import Prog.
From S2P Require Import Api.
From S2P Require Import Scheme.
From S2P Require Import World.
From S2P Require Import Resources.
From S2P Require Import Settings.
From S2P Require Import Utils.
From S2P Require Import TopologyReconciler.
From S2P Require Import UserController.
From S2P Require Import Webhooks.
From S2P Require Import SuperStreams.
From S2P Require Import GoFlag.
From S2P Require Import Setup.
From S2P Require Import SetupProofs.
From S2P Require Import Lifecycle.
From S2P Require Import Instances.
From S2P Require Import Rest.
From S2P Require Import Clientset.
From S2P Require Import ClientStore.
From S2P Require Import Listers.
From S2P Require Import Informers.
From S2P Require Import InformerProofs.
From S2P Require Import CacheReads.
From S2P Require Import FakeClients.
From S2P Require Import ClientServer.
From S2P Require Import StreamLifecycle.
From S2P Require Import Wiring.
From S2P Require Import WiringProofs.
From S2P Require Import WebhookConfig.
From S2P Require Import Rbac.
From Stdlib Require Import Ascii.
Import ProgNotations.

(** ** The scheme *)

Lemma scheme_complete_witness :
  exists s, main_init = inr s /\ knows s (ObjectType KTopicPermission) /\
    exists s', clientset_init = inr s' /\ fake_init = inr s' /\ knows s' (ObjectListType KQueue).
Proof.
  destruct scheme_complete as (s & Hs & Hk & _ & _ & s' & Hc & Hf & _ & Hk').
  exists s. split; [exact Hs|]. split; [exact (Hk KTopicPermission)|].
  exists s'. split; [exact Hc|]. split; [exact Hf|].
  apply (Hk' (ObjectListType KQueue) eq_refl). repeat split; discriminate.
Defined.

(** ** Clients *)

Definition exampleConfig : Config :=
  mkConfig "https://kubernetes" "" None None "" (SpecFloat.S754_zero false) 0 None.

Definition exampleClientset : Clientset.Clientset :=
  match Clientset.NewForConfig exampleConfig with
  | inr cs => cs
  | inl _ => Clientset.New (v1beta1.SchemeGroupVersion : RESTClient)
  end.

Definition ordersQueue : Queue := under (mkNamespacedName "default" "orders") KQueue (blank KQueue).

Definition createOrders : kop KQueue :=
  OpCreate (k:=KQueue) ordersQueue (mkWriteOptions [] "" "" None).
Definition getOrders : kop KQueue := OpGet "orders" (mkGetOptions "").

Lemma run_parts {T A S : Type} (x : T * outcome A * S) a :
  x.1.2 = Returned a -> x = (x.1.1, Returned a, x.2).
Proof. destruct x as [[t o] s]. simpl. by intros ->. Qed.

Definition queueClient (ns : string) : TypedInterface rest KQueue :=
  match clientOf (Clientset.asInterface exampleClientset) KQueue with
  | Some t => t ns
  | None => typedClient KQueue "queues" (mkTyped None ns)
  end.

Definition created : mem := (run serve (perform (queueClient "default") createOrders) (∅ : mem)).2.

(** A queue is created and read back. *)
Lemma clients_refine_store_witness :
  exists s', spec_session (St:=mem) (abs (∅ : mem))
    [mkStep KQueue "default" createOrders (Some ordersQueue, None);
     mkStep KQueue "default" getOrders (Some ordersQueue, None)] (abs (s' : mem)).
Proof.
  exists (run serve (perform (queueClient "default") getOrders) created).2.
  refine (proj2 (clients_refine_store exampleConfig exampleClientset eq_refl) ∅ _ _ _).
  eapply (session_cons _ KQueue queueClient);
    [reflexivity|apply run_parts; vm_compute; reflexivity|].
  eapply (session_cons _ KQueue queueClient);
    [reflexivity|apply run_parts; vm_compute; reflexivity|]. apply session_nil.
Defined.

(** ** Informers *)

Definition exampleInterface := Clientset.asInterface exampleClientset.
Definition exampleFactory : Heap RESTClient DiscoveryClient rest :=
  mkHeap (NewSharedInformerFactoryWithOptions exampleInterface 30 [WithNamespace "default"]) 0 [].

Definition queueGetter (c : Interface RESTClient DiscoveryClient rest) : string -> TypedInterface rest KQueue :=
  Queues (RabbitmqV1beta1 c).
Definition firstRequest := accessor KQueue queueGetter exampleFactory.
Definition startedFactory := Start (map_to_list (informers (factory firstRequest.2))) firstRequest.2.
Definition secondRequest := accessor KQueue queueGetter startedFactory.

Lemma example_fresh : fresh_heap exampleFactory.
Proof.
  exists exampleInterface, 30%Z, [WithNamespace "default"]. split; [|by split].
  repeat constructor.
Qed.

(** The informer is asked for, started, and asked for again. *)
Lemma factory_shares_witness :
  firstRequest.1 = secondRequest.1 /\ NoDup (Informers.running secondRequest.2) /\
  address firstRequest.1 ∈ Informers.running secondRequest.2.
Proof.
  destruct (factory_shares exampleFactory
    [Requested KQueue firstRequest.1; Started; Requested KQueue secondRequest.1] secondRequest.2)
    as (Hsame & _ & Hnd & Hrun & _).
  - exact example_fresh.
  - assert (Ha : forall i, allocates (defaultInformer KQueue queueGetter i))
      by done.
    refine (fsteps_snoc _ [_; _] startedFactory _ _ (fsteps_snoc _ [_] firstRequest.2 _ _
              (fsteps_snoc _ [] exampleFactory _ _ (fsteps_nil _) _) _) _).
    + eapply fstep_request; [apply Ha|]. apply surjective_pairing.
    + by apply fstep_start.
    + apply (fstep_request _ (defaultInformer KQueue queueGetter (Rabbitmq (factory startedFactory))));
        [apply Ha|]. apply surjective_pairing.
  - split; [apply (Hsame KQueue); set_solver|]. split; [exact Hnd|]. apply Hrun.
    exists KQueue, firstRequest.1. split; [apply list_elem_of_here|]. split; [|done].
    vm_compute. exact eq_refl.
Defined.

(** ** Caches *)

(** The cluster holds the queue; the informer lists it, and the lister of a cache
    that is in sync with that list reads it back. *)
Definition exampleCache (l : list Queue) : list cached :=
  (fun o : Queue => CachedObject (existT KQueue o)) <$> l.

Definition anyList : ListOptions := mkListOptions "" "" false false "" "" None 0 "" None.

Definition ordersList : option (ObjectList KQueue) * option error :=
  (Some (mkObjectList "" [ordersQueue : object KQueue]), None).

Lemma cache_reads_server_witness :
  exists o, getIn (NewQueueLister (exampleCache [ordersQueue])) "default" "orders" =
      Returned (Some o, None) /\
    visible (factory exampleFactory) anyList created KQueue o.
Proof.
  destruct (cache_reads_server exampleConfig exampleClientset exampleFactory
    [Requested KQueue firstRequest.1] firstRequest.2 KQueue (address firstRequest.1)
    (ListFunc firstRequest.1) (WatchFunc firstRequest.1) (resyncPeriod firstRequest.1)
    (indexers firstRequest.1) eq_refl example_fresh eq_refl)
    as (_ & Hreads).
  - refine (gsteps_snoc _ [] exampleFactory _ _ (gsteps_nil _) _).
    eapply (gstep_access KQueue queueGetter); [reflexivity|]. apply surjective_pairing.
  - apply list_elem_of_here.
  - destruct (Hreads anyList created) as (e & ans & s' & Hrun & Hl).
    assert (Hans : Returned ans = Returned ordersList).
    { etransitivity; [exact (eq_sym (f_equal (fun x => x.1.2) Hrun))|vm_compute; reflexivity]. }
    injection Hans as ->. destruct (Hl eq_refl) as (l & [= <-] & Hread).
    destruct (Hread NewQueueLister (exampleCache [ordersQueue]) eq_refl) as [Hget _].
    { exists [ordersQueue]. split; [|split; [done|by repeat constructor]].
      split; [done|]. split; [apply NoDup_singleton|]. by repeat constructor. }
    specialize (Hget "default" "orders" eq_refl). exists ordersQueue. split; [vm_compute; reflexivity|].
    assert (E : getIn (NewQueueLister (exampleCache [ordersQueue])) "default" "orders" =
                Returned (Some ordersQueue, None)) by (vm_compute; reflexivity).
    rewrite E in Hget. exact (proj1 Hget).
Defined.

(** ** Fakes *)

#[local] Instance anyLabels : LabelLib := {
  LSelector := unit; ExtractLabel _ := None; Everything := tt; LMatches _ _ := true
}.
#[local] Instance noTracker : TrackerLib := {
  Tracker := list runtime_object; NewObjectTracker := [];
  Tracker_Add o t := (None, o :: t); Tracker_Watch _ _ _ := inl (ErrText "not watched");
  FakeDiscovery := unit; newFakeDiscovery := tt
}.

Definition exampleFakes : FakeClientset :=
  mkFakeClientset [] [] None [].

Lemma fakes_ask_the_same_witness :
  exists t', clientOf (fakeInterface exampleFakes) KQueue = Some t' /\
    asks action_asks (perform (t' "default") createOrders) (question KQueue "default" createOrders).
Proof.
  destruct (fakes_ask_the_same exampleConfig exampleClientset exampleFakes KQueue queueClient
              eq_refl eq_refl) as (t' & Ht' & Hall).
  exists t'. split; [exact Ht'|]. exact (proj2 (Hall "default" createOrders)).
Defined.

(** ** A started operator *)

Definition controllingOwner (t : TypeMeta) (m : ObjectMeta) : list NamespacedName :=
  match GetControllerOf m with
  | Some ref =>
      if bool_decide (OwnerReference_APIVersion ref = apiVersion t) &&
         bool_decide (OwnerReference_Kind ref = Kind t)
      then [mkNamespacedName (Namespace m) (OwnerReference_Name ref)] else []
  | None => []
  end.
Definition enqueueHandlers : HandlerLib :=
  Build_HandlerLib (fun m => [mkNamespacedName (Namespace m) (Name m)]) controllingOwner
    (fun _ _ _ => []).
#[local] Instance stdHandlers : HandlerLib := {
  EnqueueRequestForObject m := [mkNamespacedName (Namespace m) (Name m)];
  EnqueueRequestForOwner := controllingOwner;
  dispatch := handlers (H:=enqueueHandlers)
}.
#[local] Instance stdHandlersOk : HandlerLibOk.
Proof.
  constructor; [done| |done]. intros t m ref Hc Hv Hk. simpl. unfold controllingOwner.
  by rewrite Hc, !bool_decide_true.
Qed.

#[local] Instance stdPaths : WebhookPaths := {
  ValidatePath t := "/validate-" +:+ pathOf t;
  MutatePath t := "/mutate-" +:+ pathOf t
}.
#[local] Instance stdPathsOk : WebhookPathsOk.
Proof. by constructor. Qed.

Definition acceptingManager : Manager :=
  mkManager (fun _ _ _ => None) (fun _ => None) (fun _ => None).
Definition operatorProcess : process :=
  mkProcess (list_to_map [("OPERATOR_NAMESPACE", "rabbitmq-system")]) (fun _ => inl "no such file").
Definition operatorArgs : list string := ["--leader-elect"].
Definition acceptingRuntime : Runtime :=
  runtimeOf acceptingManager (mkRuntime None None (fun _ => None) None None None).
Definition runningOperator : ManagerOptions * list registration :=
  match main operatorArgs operatorProcess (fun _ => None) acceptingRuntime with
  | inr x => x
  | inl _ => (mkManagerOptions (metricsServerOptions defaultFlags) (webhookServerOptions defaultFlags)
                "" false "" "" None None None None None false ∅ [], [])
  end.

Lemma operator_runs :
  main operatorArgs operatorProcess (fun _ => None) acceptingRuntime =
  inr (runningOperator.1, runningOperator.2).
Proof. vm_compute. reflexivity. Qed.

(** ** Super streams *)

#[local] Instance stdOwnerStable : OwnerStable.
Proof.
  intros t owner m m'. unfold SetControllerReference, stdLibs, std_SetControllerReference.
  destruct (existsb _ (OwnerReferences m)) eqn:E; [done|]. intros [= <-]. cbn [OwnerReferences].
  set (refs := base.filter _ (OwnerReferences m)).
  set (ref := mkOwnerReference _ _ _ _ _).
  assert (Hrefs : existsb (fun r => deref (OwnerReference_Controller r) false &&
    negb (bool_decide (OwnerReference_Name r = Name owner))) refs = false).
  { apply not_true_is_false. intros (r & Hr & Hx)%existsb_exists.
    apply not_true_iff_false in E. apply E, existsb_exists. exists r. split; [|done].
    apply list_elem_of_In. apply list_elem_of_In, list_elem_of_filter in Hr. tauto. }
  change (OwnerReferences (set_OwnerReferences (refs ++ [ref]) m)) with (refs ++ [ref]).
  rewrite existsb_app, Hrefs. cbn [existsb ref OwnerReference_Name]. rewrite bool_decide_true by done.
  rewrite andb_false_r. cbn [orb]. f_equal.
  rewrite filter_app, (filter_cons_False _ ref) by (intros Hn; by apply Hn). rewrite filter_nil.
  rewrite app_nil_r. unfold set_OwnerReferences. cbn. f_equal. f_equal.
  unfold refs. rewrite list_filter_filter. apply list_filter_iff. tauto.
Qed.

(** A Kubernetes API that holds a super stream and objects of all kinds, the newest
    first. *)
Record streamState := mkStreamState { st_stream : option SuperStream; st_objects : list any_object }.

Fixpoint findObject (objects : list any_object) (k : kind) (key : NamespacedName) :
    option (object k) :=
  match objects with
  | [] => None
  | o :: objects =>
      match assertType k (CachedObject o) with
      | Some x => if decide (object_at k x = key) then Some x else findObject objects k key
      | None => findObject objects k key
      end
  end.
Definition st_child (s : streamState) := findObject (st_objects s).

Definition storedStream : SuperStream :=
  mkResource (mkTypeMeta "rabbitmq.com" "v1alpha1" "SuperStream") (exampleMeta "s" None [])
    (mkSuperStreamSpec "s" "/" 2 [] exampleRef) (mkSuperStreamStatus 1 [] []).
Definition streamRequest : NamespacedName := mkNamespacedName "default" "s".

Definition readStream (s : streamState) (k : kind) : api_error + object k :=
  match k with
  | KSuperStream => match st_stream s with Some o => inr o | None => inl notFound end
  | KRabbitmqCluster => inr exampleCluster
  | _ => inl notFound
  end.
Definition writeStatus (s : streamState) (k : kind) : object k -> streamState :=
  match k with
  | KSuperStream => fun o => mkStreamState (Some o) (st_objects s)
  | _ => fun _ => s
  end.

Definition streamHandler : handler result streamState := fun a s =>
  match a with
  | CGet k _ => (readStream s k, s)
  | CStatusUpdate k o => (inr o, writeStatus s k o)
  | CCreateOrUpdate k o mutate =>
      let cur := deref (st_child s k (object_at k o)) o in
      match mutate cur with
      | inl e => ((OperationResultNone, Some e, cur), s)
      | inr o' => ((OperationResultUpdated, None, o'),
                   mkStreamState (st_stream s) (existT k o' :: st_objects s))
      end
  | a => (env_answer (mkEnv (fun _ _ => inl notFound) (fun _ => []) empty_broker) a, s)
  end.

Lemma findObject_at objects k key o : findObject objects k key = Some o -> object_at k o = key.
Proof.
  induction objects as [|x objects IH]; cbn [findObject]; [done|].
  destruct (assertType k (CachedObject x)) as [y|]; [|done].
  destruct (decide _) as [E|]; [|done]. by intros [= <-].
Qed.

Lemma findObject_cons objects k (o : object k) k' key :
  findObject (existT k o :: objects) k' key =
  match decide (k = k') with
  | left E => if decide (object_at k o = key) then Some (eq_rect k object o k' E)
              else findObject objects k' key
  | right _ => findObject objects k' key
  end.
Proof.
  cbn [findObject assertType]. destruct (decide (k = k')) as [e|Hne]; [|done].
  by destruct e.
Qed.

Lemma streamHandler_serves :
  StreamServer streamRequest (mkNamespacedName "default" "rmq") exampleCluster streamHandler
    st_stream st_child.
Proof.
  split.
  - intros s o Ho. cbn. by rewrite Ho.
  - done.
  - done.
  - intros s k key o. apply findObject_at.
  - intros s o st Ho. by eexists.
  - intros s k o mutate o' Hm Hat. cbn. rewrite Hm. do 2 eexists. split; [done|]. split; [done|].
    unfold st_child. cbn [st_objects]. split.
    + rewrite findObject_cons. destruct (decide (k = k)) as [E|]; [|done].
      rewrite decide_True by done. by rewrite (proof_irrel E eq_refl).
    + intros k' key Hne. rewrite findObject_cons. destruct (decide (k = k')) as [<-|]; [|done].
      rewrite decide_False; [done|]. congruence.
Qed.

(** The exchange of the stream was changed by hand, the other children were deleted. *)
Definition changedExchange : Exchange :=
  mkResource emptyType (exampleMeta (GenerateChildResourceName storedStream superStreamExchangeSuffix)
    None []) (mkExchangeSpec "other" "/" "fanout" false false None exampleRef) emptyStatus.
Definition changedState : streamState :=
  mkStreamState (Some storedStream) [existT KExchange changedExchange].

Lemma stream_converges_witness :
  exists t s', yields streamHandler (SuperStream_Reconcile streamRequest) changedState
                 (emptyResult, None) s' /\
    st_stream s' = Some (set_Status (declaredStatus storedStream ["0"; "1"] t) storedStream) /\
    exists s'', yields streamHandler (SuperStream_Reconcile streamRequest) s' (emptyResult, None) s'' /\
      st_stream s'' = st_stream s'.
Proof.
  destruct (stream_converges streamRequest (mkNamespacedName "default" "rmq") exampleCluster
    streamHandler st_stream st_child streamHandler_serves changedState storedStream ["0"; "1"])
    as (t & s' & Hy & Hst & _ & _ & s'' & Hy2 & Hst2 & _).
  - reflexivity.
  - split; [reflexivity|reflexivity|vm_compute; discriminate|vm_compute; reflexivity].
  - intros b Hb. repeat (apply elem_of_cons in Hb as [->|Hb]; [eexists; vm_compute; reflexivity|]).
    by apply not_elem_of_nil in Hb.
  - exists t, s'. split; [exact Hy|]. split; [exact Hst|]. exists s''. exact (conj Hy2 Hst2).
Defined.

(** ** Wiring *)

Lemma events_routed_witness :
  exists c, c ∈ controllers_of acceptingManager runningOperator.2 /\ For (built c) = KQueue /\
    Ret [mkNamespacedName "default" "orders"] ∈ dispatch (built c) KQueue ordersQueue.
Proof.
  destruct (events_routed acceptingManager operatorArgs operatorProcess (fun _ => None)
    (mkRuntime None None (fun _ => None) None None None) runningOperator.1 runningOperator.2
    operator_runs) as (_ & Hown & _).
  apply (Hown KQueue ordersQueue). repeat split; discriminate.
Defined.

Lemma admission_guarded_witness :
  exists rule w, base.filter (covers KQueue "UPDATE") ValidatingWebhookConfiguration = [rule] /\
    base.filter (fun w => rule_Path rule ∈ servedPaths w)
      (webhooks_of acceptingManager runningOperator.2) = [w] /\
    SetupQueueWebhookWithManager acceptingManager = inr w.
Proof.
  destruct (admission_guarded acceptingManager operatorArgs operatorProcess (fun _ => None)
    (mkRuntime None None (fun _ => None) None None None) runningOperator.1 runningOperator.2
    operator_runs) as (Hall & _ & _).
  - vm_compute. discriminate.
  - destruct (Hall KQueue "UPDATE") as (rule & w & Hr & _ & Hs & Hw).
    + repeat split; discriminate.
    + apply list_elem_of_further, list_elem_of_here.
    + exists rule, w. exact (conj Hr (conj Hs Hw)).
Defined.

Lemma calls_permitted_witness :
  exists c, c ∈ controllers_of acceptingManager runningOperator.2 /\ For (built c) = KUser /\
    forall req tr o, exec (reconcile c req) tr o ->
      Forall (fun e => Forall (fun n => n ∈ grants manager_role /\ n ∈ grants markers)
                         (needed (DisableFor runningOperator.1) (projT1 e))) tr.
Proof.
  destruct (own_running acceptingManager operatorArgs operatorProcess (fun _ => None)
    (mkRuntime None None (fun _ => None) None None None) runningOperator.1 runningOperator.2
    operator_runs KUser) as (c & Hc & Hfor); [repeat split; discriminate|].
  exists c. split; [exact Hc|]. split; [exact Hfor|]. intros req tr o.
  destruct (calls_permitted acceptingManager operatorArgs operatorProcess (fun _ => None)
    (mkRuntime None None (fun _ => None) None None None) runningOperator.1 runningOperator.2
    operator_runs) as [Hall _].
  exact (proj1 (Hall c Hc) req tr o).
Defined.
