(* ===== verification/TopologyWitnesses.v ===== *)
(** * A topology, concretely

    A virtual host with limits, an exchange, a queue, a binding with arguments
    between them and a permission, all new, reconciled in the worst order: three
    rounds declare them. *)

From S2P Require Import Prelude.
From S2P Require Import Prog.
From S2P Require Import Api.
From S2P Require Import World.
From S2P Require Import Resources.
From S2P Require Import Utils.
From S2P Require Import TopologyReconciler.
From S2P Require Import Controllers.
From S2P Require Import PermissionControllers.
From S2P Require Import ControllerProofs.
From S2P Require Import Broker.
From S2P Require Import Lifecycle.
From S2P Require Import LifecycleKinds.
From S2P Require Import Topology.
From S2P Require Import Teardown.
From S2P Require Import ClientServer.
From S2P Require Import Instances.
From S2P Require Import Servers.
From S2P Require Import SuperStreams.
From Stdlib Require Import Ascii String.

Definition named (kind name : string) {S T} (spec : S) (status : T) : Resource S T :=
  mkResource (mkTypeMeta "rabbitmq.com" "v1beta1" kind) (exampleMeta name None []) spec status.

Definition appVhost : Vhost :=
  named "Vhost" "app"
    (mkVhostSpec "app" false [] "" exampleRef "delete" (Some (mkVhostLimits (Some 100) (Some 5))))%Z
    (mkCommonStatus 0 []).
Definition eventsExchange : Exchange :=
  named "Exchange" "events" (mkExchangeSpec "events" "app" "headers" true false None exampleRef)
    (mkCommonStatus 0 []).
Definition ordersQueue : Queue :=
  named "Queue" "orders" (mkQueueSpec "orders" "app" "quorum" None false false false None exampleRef "delete")
    (mkCommonStatus 0 []).
(** The arguments are those of the first partition of a super stream. *)
Definition ordersBinding : Binding :=
  named "Binding" "orders-events"
    (mkBindingSpec "app" "events" "orders" "queue" "new" (Some (mkRawExtension (Some (partitionOrder 0))))
       exampleRef)
    (mkCommonStatus 0 []).
Definition guestPermission : Permission :=
  named "Permission" "guest-app"
    (mkPermissionSpec "guest" None "app" (mkVhostPermissions "" ".*" ".*") exampleRef)
    (mkCommonStatus 0 []).

(** ** The items and the state *)

Definition key (name : string) : NamespacedName := mkNamespacedName "default" name.

Definition on (k : kind) `{!TopologyResource k} `{!TopologyResourceOk k} `{!StatusStable k}
    `{!ReconcileFunc k} `{!OnBroker k} (name : string) : item :=
  mkItem _ _ (Managed _ _ k _ _ _ _ _) (key name).

Definition vhostItem : item := on KVhost "app".
Definition exchangeItem : item := on KExchange "events".
Definition queueItem : item := on KQueue "orders".
Definition bindingItem : item := on KBinding "orders-events".
Definition permissionItem : item := on KPermission "guest-app".

Definition items : list item := [bindingItem; permissionItem; queueItem; exchangeItem; vhostItem].

Definition startStore : Store :=
  mkStore (put_object KVhost (key "app") (Some appVhost)
    (put_object KExchange (key "events") (Some eventsExchange)
    (put_object KQueue (key "orders") (Some ordersQueue)
    (put_object KBinding (key "orders-events") (Some ordersBinding)
    (put_object KPermission (key "guest-app") (Some guestPermission) (fun _ _ => None))))))
    (<[BUser "guest" := PutUser "guest" (mkUserSettings "guest" [] "" "")]> ∅) 1000.

(** What an item asks for in the start state. *)
Definition wish (i : item) : option (rmq_call * Goal) :=
  match stored_objects startStore (i_kind i) (i_req i) with
  | Some o => on_wanted storeReads o
  | None => None
  end.
Definition call_of (i : item) : rmq_call := deref (fst <$> wish i) (DeleteVhost "").
Definition goal_of (i : item) : Goal := deref (snd <$> wish i) (mkGoal ∅ ∅).

Definition rank (i : item) : nat :=
  match i_kind i with KVhost => 0 | KBinding => 2 | _ => 1 end.

(** ** The topology can be declared *)

Lemma willingly_needs b call :
  (forall key, key ∈ needs call -> is_Some (b !! key)) -> willingly b call.
Proof.
  intros Hn. unfold willingly, admits. apply orb_true_iff. left. apply forallb_forall.
  intros key Hin%list_elem_of_In. by apply bool_decide_eq_true, Hn.
Qed.

Definition disjoint_goals : bool :=
  forallb (fun i => forallb (fun j => bool_decide (i_id i = i_id j) ||
    bool_decide (footprint (goal_of i) ## footprint (goal_of j))) items) items.

Definition ranked (i : item) (key : bkey) : Prop :=
  (is_Some (store_broker startStore !! key) /\ Forall (fun j => key ∉ g_absent (goal_of j)) items) \/
  Exists (fun j => rank j < rank i /\ is_Some (g_entries (goal_of j) !! key)) items.

#[local] Instance ranked_dec i key : Decision (ranked i key).
Proof. unfold ranked. apply _. Defined.

Lemma all_ranked : Forall (fun i => Forall (ranked i) (needs (call_of i))) items.
Proof. refine (bool_decide_unpack _ _). vm_compute. exact I. Qed.

Lemma five_items (P : item -> Prop) :
  P bindingItem -> P permissionItem -> P queueItem -> P exchangeItem -> P vhostItem ->
  forall i, i ∈ items -> P i.
Proof.
  intros ????? i Hi. repeat (apply elem_of_cons in Hi as [->|Hi]; [done|]). by apply not_elem_of_nil in Hi.
Qed.

Lemma topology_ok :
  TopologyOk config storeHandler storeReads stored_objects store_broker willingly items call_of goal_of
    rank startStore.
Proof.
  split.
  - apply five_items; lazymatch goal with
      | |- ServerOk ?k ?req _ _ _ _ _ => exact (store_ok k req (fun n => n))
      end.
  - apply five_items; eexists; (split; [reflexivity|]); (split; [reflexivity|]);
      (split; [by apply reachable_all|vm_compute; reflexivity]).
  - intros i j Hi Hj. revert i Hi.
    refine (five_items (fun i => i_id i = i_id j -> i = j) _ _ _ _ _); revert j Hj;
      lazymatch goal with
      | |- forall j, _ -> i_id ?a = _ -> _ =>
          refine (five_items (fun j => i_id a = i_id j -> a = j) _ _ _ _ _)
      end; done.
  - intros i j Hi Hj Hne. assert (Hall : disjoint_goals = true) by (vm_compute; reflexivity).
    unfold disjoint_goals in Hall. rewrite forallb_forall in Hall.
    specialize (Hall i (proj1 (list_elem_of_In _ _) Hi)). rewrite forallb_forall in Hall.
    specialize (Hall j (proj1 (list_elem_of_In _ _) Hj)).
    apply orb_true_iff in Hall as [Heq|Hd]; by apply bool_decide_eq_true in Heq || apply bool_decide_eq_true in Hd.
  - apply five_items; vm_compute; auto.
  - intros i b _ Hn _. by apply willingly_needs.
  - intros i key' Hi Hk. pose proof all_ranked as Hall. rewrite Forall_forall in Hall.
    specialize (Hall i Hi). rewrite Forall_forall in Hall. destruct (Hall key' Hk) as [[Hb Ha]|He].
    + left. split; [done|]. by rewrite Forall_forall in Ha.
    + right. by apply Exists_exists in He.
Qed.

Lemma topology_converges_witness :
  exists s', visits config storeHandler startStore (items ++ items ++ items) s' /\
    store_broker s' !! BQueue "app" "orders" = Some (call_of queueItem) /\
    store_broker s' !! BVhostLimit "app" "max-queues" = Some (limit_call "app" "max-queues" 5) /\
    store_broker s' !! BUser "guest" = store_broker startStore !! BUser "guest".
Proof.
  destruct (topology_converges config storeHandler storeReads stored_objects store_broker willingly
    items call_of goal_of rank startStore [items; items; items] topology_ok)
    as (s' & Hv & Hmet & Hkeys & _).
  - assert (Hround : round items items) by done. by rewrite !Forall_cons.
  - apply five_items; vm_compute; lia.
  - exists s'. split; [exact Hv|].
    destruct (Hmet queueItem) as [[Hq _] _]; [by repeat (left || right)|].
    destruct (Hmet vhostItem) as [[Hl _] _]; [by repeat (left || right)|].
    split_and!.
    + eapply lookup_weaken; [|exact Hq]. vm_compute. reflexivity.
    + eapply lookup_weaken; [|exact Hl]. vm_compute. reflexivity.
    + apply Hkeys. apply five_items; refine (bool_decide_unpack _ _); vm_compute; exact I.
Defined.

(** ** The end of a topology

    The virtual host of an exchange, a queue and a binding without arguments, and a
    binding with arguments in a virtual host that stays, all marked for deletion; the
    virtual host goes first. *)

Definition leaving (kind name finalizer : string) {S T} (spec : S) (status : T) : Resource S T :=
  mkResource (mkTypeMeta "rabbitmq.com" "v1beta1" kind) (exampleMeta name (Some 5%Z) [finalizer]) spec status.

Definition leavingVhost : Vhost :=
  leaving "Vhost" "app" "deletion.finalizers.vhosts.rabbitmq.com" (Spec appVhost) (Status appVhost).
Definition leavingExchange : Exchange :=
  leaving "Exchange" "events" "deletion.finalizers.exchanges.rabbitmq.com" (Spec eventsExchange)
    (Status eventsExchange).
Definition leavingQueue : Queue :=
  leaving "Queue" "orders" "deletion.finalizers.queues.rabbitmq.com" (Spec ordersQueue) (Status ordersQueue).
Definition leavingBinding : Binding :=
  leaving "Binding" "orders-events" "deletion.finalizers.bindings.rabbitmq.com"
    (mkBindingSpec "app" "events" "orders" "queue" "new" None exampleRef) (mkCommonStatus 0 []).

(** The binding that has to be looked up. *)
Definition auditBinding : Binding :=
  leaving "Binding" "audit" "deletion.finalizers.bindings.rabbitmq.com"
    (mkBindingSpec "/" "events" "audit" "queue" "new" (Some (mkRawExtension (Some (partitionOrder 0))))
       exampleRef)
    (mkCommonStatus 0 []).
Definition auditItem : item := on KBinding "audit".
Definition auditCall : rmq_call := deref (Binding_wanted auditBinding) (DeleteVhost "").
Definition auditKey : bkey := Binding_key auditBinding.

Definition leavingItems : list item := [vhostItem; queueItem; exchangeItem; bindingItem; auditItem].

Definition lastStore : Store :=
  mkStore (put_object KVhost (key "app") (Some leavingVhost)
    (put_object KExchange (key "events") (Some leavingExchange)
    (put_object KQueue (key "orders") (Some leavingQueue)
    (put_object KBinding (key "orders-events") (Some leavingBinding)
    (put_object KBinding (key "audit") (Some auditBinding) (fun _ _ => None))))))
    (<[auditKey := auditCall]> (<[BVhost "app" := PutVhost "app" (mkVhostSettings false [] "")]>
      (<[BQueue "app" "orders" := call_of queueItem]>
        (<[BVhost "/" := PutVhost "/" (mkVhostSettings false [] "")]> ∅)))) 1000.

Definition leaving_object (i : item) : object (i_kind i) :=
  deref (i_stored stored_objects lastStore i) (blank (i_kind i)).

Lemma leaving_items (P : item -> Prop) :
  P vhostItem -> P queueItem -> P exchangeItem -> P bindingItem -> P auditItem ->
  forall i, i ∈ leavingItems -> P i.
Proof.
  intros ????? i Hi. repeat (apply elem_of_cons in Hi as [->|Hi]; [done|]). by apply not_elem_of_nil in Hi.
Qed.

(** Whatever the other deletions clear, the virtual host of the binding is there, and
    under its name what was declared or nothing. *)
Lemma audit_unguarded b :
  cleared_from leavingItems leaving_object (store_broker lastStore) b -> on_unguarded (k:=KBinding) b auditBinding.
Proof.
  intros [Hsub Hstays]. eexists. split; [vm_compute; reflexivity|]. split; [by left|].
  split; [|split; [vm_compute; reflexivity|]].
  - exists (PutVhost "/" (mkVhostSettings false [] "")). rewrite Hstays; [vm_compute; reflexivity|].
    apply leaving_items; intros [_ Hc]; by vm_compute in Hc.
  - change (declared_at _ _) with auditKey. destruct (b !! auditKey) as [call|] eqn:E; [right|by left].
    rewrite map_subseteq_spec in Hsub. specialize (Hsub _ _ E). rewrite <- Hsub. vm_compute. reflexivity.
Qed.

Lemma teardown_ok :
  TeardownOk config storeHandler storeReads stored_objects store_broker willingly leavingItems
    leaving_object lastStore.
Proof.
  split.
  - apply leaving_items; lazymatch goal with
      | |- ServerOk ?k ?req _ _ _ _ _ => exact (store_ok k req (fun n => n))
      end.
  - apply leaving_items; reflexivity.
  - intros i j Hi Hj. revert i Hi.
    refine (leaving_items (fun i => i_id i = i_id j -> i = j) _ _ _ _ _); revert j Hj;
      lazymatch goal with
      | |- forall j, _ -> i_id ?a = _ -> _ =>
          refine (leaving_items (fun j => i_id a = i_id j -> a = j) _ _ _ _ _)
      end; done.
  - apply leaving_items; by eexists.
  - apply leaving_items; reflexivity.
  - apply leaving_items; by apply reachable_all.
  - intros i b Hi Hb. revert i Hi. apply leaving_items; [done|done|done| |].
    + eexists. split; [reflexivity|]. vm_compute. reflexivity.
    + by apply audit_unguarded.
Qed.

